(* ===== verification/_CoqProject ===== *)
-Q . S2P
Prelude.v
JsNumber.v
JsString.v
JsConv.v
JsVal.v
Amounts.v
Json.v
Prog.v
MainEnv.v
Backend.v
NexusWallet.v
NexusChain.v
BridgeApi.v
NexusHistory.v
Lifecycle.v
Ipc.v
CoinNumbers.v
Page.v
PageWallet.v
PageTx.v
PageMining.v
PageNexus.v
PageBridge.v
PageState.v
PageConcurrency.v
PageSerial.v
PagePolling.v
PageTypes.v
