(* ===== verification/Prelude.v ===== *)
(** * CryLo desktop wallet: a verification development

    ** The program

    The repository is a fork of the Monero code base with a desktop wallet, the Electron
    application under src/electron.  This development verifies the application, which is the
    repository's own JavaScript:

    - main.js, the main process: it connects to the daemon, spawns the wallet RPC process, keeps
      one Nexus (EVM) wallet file per CryLo wallet, signs contract transactions with it, and asks
      the bridge service; it serves the page through IPC handlers that answer with objects
      [{ ok, ... }];
    - preload.js, which exposes to the page as [window.crylo] one function per IPC channel, four
      that subscribe to events of the main process and one that removes listeners;
    - src/app.js, the page: forms and screens that call [window.crylo], keep a global [State] and
      polling intervals, format amounts and turn what the user types into atomic units.

    The parts interact through IPC messages (page to main), events (main to page), JSON-RPC and
    HTTP (main to daemon, wallet RPC and bridge service), contract calls (main to chain) and files.

    ** How it is modelled

    JavaScript values are [jsval]s with the property accesses, truthiness and conversions the code
    uses (JsVal.v); numbers are binary64 with explicit rounding (JsNumber.v, JsConv.v); strings are
    UTF-8 byte strings, with the decoding of received buffers and the order by UTF-16 code units
    (JsString.v); JSON is printed and parsed by definitions (Json.v).  An async
    function is a [prog] (Prog.v): it returns, throws or performs an operation and continues with
    the answer.  [Runs p tr x] relates a program to the traces of operations and answers it can
    have; a theorem about [Runs] holds whatever the daemon, the chain, the network, the file system
    and concurrent activity answer.  [run], [outcome] and [eval] execute programs against concrete
    environments; the examples (the lemmas whose names end in _witness) evaluate them.

    What is not in the repository is a parameter: the operations of the environment ([mop] in
    MainEnv.v: files, clock, HTTP, provider and contract calls, windows, processes) and the pure
    functions of the ethers library (class [Ethers]); theorems that need more than their types
    say so in a hypothesis.  The operations of the page ([pop] in Page.v) are the calls of
    [window.crylo], the reads and writes of [State], of elements and of local storage, dialogs and
    timers; [exec_page] keeps the fields of [State] in a map and leaves the rest to an environment.
    What depends on the user's locale is the class [Locale].

    ** Files

    - Prelude.v: tactics, rounding divisions, stable sorting.
    - JsNumber.v, JsString.v, JsConv.v, JsVal.v, Json.v: the part of the language that is used.
    - Prog.v: programs with operations, their traces and executions.
    - Amounts.v: the amount helpers of app.js (fmt, decimalToAtomic, sendMax, ...).
    - MainEnv.v: environment, configuration and paths of main.js, a host with files.
    - Backend.v: rpcCall, daemonHttp, waitForRpc, startBackend and the local handlers of main.js.
    - NexusWallet.v: safeNexusFileName, registerBoundNexusWallet, nexus-wallet-create,
      nexus-wallet-load, loadBoundNexusWallet.
    - NexusChain.v: the handlers that read and sign: balances, NFTs, staking, nodes, gas, the
      bridge's burn; saveOperatorConfig.
    - BridgeApi.v: bridge-request, bridge-status, bridge-release-status.
    - NexusHistory.v: nexus-transactions.
    - Lifecycle.v: killProc, window-all-closed, createWindow, the wallet RPC's exit callback,
      navigation.
    - Ipc.v: the registry of handlers and preload.js.
    - CoinNumbers.v: which numbers amounts become, and how they print.
    - Page.v: operations and [State] of the page, the Nexus wallet panel.
    - PageWallet.v: setup, opening, creating, restoring and switching wallets, synchronisation,
      balance, address, send, consolidate, tabs.
    - PageTx.v: the list of transactions and the vesting table.
    - PageMining.v: the mining panel.
    - PageNexus.v: the forms of the Nexus chain and the gas check before them.
    - PageBridge.v: bridging in and out.
    - PageState.v: all functions of the page as actions on [State]; environments; triples for a
      function that runs while others do; the polling intervals.
    - PageConcurrency.v: any number of functions interleaved at every operation ([runs]); rely and
      guarantee; schedules.
    - PageSerial.v: functions of one group that do not overlap each other, while all others overlap
      them ([runs] with a group of actions); the two invariants that need this.
    - PagePolling.v: the polls of the bridge.
    - PageTypes.v: the types of the fields of [State].

    ** What is shown

    - Amounts: printing is correct to the displayed unit, parsing is exact and accepts exactly the
      plain positive decimals, "send max" asks for the multiple of 100 atomic units nearest to the
      balance less the fee (which may be up to 50 units more), and the conversion of an atomic amount to
      a number is exact up to [2^53] (and not beyond).
    - Main process, per handler: the reply on every branch, which operations are performed in which
      order (approve, wait, act, wait), and that success is reported only for what was mined or
      checked; round trips through the wallet and configuration files; no file is lost.
    - Main process, as a whole: whatever the page asks for, keys are used only for the wallet they
      are bound to and only the intended files are written.
    - Startup and shutdown: polling terminates, "ready" is the last thing said, children are
      stopped in order.
    - Page, per form: coins are sent, bridged and spent on gas as the user was shown, in exact
      amounts where the amount is one of whole atomic units (and a twelfth digit is rounded,
      [twelfth_digit_rounds_up]); the lists show what was reported, in order; the vesting table
      shows the tiers of the page; the polls of the bridge end when the bridge is done.
    - Page, as a whole.  However its functions overlap, the polling intervals other than the mining
      panel's are not lost, and the fields of [State] have their types when the daemon and the
      wallet answer with theirs.  When the functions that rebind the wallet do not overlap each
      other, the Nexus address belongs to the open wallet; when the two functions of the mining
      panel do not, its interval is not lost either.  Nothing in the page enforces this, and without
      it both are false ([nexus_binding_race], [mining_interval_lost]).

    ** Bounds and fuel

    [waitForRpc] takes a number of attempts; [wait_fuel] of the time limit is enough on a host whose
    clock runs (theorem [waitForRpc_terminates]).  [Json.parse] uses twice the length of its text,
    which is enough for every printed value ([Json.parse_stringify]).  Loops over tokens and logs
    are structural.  The loop that splits a bridge amount takes [MAX_CHUNKS] rounds, enough for
    every amount the form lets through ([split_terminates]).  Amount theorems are stated for safe
    integers, [2^53]; block heights up to [2^52]; gas amounts up to 90 coins.

    ** Not modelled

    Of the page: markup and styles, the indentation of generated HTML, the lookup of elements (an
    operation that a complete page answers), the registration of listeners and the table of
    functions handed to the markup, console output.  In PagePolling.v the ticks of a poll follow one
    another without other functions in between.  The application menu; locale-dependent dates and
    numbers; what becomes of lone surrogates outside of strings; the C++ node and wallet services,
    seen only through their replies; the contracts, seen only through their answers. *)

From stdpp Require Export base numbers list sorting strings gmap.
From Stdlib Require Export ZArith Lia.

#[global] Open Scope Z_scope.

(** ** Tactics *)

(** Split every conjunction and existential of the context. *)
Ltac split_hyps :=
  repeat match goal with
  | H : _ /\ _ |- _ => destruct H
  | H : exists _, _ |- _ => destruct H
  end.

(** Case analysis on the scrutinee of the first [if] on a boolean in the goal, turning the
    integer comparisons into propositions. *)
Ltac case_bool :=
  match goal with
  | |- context [if ?b then _ else _] => destruct b eqn:?
  end;
  repeat match goal with
  | H : (_ <? _) = true |- _ => apply Z.ltb_lt in H
  | H : (_ <? _) = false |- _ => apply Z.ltb_ge in H
  | H : (_ <=? _) = true |- _ => apply Z.leb_le in H
  | H : (_ <=? _) = false |- _ => apply Z.leb_gt in H
  | H : (_ =? _) = true |- _ => apply Z.eqb_eq in H
  | H : (_ =? _) = false |- _ => apply Z.eqb_neq in H
  end.

Create HintDb crylo.
Create Rewrite HintDb jsstr.

(** ** Rounding divisions

    Two roundings of a rational [p / q] to an integer, used by the model of JavaScript numbers:
    to nearest with ties to even (IEEE arithmetic) and to nearest with ties upwards
    ([Number.prototype.toFixed]). *)

Definition rne (p q : Z) : Z :=
  let '(d, r) := Z.div_eucl p q in
  if 2 * r <? q then d
  else if q <? 2 * r then d + 1
  else if Z.even d then d else d + 1.

Lemma rne_unfold p q :
  rne p q = if 2 * (p mod q) <? q then p / q
            else if q <? 2 * (p mod q) then p / q + 1
            else if Z.even (p / q) then p / q else p / q + 1.
Proof. unfold rne, Z.div, Z.modulo. by destruct (Z.div_eucl p q). Qed.

Definition rhu (p q : Z) : Z := (2 * p + q) / (2 * q).

Lemma rne_near p q : 0 < q -> 2 * Z.abs (rne p q * q - p) <= q.
Proof.
  intros Hq. rewrite rne_unfold.
  pose proof (Z.div_mod p q ltac:(lia)). pose proof (Z.mod_pos_bound p q Hq).
  repeat case_bool; nia.
Qed.

Lemma rne_exact m q : 0 < q -> rne (m * q) q = m.
Proof.
  intros Hq. rewrite rne_unfold. rewrite Z.div_mul, Z.mod_mul by lia. case_bool; lia.
Qed.

Lemma rne_nonneg p q : 0 < q -> 0 <= p -> 0 <= rne p q.
Proof.
  intros Hq Hp. rewrite rne_unfold. pose proof (Z.div_pos p q Hp Hq).
  repeat case_bool; lia.
Qed.

Lemma rne_le_int p q m : 0 < q -> p <= m * q -> rne p q <= m.
Proof.
  intros Hq Hp. pose proof (rne_near p q Hq).
  destruct (Z.le_gt_cases (rne p q) m) as [|Hgt]; [done|].
  (* the only way to exceed [m] is to be at least [q] above [p] *)
  assert (rne p q * q >= (m + 1) * q) by nia. nia.
Qed.

Lemma rne_ge_int p q m : 0 < q -> m * q <= p -> m <= rne p q.
Proof.
  intros Hq Hp. pose proof (rne_near p q Hq).
  destruct (Z.le_gt_cases m (rne p q)) as [|Hgt]; [done|]. nia.
Qed.

Lemma rhu_near p q : 0 < q -> 2 * Z.abs (rhu p q * q - p) <= q.
Proof.
  intros Hq. unfold rhu.
  pose proof (Z.div_mod (2 * p + q) (2 * q) ltac:(lia)).
  pose proof (Z.mod_pos_bound (2 * p + q) (2 * q) ltac:(lia)). nia.
Qed.

Lemma rhu_nonneg p q : 0 < q -> 0 <= p -> 0 <= rhu p q.
Proof. intros. unfold rhu. apply Z.div_pos; lia. Qed.

(** An integer closer to [p / q] than one half is the result of [rhu]. *)
Lemma rhu_unique p q m : 0 < q -> 2 * Z.abs (m * q - p) < q -> rhu p q = m.
Proof. intros Hq Hm. pose proof (rhu_near p q Hq). nia. Qed.

(** ** Powers of two and base-two logarithm *)

Lemma pow2_pos n : 0 <= n -> 0 < 2 ^ n.
Proof. intros. apply Z.pow_pos_nonneg; lia. Qed.

Lemma pow10_pos n : 0 <= n -> 0 < 10 ^ n.
Proof. intros. apply Z.pow_pos_nonneg; lia. Qed.

#[export] Hint Resolve pow2_pos pow10_pos rne_nonneg rhu_nonneg : crylo.

(** ** Stable sorting

    [Array.prototype.sort] is stable; for a comparator that is a total preorder its result is
    the one of this insertion sort, where [le x y] is [cmp(x, y) <= 0]. *)

Section isort.
Context {A : Type} (le : A -> A -> bool).

Fixpoint insert_sorted (x : A) (l : list A) : list A :=
  match l with
  | [] => [x]
  | y :: l' => if le x y then x :: l else y :: insert_sorted x l'
  end.

Fixpoint isort (l : list A) : list A :=
  match l with
  | [] => []
  | x :: l' => insert_sorted x (isort l')
  end.

Lemma insert_sorted_perm x l : insert_sorted x l ≡ₚ x :: l.
Proof.
  induction l as [|y l IH]; simpl; [done|]. destruct (le x y); [done|].
  rewrite IH. apply Permutation_swap.
Qed.

Lemma isort_perm l : isort l ≡ₚ l.
Proof. induction l as [|x l IH]; simpl; [done|]. by rewrite insert_sorted_perm, IH. Qed.

Lemma elem_of_isort x l : x ∈ isort l <-> x ∈ l.
Proof. by rewrite isort_perm. Qed.

Lemma length_isort l : length (isort l) = length l.
Proof. by rewrite isort_perm. Qed.

Context (le_total : forall x y, le x y = true \/ le y x = true).
Context (le_trans : forall x y z, le x y = true -> le y z = true -> le x z = true).

Definition sorted : list A -> Prop := StronglySorted (fun x y => le x y = true).

Lemma insert_sorted_sorted x l : sorted l -> sorted (insert_sorted x l).
Proof.
  induction 1 as [|y l Hl IH Hy]; simpl; [repeat constructor|].
  destruct (le x y) eqn:E.
  - constructor; [by constructor|]. constructor; [done|].
    eapply Forall_impl; [exact Hy|]. simpl. eauto.
  - constructor; [done|]. rewrite insert_sorted_perm. constructor; [|done].
    destruct (le_total x y); [congruence|done].
Qed.

Lemma isort_sorted l : sorted (isort l).
Proof. induction l; simpl; [constructor|]. by apply insert_sorted_sorted. Qed.

(** Stability: a class of elements that compare equal keeps its order. *)
Lemma insert_sorted_filter (P : A -> bool) x l :
  (forall y, P x = true -> P y = true -> le x y = true) ->
  List.filter P (insert_sorted x l) = List.filter P (x :: l).
Proof.
  intros HP. induction l as [|y l IH]; [done|]. cbn [insert_sorted].
  destruct (le x y) eqn:E; [done|]. cbn [List.filter] in *. rewrite IH.
  destruct (P x) eqn:Px, (P y) eqn:Py; try done.
  rewrite HP in E by done. done.
Qed.

Lemma isort_stable (P : A -> bool) l :
  (forall x y, P x = true -> P y = true -> le x y = true) ->
  List.filter P (isort l) = List.filter P l.
Proof.
  intros HP. induction l as [|x l IH]; [done|]. cbn [isort].
  rewrite insert_sorted_filter by auto. simpl. by rewrite IH.
Qed.
End isort.

(** Sorting looks at the order of the elements of the list only. *)
Lemma isort_ext {A} (le le' : A -> A -> bool) l :
  (forall x y, x ∈ l -> y ∈ l -> le x y = le' x y) -> isort le l = isort le' l.
Proof.
  induction l as [|x l IH]; intros Heq; [done|]. cbn [isort].
  rewrite IH by (intros; apply Heq; set_solver).
  assert (forall y, y ∈ isort le' l -> le x y = le' x y) as Hx.
  { intros y Hy. rewrite elem_of_isort in Hy. apply Heq; set_solver. }
  revert Hx. generalize (isort le' l) as k. induction k as [|y k IHk]; intros Hx; [done|].
  cbn [insert_sorted]. rewrite Hx by set_solver. destruct (le' x y); [done|].
  rewrite IHk; [done|]. intros; apply Hx. set_solver.
Qed.

Lemma StronglySorted_weaken {A} (R R' : A -> A -> Prop) l :
  (forall x y, R x y -> R' x y) -> StronglySorted R l -> StronglySorted R' l.
Proof. intros HR. induction 1; constructor; [done|]. eapply Forall_impl; eauto. Qed.
