(* ===== verification/JsNumber.v ===== *)
(** * JavaScript numbers

    The [Number] values of ECMAScript (IEEE 754 binary64), as the amounts, heights and hash
    rates of the wallet use them.  Every finite binary64 value is an integer multiple of
    [2^-1074], so a finite number is that integer: [Fin z] stands for [z * 2^-1074].
    Arithmetic is the exact rational operation followed by one rounding to nearest, ties to
    even ([round]).  The two zeros are one value: the wallet never divides by a zero it has
    computed with a sign, and every printer and comparison it uses identifies them. *)

From S2P Require Import Prelude.

Module Num.

Inductive num :=
| NaN
| Inf (neg : bool)
| Fin (z : Z).

#[global] Instance num_eq_dec : EqDecision num.
Proof. solve_decision. Defined.

(** Units of [2^-1074] in the number one, and the first magnitude that overflows. *)
Definition U : Z := 2 ^ 1074.
Definition overflow : Z := 2 ^ 2098.

Arguments U : simpl never.
Arguments overflow : simpl never.

Definition ulp_exp (p q : Z) : Z := Z.max 0 (Z.log2 (p / q) - 52).

Definition num_neg (x : num) : num :=
  match x with
  | NaN => NaN
  | Inf s => Inf (negb s)
  | Fin z => Fin (- z)
  end.

(** Rounding of [p / q] units, [0 <= p] and [0 < q]. *)
Definition round_pos (p q : Z) : num :=
  let k := ulp_exp p q in
  let m := rne p (q * 2 ^ k) * 2 ^ k in
  if m <? overflow then Fin m else Inf false.

Definition round (p q : Z) : num :=
  if p <? 0 then num_neg (round_pos (- p) q) else round_pos p q.

(** The number nearest to an integer, and to a decimal fraction [n / d]. *)
Definition of_Z (n : Z) : num := round (n * U) 1.
Definition of_frac (n d : Z) : num := round (n * U) d.

Definition add (x y : num) : num :=
  match x, y with
  | NaN, _ | _, NaN => NaN
  | Inf s, Inf t => if Bool.eqb s t then Inf s else NaN
  | Inf s, Fin _ => Inf s
  | Fin _, Inf t => Inf t
  | Fin a, Fin b => round (a + b) 1
  end.

Definition sub (x y : num) : num := add x (num_neg y).

Definition sgn_neg (z : Z) : bool := z <? 0.

Definition mul (x y : num) : num :=
  match x, y with
  | NaN, _ | _, NaN => NaN
  | Inf s, Inf t => Inf (xorb s t)
  | Inf s, Fin b => if b =? 0 then NaN else Inf (xorb s (sgn_neg b))
  | Fin a, Inf t => if a =? 0 then NaN else Inf (xorb (sgn_neg a) t)
  | Fin a, Fin b => round (a * b) U
  end.

Definition div (x y : num) : num :=
  match x, y with
  | NaN, _ | _, NaN => NaN
  | Inf _, Inf _ => NaN
  | Inf s, Fin b => Inf (xorb s (sgn_neg b))
  | Fin _, Inf _ => Fin 0
  | Fin a, Fin b =>
      if b =? 0 then (if a =? 0 then NaN else Inf (sgn_neg a))
      else round (a * U * Z.sgn b) (Z.abs b)
  end.

(** Comparisons; every comparison with [NaN] is false. *)
Definition ltb (x y : num) : bool :=
  match x, y with
  | NaN, _ | _, NaN => false
  | Inf s, Inf t => s && negb t
  | Inf s, Fin _ => s
  | Fin _, Inf t => negb t
  | Fin a, Fin b => a <? b
  end.

Definition eqb (x y : num) : bool :=
  match x, y with
  | Inf s, Inf t => Bool.eqb s t
  | Fin a, Fin b => a =? b
  | _, _ => false
  end.

Definition leb (x y : num) : bool := ltb x y || eqb x y.

Definition is_finite (x : num) : bool := match x with Fin _ => true | _ => false end.
Definition is_nan (x : num) : bool := match x with NaN => true | _ => false end.

(** [Math.floor], [Math.ceil], [Math.round], [Math.max], [Math.min]. *)
Definition floor (x : num) : num :=
  match x with Fin z => Fin (z / U * U) | _ => x end.
Definition ceil (x : num) : num := num_neg (floor (num_neg x)).
Definition round_half_up (x : num) : num :=
  match x with Fin z => Fin (rhu z U * U) | _ => x end.
Definition max (x y : num) : num :=
  if is_nan x || is_nan y then NaN else if ltb x y then y else x.
Definition min (x y : num) : num :=
  if is_nan x || is_nan y then NaN else if ltb x y then x else y.

(** ** Facts about rounding *)

Lemma U_pos : 0 < U.
Proof. unfold U. apply pow2_pos. lia. Qed.

Lemma overflow_pos : 0 < overflow.
Proof. unfold overflow. apply pow2_pos. lia. Qed.

#[export] Hint Resolve U_pos overflow_pos : crylo.

Lemma ulp_exp_nonneg p q : 0 <= ulp_exp p q.
Proof. unfold ulp_exp. lia. Qed.

#[export] Hint Resolve ulp_exp_nonneg : crylo.

(** The unit in the last place is at most [2^-52] of the value, or one. *)
Lemma ulp_exp_le p q :
  0 < q -> 0 <= p -> 2 ^ ulp_exp p q * 2 ^ 52 * q <= Z.max (2 ^ 52 * q) p.
Proof.
  intros Hq Hp. unfold ulp_exp.
  destruct (Z.le_gt_cases (Z.log2 (p / q)) 52) as [Hle|Hgt].
  { rewrite Z.max_l by lia. lia. }
  rewrite Z.max_r, <- Z.pow_add_r by lia.
  replace (Z.log2 (p / q) - 52 + 52) with (Z.log2 (p / q)) by lia.
  assert (0 < p / q) as Hpos.
  { destruct (Z.le_gt_cases (p / q) 0); [|lia].
    rewrite Z.log2_nonpos in Hgt by lia. lia. }
  pose proof (Z.log2_spec (p / q) Hpos).
  pose proof (Z.mul_div_le p q Hq). nia.
Qed.

(** The rounding error of a finite result: half a unit in the last place. *)
Lemma round_pos_err p q z :
  0 < q -> round_pos p q = Fin z -> 2 * Z.abs (z * q - p) <= 2 ^ ulp_exp p q * q.
Proof.
  intros Hq. unfold round_pos. case_bool; [|done]. intros [= <-].
  pose proof (pow2_pos (ulp_exp p q) (ulp_exp_nonneg _ _)).
  pose proof (rne_near p (q * 2 ^ ulp_exp p q) ltac:(nia)). nia.
Qed.

(** Relative error at most [2^-53] (or half of the smallest subnormal). *)
Lemma round_pos_rel p q z :
  0 < q -> 0 <= p -> round_pos p q = Fin z ->
  2 ^ 53 * Z.abs (z * q - p) <= Z.max (2 ^ 52 * q) p.
Proof.
  intros Hq Hp Hz. pose proof (round_pos_err p q z Hq Hz).
  pose proof (ulp_exp_le p q Hq Hp). lia.
Qed.

Lemma round_pos_nonneg p q z : 0 < q -> 0 <= p -> round_pos p q = Fin z -> 0 <= z.
Proof.
  intros Hq Hp. unfold round_pos. case_bool; [|done]. intros [= <-].
  pose proof (pow2_pos (ulp_exp p q) (ulp_exp_nonneg _ _)).
  pose proof (rne_nonneg p (q * 2 ^ ulp_exp p q) ltac:(nia) Hp). nia.
Qed.

(** Values below [2^2097] units do not overflow. *)
(** A magnitude below the overflow threshold, kept folded so that arithmetic proofs stay small. *)
Definition huge : Z := 2 ^ 2097.
Arguments huge : simpl never.

Lemma huge_split k : 0 <= k <= 2097 -> huge = 2 ^ (2097 - k) * 2 ^ k.
Proof. intros Hk. unfold huge. rewrite <- Z.pow_add_r by lia. f_equal. lia. Qed.

Lemma huge_overflow : huge < overflow.
Proof. unfold huge, overflow. apply Z.pow_lt_mono_r; lia. Qed.

Lemma ulp_exp_huge p q : 0 < q -> 0 <= p <= huge * q -> ulp_exp p q <= 2097.
Proof.
  intros Hq [Hp Hle]. unfold ulp_exp. assert (Z.log2 (p / q) <= 2097); [|lia].
  assert (Z.log2 huge = 2097) as <- by (apply Z.log2_pow2; lia). apply Z.log2_le_mono.
  apply Z.div_le_upper_bound; lia.
Qed.

Lemma round_pos_finite p q :
  0 < q -> 0 <= p <= huge * q ->
  exists z, round_pos p q = Fin z /\ 0 <= z <= huge.
Proof.
  intros Hq Hp. unfold round_pos.
  pose proof (ulp_exp_nonneg p q) as Hk. pose proof (ulp_exp_huge p q Hq Hp) as Hk'.
  set (k := ulp_exp p q) in *. pose proof (huge_split k ltac:(lia)) as Hh.
  pose proof (pow2_pos k Hk) as Hpk.
  assert (rne p (q * 2 ^ k) <= 2 ^ (2097 - k)) as Hr.
  { apply rne_le_int; [nia|].
    replace (2 ^ (2097 - k) * (q * 2 ^ k)) with (2 ^ (2097 - k) * 2 ^ k * q) by ring.
    rewrite <- Hh. apply Hp. }
  assert (rne p (q * 2 ^ k) * 2 ^ k <= huge) as Hm by (rewrite Hh; nia).
  pose proof huge_overflow. rewrite (proj2 (Z.ltb_lt _ _)) by lia.
  eexists. split; [done|].
  pose proof (rne_nonneg p (q * 2 ^ k) ltac:(nia) (proj1 Hp)). nia.
Qed.

(** A value with at most 53 significant bits is not changed by rounding. *)
Lemma round_pos_repr m e q :
  0 < q -> 0 <= m <= 2 ^ 53 -> 0 <= e -> m * 2 ^ e < overflow ->
  round_pos (m * 2 ^ e * q) q = Fin (m * 2 ^ e).
Proof.
  intros Hq Hm He Ho. unfold round_pos, ulp_exp. rewrite Z.div_mul by lia.
  set (k := Z.max 0 (Z.log2 (m * 2 ^ e) - 52)).
  pose proof (pow2_pos k ltac:(lia)) as Hk.
  assert (exists c, m * 2 ^ e = c * 2 ^ k) as [c Hc].
  { destruct (decide (m = 0)) as [->|Hm0]; [exists 0; lia|].
    assert (Z.log2 (m * 2 ^ e) = Z.log2 m + e) as Hl
      by (rewrite Z.log2_mul_pow2 by lia; lia).
    destruct (decide (m = 2 ^ 53)) as [->|Hm53].
    - rewrite Z.log2_pow2 in Hl by lia. subst k. rewrite Hl.
      exists (2 ^ 52). rewrite <- !Z.pow_add_r by lia. f_equal; lia.
    - assert (Z.log2 m < 53) by (apply Z.log2_lt_pow2; lia).
      exists (m * 2 ^ (e - k)). rewrite <- Z.mul_assoc, <- Z.pow_add_r by lia.
      do 2 f_equal; lia. }
  rewrite Hc. replace (c * 2 ^ k * q) with (c * (q * 2 ^ k)) by ring.
  rewrite rne_exact by nia. rewrite (proj2 (Z.ltb_lt _ _)) by lia. done.
Qed.

Lemma num_neg_involutive x : num_neg (num_neg x) = x.
Proof. destruct x as [|[]|]; simpl; try done. by rewrite Z.opp_involutive. Qed.

Lemma round_neg p q : p <> 0 -> round (- p) q = num_neg (round p q).
Proof.
  intros Hp. unfold round. repeat case_bool; try lia.
  - by rewrite Z.opp_involutive.
  - by rewrite num_neg_involutive.
Qed.

(** Integers of at most 53 bits (JavaScript's safe integers) are numbers. *)
Lemma of_Z_safe n : Z.abs n <= 2 ^ 53 -> of_Z n = Fin (n * U).
Proof.
  intros Hn. unfold of_Z, round.
  assert (forall m, 0 <= m <= 2 ^ 53 -> round_pos (m * U) 1 = Fin (m * U)) as H.
  { intros m Hm. rewrite <- (Z.mul_1_r (m * U)) at 1. apply round_pos_repr; try lia.
    unfold overflow. assert (m * 2 ^ 1074 <= 2 ^ 53 * 2 ^ 1074) by nia.
    rewrite <- Z.pow_add_r in H by lia.
    eapply Z.le_lt_trans; [exact H|]. apply Z.pow_lt_mono_r; lia. }
  pose proof U_pos. case_bool.
  - replace (- (n * U)) with (- n * U) by ring. rewrite H by nia. simpl. f_equal. ring.
  - apply H. nia.
Qed.

(** Arithmetic on safe integers is exact. *)
Lemma add_safe a b :
  Z.abs (a + b) <= 2 ^ 53 -> add (Fin (a * U)) (Fin (b * U)) = Fin ((a + b) * U).
Proof.
  intros H. simpl. replace (a * U + b * U) with ((a + b) * U) by ring.
  by apply of_Z_safe.
Qed.

Lemma sub_safe a b :
  Z.abs (a - b) <= 2 ^ 53 -> sub (Fin (a * U)) (Fin (b * U)) = Fin ((a - b) * U).
Proof.
  intros H. unfold sub. simpl num_neg. replace (- (b * U)) with (- b * U) by ring.
  rewrite add_safe by lia. f_equal; ring.
Qed.

(** ** Monotonicity *)

Lemma rne_mono p1 q1 p2 q2 :
  0 < q1 -> 0 < q2 -> p1 * q2 <= p2 * q1 -> rne p1 q1 <= rne p2 q2.
Proof.
  intros H1 H2 Hle.
  pose proof (Z.div_mod p1 q1 ltac:(lia)). pose proof (Z.mod_pos_bound p1 q1 H1).
  pose proof (Z.div_mod p2 q2 ltac:(lia)). pose proof (Z.mod_pos_bound p2 q2 H2).
  rewrite !rne_unfold. set (d1 := p1 / q1) in *. set (d2 := p2 / q2) in *.
  set (r1 := p1 mod q1) in *. set (r2 := p2 mod q2) in *. clearbody d1 d2 r1 r2.
  assert (d1 <= d2).
  { destruct (Z.le_gt_cases d1 d2); [done|].
    assert (p1 >= q1 * (d2 + 1)) by nia. assert (p2 < q2 * (d2 + 1)) by nia. nia. }
  destruct (decide (d1 = d2)) as [->|Hne].
  - assert (r1 * q2 <= r2 * q1) by nia. repeat case_bool; try lia; nia.
  - assert (d1 + 1 <= d2) by lia. repeat case_bool; lia.
Qed.

Lemma ulp_exp_mono p1 q1 p2 q2 :
  0 < q1 -> 0 < q2 -> p1 * q2 <= p2 * q1 -> ulp_exp p1 q1 <= ulp_exp p2 q2.
Proof.
  intros H1 H2 Hle. unfold ulp_exp.
  enough (Z.log2 (p1 / q1) <= Z.log2 (p2 / q2)) by lia.
  apply Z.log2_le_mono. apply Z.div_le_lower_bound; [done|].
  pose proof (Z.mul_div_le p1 q1 H1). nia.
Qed.

(** A significand never exceeds [2^53]; above the subnormals it is at least [2^52]. *)
Lemma rne_ulp_bounds p q :
  0 < q -> 0 <= p ->
  rne p (q * 2 ^ ulp_exp p q) <= 2 ^ 53 /\
  (0 < ulp_exp p q -> 2 ^ 52 <= rne p (q * 2 ^ ulp_exp p q)).
Proof.
  intros Hq Hp. pose proof (pow2_pos _ (ulp_exp_nonneg p q)) as Hk.
  pose proof (Z.div_mod p q ltac:(lia)). pose proof (Z.mod_pos_bound p q Hq).
  pose proof (Z.div_pos p q Hp Hq).
  assert (p / q < 2 ^ 53 * 2 ^ ulp_exp p q) as Hup.
  { destruct (decide (p / q = 0)) as [->|]; [lia|].
    pose proof (Z.log2_spec (p / q) ltac:(lia)) as [_ Hs].
    rewrite <- Z.pow_add_r by (pose proof (ulp_exp_nonneg p q); lia).
    eapply Z.lt_le_trans; [exact Hs|]. apply Z.pow_le_mono_r; [lia|].
    unfold ulp_exp. lia. }
  split.
  - apply rne_le_int; nia.
  - intros Hpos. assert (2 ^ 52 * 2 ^ ulp_exp p q <= p / q) as Hlo.
    { rewrite <- Z.pow_add_r by lia. unfold ulp_exp in *.
      rewrite Z.max_r in * by lia.
      replace (52 + (Z.log2 (p / q) - 52)) with (Z.log2 (p / q)) by lia.
      apply Z.log2_spec. destruct (decide (p / q = 0)) as [E|]; [|lia].
      rewrite E in Hpos. simpl in Hpos. lia. }
    apply rne_ge_int; nia.
Qed.

(** A value of at least one unit does not round to zero. *)
Lemma round_pos_positive p q : 0 < q -> q <= p -> ltb (Fin 0) (round_pos p q) = true.
Proof.
  intros Hq Hp. pose proof (pow2_pos _ (ulp_exp_nonneg p q)) as Hk.
  assert (1 <= rne p (q * 2 ^ ulp_exp p q)) as H1.
  { destruct (decide (ulp_exp p q = 0)) as [E|].
    - rewrite E. apply rne_ge_int; lia.
    - pose proof (ulp_exp_nonneg p q).
      destruct (rne_ulp_bounds p q Hq ltac:(lia)) as [_ H']. lia. }
  unfold round_pos. case_bool; simpl; [|done]. apply Z.ltb_lt. nia.
Qed.

Lemma round_pos_mono p1 q1 p2 q2 :
  0 < q1 -> 0 < q2 -> 0 <= p1 -> p1 * q2 <= p2 * q1 ->
  leb (round_pos p1 q1) (round_pos p2 q2) = true.
Proof.
  intros H1 H2 Hp Hle. assert (0 <= p2) as Hp2 by nia.
  pose proof (pow2_pos _ (ulp_exp_nonneg p1 q1)) as Hk1.
  pose proof (pow2_pos _ (ulp_exp_nonneg p2 q2)) as Hk2.
  assert (rne p1 (q1 * 2 ^ ulp_exp p1 q1) * 2 ^ ulp_exp p1 q1
          <= rne p2 (q2 * 2 ^ ulp_exp p2 q2) * 2 ^ ulp_exp p2 q2) as Hr.
  { pose proof (ulp_exp_mono p1 q1 p2 q2 H1 H2 Hle) as Hk.
    pose proof (ulp_exp_nonneg p1 q1).
    destruct (decide (ulp_exp p1 q1 = ulp_exp p2 q2)) as [E|Hne].
    - rewrite E in *. apply Z.mul_le_mono_nonneg_r; [lia|]. apply rne_mono; nia.
    - destruct (rne_ulp_bounds p1 q1 H1 Hp) as [Hup _].
      destruct (rne_ulp_bounds p2 q2 H2 Hp2) as [_ Hlo]. specialize (Hlo ltac:(lia)).
      assert (2 * 2 ^ ulp_exp p1 q1 <= 2 ^ ulp_exp p2 q2) as Hpw.
      { rewrite <- Z.pow_succ_r by lia. apply Z.pow_le_mono_r; lia. }
      assert (2 ^ 53 = 2 * 2 ^ 52) as E53 by reflexivity. nia. }
  unfold round_pos. repeat case_bool; unfold leb, ltb, eqb; try lia; done.
Qed.

End Num.

Abbreviation num := Num.num.
Abbreviation NaN := Num.NaN.
Abbreviation Inf := Num.Inf.
Abbreviation Fin := Num.Fin.
