(* ===== verification/JsString.v ===== *)
(** * JavaScript strings

    Strings are UTF-8 texts ([string], one byte per character of the Rocq type).  The functions
    here are those of [String.prototype], [BigInt] and the [Number] conversions that the wallet
    calls.  [length] counts UTF-16 code units; [slice], [padEnd] and the case mapping are used by
    the wallet on ASCII text only (amounts, hashes, addresses) and act on bytes. *)

From Stdlib Require Import Ascii String.
From S2P Require Import Prelude JsNumber.

#[global] Open Scope string_scope.
#[global] Open Scope Z_scope.

#[global] Arguments Ascii.eqb : simpl never.

(** ** Characters *)

Definition byte_of (c : ascii) : Z := Z.of_N (Ascii.N_of_ascii c).
Definition chr (n : Z) : ascii := Ascii.ascii_of_N (Z.to_N n).

Definition in_range (lo hi n : Z) : bool := (lo <=? n) && (n <=? hi).

Definition is_digit (c : ascii) : bool := in_range 48 57 (byte_of c).
Definition is_lower (c : ascii) : bool := in_range 97 122 (byte_of c).
Definition is_upper (c : ascii) : bool := in_range 65 90 (byte_of c).
Definition is_alnum (c : ascii) : bool := is_digit c || is_lower c || is_upper c.

Definition digit_val (c : ascii) : Z := byte_of c - 48.
Definition digit_char (d : Z) : ascii := chr (48 + d).

Fixpoint all_chars (P : ascii -> bool) (s : string) : bool :=
  match s with
  | "" => true
  | String c s' => P c && all_chars P s'
  end.

Definition all_digits : string -> bool := all_chars is_digit.

(** ** Decimal notation of integers *)

(** The integer a digit string denotes, continuing from [acc]. *)
Fixpoint dval (acc : Z) (s : string) : Z :=
  match s with
  | "" => acc
  | String c s' => dval (acc * 10 + digit_val c) s'
  end.

Fixpoint digits_of (fuel : nat) (n : Z) (acc : string) : string :=
  match fuel with
  | O => acc
  | S fuel' =>
      let acc' := String (digit_char (n mod 10)) acc in
      if n <? 10 then acc' else digits_of fuel' (n / 10) acc'
  end.

(** [BigInt.prototype.toString] on a non-negative integer; [Z.log2 n + 1] digits are enough. *)
Definition string_of_nonneg (n : Z) : string := digits_of (S (Z.to_nat (Z.log2 n))) n "".

Definition string_of_Z (n : Z) : string :=
  if n <? 0 then "-" +:+ string_of_nonneg (- n) else string_of_nonneg n.

(** ** String.prototype *)

Fixpoint repeat_char (n : nat) (c : ascii) : string :=
  match n with O => "" | S n' => String c (repeat_char n' c) end.

Definition slen (s : string) : Z := Z.of_nat (String.length s).

Definition pad_end (s : string) (n : Z) (c : ascii) : string :=
  s +:+ repeat_char (Z.to_nat (n - slen s)) c.
Definition pad_start (s : string) (n : Z) (c : ascii) : string :=
  repeat_char (Z.to_nat (n - slen s)) c +:+ s.

(** UTF-16 code units of a UTF-8 text: one per lead byte, two for a four-byte sequence. *)
Definition units_of_byte (b : Z) : Z :=
  if b <? 128 then 1 else if b <? 192 then 0 else if b <? 240 then 1 else 2.
Fixpoint js_length (s : string) : Z :=
  match s with
  | "" => 0
  | String c s' => units_of_byte (byte_of c) + js_length s'
  end.

Fixpoint stake (n : nat) (s : string) : string :=
  match n, s with
  | S n', String c s' => String c (stake n' s')
  | _, _ => ""
  end.
Fixpoint sdrop (n : nat) (s : string) : string :=
  match n, s with
  | S n', String _ s' => sdrop n' s'
  | _, _ => s
  end.

(** [s.slice(0, n)] and [s.slice(-n)]. *)
Definition slice_first (s : string) (n : nat) : string := stake n s.
Definition slice_last (s : string) (n : nat) : string := sdrop (String.length s - n) s.

(** [s.split(c)] for a one-character separator. *)
Fixpoint split_on (c : ascii) (s : string) : list string :=
  match s with
  | "" => [""]
  | String d s' =>
      if Ascii.eqb c d then "" :: split_on c s'
      else match split_on c s' with
           | w :: ws => String d w :: ws
           | [] => [String d ""]
           end
  end.

Fixpoint starts_with (pre s : string) : bool :=
  match pre, s with
  | "", _ => true
  | String a p', String b s' => Ascii.eqb a b && starts_with p' s'
  | _, "" => false
  end.

Fixpoint includes (s sub : string) : bool :=
  starts_with sub s || match s with "" => false | String _ s' => includes s' sub end.

Definition ends_with (s suf : string) : bool :=
  if slen s <? slen suf then false
  else String.eqb (sdrop (String.length s - String.length suf) s) suf.

Definition lower_char (c : ascii) : ascii := if is_upper c then chr (byte_of c + 32) else c.
Fixpoint to_lower (s : string) : string :=
  match s with "" => "" | String c s' => String (lower_char c) (to_lower s') end.

Fixpoint join (sep : string) (l : list string) : string :=
  match l with
  | [] => ""
  | [s] => s
  | s :: l' => s +:+ sep +:+ join sep l'
  end.

(** White space and line terminators of ECMAScript, as UTF-8. *)
Definition bytes (l : list Z) : string := String.string_of_list_ascii (chr <$> l).

Definition white_space : list string :=
  bytes <$>
  [ [9]; [10]; [11]; [12]; [13]; [32]; [194; 160]; [239; 187; 191]; [225; 154; 128];
    [226; 128; 128]; [226; 128; 129]; [226; 128; 130]; [226; 128; 131]; [226; 128; 132];
    [226; 128; 133]; [226; 128; 134]; [226; 128; 135]; [226; 128; 136]; [226; 128; 137];
    [226; 128; 138]; [226; 128; 168]; [226; 128; 169]; [226; 128; 175]; [226; 129; 159];
    [227; 128; 128] ].

Fixpoint trim_start_fuel (fuel : nat) (s : string) : string :=
  match fuel with
  | O => s
  | S fuel' =>
      match List.find (fun w => starts_with w s) white_space with
      | Some w => trim_start_fuel fuel' (sdrop (String.length w) s)
      | None => s
      end
  end.
Fixpoint trim_end_fuel (fuel : nat) (s : string) : string :=
  match fuel with
  | O => s
  | S fuel' =>
      match List.find (fun w => ends_with s w) white_space with
      | Some w => trim_end_fuel fuel' (stake (String.length s - String.length w) s)
      | None => s
      end
  end.

(** [s.trim()]; every step removes at least one byte. *)
Definition trim (s : string) : string :=
  let t := trim_start_fuel (String.length s) s in
  trim_end_fuel (String.length t) t.

(** ** Lemmas *)

Lemma byte_of_range c : 0 <= byte_of c < 256.
Proof.
  unfold byte_of. pose proof (Ascii.N_ascii_bounded c). lia.
Qed.

Lemma byte_of_chr n : 0 <= n < 256 -> byte_of (chr n) = n.
Proof.
  intros H. unfold byte_of, chr. rewrite Ascii.N_ascii_embedding by lia. lia.
Qed.

Lemma digit_char_digit d : 0 <= d < 10 -> is_digit (digit_char d) = true.
Proof.
  intros H. unfold is_digit, in_range, digit_char. rewrite byte_of_chr by lia. lia.
Qed.

Lemma digit_val_char d : 0 <= d < 10 -> digit_val (digit_char d) = d.
Proof. intros H. unfold digit_val, digit_char. rewrite byte_of_chr by lia. lia. Qed.

Lemma digit_val_range c : is_digit c = true -> 0 <= digit_val c < 10.
Proof. unfold is_digit, in_range, digit_val. lia. Qed.

Lemma app_cons_string c s t : String c s +:+ t = String c (s +:+ t).
Proof. done. Qed.

Lemma app_empty_string t : "" +:+ t = t.
Proof. done. Qed.

(** Unfold an append on a constructor. *)
Ltac app_simpl := repeat rewrite ?app_cons_string, ?app_empty_string.

Lemma app_assoc_string s t u : s +:+ (t +:+ u) = (s +:+ t) +:+ u.
Proof. induction s as [|c s IH]; app_simpl; [done|by rewrite IH]. Qed.

(** Right-nested normal form of an append. *)
Ltac app_norm :=
  repeat first [rewrite <- app_assoc_string | rewrite app_cons_string | rewrite app_empty_string].

Lemma app_nil_string s : s +:+ "" = s.
Proof. induction s as [|c s IH]; app_simpl; [done|by rewrite IH]. Qed.

Lemma length_app_string s t : String.length (s +:+ t) = (String.length s + String.length t)%nat.
Proof. induction s as [|c s IH]; app_simpl; simpl; [done|by rewrite IH]. Qed.

Lemma slen_app s t : slen (s +:+ t) = slen s + slen t.
Proof. unfold slen. rewrite length_app_string. lia. Qed.

Lemma slen_nonneg s : 0 <= slen s.
Proof. unfold slen. lia. Qed.

Lemma slen_cons c s : slen (String c s) = 1 + slen s.
Proof. unfold slen. simpl. lia. Qed.

Lemma slen_repeat n c : slen (repeat_char n c) = Z.of_nat n.
Proof. induction n; [done|]. cbn [repeat_char]. rewrite slen_cons, IHn. lia. Qed.

#[export] Hint Rewrite app_nil_string slen_app slen_cons slen_repeat : jsstr.
#[export] Hint Resolve slen_nonneg digit_char_digit digit_val_range : crylo.

Section all_chars.
Context (P : ascii -> bool).

Lemma all_chars_app s t : all_chars P (s +:+ t) = all_chars P s && all_chars P t.
Proof. induction s as [|c s IH]; app_simpl; simpl; [done|]. by rewrite IH, andb_assoc. Qed.

Lemma all_chars_repeat n c : P c = true -> all_chars P (repeat_char n c) = true.
Proof. intros H. induction n; simpl; [done|]. by rewrite H. Qed.

Lemma all_chars_take n s : all_chars P s = true -> all_chars P (stake n s) = true.
Proof.
  revert s. induction n as [|n IH]; intros [|c s]; simpl; try done.
  rewrite !andb_true_iff. intros [??]. auto.
Qed.

Lemma all_chars_drop n s : all_chars P s = true -> all_chars P (sdrop n s) = true.
Proof.
  revert s. induction n as [|n IH]; intros [|c s]; simpl; try done.
  rewrite andb_true_iff. intros [??]. auto.
Qed.

Lemma all_chars_mono (Q : ascii -> bool) s :
  (forall c, P c = true -> Q c = true) -> all_chars P s = true -> all_chars Q s = true.
Proof.
  intros HPQ. induction s as [|c s IH]; simpl; [done|].
  rewrite !andb_true_iff. intros [??]. auto.
Qed.
End all_chars.

Lemma take_drop_string n s : stake n s +:+ sdrop n s = s.
Proof. revert s. induction n as [|n IH]; intros [|c s]; simpl; app_simpl; try done. by rewrite IH. Qed.

Lemma slen_take n s : Z.of_nat n <= slen s -> slen (stake n s) = Z.of_nat n.
Proof.
  revert s. induction n as [|n IH]; intros [|c s]; simpl; try done.
  rewrite !slen_cons. intros. rewrite IH; lia.
Qed.

(** *** Decimal notation *)

Lemma dval_acc acc s : dval acc s = acc * 10 ^ slen s + dval 0 s.
Proof.
  revert acc. induction s as [|c s IH]; intros acc; cbn [dval].
  - unfold slen. simpl. lia.
  - rewrite IH, (IH (0 * 10 + _)), slen_cons, Z.pow_add_r by auto with crylo lia. ring.
Qed.

Lemma dval_app acc s t : dval acc (s +:+ t) = dval (dval acc s) t.
Proof. revert acc. induction s as [|c s IH]; intros acc; app_simpl; simpl; [done|]. apply IH. Qed.

Lemma dval_app_0 s t : dval 0 (s +:+ t) = dval 0 s * 10 ^ slen t + dval 0 t.
Proof. rewrite dval_app. apply dval_acc. Qed.

Lemma dval_bound s : all_digits s = true -> 0 <= dval 0 s < 10 ^ slen s.
Proof.
  induction s as [|c s IH]; [unfold slen; simpl; lia|].
  unfold all_digits. cbn [all_chars]. rewrite andb_true_iff. intros [Hc Hs].
  cbn [dval]. rewrite dval_acc, slen_cons, Z.pow_add_r by auto with crylo lia.
  specialize (IH Hs). pose proof (digit_val_range c Hc). nia.
Qed.

Lemma dval_zeros n : dval 0 (repeat_char n "0") = 0.
Proof. induction n; simpl; [done|]. exact IHn. Qed.

Lemma digits_of_spec fuel n acc :
  0 <= n < 10 ^ Z.of_nat fuel ->
  exists ds, digits_of fuel n acc = ds +:+ acc /\ all_digits ds = true /\ dval 0 ds = n.
Proof.
  revert n acc. induction fuel as [|fuel IH]; intros n acc Hn.
  { exists "". simpl in *. split_and!; [done|done|lia]. }
  cbn [digits_of]. pose proof (Z.mod_pos_bound n 10 ltac:(lia)).
  case_bool.
  - exists (String (digit_char (n mod 10)) ""). rewrite Z.mod_small by lia.
    unfold all_digits. cbn [all_chars dval].
    rewrite digit_char_digit, digit_val_char by lia. split_and!; [done|done|lia].
  - destruct (IH (n / 10) (String (digit_char (n mod 10)) acc)) as (ds & -> & Hd & Hv).
    { rewrite Nat2Z.inj_succ, Z.pow_succ_r in Hn by lia.
      split; [apply Z.div_pos; lia|]. apply Z.div_lt_upper_bound; lia. }
    exists (ds +:+ String (digit_char (n mod 10)) "").
    split_and!.
    + rewrite <- app_assoc_string. done.
    + unfold all_digits. rewrite all_chars_app. cbn [all_chars].
      rewrite digit_char_digit by lia. unfold all_digits in Hd. by rewrite Hd.
    + rewrite dval_app, Hv. cbn [dval]. rewrite digit_val_char by lia.
      pose proof (Z.div_mod n 10 ltac:(lia)). lia.
Qed.

Lemma string_of_nonneg_spec n :
  0 <= n -> all_digits (string_of_nonneg n) = true /\ dval 0 (string_of_nonneg n) = n.
Proof.
  intros Hn. unfold string_of_nonneg.
  destruct (digits_of_spec (S (Z.to_nat (Z.log2 n))) n "") as (ds & E & Hd & Hv).
  - split; [done|]. rewrite Nat2Z.inj_succ, Z2Nat.id by apply Z.log2_nonneg.
    destruct (decide (n = 0)) as [->|]; [apply pow10_pos; simpl; lia|].
    pose proof (Z.log2_spec n ltac:(lia)) as [_ Hlt].
    eapply Z.lt_le_trans; [exact Hlt|]. apply Z.pow_le_mono_l.
    pose proof (Z.log2_nonneg n). lia.
  - rewrite E, app_nil_string. done.
Qed.

Lemma digits_of_nonempty fuel n acc : digits_of (S fuel) n acc <> "".
Proof.
  revert n acc. induction fuel as [|fuel IH]; intros n acc; cbn [digits_of].
  - case_bool; done.
  - case_bool; [done|apply IH].
Qed.

Lemma string_of_nonneg_nonempty n : string_of_nonneg n <> "".
Proof. apply digits_of_nonempty. Qed.

(** *** Trimming of printable text *)

Definition printable (c : ascii) : bool := in_range 33 126 (byte_of c).

Definition unprintable_head (w : string) : bool :=
  match w with "" => false | String a _ => negb (printable a) end.

Lemma white_space_heads w : In w white_space -> unprintable_head w = true.
Proof.
  intros Hin. assert (forallb unprintable_head white_space = true) as H by (vm_compute; done).
  rewrite forallb_forall in H. auto.
Qed.

Lemma starts_with_app pre s : starts_with pre s = true -> exists t, s = pre +:+ t.
Proof.
  revert s. induction pre as [|a pre IH]; intros s; [by exists s|].
  destruct s as [|b s]; simpl; [done|].
  rewrite andb_true_iff. intros [->%Ascii.eqb_eq Hs].
  destruct (IH s Hs) as [t ->]. by exists t.
Qed.

Lemma printable_no_space s w :
  all_chars printable s = true -> In w white_space -> starts_with w s = false.
Proof.
  intros Hs Hw%white_space_heads. destruct (starts_with w s) eqn:E; [|done].
  apply starts_with_app in E as [t ->]. destruct w as [|a w]; [done|].
  rewrite app_cons_string in Hs. simpl in *. destruct (printable a); done.
Qed.

Lemma printable_no_space_end s w :
  all_chars printable s = true -> In w white_space -> ends_with s w = false.
Proof.
  intros Hs Hw. unfold ends_with. case_bool; [done|].
  destruct (String.eqb _ w) eqn:E; [|done]. apply String.eqb_eq in E.
  pose proof (all_chars_drop printable (String.length s - String.length w) s Hs) as Hd.
  rewrite E in Hd. apply white_space_heads in Hw. destruct w as [|a w]; [done|].
  simpl in *. destruct (printable a); done.
Qed.

Lemma find_none_forall {A} (f : A -> bool) l :
  (forall x, In x l -> f x = false) -> List.find f l = None.
Proof.
  induction l as [|x l IH]; simpl; intros H; [done|].
  rewrite (H x) by auto. auto.
Qed.

Lemma trim_printable s : all_chars printable s = true -> trim s = s.
Proof.
  intros Hs. unfold trim.
  assert (forall n, trim_start_fuel n s = s) as ->.
  { intros [|n]; [done|]. cbn [trim_start_fuel].
    rewrite find_none_forall; [done|]. intros w Hw. by apply printable_no_space. }
  destruct (String.length s); [done|]. cbn [trim_end_fuel].
  rewrite find_none_forall; [done|]. intros w Hw. by apply printable_no_space_end.
Qed.

Lemma digit_printable c : is_digit c = true -> printable c = true.
Proof. unfold is_digit, printable, in_range. lia. Qed.

Lemma all_digits_printable s : all_digits s = true -> all_chars printable s = true.
Proof. apply all_chars_mono, digit_printable. Qed.

(** *** Splitting *)

Lemma split_on_plain c s :
  all_chars (fun d => negb (Ascii.eqb c d)) s = true -> split_on c s = [s].
Proof.
  induction s as [|d s IH]; simpl; [done|].
  rewrite andb_true_iff, negb_true_iff. intros [-> Hs]. by rewrite IH.
Qed.

Lemma split_on_app c s t :
  all_chars (fun d => negb (Ascii.eqb c d)) s = true ->
  split_on c (s +:+ String c t) = s :: split_on c t.
Proof.
  induction s as [|d s IH]; app_simpl; simpl.
  - intros _. by rewrite Ascii.eqb_refl.
  - rewrite andb_true_iff, negb_true_iff. intros [-> Hs]. by rewrite IH.
Qed.

Lemma digits_no_dot s :
  all_digits s = true -> all_chars (fun d => negb (Ascii.eqb "." d)) s = true.
Proof.
  apply all_chars_mono. intros d Hd. destruct (Ascii.eqb_spec "." d) as [<-|]; [|done].
  vm_compute in Hd. done.
Qed.

(** ** Texts as code points *)

(** UTF-8 encoding of a code point. *)
Definition utf8 (n : Z) : string :=
  if n <? 128 then bytes [n]
  else if n <? 2048 then bytes [192 + n / 64; 128 + n mod 64]
  else if n <? 65536 then bytes [224 + n / 4096; 128 + n / 64 mod 64; 128 + n mod 64]
  else bytes [240 + n / 262144; 128 + n / 4096 mod 64; 128 + n / 64 mod 64; 128 + n mod 64].

(** The code points that have a UTF-8 encoding, and the texts of them. *)
Definition scalar (n : Z) : Prop := 0 <= n < 55296 \/ 57344 <= n < 1114112.
Definition text_of (l : list Z) : string := fold_right (fun n s => utf8 n +:+ s) "" l.

(** *** Decoding received bytes

    [buffer.toString()] decodes one buffer.  Bytes that are not the start of a character, and the
    longest prefix of a character that is cut off or followed by a wrong byte, become U+FFFD. *)
Definition replacement : string := utf8 65533.

(** In the middle of a character: its bytes so far, the range of the next one, and how many follow
    after that. *)
Record partial := Partial { seen : string; low : Z; high : Z; after : nat }.

Definition utf8_lead (c : ascii) : string * option partial :=
  let b := byte_of c in
  let expect lo hi n := ("", Some (Partial (String c "") lo hi n)) in
  if b <? 128 then (String c "", None)
  else if in_range 194 223 b then expect 128 191 0%nat
  else if b =? 224 then expect 160 191 1%nat
  else if b =? 237 then expect 128 159 1%nat
  else if in_range 225 239 b then expect 128 191 1%nat
  else if b =? 240 then expect 144 191 2%nat
  else if in_range 241 243 b then expect 128 191 2%nat
  else if b =? 244 then expect 128 143 2%nat
  else (replacement, None).

Fixpoint utf8_run (st : option partial) (s : string) : string :=
  match s with
  | "" => match st with Some _ => replacement | None => "" end
  | String c r =>
      match st with
      | Some p =>
          if in_range (low p) (high p) (byte_of c) then
            let seen' := seen p +:+ String c "" in
            match after p with
            | O => seen' +:+ utf8_run None r
            | S n => utf8_run (Some (Partial seen' 128 191 n)) r
            end
          else
            let '(out, st') := utf8_lead c in replacement +:+ (out +:+ utf8_run st' r)
      | None => let '(out, st') := utf8_lead c in out +:+ utf8_run st' r
      end
  end.

Definition utf8_decode (s : string) : string := utf8_run None s.

(** A complete text is decoded to itself. *)
Lemma in_range_true lo hi n : lo <= n <= hi -> in_range lo hi n = true.
Proof. intros H. unfold in_range. rewrite andb_true_iff, !Z.leb_le. lia. Qed.
Lemma in_range_false lo hi n : n < lo \/ hi < n -> in_range lo hi n = false.
Proof. intros H. unfold in_range. rewrite andb_false_iff, !Z.leb_gt. lia. Qed.

Lemma run_lead b s lo hi n :
  0 <= b < 256 -> utf8_lead (chr b) = ("", Some (Partial (String (chr b) "") lo hi n)) ->
  utf8_run None (String (chr b) s) = utf8_run (Some (Partial (String (chr b) "") lo hi n)) s.
Proof. intros Hb H. cbn [utf8_run]. rewrite H. done. Qed.

Lemma run_more sn lo hi n b s :
  0 <= b < 256 -> lo <= b <= hi ->
  utf8_run (Some (Partial sn lo hi (S n))) (String (chr b) s)
  = utf8_run (Some (Partial (sn +:+ String (chr b) "") 128 191 n)) s.
Proof. intros Hb H. cbn [utf8_run low high after seen]. by rewrite byte_of_chr, in_range_true. Qed.

Lemma run_last sn lo hi b s :
  0 <= b < 256 -> lo <= b <= hi ->
  utf8_run (Some (Partial sn lo hi 0)) (String (chr b) s) = (sn +:+ String (chr b) "") +:+ utf8_run None s.
Proof. intros Hb H. cbn [utf8_run low high after seen]. by rewrite byte_of_chr, in_range_true. Qed.

(** Which bytes may follow a lead byte. *)
Lemma lead_spec b :
  194 <= b <= 244 ->
  utf8_lead (chr b) =
    ("", Some (Partial (String (chr b) "")
                 (if b =? 224 then 160 else if b =? 240 then 144 else 128)
                 (if b =? 237 then 159 else if b =? 244 then 143 else 191)
                 (if b <? 224 then 0%nat else if b <? 240 then 1%nat else 2%nat))).
Proof.
  intros Hb. unfold utf8_lead. rewrite byte_of_chr by lia. unfold in_range.
  repeat (case_bool; try lia); cbn [andb]; repeat (case_bool; try lia); cbn [andb]; try reflexivity.
Qed.

(** The bytes of a character, and their ranges. *)
Lemma utf8_bytes2 n :
  128 <= n < 2048 -> 194 <= 192 + n / 64 <= 223 /\ 128 <= 128 + n mod 64 <= 191.
Proof. intros Hn. Z.to_euclidean_division_equations. lia. Qed.

Lemma utf8_bytes3 n :
  2048 <= n < 65536 ->
  224 <= 224 + n / 4096 <= 239 /\ 128 <= 128 + n / 64 mod 64 <= 191 /\ 128 <= 128 + n mod 64 <= 191 /\
  (224 + n / 4096 = 224 -> 160 <= 128 + n / 64 mod 64) /\
  (n < 55296 \/ 57344 <= n -> 224 + n / 4096 = 237 -> 128 + n / 64 mod 64 <= 159).
Proof. intros Hn. Z.to_euclidean_division_equations. lia. Qed.

Lemma utf8_bytes4 n :
  65536 <= n < 1114112 ->
  240 <= 240 + n / 262144 <= 244 /\ 128 <= 128 + n / 4096 mod 64 <= 191 /\
  128 <= 128 + n / 64 mod 64 <= 191 /\ 128 <= 128 + n mod 64 <= 191 /\
  (240 + n / 262144 = 240 -> 144 <= 128 + n / 4096 mod 64) /\
  (240 + n / 262144 = 244 -> 128 + n / 4096 mod 64 <= 143).
Proof. intros Hn. Z.to_euclidean_division_equations. lia. Qed.

Lemma bytes_cons b l s : bytes (b :: l) +:+ s = String (chr b) (bytes l +:+ s).
Proof. done. Qed.

Lemma decode_char n s : scalar n -> utf8_run None (utf8 n +:+ s) = utf8 n +:+ utf8_run None s.
Proof.
  intros Hn. unfold utf8, scalar in *. case_bool; [|case_bool; [|case_bool]]; rewrite !bytes_cons.
  - change (bytes [] +:+ s) with s. cbn [utf8_run]. unfold utf8_lead. rewrite byte_of_chr by lia.
    rewrite (proj2 (Z.ltb_lt n 128)) by done. done.
  - destruct (utf8_bytes2 n) as [H1 H2]; [lia|].
    erewrite run_lead by (try apply lead_spec; lia). repeat (case_bool; try lia).
    by rewrite run_last by lia.
  - destruct (utf8_bytes3 n) as (H1 & H2 & H3 & H4 & H5); [lia|].
    erewrite run_lead by (try apply lead_spec; lia). repeat (case_bool; try lia);
      rewrite run_more by lia; by rewrite run_last by lia.
  - destruct (utf8_bytes4 n) as (H1 & H2 & H3 & H4 & H5 & H6); [lia|].
    erewrite run_lead by (try apply lead_spec; lia). repeat (case_bool; try lia);
      rewrite run_more by lia; rewrite run_more by lia; by rewrite run_last by lia.
Qed.

Lemma utf8_decode_text l : Forall scalar l -> utf8_decode (text_of l) = text_of l.
Proof.
  unfold utf8_decode. induction 1 as [|n l Hn _ IH]; [done|]. cbn [text_of fold_right].
  fold (text_of l). by rewrite decode_char, IH.
Qed.

Lemma text_of_app l1 l2 : text_of (l1 ++ l2) = text_of l1 +:+ text_of l2.
Proof.
  induction l1 as [|n l1 IH]; [done|]. cbn [app text_of fold_right]. fold (text_of (l1 ++ l2)).
  fold (text_of l1). by rewrite IH, app_assoc_string.
Qed.

(** *** The order of [Array.prototype.sort]

    Strings are compared by their UTF-16 code units: characters above U+FFFF count as their two
    surrogates and come before U+E000 to U+FFFF. *)
Definition utf16 (n : Z) : list Z :=
  if n <? 65536 then [n] else [55296 + (n - 65536) / 1024; 56320 + (n - 65536) mod 1024].

(** [more] bytes of a character are still to come, [n] is its value so far. *)
Fixpoint units_from (more : nat) (n : Z) (s : string) : list Z :=
  match s with
  | "" => []
  | String c r =>
      let b := byte_of c in
      if b <? 128 then b :: units_from 0 0 r
      else if b <? 192 then
        match more with
        | O => 65533 :: units_from 0 0 r
        | S O => utf16 (n * 64 + (b - 128)) ++ units_from 0 0 r
        | S m => units_from m (n * 64 + (b - 128)) r
        end
      else if b <? 224 then units_from 1 (b - 192) r
      else if b <? 240 then units_from 2 (b - 224) r
      else units_from 3 (b - 240) r
  end.
Definition utf16_units (s : string) : list Z := units_from 0 0 s.

Fixpoint units_leb (l1 l2 : list Z) : bool :=
  match l1, l2 with
  | [], _ => true
  | _ :: _, [] => false
  | x :: l1', y :: l2' => (x <? y) || ((x =? y) && units_leb l1' l2')
  end.
Definition js_leb_string (s t : string) : bool := units_leb (utf16_units s) (utf16_units t).

Lemma units_leb_total l1 l2 : units_leb l1 l2 = true \/ units_leb l2 l1 = true.
Proof.
  revert l2. induction l1 as [|x l1 IH]; intros [|y l2]; cbn [units_leb]; auto.
  rewrite !orb_true_iff, !andb_true_iff, !Z.ltb_lt, !Z.eqb_eq.
  destruct (Z.lt_trichotomy x y) as [H|[H|H]]; [by left; left| |by right; left].
  destruct (IH l2); [left|right]; right; by split; [lia|].
Qed.

Lemma units_leb_trans l1 l2 l3 :
  units_leb l1 l2 = true -> units_leb l2 l3 = true -> units_leb l1 l3 = true.
Proof.
  revert l2 l3. induction l1 as [|x l1 IH]; intros [|y l2] [|z l3]; cbn [units_leb]; try done.
  rewrite !orb_true_iff, !andb_true_iff, !Z.ltb_lt, !Z.eqb_eq. specialize (IH l2 l3).
  intuition lia.
Qed.

Lemma js_leb_string_total s t : js_leb_string s t = true \/ js_leb_string t s = true.
Proof. apply units_leb_total. Qed.
Lemma js_leb_string_trans s t u :
  js_leb_string s t = true -> js_leb_string t u = true -> js_leb_string s u = true.
Proof. apply units_leb_trans. Qed.

(** The units of a text are those of its characters. *)
Lemma units_char n s : 0 <= n < 1114112 -> units_from 0 0 (utf8 n +:+ s) = (utf16 n ++ units_from 0 0 s)%list.
Proof.
  intros Hn. unfold utf8. case_bool; [|case_bool; [|case_bool]]; rewrite !bytes_cons;
    change (bytes [] +:+ s) with s; cbn [units_from]; rewrite !byte_of_chr by
      (Z.to_euclidean_division_equations; lia).
  - rewrite (proj2 (Z.ltb_lt n 128)) by done. unfold utf16. by rewrite (proj2 (Z.ltb_lt n 65536)) by lia.
  - destruct (utf8_bytes2 n) as [H1 H2]; [lia|]. repeat (case_bool; try lia).
    replace ((192 + n / 64 - 192) * 64 + (128 + n mod 64 - 128)) with n; [done|].
    Z.to_euclidean_division_equations. lia.
  - destruct (utf8_bytes3 n) as (H1 & H2 & H3 & _); [lia|]. repeat (case_bool; try lia).
    match goal with |- (utf16 ?m ++ _)%list = _ => replace m with n; [done|] end.
    Z.to_euclidean_division_equations. lia.
  - destruct (utf8_bytes4 n) as (H1 & H2 & H3 & H4 & _); [lia|]. repeat (case_bool; try lia).
    match goal with |- (utf16 ?m ++ _)%list = _ => replace m with n; [done|] end.
    Z.to_euclidean_division_equations. lia.
Qed.

Lemma utf16_units_text l :
  Forall scalar l -> utf16_units (text_of l) = List.concat (map utf16 l).
Proof.
  unfold utf16_units. induction 1 as [|n l Hn _ IH]; [done|]. cbn [text_of fold_right map List.concat].
  fold (text_of l). rewrite units_char, IH; [done|]. unfold scalar in Hn. lia.
Qed.
