(* ===== verification/JsConv.v ===== *)
(** * Conversions between JavaScript numbers and strings

    [Number(text)], [parseInt], [Number.prototype.toFixed] and [Number.prototype.toString]
    (radix ten), following ECMA-262; parsing and printing work on the exact rational value and
    round once, as V8 does. *)

From Stdlib Require Import Ascii String.
From S2P Require Import Prelude JsNumber JsString.

(** ** Number(text) *)

Fixpoint span_digits (s : string) : string * string :=
  match s with
  | String c s' =>
      if is_digit c then let '(d, r) := span_digits s' in (String c d, r) else ("", s)
  | "" => ("", "")
  end.

(** The rest of [s] after the character [c], when it starts with it. *)
Definition strip_char (c : ascii) (s : string) : option string :=
  match s with
  | String d r => if Ascii.eqb c d then Some r else None
  | "" => None
  end.

(** An optional sign: its factor and the rest. *)
Definition strip_sign (s : string) : Z * string :=
  match strip_char "-" s with
  | Some r => (-1, r)
  | None => match strip_char "+" s with Some r => (1, r) | None => (1, s) end
  end.

(** The number nearest to [m * 10^e]; a magnitude outside [10^-330 .. 10^310] is not built. *)
Definition scaled (m e : Z) (len : Z) : num :=
  if m =? 0 then Fin 0
  else if 310 <? e then Inf false
  else if len + e <? -330 then Fin 0
  else if 0 <=? e then Num.of_Z (m * 10 ^ e) else Num.of_frac m (10 ^ (- e)).

(** Exponent part: nothing, or [e] with an optional sign and digits up to the end. *)
Definition parse_exponent (s : string) : option Z :=
  match s with
  | "" => Some 0
  | String c r =>
      if Ascii.eqb c "e" || Ascii.eqb c "E" then
        let '(sg, r') := strip_sign r in
        if all_digits r' && negb (String.eqb r' "") then Some (sg * dval 0 r') else None
      else None
  end.

(** [StrUnsignedDecimalLiteral]. *)
Definition parse_unsigned (s : string) : option num :=
  if String.eqb s "Infinity" then Some (Inf false) else
  let '(w, r) := span_digits s in
  let '(f, r2) := match strip_char "." r with Some r' => span_digits r' | None => ("", r) end in
  if String.eqb (w +:+ f) "" then None
  else match parse_exponent r2 with
       | Some e => Some (scaled (dval 0 (w +:+ f)) (e - slen f) (slen (w +:+ f)))
       | None => None
       end.

Definition radix_digit (radix : Z) (c : ascii) : option Z :=
  let b := byte_of c in
  let v := if is_digit c then b - 48
           else if is_lower c then b - 87
           else if is_upper c then b - 55 else 99 in
  if v <? radix then Some v else None.

Fixpoint radix_val (radix acc : Z) (s : string) : option Z :=
  match s with
  | "" => Some acc
  | String c s' =>
      match radix_digit radix c with
      | Some v => radix_val radix (acc * radix + v) s'
      | None => None
      end
  end.

Definition parse_radix (radix : Z) (s : string) : num :=
  match s with
  | "" => NaN
  | _ => match radix_val radix 0 s with Some n => Num.of_Z n | None => NaN end
  end.

Definition radix_prefix (s : string) : option (Z * string) :=
  match s with
  | String c (String x r) =>
      if negb (Ascii.eqb c "0") then None
      else if Ascii.eqb x "x" || Ascii.eqb x "X" then Some (16, r)
      else if Ascii.eqb x "o" || Ascii.eqb x "O" then Some (8, r)
      else if Ascii.eqb x "b" || Ascii.eqb x "B" then Some (2, r)
      else None
  | _ => None
  end.

(** [Number(text)] (StringToNumber): only a decimal literal may carry a sign. *)
Definition number_of_string (text : string) : num :=
  let s := trim text in
  if String.eqb s "" then Fin 0
  else match radix_prefix s with
       | Some (radix, r) => parse_radix radix r
       | None =>
           let '(sg, r) := strip_sign s in
           match parse_unsigned r with
           | Some x => if sg =? -1 then Num.num_neg x else x
           | None => NaN
           end
       end.

(** ** Number.prototype.toString *)

Definition dec_exponent_step (z : Z) (n : Z) : bool :=
  (* [10^(n-1) <= z / U < 10^n], with the powers on the side where they are integers *)
  if 1 <=? n then (10 ^ (n - 1) * Num.U <=? z) && (z <? 10 ^ n * Num.U)
  else (Num.U <=? z * 10 ^ (1 - n)) && (z * 10 ^ (- n) <? Num.U).

(** The decimal exponent [n] with [10^(n-1) <= z / U < 10^n], searched from an estimate. *)
Fixpoint find_exponent (fuel : nat) (z n : Z) : Z :=
  match fuel with
  | O => n
  | S fuel' => if dec_exponent_step z n then n else find_exponent fuel' z (n + 1)
  end.

Definition dec_exponent (z : Z) : Z :=
  find_exponent 6 z ((Z.log2 z - 1074) * 30103 / 100000 - 2).

(** [s * 10^e] as a number. *)
Definition decimal (s e : Z) : num :=
  if 0 <=? e then Num.of_Z (s * 10 ^ e) else Num.of_frac s (10 ^ (- e)).

(** The [k]-digit decimal that rounds to [z] units and is closest to it, if any; [10^k] stands
    for the one-digit decimal of the next exponent. *)
Definition try_digits (z n k : Z) : option Z :=
  let e := n - k in
  let '(p, q) := if 0 <=? e then (z, Num.U * 10 ^ e) else (z * 10 ^ (- e), Num.U) in
  let '(lo, r) := Z.div_eucl p q in
  let ok s := (10 ^ (k - 1) <=? s) && (s <=? 10 ^ k) && Num.eqb (decimal s e) (Fin z) in
  let near := if 2 * r <=? q then lo else lo + 1 in
  let far := if near =? lo then lo + 1 else lo in
  if ok near then Some near else if ok far then Some far else None.

Fixpoint shortest (fuel : nat) (z n k : Z) : Z * Z :=
  match fuel with
  | O => (0, k)
  | S fuel' =>
      match try_digits z n k with
      | Some s => (s, k)
      | None => shortest fuel' z n (k + 1)
      end
  end.

Definition layout (s k n : Z) : string :=
  let ds := string_of_nonneg s in
  if (k <=? n) && (n <=? 21) then ds +:+ repeat_char (Z.to_nat (n - k)) "0"
  else if (0 <? n) && (n <=? 21) then
    stake (Z.to_nat n) ds +:+ "." +:+ sdrop (Z.to_nat n) ds
  else if (-6 <? n) && (n <=? 0) then
    "0." +:+ repeat_char (Z.to_nat (- n)) "0" +:+ ds
  else
    let e := n - 1 in
    let es := (if e <? 0 then "-" else "+") +:+ string_of_nonneg (Z.abs e) in
    if k =? 1 then ds +:+ "e" +:+ es
    else stake 1 ds +:+ "." +:+ sdrop 1 ds +:+ "e" +:+ es.

Definition pos_to_string (z : Z) : string :=
  let n := dec_exponent z in
  let '(s, k) := shortest 17 z n 1 in
  if s =? 10 ^ k then layout 1 1 (n + 1) else layout s k n.

(** [String(x)] for a number. *)
Definition num_to_string (x : num) : string :=
  match x with
  | NaN => "NaN"
  | Inf false => "Infinity"
  | Inf true => "-Infinity"
  | Fin z =>
      if z =? 0 then "0"
      else if z <? 0 then "-" +:+ pos_to_string (- z)
      else pos_to_string z
  end.

(** ** Number.prototype.toFixed *)

Definition fixed_digits (n f : Z) : string :=
  let m := string_of_nonneg n in
  if f =? 0 then m
  else
    let m' := pad_start m (f + 1) "0" in
    let i := (String.length m' - Z.to_nat f)%nat in
    stake i m' +:+ "." +:+ sdrop i m'.

Definition to_fixed (x : num) (f : Z) : string :=
  match x with
  | Fin z =>
      if 10 ^ 21 * Num.U <=? Z.abs z then num_to_string x
      else (if z <? 0 then "-" else "") +:+ fixed_digits (rhu (Z.abs z * 10 ^ f) Num.U) f
  | _ => num_to_string x
  end.

(** ** parseInt *)

(** [parseInt(text, 10)]: the longest prefix of digits after optional sign. *)
Definition parse_int10 (text : string) : num :=
  let '(sg, r) := strip_sign (trim text) in
  match fst (span_digits r) with
  | "" => NaN
  | ds => let x := Num.of_Z (dval 0 ds) in if sg =? -1 then Num.num_neg x else x
  end.

(** ** Lemmas *)

Lemma span_digits_all s : all_digits s = true -> span_digits s = (s, "").
Proof.
  unfold all_digits. induction s as [|c s IH]; simpl; [done|].
  rewrite andb_true_iff. intros [-> Hs]. by rewrite (IH Hs).
Qed.

Lemma span_digits_app s c t :
  all_digits s = true -> is_digit c = false ->
  span_digits (s +:+ String c t) = (s, String c t).
Proof.
  unfold all_digits. intros Hs Hc. induction s as [|d s IH]; app_simpl; simpl in *.
  - by rewrite Hc.
  - apply andb_true_iff in Hs as [-> Hs]. by rewrite (IH Hs).
Qed.

Lemma strip_char_ne c s : starts_with (String c "") s = false -> strip_char c s = None.
Proof. destruct s as [|d s]; simpl; [done|]. rewrite andb_true_r. by intros ->. Qed.

(** Text made of digits and dots that starts with a digit. *)
Definition dec_char (c : ascii) : bool := is_digit c || Ascii.eqb c ".".

Lemma dec_char_printable c : dec_char c = true -> printable c = true.
Proof.
  unfold dec_char. rewrite orb_true_iff. intros [H| ->%Ascii.eqb_eq]; [|done].
  by apply digit_printable.
Qed.

Lemma dec_char_ne c d : dec_char c = true -> dec_char d = false -> Ascii.eqb c d = false.
Proof. intros H1 H2. destruct (Ascii.eqb_spec c d) as [->|]; [congruence|done]. Qed.

Lemma number_of_dec_string s :
  s <> "" -> all_chars dec_char s = true ->
  number_of_string s = match parse_unsigned s with Some x => x | None => NaN end.
Proof.
  intros Hne Hs. unfold number_of_string.
  rewrite trim_printable by (eapply all_chars_mono, Hs; apply dec_char_printable).
  destruct s as [|c s]; [done|]. simpl in Hs. apply andb_true_iff in Hs as [Hc Hs].
  simpl String.eqb. cbv iota.
  assert (radix_prefix (String c s) = None) as ->.
  { destruct s as [|x r]; [done|]. simpl in *. apply andb_true_iff in Hs as [Hx _].
    destruct (negb _); [done|].
    by rewrite !(dec_char_ne x _ Hx) by done. }
  assert (strip_sign (String c s) = (1, String c s)) as ->; [|done].
  unfold strip_sign, strip_char.
  rewrite (Ascii.eqb_sym "-" c), (Ascii.eqb_sym "+" c), !(dec_char_ne c _ Hc) by done. done.
Qed.

Lemma not_infinity s : starts_with "I" s = false -> String.eqb s "Infinity" = false.
Proof. destruct s as [|c s]; [done|]. simpl. rewrite Ascii.eqb_sym, andb_true_r. by intros ->. Qed.

Lemma dec_not_infinity s : all_chars dec_char s = true -> String.eqb s "Infinity" = false.
Proof.
  intros Hs. apply not_infinity. destruct s as [|c s]; [done|]. simpl in *.
  apply andb_true_iff in Hs as [Hc _]. rewrite Ascii.eqb_sym, (dec_char_ne c "I" Hc) by done.
  done.
Qed.

Lemma all_digits_dec s : all_digits s = true -> all_chars dec_char s = true.
Proof. apply all_chars_mono. intros c H. unfold dec_char. by rewrite H. Qed.

Lemma string_eqb_empty s : s <> "" -> String.eqb s "" = false.
Proof. by destruct s. Qed.

(** [Number] of an integer literal and of a literal with a fraction. *)
Lemma number_of_int w :
  all_digits w = true -> w <> "" -> number_of_string w = scaled (dval 0 w) 0 (slen w).
Proof.
  intros Hw Hne. rewrite number_of_dec_string by auto using all_digits_dec.
  unfold parse_unsigned. rewrite dec_not_infinity by auto using all_digits_dec.
  rewrite (span_digits_all w Hw). simpl. rewrite app_nil_string, string_eqb_empty by done.
  simpl. done.
Qed.

Lemma number_of_fixed w f :
  all_digits w = true -> all_digits f = true -> w <> "" ->
  number_of_string (w +:+ "." +:+ f)
  = scaled (dval 0 (w +:+ f)) (- slen f) (slen (w +:+ f)).
Proof.
  intros Hw Hf Hne.
  assert (all_chars dec_char (w +:+ "." +:+ f) = true) as Hd.
  { rewrite all_chars_app, (all_digits_dec w Hw). app_simpl. simpl.
    by apply all_digits_dec. }
  rewrite number_of_dec_string; [|destruct w; done|done].
  unfold parse_unsigned. rewrite dec_not_infinity by done. app_simpl.
  rewrite span_digits_app by done. simpl. rewrite (span_digits_all f Hf).
  rewrite string_eqb_empty by (destruct w; done). simpl. done.
Qed.

(** Texts that denote a decimal fraction: [decimal_text s m k] when [s] writes [m / 10^k] with
    [k] digits after the point (none and no point when [k = 0]). *)
Inductive decimal_text : string -> Z -> Z -> Prop :=
| dt_int w : all_digits w = true -> w <> "" -> decimal_text w (dval 0 w) 0
| dt_frac w f :
    all_digits w = true -> w <> "" -> all_digits f = true -> f <> "" ->
    decimal_text (w +:+ "." +:+ f) (dval 0 (w +:+ f)) (slen f).

Lemma decimal_text_chars s m k : decimal_text s m k -> all_chars dec_char s = true /\ s <> "".
Proof.
  intros [w Hw Hne | w f Hw Hne Hf _].
  - auto using all_digits_dec.
  - split; [|by destruct w].
    rewrite all_chars_app, (all_digits_dec w Hw). app_simpl. simpl. by apply all_digits_dec.
Qed.

Lemma decimal_text_nonneg s m k : decimal_text s m k -> 0 <= m /\ 0 <= k.
Proof.
  intros [w Hw _ | w f Hw _ Hf _].
  - pose proof (dval_bound w Hw). lia.
  - assert (all_digits (w +:+ f) = true) as H.
    { unfold all_digits in *. by rewrite all_chars_app, Hw, Hf. }
    pose proof (dval_bound _ H). pose proof (slen_nonneg f). lia.
Qed.

Lemma decimal_text_trim s m k : decimal_text s m k -> trim s = s.
Proof.
  intros [H _]%decimal_text_chars. apply trim_printable.
  eapply all_chars_mono, H. apply dec_char_printable.
Qed.

Lemma decimal_text_number s m k :
  decimal_text s m k -> exists len, 0 < len /\ k <= len /\ number_of_string s = scaled m (- k) len.
Proof.
  intros [w Hw Hne | w f Hw Hne Hf _].
  - exists (slen w). rewrite number_of_int by done. split_and!; [|apply slen_nonneg|done].
    destruct w; [done|]. rewrite slen_cons. pose proof (slen_nonneg w). lia.
  - exists (slen (w +:+ f)). rewrite number_of_fixed by done. rewrite slen_app.
    split_and!; [| pose proof (slen_nonneg w); lia | done].
    destruct w; [done|]. rewrite slen_cons.
    pose proof (slen_nonneg w). pose proof (slen_nonneg f). lia.
Qed.

Lemma scaled_zero e len : scaled 0 e len = Fin 0.
Proof. done. Qed.

(** A positive decimal with at most 300 fractional digits is a positive number. *)
Lemma scaled_pos m k len :
  0 < m -> 0 <= k <= 300 -> k <= len -> Num.ltb (Fin 0) (scaled m (- k) len) = true.
Proof.
  intros Hm Hk Hlen. unfold scaled. repeat (case_bool; try lia).
  - unfold Num.of_Z, Num.round. rewrite (proj2 (Z.ltb_ge _ _)) by (pose proof Num.U_pos; nia).
    apply Num.round_pos_positive; [lia|]. pose proof Num.U_pos. assert (k = 0) as -> by lia. simpl. lia.
  - unfold Num.of_frac, Num.round. rewrite (proj2 (Z.ltb_ge _ _)) by (pose proof Num.U_pos; nia).
    rewrite Z.opp_involutive. apply Num.round_pos_positive; [apply pow10_pos; lia|].
    assert (10 ^ k <= Num.U).
    { transitivity (10 ^ 300); [apply Z.pow_le_mono_r; lia|]. unfold Num.U. lia. }
    nia.
Qed.

Lemma fixed_digits_text n f :
  0 <= n -> 0 < f -> decimal_text (fixed_digits n f) n f.
Proof.
  intros Hn Hf. unfold fixed_digits. rewrite (proj2 (Z.eqb_neq _ _)) by lia.
  destruct (string_of_nonneg_spec n Hn) as [Hd Hv].
  set (m' := pad_start (string_of_nonneg n) (f + 1) "0").
  assert (all_digits m' = true) as Hd'.
  { unfold m', pad_start, all_digits in *. by rewrite all_chars_app, all_chars_repeat, Hd. }
  assert (dval 0 m' = n) as Hv'.
  { unfold m', pad_start. by rewrite dval_app, dval_zeros. }
  assert (f + 1 <= slen m') as Hl.
  { unfold m', pad_start. rewrite slen_app, slen_repeat. lia. }
  set (i := (String.length m' - Z.to_nat f)%nat).
  assert (slen (stake i m') = Z.of_nat i) as Hi.
  { apply slen_take. unfold i, slen. lia. }
  pose proof (take_drop_string i m') as Htd.
  assert (slen (sdrop i m') = f) as Hf'.
  { pose proof (slen_app (stake i m') (sdrop i m')). rewrite Htd in *.
    unfold i, slen in *. lia. }
  assert (decimal_text (stake i m' +:+ "." +:+ sdrop i m')
            (dval 0 (stake i m' +:+ sdrop i m')) (slen (sdrop i m'))) as H.
  { apply dt_frac.
    - by apply all_chars_take.
    - intros E. rewrite E in Hi. unfold slen in *. simpl in Hi. unfold i in Hi. lia.
    - by apply all_chars_drop.
    - intros E. rewrite E in Hf'. unfold slen in Hf'. simpl in Hf'. lia. }
  rewrite Htd, Hv', Hf' in H. exact H.
Qed.

Lemma span_digits_inv s w r :
  span_digits s = (w, r) -> s = w +:+ r /\ all_digits w = true.
Proof.
  revert w r. induction s as [|c s IH]; intros w r; simpl.
  - by intros [= <- <-].
  - destruct (is_digit c) eqn:Hc; [|by intros [= <- <-]].
    destruct (span_digits s) as [d r'] eqn:E. intros [= <- <-].
    destruct (IH d r' eq_refl) as [-> Hd]. app_simpl.
    unfold all_digits in *. simpl. by rewrite Hc.
Qed.

Lemma js_length_digits s : all_digits s = true -> js_length s = slen s.
Proof.
  unfold all_digits. induction s as [|c s IH]; [done|].
  cbn [all_chars js_length]. rewrite andb_true_iff, slen_cons. intros [Hc Hs].
  rewrite IH by done. unfold units_of_byte, is_digit, in_range in *.
  rewrite (proj2 (Z.ltb_lt _ _)) by lia. done.
Qed.
