(* ===== verification/JsVal.v ===== *)
(** * JavaScript values, property access and exceptions

    The replies of the daemon, of the wallet RPC, of the bridge API and of the contracts are
    dynamically typed: the wallet reads them with property accesses, [||], optional chaining and
    [Number()].  [jsval] is the type of such values; [result] is a computation that returns a
    value or throws.  A thrown value is an [Error] object, with the optional [shortMessage] and
    [reason] of the contract library's errors. *)

From Stdlib Require Import Ascii String.
From S2P Require Import Prelude JsNumber JsString JsConv.

#[local] Set Warnings "-register-all".

Inductive jsval :=
| JUndef
| JNull
| JBool (b : bool)
| JNum (x : num)
| JBig (n : Z)
| JStr (s : string)
| JArr (l : list jsval)
| JObj (o : list (string * jsval)).

Record jserr := JsErr {
  message : string;
  shortMessage : string;      (* "" when absent *)
  reason : string             (* "" when absent *)
}.

(** [new Error(m)]. *)
Definition Error (m : string) : jserr := JsErr m "" "".

(** [e.shortMessage || e.reason || e.message]. *)
Definition err_text (e : jserr) : string :=
  if negb (String.eqb (shortMessage e) "") then shortMessage e
  else if negb (String.eqb (reason e) "") then reason e
  else message e.

Inductive result (A : Type) :=
| Ok (a : A)
| Throw (e : jserr).
Arguments Ok {A} a.
Arguments Throw {A} e.

Definition rbind {A B} (r : result A) (f : A -> result B) : result B :=
  match r with Ok a => f a | Throw e => Throw e end.

Declare Scope js_scope.
Delimit Scope js_scope with js.
Notation "x <-! r ; k" := (rbind r (fun x => k))
  (at level 60, r at next level, right associativity) : js_scope.
Open Scope js_scope.

(** ** Conversions *)

Definition truthy (v : jsval) : bool :=
  match v with
  | JUndef | JNull => false
  | JBool b => b
  | JNum x => negb (Num.is_nan x) && negb (Num.eqb x (Fin 0))
  | JBig n => negb (n =? 0)
  | JStr s => negb (String.eqb s "")
  | JArr _ | JObj _ => true
  end.

(** [a || b]. *)
Definition js_or (a b : jsval) : jsval := if truthy a then a else b.

Definition is_nullish (v : jsval) : bool :=
  match v with JUndef | JNull => true | _ => false end.

(** [String(v)]; an object prints as [[object Object]]. *)
Fixpoint to_str (v : jsval) : string :=
  match v with
  | JUndef => "undefined"
  | JNull => "null"
  | JBool b => if b then "true" else "false"
  | JNum x => num_to_string x
  | JBig n => string_of_Z n
  | JStr s => s
  | JArr l => join "," (map (fun x => match x with JUndef | JNull => "" | _ => to_str x end) l)
  | JObj _ => "[object Object]"
  end.

(** [Number(v)]. *)
Definition to_number (v : jsval) : num :=
  match v with
  | JUndef => NaN
  | JNull => Fin 0
  | JBool b => if b then Num.of_Z 1 else Fin 0
  | JNum x => x
  | JBig n => Num.of_Z n
  | JStr s => number_of_string s
  | JArr _ | JObj _ => number_of_string (to_str v)
  end.

(** [a === b] on primitive values; a freshly built object equals nothing. *)
Definition strict_eq (a b : jsval) : bool :=
  match a, b with
  | JUndef, JUndef | JNull, JNull => true
  | JBool x, JBool y => Bool.eqb x y
  | JNum x, JNum y => Num.eqb x y
  | JBig x, JBig y => x =? y
  | JStr x, JStr y => String.eqb x y
  | _, _ => false
  end.

(** ** Objects *)

Fixpoint obj_get (o : list (string * jsval)) (k : string) : jsval :=
  match o with
  | [] => JUndef
  | (k', v) :: o' => if String.eqb k k' then v else obj_get o' k
  end.

Fixpoint obj_set (o : list (string * jsval)) (k : string) (v : jsval) :
  list (string * jsval) :=
  match o with
  | [] => [(k, v)]
  | (k', v') :: o' => if String.eqb k k' then (k, v) :: o' else (k', v') :: obj_set o' k v
  end.

Definition type_error_read (what k : string) : jserr :=
  Error ("Cannot read properties of " +:+ what +:+ " (reading '" +:+ k +:+ "')").

(** [v.k]; the properties the wallet reads are own properties of the reply. *)
Definition get (v : jsval) (k : string) : result jsval :=
  match v with
  | JUndef => Throw (type_error_read "undefined" k)
  | JNull => Throw (type_error_read "null" k)
  | JObj o => Ok (obj_get o k)
  | JArr l => Ok (if String.eqb k "length" then JNum (Num.of_Z (Z.of_nat (length l)))
                  else JUndef)
  | JStr s => Ok (if String.eqb k "length" then JNum (Num.of_Z (js_length s)) else JUndef)
  | JBool _ | JNum _ | JBig _ => Ok JUndef
  end.

(** [v?.k]. *)
Definition get_opt (v : jsval) (k : string) : jsval :=
  match get v k with Ok x => x | Throw _ => JUndef end.

(** [v[i]] and [v?.[i]] on an array. *)
Definition index (v : jsval) (i : nat) : result jsval :=
  match v with
  | JUndef => Throw (type_error_read "undefined" (string_of_Z (Z.of_nat i)))
  | JNull => Throw (type_error_read "null" (string_of_Z (Z.of_nat i)))
  | JArr l => Ok (match l !! i with Some x => x | None => JUndef end)
  | JObj o => Ok (obj_get o (string_of_Z (Z.of_nat i)))
  | JStr s => Ok (match stake 1 (sdrop i s) with "" => JUndef | c => JStr c end)
  | _ => Ok JUndef
  end.
Definition index_opt (v : jsval) (i : nat) : jsval :=
  match index v i with Ok x => x | Throw _ => JUndef end.

(** Own enumerable properties, for the spread [{ ...v }]. *)
Definition entries (v : jsval) : list (string * jsval) :=
  match v with
  | JObj o => o
  | JArr l => imap (fun i x => (string_of_Z (Z.of_nat i), x)) l
  | JStr s => imap (fun i u => (string_of_Z (Z.of_nat i), JStr (utf8 u))) (utf16_units s)
  | _ => []
  end.

Definition spread (o : list (string * jsval)) (v : jsval) : list (string * jsval) :=
  foldl (fun acc '(k, x) => obj_set acc k x) o (entries v).

(** ** Lemmas *)

Lemma obj_get_set_eq o k v : obj_get (obj_set o k v) k = v.
Proof.
  induction o as [|[k' v'] o IH]; simpl.
  - by rewrite String.eqb_refl.
  - destruct (String.eqb k k') eqn:E; simpl; [by rewrite String.eqb_refl|by rewrite E].
Qed.

Lemma obj_get_set_ne o k k' v : k <> k' -> obj_get (obj_set o k v) k' = obj_get o k'.
Proof.
  intros Hne. induction o as [|[k0 v0] o IH]; simpl.
  - destruct (String.eqb_spec k' k); [congruence|done].
  - destruct (String.eqb_spec k k0) as [<-|]; simpl.
    + destruct (String.eqb_spec k' k); [congruence|done].
    + destruct (String.eqb k' k0); [done|exact IH].
Qed.

Lemma NoDup_obj_set o k v : NoDup (map fst o) -> NoDup (map fst (obj_set o k v)).
Proof.
  induction o as [|[k' v'] o IH]; intros Hnd; cbn [obj_set map fst].
  { apply NoDup_singleton. }
  cbn [map fst] in Hnd. apply NoDup_cons in Hnd as [Hk Hnd].
  destruct (String.eqb_spec k k') as [->|Hne]; cbn [map fst]; apply NoDup_cons; (split; [|auto]); [done|].
  intros Hin. apply Hk. clear -Hin Hne. induction o as [|[k0 v0] o IH]; cbn [obj_set map fst] in *.
  - apply list_elem_of_singleton in Hin. congruence.
  - destruct (String.eqb_spec k k0) as [->|]; cbn [map fst] in *; apply elem_of_cons in Hin as [->|Hin];
      apply elem_of_cons; auto.
Qed.

(** A property of a spread is the spread value's own property when it has one. *)
Lemma obj_get_spread o o' k :
  NoDup (map fst o') ->
  obj_get (spread o (JObj o')) k = if bool_decide (k ∈ map fst o') then obj_get o' k else obj_get o k.
Proof.
  unfold spread. simpl. revert o.
  induction o' as [|[k' v'] o' IH]; intros o Hnd.
  { rewrite bool_decide_eq_false_2; [done|apply not_elem_of_nil]. }
  cbn [map fst foldl obj_get] in *.
  apply NoDup_cons in Hnd as [Hk' Hnd]. rewrite IH by done.
  destruct (String.eqb_spec k k') as [->|Hne]; repeat case_bool_decide;
    try rewrite obj_get_set_eq; try rewrite obj_get_set_ne by congruence;
    try done; set_solver.
Qed.

Lemma strict_eq_eq a b : strict_eq a b = true -> a = b.
Proof.
  destruct a as [| | |x|x|x| |], b as [| | |y|y|y| |]; cbn [strict_eq]; try done.
  - by intros ->%Bool.eqb_prop.
  - destruct x as [|[]|], y as [|[]|]; cbn [Num.eqb]; try done. by intros ->%Z.eqb_eq.
  - by intros ->%Z.eqb_eq.
  - by intros ->%String.eqb_eq.
Qed.

Lemma truthy_str s : truthy (JStr s) = true <-> s <> "".
Proof. simpl. rewrite negb_true_iff, String.eqb_neq. done. Qed.

(** A value of which a property is truthy is an object, all of whose properties can be read. *)
Lemma get_defined v k k' : truthy (get_opt v k) = true -> get v k' = Ok (get_opt v k').
Proof. unfold get_opt. by destruct v. Qed.

#[export] Instance is_null_dec (v : jsval) : Decision (v = JNull).
Proof. destruct v; ((by left) || (by right)). Defined.

Lemma get_truthy v k : truthy v = true -> get v k = Ok (get_opt v k).
Proof. unfold get_opt. by destruct v. Qed.
Lemma get_same v k k' w : get v k = Ok w -> get v k' = Ok (get_opt v k').
Proof. unfold get_opt. by destruct v. Qed.

Lemma js_or_truthy a b : truthy a = true -> js_or a b = a.
Proof. unfold js_or. by intros ->. Qed.

Lemma js_or_falsy a b : truthy a = false -> js_or a b = b.
Proof. unfold js_or. by intros ->. Qed.

(** Evaluate property reads of literal objects. *)
Ltac js_get :=
  cbn [get get_opt obj_get];
  repeat match goal with
  | |- context [String.eqb ?a ?b] =>
      let v := eval vm_compute in (String.eqb a b) in
      first [constr_eq v true | constr_eq v false];
      change (String.eqb a b) with v
  end;
  cbn iota.
