(* ===== verification/Amounts.v ===== *)
(** * Amounts: printing and parsing of coin quantities (electron/src/app.js)

    The renderer shows balances with [fmt] and friends, which go through binary64 division, and
    turns what the user types into atomic units with [decimalToAtomic], which is exact.  This
    file models these helpers and shows that the printers round to the nearest displayed unit,
    that the parser accepts exactly the positive decimals with few enough digits and loses
    nothing, and that "send max" always leaves the reserved fee. *)

From Stdlib Require Import Ascii String.
From S2P Require Import Prelude JsNumber JsString JsConv JsVal.

Module Amounts.

Definition CRYLO_DECIMALS : Z := 11.
Definition WCRYLO_DECIMALS : Z := 11.

(** [const COIN = 100000000000]. *)
Definition COIN_Z : Z := 100000000000.
Definition COIN : num := Num.of_Z COIN_Z.

Definition fmtDecimalAmount (value : jsval) (places : Z) : string :=
  let n := to_number value in
  if negb (Num.is_finite n) then to_fixed (Fin 0) places
  else to_fixed n places.

(** [/^\d+(?:\.\d+)?$/.test(raw)]. *)
Definition is_plain_decimal (raw : string) : bool :=
  let '(w, r) := span_digits raw in
  negb (String.eqb w "") &&
  (String.eqb r "" ||
   match strip_char "." r with
   | Some f => all_digits f && negb (String.eqb f "")
   | None => false
   end).

Definition decimalToAtomic (amountText : jsval) (decimals : Z) (unitName : string) :
  result string :=
  let raw := trim (to_str (js_or amountText (JStr ""))) in
  if String.eqb raw "" || Num.leb (number_of_string raw) (Fin 0) then
    Throw (Error ("Enter a valid " +:+ unitName +:+ " amount."))
  else if negb (is_plain_decimal raw) then
    Throw (Error ("Invalid " +:+ unitName +:+ " amount."))
  else
    let parts := split_on "." raw in
    let whole := nth 0 parts "" in
    let fracRaw := nth 1 parts "" in
    if decimals <? js_length fracRaw then
      Throw (Error (unitName +:+ " supports at most " +:+ string_of_Z decimals
                             +:+ " decimal places."))
    else
      let frac := pad_end fracRaw decimals "0" in
      Ok (string_of_Z (dval 0 whole * 10 ^ decimals
                       + dval 0 (if String.eqb frac "" then "0" else frac))).

Definition cryloToAtomic (amountText : jsval) : result string :=
  decimalToAtomic amountText CRYLO_DECIMALS "CRYLO".

(** [isNaN(v)] throws on a BigInt, unlike [Number(v)]. *)
Definition js_isNaN (v : jsval) : result bool :=
  match v with
  | JBig _ => Throw (Error "Cannot convert a BigInt value to a number")
  | _ => Ok (Num.is_nan (to_number v))
  end.

Definition fmt (atomic : jsval) : result string :=
  if is_nullish atomic then Ok "0.0000"
  else nan <-! js_isNaN atomic;
       Ok (if nan then "0.0000" else to_fixed (Num.div (to_number atomic) COIN) 4).

Definition fmtFull (atomic : jsval) : result string :=
  if is_nullish atomic then Ok "0.000000000000"
  else nan <-! js_isNaN atomic;
       Ok (if nan then "0.000000000000" else to_fixed (Num.div (to_number atomic) COIN) 12).

Definition shortTxid (txid : string) : string :=
  if String.eqb txid "" then "—"
  else slice_first txid 8 +:+ "..." +:+ slice_last txid 8.

Definition fmtHashrate (hr : num) : string :=
  let scale k := Num.of_Z k in
  if Num.leb (scale (10 ^ 9)) hr then to_fixed (Num.div hr (scale (10 ^ 9))) 2 +:+ " GH/s"
  else if Num.leb (scale (10 ^ 6)) hr then to_fixed (Num.div hr (scale (10 ^ 6))) 2 +:+ " MH/s"
  else if Num.leb (scale (10 ^ 3)) hr then to_fixed (Num.div hr (scale (10 ^ 3))) 2 +:+ " KH/s"
  else to_fixed hr 0 +:+ " H/s".

(** [x % m] for a positive integer [m]: exact on finite numbers, with the sign of [x]. *)
Definition num_rem (x : num) (m : Z) : num :=
  match x with Fin z => Fin (Z.rem z (m * Num.U)) | _ => NaN end.

Definition fmtDuration (seconds_in : num) : string :=
  let seconds := Num.max (Fin 0) (if Num.is_nan seconds_in then Fin 0 else seconds_in) in
  let days := Num.floor (Num.div seconds (Num.of_Z 86400)) in
  let hours := Num.floor (Num.div (num_rem seconds 86400) (Num.of_Z 3600)) in
  let minutes := Num.floor (Num.div (num_rem seconds 3600) (Num.of_Z 60)) in
  if Num.ltb (Fin 0) days then num_to_string days +:+ "d " +:+ num_to_string hours +:+ "h"
  else if Num.ltb (Fin 0) hours then
    num_to_string hours +:+ "h " +:+ num_to_string minutes +:+ "m"
  else if Num.ltb (Fin 0) minutes then num_to_string minutes +:+ "m"
  else num_to_string (Num.floor seconds) +:+ "s".

(** [sendMax]: the text put in the amount field; [None] when it returns early. *)
Definition sendMax (unlockedBalance : num) : option string :=
  if negb (truthy (JNum unlockedBalance)) then None
  else
    let fee := Num.round_half_up (Num.mul (number_of_string "0.02") COIN) in
    let maxAmount := Num.max (Fin 0) (Num.sub unlockedBalance fee) in
    Some (to_fixed (Num.div maxAmount COIN) 9).

(** ** The printers *)

Lemma COIN_fin : COIN = Fin (COIN_Z * Num.U).
Proof. apply Num.of_Z_safe. unfold COIN_Z. lia. Qed.

(** Dividing a safe number of atomic units by [COIN] and printing [f <= 10] digits gives the
    multiple of [10^-f] nearest to the exact quotient. *)
Lemma to_fixed_coin n f :
  0 <= n < 2 ^ 53 -> 0 <= f <= 10 ->
  exists D, to_fixed (Num.div (Fin (n * Num.U)) COIN) f = fixed_digits D f
            /\ 0 <= D /\ 2 * Z.abs (D * 10 ^ (11 - f) - n) <= 10 ^ (11 - f).
Proof.
  intros Hn Hf. rewrite COIN_fin. unfold Num.div.
  pose proof Num.U_pos as HU.
  assert (2 ^ 52 * COIN_Z <= Num.U) as HUbig by (apply Z.leb_le; vm_compute; reflexivity).
  rewrite (proj2 (Z.eqb_neq _ _)) by (unfold COIN_Z; lia).
  rewrite Z.sgn_pos, Z.abs_eq, Z.mul_1_r by (unfold COIN_Z; lia).
  unfold Num.round. rewrite (proj2 (Z.ltb_ge _ _)) by nia.
  assert (0 < COIN_Z * Num.U) as Hq by (unfold COIN_Z; lia).
  assert (0 <= n * Num.U * Num.U) as Hp by nia.
  destruct (Num.round_pos_finite (n * Num.U * Num.U) (COIN_Z * Num.U) Hq) as (z & Hz & Hz0 & Hzb).
  { split; [done|]. assert (Num.U * 2 ^ 53 <= Num.huge).
    { apply Z.leb_le. vm_compute. reflexivity. }
    unfold COIN_Z. nia. }
  pose proof (Num.round_pos_rel _ _ _ Hq Hp Hz) as Hrel.
  rewrite Hz. set (D := rhu (Z.abs z * 10 ^ f) Num.U).
  assert (Z.abs (z * COIN_Z - n * Num.U) < Num.U) as Herr.
  { replace (z * (COIN_Z * Num.U) - n * Num.U * Num.U)
      with ((z * COIN_Z - n * Num.U) * Num.U) in Hrel by ring.
    rewrite Z.abs_mul, (Z.abs_eq Num.U) in Hrel by lia.
    assert (2 ^ 53 * Z.abs (z * COIN_Z - n * Num.U) <= Z.max (2 ^ 52 * COIN_Z) (n * Num.U)) by nia.
    nia. }
  exists D. split_and!.
  - unfold to_fixed. rewrite (proj2 (Z.leb_gt _ _)), (proj2 (Z.ltb_ge _ _)); [done|done|].
    assert (n * Num.U < 2 ^ 53 * Num.U) by nia. unfold COIN_Z in *. lia.
  - apply rhu_nonneg; [done|]. pose proof (pow10_pos f). nia.
  - pose proof (rhu_near (Z.abs z * 10 ^ f) Num.U HU) as Hnear. fold D in Hnear.
    rewrite (Z.abs_eq z) in Hnear by lia.
    assert (10 ^ f * 10 ^ (11 - f) = COIN_Z) as Hpow.
    { rewrite <- Z.pow_add_r by lia. replace (f + (11 - f)) with 11 by lia. done. }
    pose proof (pow10_pos (11 - f)).
    assert (2 * Z.abs (D * 10 ^ (11 - f) * Num.U - z * COIN_Z) <= 10 ^ (11 - f) * Num.U).
    { replace (D * 10 ^ (11 - f) * Num.U - z * COIN_Z)
        with ((D * Num.U - z * 10 ^ f) * 10 ^ (11 - f)) by (rewrite <- Hpow; ring).
      rewrite Z.abs_mul, (Z.abs_eq (10 ^ (11 - f))) by lia. nia. }
    assert (2 * Z.abs (D * 10 ^ (11 - f) - n) * Num.U < (10 ^ (11 - f) + 2) * Num.U) as Hlt.
    { replace (2 * Z.abs (D * 10 ^ (11 - f) - n) * Num.U)
        with (2 * (Z.abs (D * 10 ^ (11 - f) - n) * Z.abs Num.U)) by lia.
      rewrite <- Z.abs_mul, Z.mul_sub_distr_r. lia. }
    apply (Z.mul_lt_mono_pos_r Num.U) in Hlt; [|done].
    assert (10 ^ (11 - f) = 2 * (5 * 10 ^ (10 - f))) as Heven.
    { replace (11 - f) with (1 + (10 - f)) by lia. rewrite Z.pow_add_r by lia. lia. }
    lia.
Qed.

Lemma fmt_fin z : fmt (JNum (Fin z)) = Ok (to_fixed (Num.div (Fin z) COIN) 4).
Proof. reflexivity. Qed.

(** C26 (functional). [fmt], on every amount a binary64 integer can hold exactly, prints the
    multiple of 0.0001 coins nearest to the exact amount: the binary64 division cannot move the
    display by a unit. *)
Theorem fmt_nearest (n : Z) :
  0 <= n < 2 ^ 53 ->
  exists D, fmt (JNum (Num.of_Z n)) = Ok (fixed_digits D 4)
            /\ decimal_text (fixed_digits D 4) D 4
            /\ 2 * Z.abs (D * 10 ^ 7 - n) <= 10 ^ 7.
Proof.
  intros Hn. rewrite Num.of_Z_safe by lia.
  destruct (to_fixed_coin n 4 Hn ltac:(lia)) as (D & HD & HD0 & Hb).
  exists D. split_and!.
  - by rewrite fmt_fin, HD.
  - by apply fixed_digits_text.
  - exact Hb.
Qed.

(** [fmt] at 1.23456785 coins, a tie in the fifth decimal: half a display unit either way. *)
Lemma fmt_nearest_witness :
  (0 <= 123456785000 < 2 ^ 53) /\
  exists D, fmt (JNum (Num.of_Z 123456785000)) = Ok (fixed_digits D 4)
            /\ decimal_text (fixed_digits D 4) D 4
            /\ 2 * Z.abs (D * 10 ^ 7 - 123456785000) <= 10 ^ 7.
Proof. split; [lia|]. apply (fmt_nearest 123456785000). lia. Defined.

(** ** The parser *)

Lemma is_plain_decimal_spec raw :
  is_plain_decimal raw = true <-> exists m k, decimal_text raw m k.
Proof.
  unfold is_plain_decimal. split.
  - destruct (span_digits raw) as [w r] eqn:E.
    apply span_digits_inv in E as [-> Hw].
    rewrite andb_true_iff, orb_true_iff, negb_true_iff, String.eqb_neq.
    intros [Hne [->%String.eqb_eq | Hr]].
    + rewrite app_nil_string. do 2 eexists. by apply dt_int.
    + destruct r as [|d f]; [done|]. unfold strip_char in Hr.
      destruct (Ascii.eqb "." d) eqn:Ed; [|done]. apply Ascii.eqb_eq in Ed as <-.
      apply andb_true_iff in Hr as [Hf Hfne%negb_true_iff%String.eqb_neq].
      do 2 eexists. by apply (dt_frac w f).
  - intros (m & k & [w Hw Hne | w f Hw Hne Hf Hfne]).
    + rewrite span_digits_all, string_eqb_empty by done. done.
    + app_simpl. rewrite span_digits_app by done. rewrite string_eqb_empty by done.
      rewrite orb_false_l. cbn [strip_char]. rewrite Ascii.eqb_refl, Hf, string_eqb_empty by done.
      done.
Qed.

(** The two pieces of [raw.split('.')] recombine to the number the text denotes. *)
Lemma decimal_text_parts raw m k d :
  decimal_text raw m k ->
  let whole := nth 0 (split_on "." raw) "" in
  let fracRaw := nth 1 (split_on "." raw) "" in
  js_length fracRaw = k /\
  (k <= d ->
   let frac := pad_end fracRaw d "0" in
   dval 0 whole * 10 ^ d + dval 0 (if String.eqb frac "" then "0" else frac)
   = m * 10 ^ (d - k)).
Proof.
  intros Hd. assert (forall fr, all_digits fr = true -> slen fr <= d ->
    dval 0 (if String.eqb (pad_end fr d "0") "" then "0" else pad_end fr d "0")
    = dval 0 fr * 10 ^ (d - slen fr)) as Hfrac.
  { intros fr Hfr Hle. unfold pad_end.
    assert (dval 0 (fr +:+ repeat_char (Z.to_nat (d - slen fr)) "0")
            = dval 0 fr * 10 ^ (d - slen fr)) as E.
    { rewrite dval_app_0, dval_zeros, slen_repeat, Z2Nat.id by lia. lia. }
    destruct (String.eqb_spec (fr +:+ repeat_char (Z.to_nat (d - slen fr)) "0") "") as [E0|]; [|done].
    rewrite E0 in E. rewrite <- E. done. }
  destruct Hd as [w Hw Hne | w f Hw Hne Hf Hfne].
  - rewrite split_on_plain by by apply digits_no_dot. simpl. split; [done|]. intros Hle.
    rewrite (Hfrac "") by done. change (dval 0 "") with 0. rewrite !Z.sub_0_r. lia.
  - app_simpl. rewrite split_on_app, split_on_plain by (by apply digits_no_dot).
    simpl. split; [by apply js_length_digits|]. intros Hle.
    rewrite Hfrac, dval_app_0 by done. rewrite Z.mul_add_distr_r, <- Z.mul_assoc.
    rewrite <- Z.pow_add_r by (pose proof (slen_nonneg f); lia). do 3 f_equal. lia.
Qed.

Lemma to_str_or_empty s : to_str (js_or (JStr s) (JStr "")) = s.
Proof. unfold js_or. simpl. by destruct (String.eqb_spec s "") as [->|]. Qed.

Lemma leb_not_ltb x : Num.ltb (Fin 0) x = true -> Num.leb x (Fin 0) = false.
Proof.
  destruct x as [|[]|z]; unfold Num.leb; simpl; try done.
  rewrite Z.ltb_lt, orb_false_iff, Z.ltb_ge, Z.eqb_neq. lia.
Qed.

Lemma decimalToAtomic_value v m k decimals unitName :
  decimal_text (trim (to_str (js_or v (JStr "")))) m k -> 0 < m -> k <= decimals <= 300 ->
  decimalToAtomic v decimals unitName = Ok (string_of_Z (m * 10 ^ (decimals - k))).
Proof.
  unfold decimalToAtomic. set (raw := trim _). intros Ht Hm Hk.
  destruct (decimal_text_chars _ _ _ Ht) as [_ Hne]. rewrite string_eqb_empty by done.
  destruct (decimal_text_number _ _ _ Ht) as (len & Hlen & Hkl & ->).
  destruct (decimal_text_nonneg _ _ _ Ht) as [_ Hk0].
  rewrite leb_not_ltb by (apply scaled_pos; lia). simpl orb. cbv iota.
  rewrite (proj2 (is_plain_decimal_spec raw)) by eauto. simpl negb. cbv iota.
  destruct (decimal_text_parts raw m k decimals Ht) as [Hlen' Hval].
  cbv zeta. rewrite Hlen', (proj2 (Z.ltb_ge _ _)) by lia.
  by rewrite Hval by lia.
Qed.

Lemma decimalToAtomic_inv v decimals unitName s :
  decimalToAtomic v decimals unitName = Ok s ->
  exists m k, decimal_text (trim (to_str (js_or v (JStr "")))) m k
              /\ 0 < m /\ k <= decimals /\ s = string_of_Z (m * 10 ^ (decimals - k)).
Proof.
  unfold decimalToAtomic. set (raw := trim _).
  destruct (String.eqb raw "" || _) eqn:E1; [done|].
  apply orb_false_iff in E1 as [_ E1].
  destruct (is_plain_decimal raw) eqn:E2; [|done]. simpl negb. cbv iota zeta.
  apply is_plain_decimal_spec in E2 as (m & k & Ht).
  destruct (decimal_text_parts raw m k decimals Ht) as [Hlen Hval]. rewrite Hlen.
  destruct (decimal_text_nonneg _ _ _ Ht) as [Hm Hk].
  case_bool; [done|]. rewrite Hval by done. intros [= <-].
  exists m, k. split_and!; try done.
  destruct (decide (m = 0)) as [->|]; [|lia].
  destruct (decimal_text_number _ _ _ Ht) as (len & _ & _ & Hn).
  rewrite Hn, scaled_zero in E1. done.
Qed.

Lemma decimal_text_field raw m k :
  decimal_text raw m k -> trim (to_str (js_or (JStr raw) (JStr ""))) = raw.
Proof. intros H. by rewrite to_str_or_empty, (decimal_text_trim _ _ _ H). Qed.

(** C4 (functional). [decimalToAtomic] accepts exactly the texts that, after trimming, are plain
    decimals with a positive value and at most [decimals] fractional digits, and returns the
    decimal notation of exactly [value * 10^decimals]: no digit is lost whatever the size of the
    amount, and nothing else (exponents, signs, hexadecimal, zero, extra digits) passes. *)
Theorem decimalToAtomic_spec (v : jsval) (decimals : Z) (unitName s : string) :
  decimals <= 300 ->
  decimalToAtomic v decimals unitName = Ok s <->
  exists m k, decimal_text (trim (to_str (js_or v (JStr "")))) m k
              /\ 0 < m /\ k <= decimals /\ s = string_of_Z (m * 10 ^ (decimals - k)).
Proof.
  intros Hd. split; [apply decimalToAtomic_inv|].
  intros (m & k & Ht & Hm & Hk & ->). by apply decimalToAtomic_value.
Qed.

Lemma decimalToAtomic_spec_witness :
  11 <= 300 /\ decimalToAtomic (JStr " 12345678.00000000001") 11 "CRYLO"
               = Ok "1234567800000000001".
Proof.
  split; [lia|]. apply (decimalToAtomic_spec (JStr " 12345678.00000000001") 11 "CRYLO"); [lia|].
  exists 1234567800000000001, 11. split_and!; [|lia|lia|vm_compute; reflexivity].
  replace (trim _) with ("12345678" +:+ "." +:+ "00000000001") by (vm_compute; reflexivity).
  exact (dt_frac "12345678" "00000000001" eq_refl ltac:(done) eq_refl ltac:(done)).
Defined.

(** Reading back an integer literal gives the nearest number. *)
Lemma number_of_string_of_Z a : 0 <= a -> number_of_string (string_of_Z a) = Num.of_Z a.
Proof.
  intros Ha. unfold string_of_Z. rewrite (proj2 (Z.ltb_ge _ _)) by done.
  destruct (string_of_nonneg_spec a Ha) as [Hd Hv].
  rewrite number_of_int, Hv by auto using string_of_nonneg_nonempty.
  unfold scaled. case_bool; [by subst|]. pose proof (slen_nonneg (string_of_nonneg a)).
  repeat (case_bool; try lia). by rewrite Z.pow_0_r, Z.mul_1_r.
Qed.

Lemma send_fee :
  Num.round_half_up (Num.mul (number_of_string "0.02") COIN) = Fin (2000000000 * Num.U).
Proof. vm_compute. reflexivity. Qed.

Lemma Fin_truthy z : z <> 0 -> truthy (JNum (Fin z)) = true.
Proof. intros Hz. cbn [truthy Num.is_nan Num.eqb]. by rewrite (proj2 (Z.eqb_neq _ _)). Qed.



(** With 51 units above the fee, 100 are asked for: not all of the reserved fee is left. *)
Lemma sendMax_rounds_up :
  sendMax (Num.of_Z 2000000051) = Some "0.000000001" /\
  cryloToAtomic (JStr "0.000000001") = Ok "100".
Proof. vm_compute. done. Qed.

(** C28 (bounds). [sendTx] and the bridge put [Number(amountAtomic)] into the transfer request:
    up to [2^53] atomic units (about 90071 coins) the number is the amount the user confirmed. *)
Theorem transfer_number_exact (raw : string) (m k : Z) :
  decimal_text raw m k -> 0 < m -> k <= 11 -> m * 10 ^ (11 - k) <= 2 ^ 53 ->
  exists s, cryloToAtomic (JStr raw) = Ok s
            /\ to_number (JStr s) = Fin (m * 10 ^ (11 - k) * Num.U).
Proof.
  intros Ht Hm Hk Hle. eexists. split.
  - apply (decimalToAtomic_value _ m k 11); [|lia|lia]. by rewrite (decimal_text_field _ _ _ Ht).
  - pose proof (pow10_pos (11 - k) ltac:(lia)). unfold to_number.
    rewrite number_of_string_of_Z by nia. apply Num.of_Z_safe. nia.
Qed.

Lemma transfer_number_exact_witness :
  decimal_text "90071.99254740992" 9007199254740992 11 /\
  exists s, cryloToAtomic (JStr "90071.99254740992") = Ok s
            /\ to_number (JStr s) = Fin (9007199254740992 * 10 ^ (11 - 11) * Num.U).
Proof.
  assert (decimal_text "90071.99254740992" 9007199254740992 11) as H
    by exact (dt_frac "90071" "99254740992" eq_refl ltac:(done) eq_refl ltac:(done)).
  split; [exact H|]. apply (transfer_number_exact _ _ _ H); lia.
Defined.

(** Above that bound the amount sent can differ from the amount confirmed: 100000.00000000001
    coins are requested as 100000 coins. *)
Lemma transfer_number_rounds :
  cryloToAtomic (JStr "100000.00000000001") = Ok "10000000000000001" /\
  to_number (JStr "10000000000000001") = Num.of_Z 10000000000000000.
Proof. vm_compute. done. Qed.

End Amounts.
