(* ===== verification/Json.v ===== *)
(** * JSON.stringify and JSON.parse

    The wallet files, the RPC bodies and the replies are JSON texts.  [stringify] prints with an
    optional indentation step, as [JSON.stringify(v)] and [JSON.stringify(v, null, 2)] do;
    [parse] is the grammar of ECMA-404 with a fuel argument bounded by the length of the text.
    Strings are UTF-8; escapes are decoded to UTF-8. *)

From Stdlib Require Import Ascii String.
From S2P Require Import Prelude JsNumber JsString JsConv JsVal.

Module Json.

(** ** Printing *)

Definition hex_digit (n : Z) : ascii := if n <? 10 then chr (48 + n) else chr (87 + n).

Definition escape_char (c : ascii) : string :=
  let b := byte_of c in
  if b =? 34 then bytes [92; 34]
  else if b =? 92 then bytes [92; 92]
  else if b =? 8 then "\b"
  else if b =? 12 then "\f"
  else if b =? 10 then "\n"
  else if b =? 13 then "\r"
  else if b =? 9 then "\t"
  else if b <? 32 then "\u00" +:+ String (hex_digit (b / 16)) (String (hex_digit (b mod 16)) "")
  else String c "".

Fixpoint escape (s : string) : string :=
  match s with "" => "" | String c r => escape_char c +:+ escape r end.

Definition dquote : ascii := chr 34.
Definition quote (s : string) : string := String dquote (escape s +:+ String dquote "").

Definition newline : string := bytes [10].

(** The items of an array or object between brackets, one per line when [gap] is not empty. *)
Definition bracket (gap ind : string) (op cl : string) (items : list string) : string :=
  match items with
  | [] => op +:+ cl
  | _ =>
      if String.eqb gap "" then op +:+ join "," items +:+ cl
      else op +:+ newline +:+ ind +:+ gap
              +:+ join ("," +:+ newline +:+ ind +:+ gap) items
              +:+ newline +:+ ind +:+ cl
  end.

Definition colon (gap : string) : string := if String.eqb gap "" then ":" else ": ".

(** [None] for [undefined], which objects omit and arrays print as [null]. *)
Fixpoint ser (gap ind : string) (v : jsval) : option string :=
  match v with
  | JUndef | JBig _ => None
  | JNull => Some "null"
  | JBool b => Some (if b then "true" else "false")
  | JNum x => Some (if Num.is_finite x then num_to_string x else "null")
  | JStr s => Some (quote s)
  | JArr l =>
      Some (bracket gap ind "[" "]"
              (map (fun x => match ser gap (ind +:+ gap) x with Some t => t | None => "null" end) l))
  | JObj o =>
      Some (bracket gap ind "{" "}"
              (omap (fun '(k, x) => match ser gap (ind +:+ gap) x with
                                    | Some t => Some (quote k +:+ colon gap +:+ t)
                                    | None => None
                                    end) o))
  end.

Fixpoint has_bigint (v : jsval) : bool :=
  match v with
  | JBig _ => true
  | JArr l => existsb has_bigint l
  | JObj o => existsb (fun '(_, x) => has_bigint x) o
  | _ => false
  end.

(** [JSON.stringify(v, null, gap)] of an object or array. *)
Definition stringify (gap : string) (v : jsval) : result string :=
  if has_bigint v then Throw (Error "Do not know how to serialize a BigInt")
  else Ok (match ser gap "" v with Some t => t | None => "undefined" end).

(** ** Parsing *)

Definition is_ws (c : ascii) : bool :=
  let b := byte_of c in (b =? 32) || (b =? 9) || (b =? 10) || (b =? 13).

Fixpoint skip_ws (s : string) : string :=
  match s with
  | String c r => if is_ws c then skip_ws r else s
  | "" => ""
  end.

Definition hex4 (a b c d : ascii) : option Z :=
  radix_val 16 0 (String a (String b (String c (String d "")))).

Definition simple_escape (c : ascii) : option Z :=
  let b := byte_of c in
  if b =? 34 then Some 34 else if b =? 92 then Some 92 else if b =? 47 then Some 47
  else if b =? 98 then Some 8 else if b =? 102 then Some 12 else if b =? 110 then Some 10
  else if b =? 114 then Some 13 else if b =? 116 then Some 9 else None.

Definition cons_str (t : string) (r : option (string * string)) : option (string * string) :=
  match r with Some (s, rest) => Some (t +:+ s, rest) | None => None end.

(** The characters of a string literal after its opening quote, and the rest of the text. *)
Fixpoint parse_str (s : string) : option (string * string) :=
  match s with
  | "" => None
  | String c r =>
      if byte_of c =? 34 then Some ("", r)
      else if byte_of c <? 32 then None
      else if negb (byte_of c =? 92) then cons_str (String c "") (parse_str r)
      else
        match r with
        | "" => None
        | String e r1 =>
            match simple_escape e with
            | Some b => cons_str (bytes [b]) (parse_str r1)
            | None =>
                if negb (byte_of e =? 117) then None
                else
                  match r1 with
                  | String h1 (String h2 (String h3 (String h4 r2))) =>
                      match hex4 h1 h2 h3 h4 with
                      | None => None
                      | Some u =>
                          match r2 with
                          | String b1 (String b2 (String l1 (String l2 (String l3 (String l4 r3))))) =>
                              match hex4 l1 l2 l3 l4 with
                              | Some l =>
                                  if (byte_of b1 =? 92) && (byte_of b2 =? 117)
                                     && in_range 55296 56319 u && in_range 56320 57343 l
                                  then cons_str (utf8 (65536 + (u - 55296) * 1024 + (l - 56320)))
                                                (parse_str r3)
                                  else cons_str (utf8 u) (parse_str r2)
                              | None => cons_str (utf8 u) (parse_str r2)
                              end
                          | _ => cons_str (utf8 u) (parse_str r2)
                          end
                      end
                  | _ => None
                  end
            end
        end
  end.

Definition number_char (c : ascii) : bool :=
  is_digit c || Ascii.eqb c "." || Ascii.eqb c "e" || Ascii.eqb c "E" || Ascii.eqb c "+"
  || Ascii.eqb c "-".

(** [-? (0 | [1-9][0-9]* ) frac? exp?]. *)
Fixpoint span_number (s : string) : string * string :=
  match s with
  | String c r =>
      if number_char c
      then let '(d, r') := span_number r in (String c d, r') else ("", s)
  | "" => ("", "")
  end.

Definition json_number (lit : string) : option num :=
  let '(sg, body) := match strip_char "-" lit with Some r => (-1, r) | None => (1, lit) end in
  let '(w, r) := span_digits body in
  let leading_ok := match w with
                    | "" => false
                    | String c r => negb (Ascii.eqb c "0") || String.eqb r ""
                    end in
  let frac_ok := match strip_char "." r with
                 | Some f => negb (String.eqb (fst (span_digits f)) "")
                 | None => true
                 end in
  if leading_ok && frac_ok then
    match parse_unsigned body with
    | Some x => Some (if sg =? -1 then Num.num_neg x else x)
    | None => None
    end
  else None.

Definition head_is (b : Z) (s : string) : bool :=
  match s with String c _ => byte_of c =? b | "" => false end.

Fixpoint parse_value (fuel : nat) (s0 : string) : option (jsval * string) :=
  match fuel with
  | O => None
  | S fuel' =>
      let s := skip_ws s0 in
      match s with
      | "" => None
      | String c r =>
          let b := byte_of c in
          if b =? 34 then
            match parse_str r with Some (t, r') => Some (JStr t, r') | None => None end
          else if b =? 123 then
            if head_is 125 (skip_ws r) then Some (JObj [], sdrop 1 (skip_ws r))
            else parse_members fuel' [] r
          else if b =? 91 then
            if head_is 93 (skip_ws r) then Some (JArr [], sdrop 1 (skip_ws r))
            else parse_elements fuel' [] r
          else if starts_with "true" s then Some (JBool true, sdrop 4 s)
          else if starts_with "false" s then Some (JBool false, sdrop 5 s)
          else if starts_with "null" s then Some (JNull, sdrop 4 s)
          else
            let '(lit, r') := span_number s in
            match json_number lit with Some x => Some (JNum x, r') | None => None end
      end
  end
with parse_members (fuel : nat) (acc : list (string * jsval)) (s0 : string) :
  option (jsval * string) :=
  match fuel with
  | O => None
  | S fuel' =>
      let s := skip_ws s0 in
      if head_is 34 s then
        match parse_str (sdrop 1 s) with
        | Some (k, r) =>
            let r1 := skip_ws r in
            if head_is 58 r1 then
              match parse_value fuel' (sdrop 1 r1) with
              | Some (v, r2) =>
                  let r3 := skip_ws r2 in
                  if head_is 44 r3 then parse_members fuel' (obj_set acc k v) (sdrop 1 r3)
                  else if head_is 125 r3 then Some (JObj (obj_set acc k v), sdrop 1 r3)
                  else None
              | None => None
              end
            else None
        | None => None
        end
      else None
  end
with parse_elements (fuel : nat) (acc : list jsval) (s0 : string) : option (jsval * string) :=
  match fuel with
  | O => None
  | S fuel' =>
      match parse_value fuel' s0 with
      | Some (v, r) =>
          let r1 := skip_ws r in
          if head_is 44 r1 then parse_elements fuel' (acc ++ [v]) (sdrop 1 r1)
          else if head_is 93 r1 then Some (JArr (acc ++ [v]), sdrop 1 r1)
          else None
      | None => None
      end
  end.

(** [JSON.parse(text)]; the message of the thrown [SyntaxError] is not modelled further. *)
Definition parse (text : string) : result jsval :=
  match parse_value (S (2 * String.length text)) text with
  | Some (v, r) => if String.eqb (skip_ws r) "" then Ok v
                   else Throw (Error "Unexpected non-whitespace character after JSON")
  | None => Throw (Error "Unexpected token in JSON")
  end.

(** A parsed value is a JSON value: not [undefined], and an object's keys are distinct. *)
Definition json_value (v : jsval) : Prop :=
  match v with JUndef | JBig _ => False | JObj o => NoDup (map fst o) | _ => True end.

Lemma parse_members_json fuel acc s v r :
  NoDup (map fst acc) -> parse_members fuel acc s = Some (v, r) -> json_value v.
Proof.
  revert acc s. induction fuel as [|fuel IH]; intros acc s Hnd; cbn [parse_members]; [done|].
  destruct (head_is 34 _); [|done]. destruct (parse_str _) as [[k r']|]; [|done].
  destruct (head_is 58 _); [|done]. destruct (parse_value _ _) as [[w r2]|]; [|done].
  pose proof (NoDup_obj_set acc k w Hnd) as Hnd'.
  destruct (head_is 44 _); [by apply IH|]. destruct (head_is 125 _); [|done]. by intros [= <- <-].
Qed.

Lemma parse_elements_json fuel acc s v r :
  parse_elements fuel acc s = Some (v, r) -> json_value v.
Proof.
  revert acc s. induction fuel as [|fuel IH]; intros acc s; cbn [parse_elements]; [done|].
  destruct (parse_value _ _) as [[w r2]|]; [|done].
  destruct (head_is 44 _); [by apply IH|]. destruct (head_is 93 _); [|done]. by intros [= <- <-].
Qed.

Lemma parse_value_json fuel s v r : parse_value fuel s = Some (v, r) -> json_value v.
Proof.
  destruct fuel as [|fuel]; cbn [parse_value]; [done|]. destruct (skip_ws s) as [|c rest]; [done|].
  destruct (_ =? 34). { destruct (parse_str rest) as [[t r']|]; [|done]. by intros [= <- <-]. }
  destruct (_ =? 123).
  { destruct (head_is 125 _); [intros [= <- <-]; apply NoDup_nil_2|].
    apply parse_members_json. apply NoDup_nil_2. }
  destruct (_ =? 91).
  { destruct (head_is 93 _); [by intros [= <- <-]|]. apply parse_elements_json. }
  do 3 (destruct (starts_with _ _); [by intros [= <- <-]|]).
  destruct (span_number _) as [lit r']. destruct (json_number lit); [|done]. by intros [= <- <-].
Qed.

Lemma parse_json s v : parse s = Ok v -> json_value v.
Proof.
  unfold parse. destruct (parse_value _ s) as [[w r]|] eqn:E; [|done].
  destruct (String.eqb _ _); [|done]. intros [= <-]. by eapply parse_value_json.
Qed.

(** ** Round trip

    [parse] undoes [stringify] on [plain] values: those without [undefined] and BigInts, whose
    numbers print as themselves ([plain_num], evaluated on the number) and whose objects have
    distinct keys.  The wallet files and the operator's configuration are such values. *)

Section jsval_ind.
Context (P : jsval -> Prop).
Context (Hundef : P JUndef) (Hnull : P JNull) (Hbool : forall b, P (JBool b)).
Context (Hnum : forall x, P (JNum x)) (Hbig : forall n, P (JBig n)) (Hstr : forall s, P (JStr s)).
Context (Harr : forall l, Forall P l -> P (JArr l)).
Context (Hobj : forall o, Forall (fun kv => P (snd kv)) o -> P (JObj o)).

Fixpoint jsval_nested_ind (v : jsval) : P v :=
  match v with
  | JUndef => Hundef | JNull => Hnull | JBool b => Hbool b
  | JNum x => Hnum x | JBig n => Hbig n | JStr s => Hstr s
  | JArr l => Harr l ((fix go l := match l return Forall P l with
                       | [] => List.Forall_nil _
                       | x :: l' => List.Forall_cons _ _ _ (jsval_nested_ind x) (go l')
                       end) l)
  | JObj o => Hobj o ((fix go o := match o return Forall (fun kv => P (snd kv)) o with
                       | [] => List.Forall_nil _
                       | kv :: o' => List.Forall_cons _ _ _ (jsval_nested_ind (snd kv)) (go o')
                       end) o)
  end.
End jsval_ind.

(** A non-negative number whose text is read back as the same number. *)
Definition plain_num (x : num) : bool :=
  match x with
  | Fin z =>
      let t := num_to_string x in
      match t with String c _ => is_digit c | "" => false end && all_chars number_char t
      && match json_number t with Some (Fin z') => z' =? z | _ => false end
  | _ => false
  end.

Fixpoint plain (v : jsval) : bool :=
  match v with
  | JNull | JBool _ | JStr _ => true
  | JNum x => plain_num x
  | JArr l => forallb plain l
  | JObj o => forallb (fun '(_, x) => plain x) o && bool_decide (NoDup (map fst o))
  | JUndef | JBig _ => false
  end.

(** Fuel that is enough to parse the text of a plain value. *)
Fixpoint need (v : jsval) : nat :=
  match v with
  | JArr l => S (list_sum (map (fun x => S (need x)) l))
  | JObj o => S (list_sum (map (fun '(_, x) => S (need x)) o))
  | _ => 1
  end%nat.

Definition text (gap ind : string) (v : jsval) : string :=
  match ser gap ind v with Some t => t | None => "" end.

Definition ws (s : string) : Prop := all_chars is_ws s = true.

Lemma ws_app s t : ws s -> ws t -> ws (s +:+ t).
Proof. unfold ws. rewrite all_chars_app. by intros -> ->. Qed.

Lemma skip_ws_app w s : ws w -> skip_ws (w +:+ s) = skip_ws s.
Proof.
  unfold ws. induction w as [|c w IH]; [done|]. app_simpl. simpl.
  rewrite andb_true_iff. intros [-> H]. auto.
Qed.

Lemma parse_value_ws fuel w s : ws w -> parse_value fuel (w +:+ s) = parse_value fuel s.
Proof. intros Hw. destruct fuel; [done|]. cbn [parse_value]. by rewrite skip_ws_app. Qed.

Lemma parse_str_escape_char c s :
  parse_str (escape_char c +:+ s) = cons_str (String c "") (parse_str s).
Proof.
  destruct c as [[] [] [] [] [] [] [] []]; try reflexivity;
    (destruct s as [|? [|? [|? [|? [|? [|? ?]]]]]]; try reflexivity; simpl;
     match goal with |- context [hex4 ?a ?b ?c ?d] => destruct (hex4 a b c d) end;
     rewrite ?andb_false_r; reflexivity).
Qed.

Lemma parse_str_escape s rest : parse_str (escape s +:+ String dquote rest) = Some (s, rest).
Proof.
  induction s as [|c s IH]; [done|]. cbn [escape].
  rewrite <- app_assoc_string, parse_str_escape_char, IH. done.
Qed.

Lemma bracket_shape gap ind op cl items :
  ws gap -> ws ind -> items <> [] ->
  exists w1 w2, ws w1 /\ ws w2
    /\ bracket gap ind op cl items = op +:+ w1 +:+ join ("," +:+ w1) items +:+ w2 +:+ cl.
Proof.
  intros Hg Hi Hne. unfold bracket. destruct items as [|t items]; [done|].
  destruct (String.eqb gap "").
  - exists "", "". done.
  - exists (newline +:+ ind +:+ gap), (newline +:+ ind). split_and!.
    + apply ws_app; [done|]. by apply ws_app.
    + by apply ws_app.
    + by rewrite <- !app_assoc_string.
Qed.

Lemma skip_ws_cons c s : is_ws c = false -> skip_ws (String c s) = String c s.
Proof. intros H. simpl. by rewrite H. Qed.

(** Reduce the look-ahead tests of the parser on a known next character. *)
Ltac look_ahead :=
  app_norm; rewrite ?skip_ws_cons by done; cbn [head_is sdrop];
  repeat match goal with
  | |- context [byte_of ?c =? ?b] =>
      let r := eval vm_compute in (byte_of c =? b) in change (byte_of c =? b) with r
  end; cbv iota.

(** A text that does not continue a number. *)
Definition ends_number (rest : string) : bool :=
  match rest with String c _ => negb (number_char c) | "" => true end.

Definition parses (t : string) (v : jsval) : Prop :=
  forall fuel rest, (need v <= fuel)%nat -> ends_number rest = true ->
  parse_value fuel (t +:+ rest) = Some (v, rest).

Lemma ends_number_ws w s : ws w -> ends_number s = true -> ends_number (w +:+ s) = true.
Proof.
  destruct w as [|c w]; [done|]. intros Hw _. app_norm. cbn [ends_number].
  unfold ws in Hw. cbn [all_chars] in Hw. apply andb_true_iff in Hw as [Hc _].
  destruct c as [[] [] [] [] [] [] [] []]; vm_compute in Hc |- *; done.
Qed.

Lemma span_number_app t rest :
  all_chars number_char t = true -> ends_number rest = true ->
  span_number (t +:+ rest) = (t, rest).
Proof.
  induction t as [|c t IH]; intros Ht Hr; app_norm.
  - destruct rest as [|c r]; [done|]. cbn in *. by destruct (number_char c).
  - cbn [all_chars] in Ht. apply andb_true_iff in Ht as [Hc Ht]. cbn [span_number].
    by rewrite Hc, IH.
Qed.

Lemma digit_not_other c :
  is_digit c = true ->
  is_ws c = false /\ (byte_of c =? 34) = false /\ (byte_of c =? 123) = false /\
  (byte_of c =? 91) = false /\
  forall d p, is_digit d = false -> forall s, starts_with (String d p) (String c s) = false.
Proof.
  intros Hc. pose proof Hc as Hr. unfold is_digit, in_range in Hr.
  apply andb_true_iff in Hr as [?%Z.leb_le ?%Z.leb_le]. unfold is_ws.
  repeat match goal with |- context [byte_of c =? ?b] => destruct (Z.eqb_spec (byte_of c) b); [lia|] end.
  split_and!; try done. intros d p Hd s. cbn [starts_with].
  destruct (Ascii.eqb_spec d c); [congruence|done].
Qed.

Lemma parse_number_text x gap ind fuel rest :
  plain_num x = true -> ends_number rest = true ->
  parse_value (S fuel) (text gap ind (JNum x) +:+ rest) = Some (JNum x, rest).
Proof.
  unfold plain_num. destruct x as [|neg|z]; try done.
  rewrite !andb_true_iff. intros [[Hd Hall] Hn] Hrest.
  assert (text gap ind (JNum (Fin z)) = num_to_string (Fin z)) as -> by done.
  pose proof (span_number_app _ _ Hall Hrest) as Hs.
  destruct (num_to_string (Fin z)) as [|c t]; [done|]. revert Hs. app_norm. intros Hs.
  destruct (digit_not_other c Hd) as (Hw & H1 & H2 & H3 & H4).
  cbn [parse_value]. rewrite skip_ws_cons by done. rewrite H1, H2, H3.
  rewrite !H4, Hs by done.
  destruct (json_number _) as [[| |z']|]; try done. by apply Z.eqb_eq in Hn as ->.
Qed.

Lemma join_cons2 sep a b l : join sep (a :: b :: l) = a +:+ sep +:+ join sep (b :: l).
Proof. done. Qed.

Section round_trip.
Context (gap ind w1 w2 : string) (Hw1 : ws w1) (Hw2 : ws w2).

Lemma parse_elements_text l acc fuel rest :
  l <> [] -> Forall (fun x => parses (text gap ind x) x) l ->
  (list_sum (map (fun x => S (need x)) l) <= fuel)%nat ->
  parse_elements fuel acc
    (w1 +:+ join ("," +:+ w1) (map (text gap ind) l) +:+ w2 +:+ "]" +:+ rest)
  = Some (JArr (acc ++ l), rest).
Proof.
  intros Hne Hl. revert acc fuel. induction Hl as [|x l Hx Hl IH]; [done|].
  intros acc fuel Hf. simpl in Hf.
  destruct fuel as [|fuel]; [lia|]. cbn [parse_elements]. rewrite parse_value_ws by done.
  destruct l as [|y l].
  - cbn [map join]. rewrite Hx; [|lia|by apply ends_number_ws].
    rewrite skip_ws_app by done. by look_ahead.
  - cbn [map]. rewrite join_cons2. app_norm. rewrite Hx; [|lia|done]. look_ahead.
    specialize (IH ltac:(done) (acc ++ [x])%list fuel ltac:(simpl in *; lia)).
    revert IH. cbn [map]. app_norm. intros ->. rewrite <- (assoc_L (++)%list). done.
Qed.

Lemma obj_set_fresh acc k v : k ∉ map fst acc -> obj_set acc k v = (acc ++ [(k, v)])%list.
Proof.
  induction acc as [|[k' v'] acc IH]; [done|]. cbn [map fst obj_set].
  rewrite not_elem_of_cons. intros [Hk Hacc].
  destruct (String.eqb_spec k k'); [done|]. by rewrite IH.
Qed.

Definition member (kv : string * jsval) : string :=
  quote (fst kv) +:+ colon gap +:+ text gap ind (snd kv).

Lemma member_pair k x :
  member (k, x)
  = String dquote (escape k +:+ String dquote "") +:+ colon gap +:+ text gap ind x.
Proof. done. Qed.

Lemma colon_shape : exists w, ws w /\ colon gap = ":" +:+ w.
Proof. unfold colon. destruct (String.eqb gap ""); [by exists ""|by exists " "]. Qed.

Lemma parse_members_text o acc fuel rest :
  o <> [] -> Forall (fun kv => parses (text gap ind (snd kv)) (snd kv)) o ->
  NoDup (map fst (acc ++ o)%list) ->
  (list_sum (map (fun '(_, x) => S (need x)) o) <= fuel)%nat ->
  parse_members fuel acc
    (w1 +:+ join ("," +:+ w1) (map member o) +:+ w2 +:+ "}" +:+ rest)
  = Some (JObj (acc ++ o), rest).
Proof.
  intros Hne Ho. revert acc fuel. induction Ho as [|[k x] o Hx Ho IH]; [done|].
  intros acc fuel Hnd Hf. simpl in Hf, Hx.
  destruct fuel as [|fuel]; [lia|]. cbn [parse_members]. rewrite skip_ws_app by done.
  assert (obj_set acc k x = (acc ++ [(k, x)])%list) as Hset.
  { apply obj_set_fresh. rewrite map_app in Hnd. cbn [map fst] in Hnd.
    apply NoDup_app in Hnd as (_ & Hnd & _). intros Hin. apply (Hnd k Hin). set_solver. }
  destruct colon_shape as (wc & Hwc & Hc).
  destruct o as [|kv' o].
  - cbn [map join]. rewrite member_pair, Hc.
    app_norm.
    look_ahead. rewrite parse_str_escape. look_ahead.
    rewrite parse_value_ws, Hx; [|lia|by apply ends_number_ws|done].
    rewrite skip_ws_app by done. look_ahead.
    by rewrite Hset.
  - cbn [map]. rewrite join_cons2, member_pair, Hc.
    app_norm.
    look_ahead. rewrite parse_str_escape. look_ahead.
    rewrite parse_value_ws, Hx by (done || lia). look_ahead. rewrite Hset.
    specialize (IH ltac:(done) (acc ++ [(k, x)])%list fuel).
    rewrite <- (assoc_L (++)%list) in IH. cbn [app] in IH.
    specialize (IH Hnd ltac:(simpl in *; lia)). revert IH. cbn [map]. app_norm. done.
Qed.
End round_trip.

Lemma text_array gap ind l :
  text gap ind (JArr l) = bracket gap ind "[" "]" (map (text gap (ind +:+ gap)) l) \/
  exists x, In x l /\ ser gap (ind +:+ gap) x = None.
Proof.
  destruct (decide (Exists (fun x => ser gap (ind +:+ gap) x = None) l)) as [H|H].
  - right. apply List.Exists_exists in H as (x & Hin & Hx). eauto.
  - left. unfold text at 1. cbn [ser]. f_equal. apply map_ext_in. intros x Hin.
    unfold text. destruct (ser gap (ind +:+ gap) x) eqn:E; [done|].
    exfalso. apply H, List.Exists_exists. eauto.
Qed.

Lemma plain_ser gap ind v : plain v = true -> is_Some (ser gap ind v).
Proof. destruct v; simpl; try done; eauto. Qed.

Lemma text_object gap ind o :
  Forall (fun kv => plain (snd kv) = true) o ->
  text gap ind (JObj o) = bracket gap ind "{" "}" (map (member gap (ind +:+ gap)) o).
Proof.
  intros Ho. unfold text. cbn [ser]. f_equal.
  induction Ho as [|[k x] o Hx Ho IH]; [done|]. cbn [map].
  change (omap ?f ((k, x) :: o)) with
    (match f (k, x) with Some y => y :: omap f o | None => omap f o end).
  cbv beta iota. destruct (plain_ser gap (ind +:+ gap) x Hx) as [t Ht]. rewrite Ht, IH.
  unfold member, text. cbn [fst snd]. by rewrite Ht.
Qed.

(** A bracketed text does not close right after it opened. *)
Lemma head_join b w t ts sep s c r :
  ws w -> t = String c r -> is_ws c = false -> (byte_of c =? b) = false ->
  head_is b (skip_ws (w +:+ join sep (t :: ts) +:+ s)) = false.
Proof.
  intros Hw -> Hc Hb. rewrite skip_ws_app by done.
  assert (exists r', join sep (String c r :: ts) +:+ s = String c r') as [r' ->].
  { destruct ts as [|t' ts]; [by eexists|]. rewrite join_cons2. app_norm. by eexists. }
  rewrite skip_ws_cons by done. simpl. exact Hb.
Qed.

Lemma text_head v gap ind :
  plain v = true ->
  exists c r, text gap ind v = String c r /\ is_ws c = false /\ (byte_of c =? 93) = false.
Proof.
  unfold text. destruct v; try done; intros Hv; cbn [ser].
  - by do 2 eexists.
  - destruct b; by do 2 eexists.
  - cbn [plain] in Hv. unfold plain_num in Hv. destruct x as [| |z]; try done.
    cbn [Num.is_finite]. destruct (num_to_string (Fin z)) as [|c t]; [done|].
    apply andb_true_iff in Hv as [[Hd _]%andb_true_iff _].
    exists c, t. split; [done|]. split; [by apply digit_not_other|].
    unfold is_digit, in_range in Hd. apply andb_true_iff in Hd as [_ ?%Z.leb_le].
    apply Z.eqb_neq. lia.
  - by do 2 eexists.
  - unfold bracket. destruct (map _ l); [by do 2 eexists|].
    destruct (String.eqb gap ""); app_norm; by do 2 eexists.
  - unfold bracket. destruct (omap _ o); [by do 2 eexists|].
    destruct (String.eqb gap ""); app_norm; by do 2 eexists.
Qed.

Lemma parse_value_text v gap ind :
  plain v = true -> ws gap -> ws ind -> parses (text gap ind v) v.
Proof.
  intros Hv Hg. revert ind Hv.
  induction v as [| | | | |s|l IH|o IH] using jsval_nested_ind;
    intros ind Hv Hi fuel rest Hf Hrest; try done; (destruct fuel as [|fuel]; [simpl in Hf; lia|]).
  - done.
  - by destruct b.
  - by apply parse_number_text.
  - unfold text. cbn [ser]. unfold quote. cbn [parse_value]. look_ahead.
    by rewrite parse_str_escape.
  - simpl in Hv. rewrite forallb_forall in Hv.
    destruct (text_array gap ind l) as [-> | (x & Hin & Hx)].
    2: { destruct (plain_ser gap (ind +:+ gap) x (Hv x Hin)). congruence. }
    destruct l as [|x l]; [done|].
    destruct (bracket_shape gap ind "[" "]" (map (text gap (ind +:+ gap)) (x :: l))) as
      (w1 & w2 & Hw1 & Hw2 & ->); [done|done|done|].
    destruct (text_head x gap (ind +:+ gap)) as (c & r & Hc & Hws & Hb);
      [apply Hv; left; done|].
    cbn [parse_value]. app_norm. look_ahead. cbn [map].
    rewrite (head_join _ _ _ _ _ _ c r) by done.
    pose proof (parse_elements_text gap (ind +:+ gap) w1 w2 Hw1 Hw2 (x :: l) [] fuel rest) as H.
    cbn [map] in H. revert H. app_norm. intros ->; [done|done| |simpl in *; lia].
    apply List.Forall_forall. intros y Hin. rewrite List.Forall_forall in IH.
    apply IH; auto using ws_app.
  - simpl in Hv. apply andb_true_iff in Hv as [Hv Hnd%bool_decide_eq_true].
    assert (Forall (fun kv => plain (snd kv) = true) o) as Ho.
    { apply List.Forall_forall. intros [k x] Hin. rewrite forallb_forall in Hv.
      apply (Hv (k, x) Hin). }
    rewrite text_object by done. destruct o as [|[k x] o]; [done|].
    destruct (bracket_shape gap ind "{" "}" (map (member gap (ind +:+ gap)) ((k, x) :: o))) as
      (w1 & w2 & Hw1 & Hw2 & ->); [done|done|done|].
    cbn [parse_value]. app_norm. look_ahead. cbn [map].
    rewrite (head_join _ _ _ _ _ _ dquote _ Hw1 (member_pair gap (ind +:+ gap) k x)) by done.
    pose proof (parse_members_text gap (ind +:+ gap) w1 w2 Hw1 Hw2 ((k, x) :: o) [] fuel rest) as H.
    cbn [map] in H. revert H. app_norm. intros ->; [done|done| |done|simpl in *; lia].
    apply List.Forall_forall. intros y Hin. rewrite List.Forall_forall in IH, Ho.
    apply IH; auto using ws_app.
Qed.

Lemma length_join sep l :
  (list_sum (map String.length l) <= String.length (join sep l))%nat.
Proof.
  induction l as [|s l IH]; [done|]. destruct l as [|t l]; [simpl; lia|].
  rewrite join_cons2, !length_app_string. cbn [map list_sum] in *. simpl in *. lia.
Qed.

Lemma length_bracket gap ind op cl items :
  (String.length op + list_sum (map String.length items) + String.length cl
   <= String.length (bracket gap ind op cl items))%nat.
Proof.
  unfold bracket. destruct items as [|t items].
  { rewrite length_app_string. simpl. lia. }
  pose proof (length_join ("," +:+ newline +:+ ind +:+ gap) (t :: items)).
  pose proof (length_join "," (t :: items)).
  destruct (String.eqb gap ""); rewrite !length_app_string; lia.
Qed.

Lemma list_sum_le {A} (f g : A -> nat) l :
  Forall (fun x => (f x <= 2 * g x)%nat) l ->
  (list_sum (map f l) <= 2 * list_sum (map g l))%nat.
Proof. induction 1; simpl in *; lia. Qed.

(** The fuel of [parse] is enough. *)
Lemma need_text v gap ind :
  plain v = true -> (S (need v) <= 2 * String.length (text gap ind v))%nat.
Proof.
  revert ind. induction v as [| | | | |s|l IH|o IH] using jsval_nested_ind; intros ind Hv; try done.
  - simpl. lia.
  - destruct b; simpl; lia.
  - destruct (text_head (JNum x) gap ind Hv) as (c & r & -> & _). simpl. lia.
  - simpl. unfold text. simpl. rewrite length_app_string. simpl. lia.
  - simpl in Hv. rewrite forallb_forall in Hv.
    destruct (text_array gap ind l) as [-> | (x & Hin & Hx)].
    2: { destruct (plain_ser gap (ind +:+ gap) x (Hv x Hin)). congruence. }
    pose proof (length_bracket gap ind "[" "]" (map (text gap (ind +:+ gap)) l)) as Hlen.
    rewrite map_map in Hlen. cbn [need].
    assert (list_sum (map (fun x => S (need x)) l)
            <= 2 * list_sum (map (fun x => String.length (text gap (ind +:+ gap) x)) l))%nat.
    { apply list_sum_le. rewrite List.Forall_forall in *. auto. }
    cbn [String.length] in Hlen. lia.
  - simpl in Hv. apply andb_true_iff in Hv as [Hv _]. rewrite forallb_forall in Hv.
    assert (Forall (fun kv => plain (snd kv) = true) o) as Ho.
    { apply List.Forall_forall. intros [k x] Hin. apply (Hv (k, x) Hin). }
    rewrite text_object by done.
    pose proof (length_bracket gap ind "{" "}" (map (member gap (ind +:+ gap)) o)) as Hlen.
    rewrite map_map in Hlen. cbn [need].
    assert (list_sum (map (fun '(_, x) => S (need x)) o)
            <= 2 * list_sum (map (fun kv => String.length (member gap (ind +:+ gap) kv)) o))%nat.
    { apply list_sum_le. rewrite List.Forall_forall in *. intros [k x] Hin.
      specialize (IH _ Hin (ind +:+ gap) (Ho _ Hin)). cbn [snd] in IH.
      rewrite member_pair, !length_app_string. lia. }
    cbn [String.length] in Hlen. lia.
Qed.

Lemma plain_no_bigint v : plain v = true -> has_bigint v = false.
Proof.
  induction v as [| | | | |s|l IH|o IH] using jsval_nested_ind; simpl; try done.
  - rewrite forallb_forall. intros Hv. destruct (existsb has_bigint l) eqn:E; [|done].
    apply existsb_exists in E as (x & Hin & Hx). rewrite List.Forall_forall in IH.
    rewrite (IH x) in Hx by auto. done.
  - rewrite andb_true_iff, forallb_forall. intros [Hv _].
    destruct (existsb _ o) eqn:E; [|done].
    apply existsb_exists in E as ([k x] & Hin & Hx). rewrite List.Forall_forall in IH.
    pose proof (IH (k, x) Hin (Hv (k, x) Hin)) as H. cbn [snd] in H. congruence.
Qed.

Lemma skip_ws_all w : ws w -> skip_ws w = "".
Proof. intros Hw. rewrite <- (app_nil_string w), skip_ws_app by done. done. Qed.

(** [JSON.parse] of [JSON.stringify(v, null, gap)], with white space after it, is [v] for a plain
    value and a white gap. *)
Lemma parse_stringify_ws v gap w :
  plain v = true -> ws gap -> ws w ->
  exists t, stringify gap v = Ok t /\ parse (t +:+ w) = Ok v.
Proof.
  intros Hv Hg Hw. exists (text gap "" v). split.
  - unfold stringify, text. rewrite plain_no_bigint by done.
    destruct (plain_ser gap "" v Hv) as [t ->]. done.
  - unfold parse. rewrite (parse_value_text v gap "" Hv Hg eq_refl).
    + by rewrite skip_ws_all.
    + pose proof (need_text v gap "" Hv). rewrite length_app_string. lia.
    + rewrite <- (app_nil_string w). by apply ends_number_ws.
Qed.

Lemma parse_stringify v gap :
  plain v = true -> ws gap -> exists t, stringify gap v = Ok t /\ parse t = Ok v.
Proof.
  intros Hv Hg. destruct (parse_stringify_ws v gap "" Hv Hg eq_refl) as (t & Ht & Hp).
  exists t. by rewrite app_nil_string in Hp.
Qed.

End Json.
