(* ===== verification/Prog.v ===== *)
(** * Effectful programs

    An [async] function of the wallet is a [prog]: it returns, throws, or performs an operation
    of its environment (an RPC, a contract call, a file access, an IPC message) and continues
    with the answer, which is a value or an exception.  [run] executes a program against an
    environment with a state of its own; [Runs p tr r] says that [p] can perform the operations
    [tr], receiving the recorded answers, and end with [r].  Theorems that quantify over [Runs]
    hold for every behaviour of the environment. *)

From S2P Require Import Prelude JsVal.

Section prog.
Context {O : Type}.

Inductive prog (A : Type) :=
| Ret (a : A)
| Raise (e : jserr)
| Do (o : O) (k : result jsval -> prog A).

Definition event : Type := O * result jsval.
End prog.

Arguments prog : clear implicits.
Arguments event : clear implicits.
Arguments Ret {O A} a.
Arguments Raise {O A} e.
Arguments Do {O A} o k.

Section combinators.
Context {O : Type}.

Fixpoint bind {A B} (p : prog O A) (f : A -> prog O B) : prog O B :=
  match p with
  | Ret a => f a
  | Raise e => Raise e
  | Do o k => Do o (fun r => bind (k r) f)
  end.

(** [try { p } catch (e) { h(e) }] *)
Fixpoint try_catch {A} (p : prog O A) (h : jserr -> prog O A) : prog O A :=
  match p with
  | Ret a => Ret a
  | Raise e => h e
  | Do o k => Do o (fun r => try_catch (k r) h)
  end.

Definition lift {A} (r : result A) : prog O A :=
  match r with Ok a => Ret a | Throw e => Raise e end.

(** Perform an operation and wait for its answer. *)
Definition call (o : O) : prog O jsval := Do o lift.

(** Run [f] on the elements of a list, in order, and collect the results. *)
Fixpoint mapM {A B} (f : A -> prog O B) (l : list A) : prog O (list B) :=
  match l with
  | [] => Ret []
  | x :: l' => bind (f x) (fun y => bind (mapM f l') (fun ys => Ret (y :: ys)))
  end.
End combinators.

Declare Scope prog_scope.
Delimit Scope prog_scope with prog.
Notation "x <- p ; k" := (bind p (fun x => k))
  (at level 100, p at next level, k at level 200, right associativity) : prog_scope.
Notation "p ;; k" := (bind p (fun _ => k)) : prog_scope.

(** ** Execution *)

Section run.
Context {O W : Type} (exec : W -> O -> W * result jsval).

Fixpoint run {A} (p : prog O A) (w : W) : W * list (event O) * result A :=
  match p with
  | Ret a => (w, [], Ok a)
  | Raise e => (w, [], Throw e)
  | Do o k =>
      let '(w', r) := exec w o in
      let '(w'', tr, x) := run (k r) w' in
      (w'', (o, r) :: tr, x)
  end.
End run.

Inductive Runs {O A} : prog O A -> list (event O) -> result A -> Prop :=
| Runs_ret a : Runs (Ret a) [] (Ok a)
| Runs_raise e : Runs (Raise e) [] (Throw e)
| Runs_do o k r tr x : Runs (k r) tr x -> Runs (Do o k) ((o, r) :: tr) x.

(** The answers received so far, fed to a program one by one. *)
Fixpoint feed {O A} (p : prog O A) (answers : list (result jsval)) :
  option (list (event O) * result A) :=
  match p, answers with
  | Ret a, [] => Some ([], Ok a)
  | Raise e, [] => Some ([], Throw e)
  | Do o k, r :: answers' =>
      match feed (k r) answers' with
      | Some (tr, x) => Some ((o, r) :: tr, x)
      | None => None
      end
  | _, _ => None
  end.

Section facts.
Context {O : Type}.

Lemma run_Runs {W A} (exec : W -> O -> W * result jsval) (p : prog O A) w w' tr x :
  run exec p w = (w', tr, x) -> Runs p tr x.
Proof.
  revert w w' tr x. induction p as [a|e|o k IH]; intros w w' tr x; simpl.
  - intros [= <- <- <-]. constructor.
  - intros [= <- <- <-]. constructor.
  - destruct (exec w o) as [w1 r]. destruct (run exec (k r) w1) as [[w2 tr'] x'] eqn:E.
    intros [= <- <- <-]. constructor. eauto.
Qed.

(** The run of a program, as a run. *)
Lemma run_is_Runs {W A} (exec : W -> O -> W * result jsval) (p : prog O A) w :
  Runs p (snd (fst (run exec p w))) (snd (run exec p w)).
Proof. destruct (run exec p w) as [[w' tr] x] eqn:E. by apply run_Runs in E. Qed.

Lemma feed_Runs {A} (p : prog O A) answers tr x :
  feed p answers = Some (tr, x) -> Runs p tr x.
Proof.
  revert answers tr x. induction p as [a|e|o k IH]; intros [|r answers] tr x; simpl; try done.
  - intros [= <- <-]. constructor.
  - intros [= <- <-]. constructor.
  - destruct (feed (k r) answers) as [[tr' x']|] eqn:E; [|done].
    intros [= <- <-]. constructor. eauto.
Qed.

(** The environment decides everything else: every run is the run of some environment. *)
Lemma Runs_feed {A} (p : prog O A) tr x : Runs p tr x -> feed p (map snd tr) = Some (tr, x).
Proof. induction 1; simpl; try done. by rewrite IHRuns. Qed.

Lemma Runs_bind {A B} (p : prog O A) (f : A -> prog O B) tr x :
  Runs (bind p f) tr x <->
  (exists tr1 tr2 a, tr = tr1 ++ tr2 /\ Runs p tr1 (Ok a) /\ Runs (f a) tr2 x) \/
  (exists e, Runs p tr (Throw e) /\ x = Throw e).
Proof.
  split.
  - revert tr x. induction p as [a|e|o k IH]; simpl; intros tr x H.
    + left. exists [], tr, a. split_and!; [done|constructor|done].
    + inversion H; subst. right. eexists. split; [constructor|done].
    + inversion H as [| |? ? r tr' ? Hk]; subst.
      destruct (IH r _ _ Hk) as [(tr1 & tr2 & a & -> & H1 & H2)|(e & H1 & ->)].
      * left. exists ((o, r) :: tr1), tr2, a. split_and!; [done|by constructor|done].
      * right. exists e. split; [by constructor|done].
  - intros [(tr1 & tr2 & a & -> & H1 & H2)|(e & H1 & ->)].
    + remember (Ok a) as y eqn:Ey. induction H1; simplify_eq; [done|].
      simpl. constructor. auto.
    + remember (Throw e) as y eqn:Ey. induction H1; simplify_eq; constructor. auto.
Qed.

Lemma Runs_try {A} (p : prog O A) (h : jserr -> prog O A) tr x :
  Runs (try_catch p h) tr x <->
  (exists a, Runs p tr (Ok a) /\ x = Ok a) \/
  (exists tr1 tr2 e, tr = tr1 ++ tr2 /\ Runs p tr1 (Throw e) /\ Runs (h e) tr2 x).
Proof.
  split.
  - revert tr x. induction p as [a|e|o k IH]; simpl; intros tr x H.
    + inversion H; subst. left. eexists. split; [constructor|done].
    + right. exists [], tr, e. split_and!; [done|constructor|done].
    + inversion H as [| |? ? r tr' ? Hk]; subst.
      destruct (IH r _ _ Hk) as [(a & H1 & ->)|(tr1 & tr2 & e & -> & H1 & H2)].
      * left. exists a. split; [by constructor|done].
      * right. exists ((o, r) :: tr1), tr2, e. split_and!; [done|by constructor|done].
  - intros [(a & H1 & ->)|(tr1 & tr2 & e & -> & H1 & H2)].
    + remember (Ok a) as y eqn:Ey. induction H1; simplify_eq; constructor. auto.
    + remember (Throw e) as y eqn:Ey. induction H1; simplify_eq; [done|].
      simpl. constructor. auto.
Qed.

Lemma Runs_lift {A} (r : result A) tr x : Runs (lift (O := O) r) tr x <-> tr = [] /\ x = r.
Proof.
  split.
  - destruct r; simpl; inversion 1; subst; done.
  - intros [-> ->]. destruct r; constructor.
Qed.

Lemma Runs_call (o : O) tr x : Runs (call o) tr x <-> tr = [(o, x)].
Proof.
  unfold call. split.
  - inversion 1 as [| |? ? r tr' ? Hk]; subst. by apply Runs_lift in Hk as [-> ->].
  - intros ->. constructor. by apply Runs_lift.
Qed.

Lemma Runs_bind_call {B} (o : O) (f : jsval -> prog O B) tr x :
  Runs (bind (call o) f) tr x <->
  exists r tr', tr = (o, r) :: tr' /\
    match r with Ok a => Runs (f a) tr' x | Throw e => tr' = [] /\ x = Throw e end.
Proof.
  rewrite Runs_bind. split.
  - intros [(t1 & t2 & a & -> & ->%Runs_call & H)|(e & ->%Runs_call & ->)].
    + by exists (Ok a), t2.
    + by exists (Throw e), [].
  - intros ([a|e] & tr' & -> & H).
    + left. exists [(o, Ok a)], tr', a. by rewrite Runs_call.
    + destruct H as [-> ->]. right. exists e. by rewrite Runs_call.
Qed.

Lemma Runs_ret_iff {A} (a : A) tr x : Runs (O := O) (Ret a) tr x <-> tr = [] /\ x = Ok a.
Proof. apply (Runs_lift (Ok a)). Qed.

Lemma Runs_raise_iff {A} e tr (x : result A) :
  Runs (O := O) (Raise e) tr x <-> tr = [] /\ x = Throw e.
Proof. apply (Runs_lift (Throw e)). Qed.
End facts.

(** [run] of the combinators. *)
Section run_facts.
Context {O W : Type} (exec : W -> O -> W * result jsval).

Lemma run_bind {A B} (p : prog O A) (f : A -> prog O B) w :
  run exec (bind p f) w =
  let '(w1, tr1, x) := run exec p w in
  match x with
  | Ok a => let '(w2, tr2, y) := run exec (f a) w1 in (w2, tr1 ++ tr2, y)
  | Throw e => (w1, tr1, Throw e)
  end.
Proof.
  revert w. induction p as [a|e|o k IH]; intros w; simpl.
  - by destruct (run exec (f a) w) as [[??]?].
  - done.
  - destruct (exec w o) as [w1 r]. rewrite IH.
    destruct (run exec (k r) w1) as [[w2 tr2] [a|e]]; [|done].
    by destruct (run exec (f a) w2) as [[??]?].
Qed.

Lemma run_try {A} (p : prog O A) (h : jserr -> prog O A) w :
  run exec (try_catch p h) w =
  let '(w1, tr1, x) := run exec p w in
  match x with
  | Ok a => (w1, tr1, Ok a)
  | Throw e => let '(w2, tr2, y) := run exec (h e) w1 in (w2, tr1 ++ tr2, y)
  end.
Proof.
  revert w. induction p as [a|e|o k IH]; intros w; simpl.
  - done.
  - by destruct (run exec (h e) w) as [[??]?].
  - destruct (exec w o) as [w1 r]. rewrite IH.
    destruct (run exec (k r) w1) as [[w2 tr2] [a|e]]; [done|].
    by destruct (run exec (h e) w2) as [[??]?].
Qed.

Lemma run_lift {A} (r : result A) w : run exec (lift r) w = (w, [], r).
Proof. by destruct r. Qed.

Lemma run_call o w :
  run exec (call o) w = (fst (exec w o), [(o, snd (exec w o))], snd (exec w o)).
Proof. unfold call. simpl. destruct (exec w o) as [w' r]. by rewrite run_lift. Qed.
End run_facts.

(** The answers in the trace of a run are the environment's. *)
Lemma run_answers {O W A} (exec : W -> O -> W * result jsval) (p : prog O A) w o r :
  (o, r) ∈ snd (fst (run exec p w)) -> exists w', r = snd (exec w' o).
Proof.
  revert w. induction p as [a|e|o' k IH]; intros w; simpl; try (intros H; by apply elem_of_nil in H).
  destruct (exec w o') as [w1 r'] eqn:E. specialize (IH r' w1).
  destruct (run exec (k r') w1) as [[w2 tr] x]. cbn [fst snd] in *.
  intros [[= -> ->]|Hin]%elem_of_cons; [|by auto]. exists w. by rewrite E.
Qed.

(** The state and result of a run, without its trace. *)
Section final.
Context {O W : Type} (exec : W -> O -> W * result jsval).

Definition final {A} (p : prog O A) (w : W) : W * result A :=
  let '(w', _, x) := run exec p w in (w', x).

Lemma final_bind {A B} (p : prog O A) (f : A -> prog O B) w :
  final (bind p f) w =
  match final p w with
  | (w', Ok a) => final (f a) w'
  | (w', Throw e) => (w', Throw e)
  end.
Proof.
  unfold final. rewrite run_bind. destruct (run _ p w) as [[w1 tr] [a|e]]; [|done].
  by destruct (run _ (f a) w1) as [[w2 tr2] y].
Qed.

Lemma final_try {A} (p : prog O A) (h : jserr -> prog O A) w :
  final (try_catch p h) w =
  match final p w with
  | (w', Ok a) => (w', Ok a)
  | (w', Throw e) => final (h e) w'
  end.
Proof.
  unfold final. rewrite run_try. destruct (run _ p w) as [[w1 tr] [a|e]]; [done|].
  by destruct (run _ (h e) w1) as [[w2 tr2] y].
Qed.

Lemma final_call o w : final (call o) w = exec w o.
Proof. unfold final. rewrite run_call. by destruct (exec w o). Qed.

Lemma final_lift {A} (r : result A) w : final (lift r) w = (w, r).
Proof. by destruct r. Qed.

Lemma final_ret {A} (a : A) w : final (Ret a) w = (w, Ok a).
Proof. done. Qed.
End final.

(** The result of a program in an environment that answers each operation in one way. *)
Section eval.
Context {O : Type} (ext : O -> result jsval).

Definition eval {A} (p : prog O A) : result A := snd (run (fun (_ : unit) o => (tt, ext o)) p tt).

Lemma run_tt {A} (p : prog O A) :
  run (fun (_ : unit) o => (tt, ext o)) p tt
  = (tt, snd (fst (run (fun (_ : unit) o => (tt, ext o)) p tt)), eval p).
Proof. unfold eval. by destruct (run _ p tt) as [[[] tr] x]. Qed.

Lemma eval_bind {A B} (p : prog O A) (f : A -> prog O B) :
  eval (bind p f) = rbind (eval p) (fun a => eval (f a)).
Proof.
  unfold eval at 1. rewrite run_bind, run_tt. destruct (eval p) as [a|e]; [|done].
  by rewrite run_tt.
Qed.

Lemma eval_try {A} (p : prog O A) (h : jserr -> prog O A) :
  eval (try_catch p h) = match eval p with Ok a => Ok a | Throw e => eval (h e) end.
Proof.
  unfold eval at 1. rewrite run_try, run_tt. destruct (eval p) as [a|e]; [done|].
  by rewrite run_tt.
Qed.

Lemma eval_call o : eval (call o) = ext o.
Proof. unfold eval. by rewrite run_call. Qed.

Lemma eval_lift {A} (r : result A) : eval (lift r) = r.
Proof. unfold eval. by rewrite run_lift. Qed.

Lemma eval_ret {A} (a : A) : eval (Ret a) = Ok a.
Proof. done. Qed.

Lemma eval_mapM {A B} (f : A -> prog O B) (g : A -> B) l :
  (forall a, eval (f a) = Ok (g a)) -> eval (mapM f l) = Ok (map g l).
Proof.
  intros Hf. induction l as [|a l IH]; [done|]. cbn [mapM map].
  rewrite eval_bind, Hf. cbn [rbind]. rewrite eval_bind, IH. done.
Qed.

Lemma eval_mapM_Forall2 {A B} (f : A -> prog O B) l ys :
  Forall2 (fun a y => eval (f a) = Ok y) l ys -> eval (mapM f l) = Ok ys.
Proof.
  induction 1 as [|a y l ys Ha _ IH]; [done|]. cbn [mapM].
  rewrite eval_bind, Ha. cbn [rbind]. rewrite eval_bind, IH. done.
Qed.
End eval.

(** Decompose a hypothesis [Runs p tr r] along the structure of [p]. *)
Ltac runs_step :=
  match goal with
  | H : Runs (Ret _) _ _ |- _ => apply Runs_ret_iff in H as [? ?]; simplify_eq
  | H : Runs (Raise _) _ _ |- _ => apply Runs_raise_iff in H as [? ?]; simplify_eq
  | H : Runs (lift _) _ _ |- _ => apply Runs_lift in H as [? ?]; simplify_eq
  | H : Runs (call _) _ _ |- _ => apply Runs_call in H; simplify_eq
  | H : Runs (bind _ _) _ _ |- _ =>
      apply Runs_bind in H as [(? & ? & ? & ? & ? & ?)|(? & ? & ?)]; simplify_eq
  | H : Runs (try_catch _ _) _ _ |- _ =>
      apply Runs_try in H as [(? & ? & ?)|(? & ? & ? & ? & ? & ?)]; simplify_eq
  end.

(** ** Which operations a program can perform *)

Inductive Only {O A} (P : O -> Prop) : prog O A -> Prop :=
| Only_ret a : Only P (Ret a)
| Only_raise e : Only P (Raise e)
| Only_do o k : P o -> (forall r, Only P (k r)) -> Only P (Do o k).

Section only.
Context {O : Type} (P : O -> Prop).

Lemma Only_bind {A B} (p : prog O A) (f : A -> prog O B) :
  Only P p -> (forall a, Only P (f a)) -> Only P (bind p f).
Proof. intros Hp Hf. induction Hp; simpl; [done|constructor|by constructor]. Qed.

(** As [Only_bind], the continuation being needed only for results that [p] can return. *)
Lemma Only_bind_runs {A B} (p : prog O A) (f : A -> prog O B) :
  Only P p -> (forall tr a, Runs p tr (Ok a) -> Only P (f a)) -> Only P (bind p f).
Proof.
  induction 1 as [a|e|o k Ho _ IH]; simpl; intros Hf.
  - eapply Hf. constructor.
  - constructor.
  - constructor; [done|]. intros r. apply IH. intros tr a Hr. eapply Hf. by constructor.
Qed.

Lemma Only_try {A} (p : prog O A) (h : jserr -> prog O A) :
  Only P p -> (forall e, Only P (h e)) -> Only P (try_catch p h).
Proof. intros Hp Hh. induction Hp; simpl; [constructor|done|by constructor]. Qed.

Lemma Only_lift {A} (r : result A) : Only P (lift r).
Proof. destruct r; constructor. Qed.

Lemma Only_call o : P o -> Only P (call o).
Proof. intros. constructor; [done|]. intros. apply Only_lift. Qed.

Lemma Only_mapM_Forall {A B} (f : A -> prog O B) l :
  Forall (fun x => Only P (f x)) l -> Only P (mapM f l).
Proof.
  induction 1; simpl; [constructor|].
  repeat (apply Only_bind; intros; try done). constructor.
Qed.

Lemma Only_mapM {A B} (f : A -> prog O B) l :
  (forall x, Only P (f x)) -> Only P (mapM f l).
Proof. intros Hf. apply Only_mapM_Forall. by apply Forall_true. Qed.

Lemma Only_Runs {A} (p : prog O A) tr x :
  Only P p -> Runs p tr x -> Forall (fun ev => P (fst ev)) tr.
Proof.
  intros Hp H. induction H; try constructor; inversion Hp; subst; simpl; auto.
Qed.
End only.

(** A program whose operations keep the state leaves the state unchanged. *)
Lemma Only_run_state {O A W} (exec : W -> O -> W * result jsval) (P : O -> Prop) (p : prog O A) w :
  (forall o, P o -> fst (exec w o) = w) -> Only P p -> fst (fst (run exec p w)) = w.
Proof.
  intros Hk. induction 1 as [a|e|o k Ho _ IH]; simpl; [done|done|].
  specialize (Hk o Ho). destruct (exec w o) as [w' r]. simpl in Hk. subst w'.
  specialize (IH r). destruct (run exec (k r) w) as [[w2 tr] x]. done.
Qed.

Lemma Only_impl {O A} (P Q : O -> Prop) (p : prog O A) :
  (forall o, P o -> Q o) -> Only P p -> Only Q p.
Proof. intros HPQ. induction 1; constructor; auto. Qed.

(** Prove [Only P p] by the structure of [p]; the operations are left to [tac]. *)
Ltac only_with tac :=
  repeat first
    [ assumption
    | lazymatch goal with
      | |- Only _ (bind _ _) => apply Only_bind; [|intros ?]
      | |- Only _ (try_catch _ _) => apply Only_try; [|intros ?]
      | |- Only _ (lift _) => apply Only_lift
      | |- Only _ (Ret _) => apply Only_ret
      | |- Only _ (Raise _) => apply Only_raise
      | |- Only _ (call _) => apply Only_call; tac
      | |- Only _ (if ?b then _ else _) => destruct b
      | |- Only _ (match ?x with _ => _ end) => destruct x
      end ].

Ltac head_of t := lazymatch t with ?f _ => head_of f | _ => t end.

(** The same, unfolding the functions that are called. *)
Ltac only_deep tac :=
  repeat first
    [ progress only_with tac
    | lazymatch goal with
      | |- Only _ (mapM _ _) => apply Only_mapM; intros ?
      | |- Only _ ?p => first [progress cbv beta zeta | let h := head_of p in progress unfold h]
      end ].
