(* ===== verification/MainEnv.v ===== *)
(** * The environment of the main process (electron/main.js)

    The operations the main process performs on the outside world, the functions of the ethers
    library it calls, its configuration, and a host with a file system against which the
    handlers that keep files can be run. *)

From Stdlib Require Import Ascii String.
From S2P Require Import Prelude JsNumber JsString JsConv JsVal Json Prog.

(** A path is its list of components; [path.join(a, b)] appends. *)
Abbreviation path := (list string).

Inductive mop :=
(* fs *)
| FsExists (p : path)
| FsMkdir (p : path)
| FsReaddir (p : path)
| FsIsFile (p : path)                       (* fs.statSync(p).isFile() *)
| FsSize (p : path)                         (* fs.statSync(p).size *)
| FsUnlink (p : path)
| FsRead (p : path)
| FsWrite (p : path) (content : string) (mode : Z)
| OpenAppend (p : path)                     (* fs.createWriteStream(p, { flags: 'a' }) *)
(* clocks and timers *)
| NowIso                                    (* new Date().toISOString() *)
| DateNow
| Sleep (ms : Z)                            (* setTimeout *)
(* network *)
| HttpPost (port : Z) (url body : string) (timeoutMs : jsval)  (* setTimeout checks its type *)
| Fetch (meth url : string) (body : option string)
(* ethers: wallets, provider and contracts *)
| NewWallet
| View (contract meth : string) (args : list jsval)
| Send (signer contract meth : string) (args : list jsval) (nonce : option jsval)
| TxWait (tx : jsval)
| PendingNonce (addr : string)
| NativeBalance (addr : jsval)
| BlockNumber
| GetBlock (n : jsval)
| GetLogs (address : string) (fromBlock toBlock : jsval) (topics : list (option string))
(* electron and child processes *)
| WindowAlive                               (* mainWindow && !mainWindow.isDestroyed() *)
| WindowSend (channel : string) (payload : jsval)
| ShuttingDown                              (* reads the global flag *)
| Spawn (bin : path) (args : list string)
| LogWrite (logfile : path) (line : string)
| ShowMessageBox (opts : jsval)
| CpuCount
| TotalMem
| OpenPath (p : path)
| AppVersion.

(** Functions of ethers v6 that do not touch the network. *)
Class Ethers := {
  isAddress : jsval -> bool;
  getAddress : jsval -> result string;
  parseUnits : string -> Z -> result jsval;
  formatUnits : jsval -> Z -> result string;
  (** the address of [new ethers.Wallet(privateKey, provider)] *)
  walletAddress : jsval -> result string;
  (** [ethers.keccak256(ethers.toUtf8Bytes(s))] *)
  keccakUtf8 : jsval -> result string;
  zeroPadValue32 : string -> string;
  (** [iface.getEvent(name).topicHash] of the interface with the given event signatures *)
  topicHash : list string -> string -> string;
  (** [iface.parseLog(log)]: the event's name and named arguments; [null] for an event that is
      not in the interface *)
  parseLog : list string -> jsval -> result jsval
}.

(** What the process is started with. *)
Class Config := {
  userDataPath : path;        (* app.getPath('userData') *)
  homeDir : path;             (* os.homedir() *)
  isPackaged : bool;          (* app.isPackaged *)
  processResources : path;    (* process.resourcesPath *)
  dirname : path;             (* __dirname *)
  platform : string;          (* process.platform *)
  NEXUS_RPC_URL : string
}.

(** ** Replies to the renderer *)

Definition ok_obj (fields : list (string * jsval)) : jsval := JObj (("ok", JBool true) :: fields).
Definition fail_obj (error : string) : jsval :=
  JObj [("ok", JBool false); ("error", JStr error)].

(** Whether a reply has a truthy [ok]. *)
Definition reply_ok (v : jsval) : bool := truthy (get_opt v "ok").

(** ** A host with files

    Reads fail on missing files; writes and directory creations succeed (a full disk or missing
    permissions are not part of this host; theorems about [Runs] cover such failures). *)

Record host := Host {
  files : gmap path string;
  dirs : gset path
}.

Definition path_text (p : path) : string := "/" +:+ join "/" p.

Definition enoent (op : string) (p : path) : jserr :=
  Error ("ENOENT: no such file or directory, " +:+ op +:+ " '" +:+ path_text p +:+ "'").

(** The file name of [q] when it lies directly in [p]. *)
Definition child_of (p q : path) : option string :=
  match reverse q with
  | name :: rev_dir => if bool_decide (reverse rev_dir = p) then Some name else None
  | [] => None
  end.

(** Non-empty prefixes of a path: what [mkdirSync(p, { recursive: true })] creates. *)
Fixpoint prefixes (acc p : path) : list path :=
  match p with
  | [] => []
  | c :: p' => let acc' := (acc ++ [c])%list in acc' :: prefixes acc' p'
  end.

Section host.
(** The answers of everything that is not a file operation. *)
Context (ext : mop -> result jsval).

Definition exec_host (h : host) (o : mop) : host * result jsval :=
  match o with
  | FsExists p => (h, Ok (JBool (bool_decide (is_Some (files h !! p) \/ p ∈ dirs h))))
  | FsMkdir p => (Host (files h) (list_to_set (prefixes [] p) ∪ dirs h), Ok JUndef)
  | FsReaddir p =>
      (h, if bool_decide (p ∈ dirs h)
          then Ok (JArr (map JStr (omap (child_of p)
                             (map fst (map_to_list (files h)) ++ elements (dirs h))%list)))
          else Throw (enoent "scandir" p))
  | FsIsFile p =>
      (h, match files h !! p with
          | Some _ => Ok (JBool true)
          | None => if bool_decide (p ∈ dirs h) then Ok (JBool false) else Throw (enoent "stat" p)
          end)
  | FsSize p =>
      (h, match files h !! p with
          | Some c => Ok (JNum (Num.of_Z (slen c)))
          | None => Throw (enoent "stat" p)
          end)
  | FsUnlink p =>
      (match files h !! p with Some _ => Host (delete p (files h)) (dirs h) | None => h end,
       match files h !! p with Some _ => Ok JUndef | None => Throw (enoent "unlink" p) end)
  | FsRead p =>
      (h, match files h !! p with
          | Some c => Ok (JStr c)
          | None => Throw (enoent "open" p)
          end)
  | FsWrite p c _ => (Host (<[p := c]> (files h)) (dirs h), Ok JUndef)
  | _ => (h, ext o)
  end.
End host.

(** ** Directories (getUserDataPath, getWalletDir, getDataDir, getLogDir) *)

Definition WALLET_DIR_NAME : string := "wallets".
Definition LOG_DIR_NAME : string := "logs".
Definition DATA_DIR_NAME : string := "CryLo-testnet".

Section dirs.
Context `{Config}.
Local Open Scope prog_scope.

Definition getUserDataPath : path := userDataPath.

(** The common body of the three directory getters. *)
Definition ensure_dir (p : path) : prog mop path :=
  exists_ <- call (FsExists p);
  (if truthy exists_ then Ret JUndef else call (FsMkdir p)) ;;
  Ret p.

Definition getWalletDir : prog mop path := ensure_dir (getUserDataPath ++ [WALLET_DIR_NAME])%list.
Definition getDataDir : prog mop path := ensure_dir (getUserDataPath ++ [DATA_DIR_NAME])%list.
Definition getLogDir : prog mop path := ensure_dir (getUserDataPath ++ [LOG_DIR_NAME])%list.

Definition IS_WIN : bool := String.eqb platform "win32".
Definition IS_MAC : bool := String.eqb platform "darwin".

Definition getResourcesPath : path := if isPackaged then processResources else dirname.

Definition getBinPath (name : string) : path :=
  let os := if IS_WIN then "win" else if IS_MAC then "mac" else "linux" in
  let ext := if IS_WIN then ".exe" else "" in
  (getResourcesPath ++ ["bin"; os; name +:+ ext])%list.
End dirs.

(** Operations that leave every host unchanged. *)
Definition keeps_host (o : mop) : Prop :=
  match o with FsMkdir _ | FsUnlink _ | FsWrite _ _ _ => False | _ => True end.

Lemma exec_keeps_host ext h o : keeps_host o -> fst (exec_host ext h o) = h.
Proof. by destruct o. Qed.

(** Whether a path names a file or a directory. *)
Definition occupied (h : host) (p : path) : bool :=
  bool_decide (is_Some (files h !! p) \/ p ∈ dirs h).

(** The host and the result after running a program on a host. *)
Definition outcome {A} (ext : mop -> result jsval) (p : prog mop A) (h : host) : host * result A :=
  final (exec_host ext) p h.

Lemma outcome_bind {A B} ext (p : prog mop A) (f : A -> prog mop B) h :
  outcome ext (bind p f) h =
  match outcome ext p h with
  | (h', Ok a) => outcome ext (f a) h'
  | (h', Throw e) => (h', Throw e)
  end.
Proof. apply final_bind. Qed.

Lemma outcome_try {A} ext (p : prog mop A) (f : jserr -> prog mop A) h :
  outcome ext (try_catch p f) h =
  match outcome ext p h with
  | (h', Ok a) => (h', Ok a)
  | (h', Throw e) => outcome ext (f e) h'
  end.
Proof. apply final_try. Qed.

Lemma outcome_call ext o h : outcome ext (call o) h = exec_host ext h o.
Proof. apply final_call. Qed.

Lemma outcome_lift {A} ext (r : result A) h : outcome ext (lift r) h = (h, r).
Proof. apply final_lift. Qed.

Lemma outcome_ret {A} ext (a : A) h : outcome ext (Ret a) h = (h, Ok a).
Proof. done. Qed.

Section dir_facts.
Context `{Config} (ext : mop -> result jsval).

Lemma elem_of_prefixes acc p q : q ∈ prefixes acc p -> (length q <= length acc + length p)%nat.
Proof.
  revert acc. induction p as [|c p IH]; intros acc; cbn [prefixes]; [by intros ?%elem_of_nil|].
  intros [->|Hq]%elem_of_cons.
  - rewrite length_app. simpl. lia.
  - apply IH in Hq. rewrite length_app in Hq. simpl in *. lia.
Qed.

(** The host after a directory getter: its directories may have grown. *)
Definition with_dir (p : path) (h : host) : host :=
  if bool_decide (is_Some (files h !! p) \/ p ∈ dirs h) then h
  else Host (files h) (list_to_set (prefixes [] p) ∪ dirs h).

Lemma run_ensure_dir p h : exists tr, run (exec_host ext) (ensure_dir p) h = (with_dir p h, tr, Ok p).
Proof.
  unfold ensure_dir, with_dir. rewrite run_bind, run_call. cbn [exec_host fst snd truthy].
  destruct (bool_decide _); rewrite run_bind; [by eexists|].
  rewrite run_call. cbn [exec_host fst snd]. by eexists.
Qed.

Lemma files_with_dir p h : files (with_dir p h) = files h.
Proof. unfold with_dir. by destruct (bool_decide _). Qed.

Lemma dirs_with_dir_longer p q h :
  (length p < length q)%nat -> q ∈ dirs (with_dir p h) <-> q ∈ dirs h.
Proof.
  intros Hl. unfold with_dir. destruct (bool_decide _); [done|]. cbn [dirs].
  rewrite elem_of_union, elem_of_list_to_set. split; [|auto].
  intros [Hq%elem_of_prefixes|]; [simpl in Hq; lia|done].
Qed.
End dir_facts.

(** The text of an answer that the source uses as a string. *)
Definition as_text (v : jsval) : string := to_str v.

(** A method call on a value that must be a string ([v.toLowerCase()]). *)
Definition lower_method (v : jsval) : result string :=
  match v with
  | JStr s => Ok (to_lower s)
  | JUndef => Throw (type_error_read "undefined" "toLowerCase")
  | JNull => Throw (type_error_read "null" "toLowerCase")
  | _ => Throw (Error "toLowerCase is not a function")
  end.

(** [v.toString()]. *)
Definition toString_method (v : jsval) : result string :=
  match v with
  | JUndef => Throw (type_error_read "undefined" "toString")
  | JNull => Throw (type_error_read "null" "toString")
  | _ => Ok (to_str v)
  end.

(** ** A concrete configuration and library, for the examples *)

Definition demo_config : Config := {|
  userDataPath := ["home"; "u"; ".config"; "crylo-wallet"]; homeDir := ["home"; "u"];
  isPackaged := true; processResources := ["opt"; "crylo"]; dirname := ["src"; "electron"]; platform := "linux"; NEXUS_RPC_URL := "http://127.0.0.1:9654"
|}.

(** Decimal texts with at most [d] digits after the point, as a BigInt of [10^-d] units. *)
Definition demo_parseUnits (s : string) (d : Z) : result jsval :=
  match split_on "."%char s with
  | [w] => if all_digits w && negb (String.eqb w "") then Ok (JBig (dval 0 w * 10 ^ d))
           else Throw (Error "invalid FixedNumber string value")
  | [w; f] => if all_digits (w +:+ f) && (slen f <=? d) then Ok (JBig (dval 0 (pad_end f d "0"%char)
                                     + dval 0 w * 10 ^ d))
              else Throw (Error "too many decimals for format")
  | _ => Throw (Error "invalid FixedNumber string value")
  end.

Definition demo_ethers : Ethers := {|
  isAddress v := match v with JStr s => starts_with "0x" s | _ => false end;
  getAddress v := match v with
                  | JStr s => if starts_with "0x" s then Ok s else Throw (Error "invalid address")
                  | _ => Throw (Error "invalid address")
                  end;
  parseUnits := demo_parseUnits;
  formatUnits v d := match v with
                     | JBig n => Ok (fixed_digits n d)
                     | _ => Throw (Error "invalid BigNumberish value")
                     end;
  walletAddress k := match k with JStr s => Ok ("0x" +:+ s) | _ => Throw (Error "invalid private key") end;
  keccakUtf8 v := match v with JStr s => Ok ("0x" +:+ s) | _ => Throw (Error "invalid string") end;
  zeroPadValue32 s := s;
  topicHash _ name := name;
  parseLog _ log := Ok (get_opt log "parsed")
|}.
