(* ===== verification/Backend.v ===== *)
(** * RPC helpers, startup sequence and local handlers (electron/main.js)

    [rpcCall] and [daemonHttp] turn one HTTP exchange into a promise; [waitForRpc] polls a port;
    [startBackend] brings up the daemon connection and the wallet RPC process and reports the
    progress to the window.  The handlers at the end answer the renderer: RPC pass-through,
    wallet list, miner control. *)

From S2P Require Import Prelude JsNumber JsString JsConv JsVal Json Prog MainEnv.

Definition DAEMON_RPC_PORT : Z := 22641.
Definition WALLET_RPC_PORT : Z := 22643.

(** ** One HTTP exchange as the promise sees it

    The callbacks of a request: chunks of the body, its end, the inactivity timeout and the
    error event, in any order.  A promise settles once: later [resolve] and [reject] calls have
    no effect. *)
Module Exchange.

Inductive http_event :=
| Data (chunk : string)
| End
| Timeout
| ReqError (e : jserr).

Record exchange := Exchange_ {
  data : string;
  destroyed : bool;
  settled : option (result jsval)
}.

Definition settle (r : result jsval) (x : exchange) : exchange :=
  match settled x with
  | None => Exchange_ (data x) (destroyed x) (Some r)
  | Some _ => x
  end.

(** [data += chunk] decodes the bytes of each chunk on their own.  [finish] is the body of the
    ['end'] callback: what it resolves or rejects with. *)
Definition step (finish : string -> result jsval) (x : exchange) (ev : http_event) : exchange :=
  match ev with
  | Data chunk => Exchange_ (data x +:+ utf8_decode chunk) (destroyed x) (settled x)
  | End => settle (finish (data x)) x
  | Timeout => settle (Throw (Error "timeout")) (Exchange_ (data x) true (settled x))
  | ReqError e => settle (Throw e) x
  end.

Definition start : exchange := Exchange_ "" false None.

Definition run_exchange (finish : string -> result jsval) (evs : list http_event) : exchange :=
  foldl (step finish) start evs.

(** What the caller is promised: the outcome of the first of end, timeout and error, the end
    seeing the texts of the chunks before it. *)
Fixpoint first_outcome (finish : string -> result jsval) (buf : string) (evs : list http_event) :
  option (result jsval) :=
  match evs with
  | [] => None
  | Data c :: evs' => first_outcome finish (buf +:+ utf8_decode c) evs'
  | End :: _ => Some (finish buf)
  | Timeout :: _ => Some (Throw (Error "timeout"))
  | ReqError e :: _ => Some (Throw e)
  end.

Lemma step_settled finish evs x r :
  settled x = Some r -> settled (foldl (step finish) x evs) = Some r.
Proof.
  revert x. induction evs as [|ev evs IH]; intros x Hx; [done|]. simpl. apply IH.
  destruct ev; simpl; unfold settle; simpl; rewrite ?Hx; done.
Qed.

Lemma run_first_outcome finish evs b d :
  settled (foldl (step finish) (Exchange_ b d None) evs) = first_outcome finish b evs.
Proof.
  revert b d. induction evs as [|[c| | |e] evs IH]; intros b d; simpl; [done|apply IH|..];
    by apply step_settled.
Qed.

Definition terminal (ev : http_event) : bool := match ev with Data _ => false | _ => true end.

Lemma first_outcome_some finish b evs :
  is_Some (first_outcome finish b evs) <-> exists ev, ev ∈ evs /\ terminal ev = true.
Proof.
  revert b. induction evs as [|ev evs IH]; intros b; cbn [first_outcome].
  - split; [by intros [? [=]]|]. by intros (ev & Hin%elem_of_nil & _).
  - destruct ev as [c| | |e].
    2-4: split; [|by eexists]; intros _; eexists; split; [apply elem_of_cons; by left|done].
    rewrite IH. split; intros (ev & Hin & Ht); exists ev; (split; [|done]).
    + apply elem_of_cons. by right.
    + by apply elem_of_cons in Hin as [->|Hin].
Qed.

(** Chunks that are complete texts, then the end. *)
Lemma first_outcome_texts finish cs late b :
  Forall (Forall scalar) cs ->
  first_outcome finish b (map (fun l => Data (text_of l)) cs ++ End :: late)
  = Some (finish (b +:+ text_of (List.concat cs))).
Proof.
  intros Hcs. revert b. induction Hcs as [|l cs Hl _ IH]; intros b.
  - cbn. by rewrite app_nil_string.
  - cbn [map app first_outcome List.concat]. rewrite utf8_decode_text by done. rewrite IH.
    by rewrite text_of_app, app_assoc_string.
Qed.

(** The same exchange, answering with the received text. *)
Definition answer (evs : list http_event) : option (result jsval) :=
  first_outcome (fun d => Ok (JStr d)) "" evs.

Lemma first_outcome_answer finish evs b :
  first_outcome finish b evs
  = option_map (fun a => rbind a (fun v => finish (as_text v)))
               (first_outcome (fun d => Ok (JStr d)) b evs).
Proof. revert b. induction evs as [|[] evs IH]; intros b; simpl; done. Qed.

End Exchange.

(** ** RPC helpers *)

(** [new Error(v)]. *)
Definition error_of (v : jsval) : jserr :=
  match v with JUndef => Error "" | _ => Error (to_str v) end.

(** The ['end'] callback of [rpcCall]. *)
Definition rpc_finish (data : string) : result jsval :=
  parsed <-! Json.parse data;
  err <-! get parsed "error";
  if truthy err then (m <-! get err "message"; Throw (error_of m))
  else get parsed "result".

(** A default parameter replaces [undefined]. *)
Definition default_arg (v d : jsval) : jsval := match v with JUndef => d | _ => v end.

Section rpc.
Local Open Scope prog_scope.

Definition rpcCall (port : Z) (method params : jsval) (timeoutMs : jsval) : prog mop jsval :=
  body <- lift (Json.stringify "" (JObj [("jsonrpc", JStr "2.0"); ("id", JStr "0");
                                         ("method", method);
                                         ("params", default_arg params (JObj []))]));
  data <- call (HttpPost port "/json_rpc" body timeoutMs);
  lift (rpc_finish (as_text data)).

Definition daemonHttp (url : string) (bodyObj : jsval) (timeoutMs : jsval) : prog mop jsval :=
  body <- lift (Json.stringify "" bodyObj);
  data <- call (HttpPost DAEMON_RPC_PORT url body timeoutMs);
  lift (Json.parse (as_text data)).

(** The default of [timeoutMs]. *)
Definition ten_seconds : jsval := JNum (Num.of_Z 10000).

Definition daemonRpc (method params : jsval) : prog mop jsval :=
  rpcCall DAEMON_RPC_PORT method params ten_seconds.

Definition walletRpc (method params : jsval) (timeoutMs : jsval) : prog mop jsval :=
  rpcCall WALLET_RPC_PORT method params timeoutMs.

(** *** Polling a port (waitForRpc) *)

Inductive wait_step := WResolve | WReject (e : jserr) | WRetry.

Definition rpc_probe (port : Z) : string :=
  if port =? DAEMON_RPC_PORT then "get_info" else "get_languages".

Definition late_message (port maxMs : Z) : string :=
  "RPC on port " +:+ string_of_Z port +:+ " did not start within "
  +:+ num_to_string (Num.div (Num.of_Z maxMs) (Num.of_Z 1000)) +:+ "s".

(** One call of the inner function [attempt]. *)
Definition attempt (port maxMs : Z) (start : num) : prog mop wait_step :=
  down <- call ShuttingDown;
  if truthy down then Ret (WReject (Error "shutting down"))
  else
    try_catch
      (rpcCall port (JStr (rpc_probe port)) JUndef ten_seconds ;; Ret WResolve)
      (fun _ =>
         now <- call DateNow;
         if Num.ltb (Num.of_Z maxMs) (Num.sub (to_number now) start)
         then Ret (WReject (Error (late_message port maxMs)))
         else Ret WRetry).

(** Attempts are one second apart; [None] when [fuel] attempts did not settle the promise. *)
Fixpoint attempts (fuel : nat) (port maxMs : Z) (start : num) : prog mop (option (result jsval)) :=
  match fuel with
  | O => Ret None
  | S fuel' =>
      o <- attempt port maxMs start;
      match o with
      | WResolve => Ret (Some (Ok JUndef))
      | WReject e => Ret (Some (Throw e))
      | WRetry => call (Sleep 1000) ;; attempts fuel' port maxMs start
      end
  end.

Definition waitForRpc (fuel : nat) (port maxMs : Z) : prog mop (option (result jsval)) :=
  start <- call DateNow;
  attempts fuel port maxMs (to_number start).
End rpc.

(** ** Startup *)

(** Enough attempts for a wait of [maxMs]: one per second, one at the start, one past the end. *)
Definition wait_fuel (maxMs : Z) : nat := Z.to_nat (maxMs / 1000 + 2).

Section startup.
Context `{Config}.
Local Open Scope prog_scope.

(** [await waitForRpc(port, maxMs)]; the last case does not arise with a running clock. *)
Definition awaitRpc (port maxMs : Z) : prog mop jsval :=
  r <- waitForRpc (wait_fuel maxMs) port maxMs;
  match r with Some x => lift x | None => Raise (Error "") end.

Definition sendStatus (state message : string) : prog mop jsval :=
  alive <- call WindowAlive;
  if truthy alive then
    call (WindowSend "startup-status" (JObj [("state", JStr state); ("message", JStr message)]))
  else Ret JUndef.

(** [makeLogger]: the log file, removed first when it has grown past 2 MB. *)
Definition makeLogger (name : string) : prog mop path :=
  dir <- getLogDir;
  let logFile := (dir ++ [name +:+ ".log"])%list in
  try_catch
    (size <- call (FsSize logFile);
     if Num.ltb (Num.of_Z (2 * 1024 * 1024)) (to_number size)
     then call (FsUnlink logFile) else Ret JUndef)
    (fun _ => Ret JUndef) ;;
  call (OpenAppend logFile) ;;
  Ret logFile.

(** [logger.write(data)]: a dated line to the file and, trimmed, to the window. *)
Definition logger_write (name : string) (logFile : path) (data : string) : prog mop jsval :=
  iso <- call NowIso;
  let line := "[" +:+ as_text iso +:+ "] " +:+ data in
  call (LogWrite logFile line) ;;
  alive <- call WindowAlive;
  if truthy alive then
    call (WindowSend "log" (JObj [("source", JStr name); ("line", JStr (trim line))]))
  else Ret JUndef.

(** The daemon is not spawned: the returned object stands for one that already runs. *)
Definition spawnDaemon : prog mop jsval :=
  logFile <- makeLogger "daemon";
  logger_write "daemon" logFile
    ("Using existing CryLo daemon on 127.0.0.1:" +:+ string_of_Z DAEMON_RPC_PORT +:+ Json.newline) ;;
  Ret (JObj [("exitCode", JNull)]).

Definition walletRpcArgs (walletDir : path) : list string :=
  ["--testnet"; "--rpc-bind-port=" +:+ string_of_Z WALLET_RPC_PORT;
   "--daemon-address=127.0.0.1:" +:+ string_of_Z DAEMON_RPC_PORT;
   "--wallet-dir=" +:+ path_text walletDir; "--disable-rpc-login"; "--log-level=1"].

Definition spawnWalletRpc : prog mop jsval :=
  let bin := getBinPath "CryLo-wallet-rpc" in
  present <- call (FsExists bin);
  if negb (truthy present) then
    sendStatus "error" ("Wallet-RPC binary not found: " +:+ path_text bin) ;;
    Ret JNull
  else
    logFile <- makeLogger "wallet-rpc";
    dir <- getWalletDir;
    let args := walletRpcArgs dir in
    logger_write "wallet-rpc" logFile
      ("Spawning wallet-rpc: " +:+ path_text bin +:+ " " +:+ join " " args +:+ Json.newline) ;;
    call (Spawn bin args).

Definition startBackend : prog mop jsval :=
  try_catch
    (sendStatus "starting" "Starting CryLo daemon..." ;;
     daemonProc <- spawnDaemon;
     if negb (truthy daemonProc) then Ret JUndef
     else
       sendStatus "starting" "Waiting for daemon RPC..." ;;
       awaitRpc DAEMON_RPC_PORT 180000 ;;
       sendStatus "starting" "Daemon ready. Starting wallet RPC..." ;;
       walletProc <- spawnWalletRpc;
       if negb (truthy walletProc) then Ret JUndef
       else
         sendStatus "starting" "Waiting for wallet RPC..." ;;
         awaitRpc WALLET_RPC_PORT 60000 ;;
         sendStatus "ready" "All services ready.")
    (fun err => sendStatus "error" ("Startup failed: " +:+ message err)).
End startup.

(** ** Handlers *)

Section handlers.
Context `{Config}.
Local Open Scope prog_scope.

(** The [try { return { ok: true, ... } } catch (e) { return { ok: false, error: e.message } }]
    of the handlers. *)
Definition guarded (p : prog mop jsval) : prog mop jsval :=
  try_catch p (fun e => Ret (fail_obj (message e))).

Definition handle_daemon_rpc (method params : jsval) : prog mop jsval :=
  guarded (r <- daemonRpc method params; Ret (ok_obj [("result", r)])).

(** [timeoutMs || 10000]: a value of another type is passed on, and refused by [setTimeout]. *)
Definition handle_wallet_rpc (method params timeoutMs : jsval) : prog mop jsval :=
  guarded (r <- walletRpc method params (js_or timeoutMs ten_seconds);
           Ret (ok_obj [("result", r)])).

(** The predicate of [files.filter] in ['list-wallets'], with its short-circuit order. *)
Definition is_wallet_file (dir : path) (f : string) : prog mop bool :=
  keys <- call (FsExists (dir ++ [f +:+ ".keys"])%list);
  if negb (truthy keys) then Ret false
  else
    isFile <- call (FsIsFile (dir ++ [f])%list);
    Ret (truthy isFile && negb (ends_with f ".keys") && negb (ends_with f ".address.txt")
         && negb (ends_with f ".lock")).

Fixpoint filterM (f : string -> prog mop bool) (l : list string) : prog mop (list string) :=
  match l with
  | [] => Ret []
  | x :: l' =>
      b <- f x;
      r <- filterM f l';
      Ret (if b then x :: r else r)
  end.

Definition strings_of (v : jsval) : list string :=
  match v with JArr l => map to_str l | _ => [] end.

Definition handle_list_wallets : prog mop jsval :=
  guarded
    (dir <- getWalletDir;
     files <- call (FsReaddir dir);
     wallets <- filterM (is_wallet_file dir) (strings_of files);
     Ret (ok_obj [("wallets", JArr (map JStr (isort js_leb_string wallets)))])).

(** [{ type: opts.type || 'question', ... }]; the reply is whether the first button was used. *)
Definition handle_confirm_dialog (opts : jsval) : prog mop jsval :=
  type <- lift (get opts "type");
  buttons <- lift (get opts "buttons");
  title <- lift (get opts "title");
  msg <- lift (get opts "message");
  result <- call (ShowMessageBox
    (JObj [("type", js_or type (JStr "question"));
           ("buttons", js_or buttons (JArr [JStr "OK"; JStr "Cancel"]));
           ("defaultId", JNum (Fin 0)); ("cancelId", JNum (Num.of_Z 1));
           ("title", js_or title (JStr "")); ("message", js_or msg (JStr ""))]));
  response <- lift (get result "response");
  Ret (JBool (strict_eq response (JNum (Fin 0)))).

(** *** Miner control: the daemon mines, the wallet forwards *)

Definition handle_miner_get_info : prog mop jsval :=
  cpus <- call CpuCount;
  mem <- call TotalMem;
  Ret (ok_obj [("cpuCount", cpus);
               ("totalMemMB",
                JNum (Num.floor (Num.div (Num.div (to_number mem) (Num.of_Z 1024))
                                         (Num.of_Z 1024))))]).

Definition handle_miner_start (opts : jsval) : prog mop jsval :=
  guarded
    (addr <- lift (get opts "walletAddress");
     threads <- lift (get opts "threads");
     r <- daemonHttp "/start_mining"
            (JObj [("miner_address", addr); ("threads_count", js_or threads (JNum (Num.of_Z 2)));
                   ("do_background_mining", JBool false); ("ignore_battery", JBool true)])
            ten_seconds;
     Ret (ok_obj [("result", r)])).

Definition handle_miner_stop : prog mop jsval :=
  guarded (r <- daemonHttp "/stop_mining" (JObj []) ten_seconds;
           Ret (ok_obj [("result", r)])).

Definition handle_miner_get_status : prog mop jsval :=
  guarded
    (r <- daemonHttp "/mining_status" (JObj []) ten_seconds;
     active <- lift (get r "active");
     speed <- lift (get r "speed");
     threads <- lift (get r "threads_count");
     reward <- lift (get r "block_reward");
     Ret (ok_obj [("running", JBool (truthy active));
                  ("hashrate", js_or speed (JNum (Fin 0)));
                  ("threads", js_or threads (JNum (Fin 0)));
                  ("blockReward", js_or reward (JNum (Fin 0)))])).

Definition handle_open_log_dir : prog mop jsval := d <- getLogDir; call (OpenPath d) ;; Ret JUndef.
Definition handle_open_data_dir : prog mop jsval := call (OpenPath getUserDataPath) ;; Ret JUndef.
Definition handle_get_version : prog mop jsval := call AppVersion.
End handlers.

(** ** Properties *)

(** C16 (refinement). The promise built by [rpcCall] from the callbacks of a request settles at most
    once, with the outcome of the first of end, timeout and error, and it settles exactly when one
    of these happens; later callbacks, a timeout after the reply included, change nothing.  The end
    sees the chunks before it, each decoded on its own: when no character is split over two chunks,
    that is the text that was sent.  The outcome is that of the model's [rpcCall] when its request
    is answered with that exchange. *)
Theorem rpcCall_settles_once (port : Z) (method params timeoutMs : jsval)
    (body : string) (evs : list Exchange.http_event) :
  Json.stringify "" (JObj [("jsonrpc", JStr "2.0"); ("id", JStr "0"); ("method", method);
                           ("params", default_arg params (JObj []))]) = Ok body ->
  let outcome evs := Exchange.settled (Exchange.run_exchange rpc_finish evs) in
  outcome evs = Exchange.first_outcome rpc_finish "" evs /\
  (is_Some (outcome evs) <-> exists ev, ev ∈ evs /\ Exchange.terminal ev = true) /\
  (forall cs late, Forall (Forall scalar) cs ->
     evs = (map (fun l => Exchange.Data (text_of l)) cs ++ Exchange.End :: late)%list ->
     outcome evs = Some (rpc_finish (text_of (List.concat cs)))) /\
  (forall r, outcome evs = Some r ->
     (forall late, outcome (evs ++ late)%list = Some r) /\
     exists a, Exchange.answer evs = Some a /\
       Runs (rpcCall port method params timeoutMs) [(HttpPost port "/json_rpc" body timeoutMs, a)] r).
Proof.
  intros Hb outcome.
  assert (outcome evs = Exchange.first_outcome rpc_finish "" evs) as Hf
    by apply Exchange.run_first_outcome.
  split_and!; [done| | |].
  - rewrite Hf. apply Exchange.first_outcome_some.
  - intros cs late Hcs ->. rewrite Hf. exact (Exchange.first_outcome_texts rpc_finish cs late "" Hcs).
  - intros r Hr. split.
    + intros late. unfold outcome, Exchange.run_exchange. rewrite foldl_app.
      apply Exchange.step_settled. exact Hr.
    + rewrite Hf, Exchange.first_outcome_answer in Hr. fold (Exchange.answer evs) in Hr.
      destruct (Exchange.answer evs) as [a|]; [|done].
      simpl in Hr. injection Hr as <-. exists a. split; [done|].
      unfold rpcCall. rewrite Hb. apply Runs_do. simpl. destruct a as [v|e]; simpl.
      * by apply Runs_lift.
      * constructor.
Qed.

(** The reply [{"result":7}] arrives in two chunks; the timeout comes too late. *)
Definition two_chunks : list Exchange.http_event :=
  [Exchange.Data (text_of [123; 34; 114; 101; 115; 117; 108; 116; 34]);
   Exchange.Data (text_of [58; 55; 125]); Exchange.End; Exchange.Timeout].

Lemma rpcCall_settles_once_witness :
  Exchange.settled (Exchange.run_exchange rpc_finish two_chunks) = Some (Ok (JNum (Num.of_Z 7))) /\
  (forall late, Exchange.settled (Exchange.run_exchange rpc_finish (two_chunks ++ late)%list)
                = Some (Ok (JNum (Num.of_Z 7)))) /\
  exists a body, Exchange.answer two_chunks = Some a /\
    Runs (rpcCall 22641 (JStr "get_info") JUndef ten_seconds)
      [(HttpPost 22641 "/json_rpc" body ten_seconds, a)] (Ok (JNum (Num.of_Z 7))).
Proof.
  pose (body := match Json.stringify "" (JObj [("jsonrpc", JStr "2.0"); ("id", JStr "0");
                   ("method", JStr "get_info"); ("params", JObj [])]) with
                | Ok b => b | Throw _ => "" end).
  destruct (rpcCall_settles_once 22641 (JStr "get_info") JUndef ten_seconds body two_chunks)
    as (_ & _ & Htext & Hlate); [vm_compute; reflexivity|].
  assert (Exchange.settled (Exchange.run_exchange rpc_finish two_chunks) = Some (Ok (JNum (Num.of_Z 7))))
    as Hr.
  { rewrite (Htext [[123; 34; 114; 101; 115; 117; 108; 116; 34]; [58; 55; 125]] [Exchange.Timeout]).
    - vm_compute. reflexivity.
    - repeat constructor; unfold scalar; lia.
    - reflexivity. }
  split; [exact Hr|]. destruct (Hlate _ Hr) as [Hl (a & Ha & Hrun)]. split; [exact Hl|].
  exists a, body. exact (conj Ha Hrun).
Defined.

(** A character whose two bytes arrive in different chunks is lost: two replacement characters
    take its place. *)
Lemma split_character :
  let e_acute := text_of [233] in
  Exchange.answer [Exchange.Data (stake 1 e_acute); Exchange.Data (sdrop 1 e_acute); Exchange.End]
  = Some (Ok (JStr (text_of [65533; 65533]))) /\
  Exchange.answer [Exchange.Data e_acute; Exchange.End] = Some (Ok (JStr e_acute)).
Proof. vm_compute. done. Qed.

(** The time, in milliseconds, of an answer to [Date.now()]: a safe integer. *)
Definition time_of (r : result jsval) : option Z :=
  match r with
  | Ok (JNum (Fin z)) =>
      if (z mod Num.U =? 0) && (0 <=? z) && (z / Num.U <=? 2 ^ 53) then Some (z / Num.U) else None
  | _ => None
  end.

Definition completes (r : result jsval) : bool := match r with Ok _ => true | Throw _ => false end.

(** The clock of the host along a trace, from [now]: [None] when it runs backwards, when a timer
    fires before its delay, or when reading a variable or a timer fails. *)
Fixpoint clock_run (now : Z) (tr : list (event mop)) : option Z :=
  match tr with
  | [] => Some now
  | (DateNow, r) :: tr' =>
      match time_of r with
      | Some t => if now <=? t then clock_run t tr' else None
      | None => None
      end
  | (Sleep d, r) :: tr' => if completes r then clock_run (now + d) tr' else None
  | (ShuttingDown, r) :: tr' => if completes r then clock_run now tr' else None
  | _ :: tr' => clock_run now tr'
  end.

Lemma clock_run_app now tr1 tr2 :
  clock_run now (tr1 ++ tr2)%list
  = match clock_run now tr1 with Some t => clock_run t tr2 | None => None end.
Proof.
  revert now. induction tr1 as [|[o r] tr1 IH]; intros now; [done|].
  destruct o; cbn [app clock_run]; try apply IH.
  - destruct (time_of r); [|done]. destruct (_ <=? _); [apply IH|done].
  - destruct (completes r); [apply IH|done].
  - destruct (completes r); [apply IH|done].
Qed.

Lemma time_of_num r t : time_of r = Some t -> r = Ok (JNum (Fin (t * Num.U))) /\ 0 <= t <= 2 ^ 53.
Proof.
  destruct r as [[]|]; simpl; try done. destruct x as [| |z]; try done.
  destruct (_ && _) eqn:E; [|done]. intros [= <-].
  rewrite !andb_true_iff, Z.eqb_eq, !Z.leb_le in E. destruct E as [[Hm Hz] Hb].
  pose proof Num.U_pos as HU. pose proof (Z.div_mod z Num.U ltac:(lia)).
  split; [do 3 f_equal; lia|]. split; [by apply Z.div_pos|done].
Qed.

(** An RPC performs at most its HTTP request: the clock is not touched. *)
Lemma rpcCall_trace port method params timeoutMs tr x :
  Runs (rpcCall port method params timeoutMs) tr x ->
  tr = [] \/ exists body r, tr = [(HttpPost port "/json_rpc" body timeoutMs, r)].
Proof.
  unfold rpcCall. intros H. repeat runs_step; simpl; eauto.
Qed.

Lemma rpcCall_clock port method params timeoutMs tr x now :
  Runs (rpcCall port method params timeoutMs) tr x -> clock_run now tr = Some now.
Proof. intros [->|(body & r & ->)]%rpcCall_trace; done. Qed.

Lemma probe_clock port tr x now :
  Runs (rpcCall port (JStr (rpc_probe port)) JUndef ten_seconds ;; Ret WResolve)%prog tr x ->
  clock_run now tr = Some now.
Proof.
  intros H. runs_step; [runs_step; rewrite app_nil_r|]; by eapply rpcCall_clock.
Qed.

Lemma elapsed_leb t s maxMs :
  0 <= t <= 2 ^ 53 -> 0 <= s <= 2 ^ 53 -> 0 <= maxMs <= 2 ^ 53 ->
  Num.ltb (Num.of_Z maxMs) (Num.sub (Fin (t * Num.U)) (Fin (s * Num.U))) = (maxMs <? t - s).
Proof.
  intros. rewrite Num.sub_safe, Num.of_Z_safe by lia. simpl. pose proof Num.U_pos.
  apply Bool.eq_true_iff_eq. rewrite !Z.ltb_lt. symmetry. by apply Z.mul_lt_mono_pos_r.
Qed.

(** One attempt under a running clock returns a verdict; it asks for a retry only before the
    deadline. *)
Lemma attempt_verdict port maxMs s tr x now now' :
  0 <= s <= 2 ^ 53 -> 0 <= maxMs <= 2 ^ 53 ->
  Runs (attempt port maxMs (Fin (s * Num.U))) tr x -> clock_run now tr = Some now' ->
  exists o, x = Ok o /\ now <= now' /\ (o = WRetry -> now' - s <= maxMs).
Proof.
  intros Hs Hm H Hc. unfold attempt in H. runs_step; runs_step.
  match goal with H : Runs (if ?b then _ else _) _ _ |- _ => destruct b end.
  { runs_step. simpl in Hc. injection Hc as <-. eexists. split_and!; [done|lia|done]. }
  cbn [app clock_run completes] in Hc. runs_step.
  - rewrite (probe_clock port _ (Ok x0) now) in Hc by done. injection Hc as <-.
    repeat runs_step. eexists. split_and!; [done|lia|done].
  - match goal with H : Runs _ _ (Throw _) |- _ => rename H into Hp end.
    rewrite clock_run_app, (probe_clock port _ _ now Hp) in Hc. clear Hp.
    runs_step; runs_step.
    cbn [app clock_run] in Hc. destruct (time_of _) as [t|] eqn:Et; [|done].
    apply time_of_num in Et as [[= ->] Ht]. destruct (now <=? t) eqn:E; [|done].
    apply Z.leb_le in E. cbn [to_number] in *.
    match goal with H : Runs (if ?b then _ else _) _ _ |- _ => rename H into Hif end.
    rewrite elapsed_leb in Hif by lia. destruct (maxMs <? t - s) eqn:El; runs_step;
      simpl in Hc; injection Hc as <-; eexists; (split_and!; [done|lia|]); [done|].
    intros _. apply Z.ltb_ge in El. lia.
Qed.

Lemma attempts_settle fuel port maxMs s tr x now now' :
  0 <= s <= 2 ^ 53 -> 0 <= maxMs <= 2 ^ 53 -> s <= now ->
  s + maxMs < now + 1000 * (Z.of_nat fuel - 1) -> (1 <= fuel)%nat ->
  Runs (attempts fuel port maxMs (Fin (s * Num.U))) tr x -> clock_run now tr = Some now' ->
  exists r, x = Ok (Some r).
Proof.
  intros Hs Hm. revert tr now now'.
  induction fuel as [|fuel IH]; intros tr now now' Hnow Hf H1 H Hc; [lia|].
  cbn [attempts] in H. runs_step.
  - rewrite clock_run_app in Hc. destruct (clock_run now _) as [t|] eqn:Et; [|done].
    match goal with H : Runs (attempt _ _ _) _ _ |- _ =>
      destruct (attempt_verdict _ _ _ _ _ _ _ Hs Hm H Et) as (o & [= ->] & Ht & Hr) end.
    destruct o as [|e|]; [runs_step; eauto..|].
    specialize (Hr eq_refl). runs_step; runs_step.
    cbn [app clock_run completes] in Hc.
    eapply (IH _ (t + 1000)); [lia|lia|lia|eassumption|exact Hc].
  - match goal with H : Runs (attempt _ _ _) _ (Throw _) |- _ =>
      destruct (attempt_verdict _ _ _ _ _ _ _ Hs Hm H Hc) as (o & [=] & _) end.
Qed.

(** C17 (termination). Polling always settles: on a host whose clock runs, [waitForRpc] resolves
    or rejects within [maxMs / 1000 + 2] attempts, whatever the port answers. *)
Theorem waitForRpc_terminates (port maxMs now now' : Z) (tr : list (event mop))
    (x : result (option (result jsval))) :
  0 <= now -> 0 <= maxMs <= 2 ^ 53 ->
  Runs (waitForRpc (wait_fuel maxMs) port maxMs) tr x -> clock_run now tr = Some now' ->
  exists r, x = Ok (Some r).
Proof.
  intros Hnow Hm H Hc. unfold waitForRpc in H. runs_step; runs_step.
  cbn [app clock_run] in Hc. destruct (time_of _) as [s|] eqn:Es; [|done].
  apply time_of_num in Es as [[= ->] Hs]. destruct (now <=? s) eqn:E; [|done].
  apply Z.leb_le in E. cbn [to_number] in *.
  pose proof (Z.div_mod maxMs 1000 ltac:(lia)). pose proof (Z.mod_pos_bound maxMs 1000 ltac:(lia)).
  eapply (attempts_settle _ port maxMs s _ _ s); [lia|lia|lia| | |eassumption|exact Hc];
    unfold wait_fuel; lia.
Qed.

(** A daemon that never answers: the wait of three seconds is given up after its deadline. *)
Definition silent_daemon (t : Z) (o : mop) : Z * result jsval :=
  match o with
  | DateNow => (t, Ok (JNum (Num.of_Z t)))
  | Sleep d => (t + d, Ok JUndef)
  | HttpPost _ _ _ _ => (t + 1, Throw (Error "connect ECONNREFUSED"))
  | _ => (t, Ok JUndef)
  end.

Lemma waitForRpc_terminates_witness :
  exists tr x now', Runs (waitForRpc (wait_fuel 3000) 22641 3000) tr x /\
    clock_run 5 tr = Some now' /\ exists r, x = Ok (Some r).
Proof.
  pose (out := run silent_daemon (waitForRpc (wait_fuel 3000) 22641 3000) 5).
  exists (snd (fst out)), (snd out), 3009.
  assert (Runs (waitForRpc (wait_fuel 3000) 22641 3000) (snd (fst out)) (snd out)) as H.
  { eapply (run_Runs silent_daemon _ 5 (fst (fst out))). unfold out.
    by destruct (run _ _ _) as [[??]?]. }
  assert (clock_run 5 (snd (fst out)) = Some 3009) as Hc by (vm_compute; reflexivity).
  split; [exact H|]. split; [exact Hc|].
  exact (waitForRpc_terminates 22641 3000 5 3009 _ _ ltac:(lia) ltac:(lia) H Hc).
Defined.

(** *** The startup sequence *)

Definition ready_payload : jsval :=
  JObj [("state", JStr "ready"); ("message", JStr "All services ready.")].

(** The operation that tells the window that the services are ready. *)
Definition not_ready (o : mop) : Prop :=
  o <> WindowSend "startup-status" ready_payload.

Definition good_probe (port : Z) (ev : event mop) : Prop :=
  match ev with
  | (HttpPost port' "/json_rpc" _ _, Ok d) =>
      port' = port /\ completes (rpc_finish (as_text d)) = true
  | _ => False
  end.

Definition spawned (ev : event mop) : Prop :=
  match ev with (Spawn _ _, Ok p) => truthy p = true | _ => False end.

Ltac not_ready_tac := unfold not_ready, ready_payload; congruence.

Section startup_facts.
Context `{Config}.

Lemma sendStatus_not_ready state msg :
  state <> "ready" -> Only not_ready (sendStatus state msg).
Proof. intros Hs. unfold sendStatus. only_with not_ready_tac. Qed.

Lemma getLogDir_not_ready : Only not_ready getLogDir.
Proof. unfold getLogDir, ensure_dir. only_with not_ready_tac. Qed.

Lemma makeLogger_not_ready name : Only not_ready (makeLogger name).
Proof.
  unfold makeLogger. pose proof getLogDir_not_ready. only_with not_ready_tac.
Qed.

Lemma logger_write_not_ready name f d : Only not_ready (logger_write name f d).
Proof. unfold logger_write. only_with not_ready_tac. Qed.

Lemma spawnDaemon_not_ready : Only not_ready spawnDaemon.
Proof.
  unfold spawnDaemon. pose proof (makeLogger_not_ready "daemon").
  apply Only_bind; [done|]. intros f. apply Only_bind; [apply logger_write_not_ready|].
  intros. constructor.
Qed.

Lemma spawnWalletRpc_not_ready : Only not_ready spawnWalletRpc.
Proof.
  unfold spawnWalletRpc. apply Only_bind; [apply Only_call; not_ready_tac|]. intros v.
  destruct (negb _).
  - apply Only_bind; [by apply sendStatus_not_ready|]. intros. constructor.
  - apply Only_bind; [apply makeLogger_not_ready|]. intros f.
    apply Only_bind; [unfold getWalletDir, ensure_dir; only_with not_ready_tac|]. intros d.
    apply Only_bind; [apply logger_write_not_ready|]. intros.
    apply Only_call; not_ready_tac.
Qed.

Lemma rpcCall_not_ready port m ps t : Only not_ready (rpcCall port m ps t).
Proof. unfold rpcCall. only_with not_ready_tac. Qed.

Lemma awaitRpc_not_ready port maxMs : Only not_ready (awaitRpc port maxMs).
Proof.
  unfold awaitRpc, waitForRpc. apply Only_bind; [|intros []; [apply Only_lift|constructor]].
  apply Only_bind; [apply Only_call; not_ready_tac|]. intros start.
  generalize (wait_fuel maxMs) as fuel.
  induction fuel as [|fuel IH]; cbn [attempts]; [constructor|].
  pose proof (rpcCall_not_ready port (JStr (rpc_probe port)) JUndef ten_seconds).
  unfold attempt. only_with not_ready_tac.
Qed.

(** A port that was waited for successfully has answered a probe. *)
Lemma rpcCall_ok_probe port m ps t tr v :
  Runs (rpcCall port m ps t) tr (Ok v) -> exists ev, ev ∈ tr /\ good_probe port ev.
Proof.
  unfold rpcCall. intros H'. repeat runs_step. eexists. split; [apply list_elem_of_singleton; done|].
  simpl. split; [done|]. by destruct (rpc_finish _).
Qed.

Lemma attempt_resolve port maxMs start tr :
  Runs (attempt port maxMs start) tr (Ok WResolve) ->
  exists ev, ev ∈ tr /\ good_probe port ev.
Proof.
  unfold attempt. intros H'. runs_step. runs_step.
  match goal with H : Runs (if ?b then _ else _) _ _ |- _ => destruct b end; [by runs_step|].
  runs_step; [runs_step; runs_step|].
  - match goal with H : Runs (rpcCall _ _ _ _) _ _ |- _ =>
      destruct (rpcCall_ok_probe _ _ _ _ _ _ H) as (ev & Hin & Hg) end.
    exists ev. split; [set_solver|done].
  - match goal with H : Runs (bind (call DateNow) _) _ _ |- _ => rename H into Hd end.
    apply Runs_bind in Hd as [(? & ? & ? & ? & ? & Hif)|(? & ? & ?)]; [|done].
    destruct (Num.ltb _ _); runs_step; done.
Qed.

Lemma attempts_ok fuel port maxMs start tr v :
  Runs (attempts fuel port maxMs start) tr (Ok (Some (Ok v))) ->
  exists ev, ev ∈ tr /\ good_probe port ev.
Proof.
  revert tr. induction fuel as [|fuel IH]; intros tr H'; cbn [attempts] in H'; [by runs_step|].
  runs_step. match goal with o : wait_step |- _ => destruct o end.
  - match goal with H : Runs (attempt _ _ _) _ _ |- _ =>
      apply attempt_resolve in H as (ev & Hin & Hg) end.
    exists ev. split; [set_solver|done].
  - by runs_step.
  - runs_step. match goal with H : Runs (attempts _ _ _ _) _ _ |- _ =>
      apply IH in H as (ev & Hin & Hg) end.
    exists ev. split; [set_solver|done].
Qed.

Lemma awaitRpc_ok port maxMs tr v :
  Runs (awaitRpc port maxMs) tr (Ok v) -> exists ev, ev ∈ tr /\ good_probe port ev.
Proof.
  unfold awaitRpc, waitForRpc. intros H'. runs_step.
  match goal with o : option (result jsval) |- _ => destruct o as [r|] end; [|by runs_step].
  runs_step. runs_step. match goal with H : Runs (attempts _ _ _ _) _ _ |- _ =>
    apply attempts_ok in H as (ev & Hin & Hg) end.
  exists ev. split; [set_solver|done].
Qed.

Lemma spawnWalletRpc_ok tr p :
  Runs spawnWalletRpc tr (Ok p) -> truthy p = true -> exists ev, ev ∈ tr /\ spawned ev.
Proof.
  unfold spawnWalletRpc. intros H' Hp. runs_step.
  match goal with H : Runs (if ?b then _ else _) _ _ |- _ => destruct b end.
  { by repeat runs_step. }
  repeat runs_step.
  exists (Spawn (getBinPath "CryLo-wallet-rpc") (walletRpcArgs x5), Ok p).
  split; [set_solver|exact Hp].
Qed.

(** What precedes the last status of a successful startup. *)
Definition started (tr : list (event mop)) : Prop :=
  exists e1 e2 e3, [e1; e2; e3] `sublist_of` tr
    /\ good_probe DAEMON_RPC_PORT e1 /\ spawned e2 /\ good_probe WALLET_RPC_PORT e3.

Lemma elem_sublist {A} (x : A) l : x ∈ l -> [x] `sublist_of` l.
Proof. intros (l1 & l2 & ->)%list_elem_of_split. apply sublist_inserts_l, sublist_skip, sublist_nil_l. Qed.

Lemma started_intro tr1 tr2 tr3 tr4 tr5 tr6 v1 v2 v3 :
  Runs (awaitRpc DAEMON_RPC_PORT 180000) tr2 (Ok v1) ->
  Runs spawnWalletRpc tr4 (Ok v2) -> truthy v2 = true ->
  Runs (awaitRpc WALLET_RPC_PORT 60000) tr6 (Ok v3) ->
  started (tr1 ++ tr2 ++ tr3 ++ tr4 ++ tr5 ++ tr6)%list.
Proof.
  intros (e1 & H1 & G1)%awaitRpc_ok H2 Ht (e3 & H3 & G3)%awaitRpc_ok.
  apply spawnWalletRpc_ok in H2 as (e2 & H2 & G2); [|done].
  exists e1, e2, e3. split_and!; try done.
  apply sublist_inserts_l. apply (sublist_app [e1] tr2 [e2; e3]); [by apply elem_sublist|].
  apply sublist_inserts_l. apply (sublist_app [e2] tr4 [e3]); [by apply elem_sublist|].
  apply sublist_inserts_l. by apply elem_sublist.
Qed.

Definition tells_ready (r : result jsval) : event mop :=
  (WindowSend "startup-status" ready_payload, r).

Lemma not_ready_elem (tr : list (event mop)) r :
  Forall (fun ev => not_ready (fst ev)) tr -> tells_ready r ∉ tr.
Proof. rewrite Forall_forall. intros Hf Hin. by apply (Hf _ Hin). Qed.

(** A step that cannot announce readiness is completed before the announcement. *)
Lemma ready_bind {A B} (p : prog mop A) (f : A -> prog mop B) tr x r :
  Only not_ready p -> Runs (bind p f) tr x -> tells_ready r ∈ tr ->
  exists tr1 tr2 a, tr = (tr1 ++ tr2)%list /\ Runs p tr1 (Ok a) /\ Runs (f a) tr2 x
                    /\ tells_ready r ∈ tr2.
Proof.
  intros Ho H' Hin. apply Runs_bind in H' as [(tr1 & tr2 & a & -> & H1 & H2)|(e & H1 & ->)].
  - exists tr1, tr2, a. split_and!; try done.
    apply elem_of_app in Hin as [Hin|]; [|done].
    exfalso. by apply (not_ready_elem tr1 r), Hin; eapply Only_Runs.
  - exfalso. by apply (not_ready_elem tr r), Hin; eapply Only_Runs.
Qed.

Lemma ready_try (p : prog mop jsval) h tr x r :
  (forall e, Only not_ready (h e)) -> Runs (try_catch p h) tr x -> tells_ready r ∈ tr ->
  exists tr1 tr2 y, tr = (tr1 ++ tr2)%list /\ Runs p tr1 y /\ tells_ready r ∈ tr1.
Proof.
  intros Ho H' Hin. apply Runs_try in H' as [(a & H1 & ->)|(tr1 & tr2 & e & -> & H1 & H2)].
  - exists tr, [], (Ok a). by rewrite app_nil_r.
  - exists tr1, tr2, (Throw e). split_and!; try done.
    apply elem_of_app in Hin as [|Hin]; [done|].
    exfalso. by apply (not_ready_elem tr2 r), Hin; eapply Only_Runs.
Qed.

Lemma sendStatus_trace state msg tr x ev :
  Runs (sendStatus state msg) tr x -> ev ∈ tr -> fst ev <> WindowAlive ->
  exists r0, tr = [(WindowAlive, r0); ev].
Proof.
  unfold sendStatus. intros H' Hin Hne. runs_step; [|runs_step; set_solver].
  match goal with H : Runs (if ?b then _ else _) _ _ |- _ => destruct b end;
    repeat runs_step; [|set_solver].
  simpl in Hin. apply elem_of_cons in Hin as [->|Hin]; [done|].
  apply list_elem_of_singleton in Hin as ->. by eexists.
Qed.

(** C18 (invariant). The window is told that the services are ready only after the daemon has
    answered a probe, then the wallet RPC process has been spawned, then its port has answered
    a probe, in that order; every failure on the way leads to an error status instead. *)
Theorem startBackend_ready_last (tr : list (event mop)) (x r : result jsval) :
  Runs startBackend tr x -> tells_ready r ∈ tr ->
  exists pre post, tr = (pre ++ tells_ready r :: post)%list /\ started pre.
Proof.
  intros H' Hin. unfold startBackend in H'.
  apply (ready_try _ _ _ _ r) in H' as (tr0 & post & y & -> & H' & Hin0);
    [|intros; by apply sendStatus_not_ready|done]. clear Hin.
  apply (ready_bind _ _ _ _ r) in H' as (t1 & ta & ? & -> & _ & H' & Ha);
    [|by apply sendStatus_not_ready|done].
  apply (ready_bind _ _ _ _ r) in H' as (t2 & tb & v & -> & _ & H' & Hb);
    [|apply spawnDaemon_not_ready|done].
  destruct (negb (truthy v)); [runs_step; set_solver|].
  apply (ready_bind _ _ _ _ r) in H' as (t3 & tc & ? & -> & _ & H' & Hc);
    [|by apply sendStatus_not_ready|done].
  apply (ready_bind _ _ _ _ r) in H' as (t4 & td & v1 & -> & HD & H' & Hd);
    [|apply awaitRpc_not_ready|done].
  apply (ready_bind _ _ _ _ r) in H' as (t5 & te & ? & -> & _ & H' & He);
    [|by apply sendStatus_not_ready|done].
  apply (ready_bind _ _ _ _ r) in H' as (t6 & tf & v2 & -> & HS & H' & Hf);
    [|apply spawnWalletRpc_not_ready|done].
  destruct (truthy v2) eqn:Ev2; cbn [negb] in H'; [|runs_step; set_solver].
  apply (ready_bind _ _ _ _ r) in H' as (t7 & tg & ? & -> & _ & H' & Hg);
    [|by apply sendStatus_not_ready|done].
  apply (ready_bind _ _ _ _ r) in H' as (t8 & th & v3 & -> & HW & H' & Hh);
    [|apply awaitRpc_not_ready|done].
  assert (fst (tells_ready r) <> WindowAlive) as Hne by (cbn; congruence).
  destruct (sendStatus_trace _ _ _ _ (tells_ready r) H' Hh Hne) as [r0 ->].
  exists ((t1 ++ t2 ++ t3) ++ t4 ++ t5 ++ t6 ++ t7 ++ t8 ++ [(WindowAlive, r0)])%list, post.
  split; [by rewrite <- !(assoc_L (++)%list)|].
  destruct (started_intro (t1 ++ t2 ++ t3) t4 t5 t6 t7 t8 _ _ _ HD HS Ev2 HW)
    as (e1 & e2 & e3 & Hsub & ?).
  exists e1, e2, e3. split; [|done].
  etransitivity; [exact Hsub|]. rewrite !(assoc_L (++)%list). apply sublist_inserts_r. done.
Qed.
End startup_facts.

(** A machine where both services answer at once. *)
Definition healthy (t : Z) (o : mop) : Z * result jsval :=
  match o with
  | DateNow => (t, Ok (JNum (Num.of_Z t)))
  | HttpPost _ _ _ _ => (t, Ok (JStr (Json.text "" "" (JObj [("result", JObj [])]))))
  | ShuttingDown => (t, Ok (JBool false))
  | WindowAlive | FsExists _ => (t, Ok (JBool true))
  | Spawn _ _ => (t, Ok (JObj [("exitCode", JNull)]))
  | FsSize _ => (t, Ok (JNum (Fin 0)))
  | NowIso => (t, Ok (JStr "2026-01-01T00:00:00.000Z"))
  | _ => (t, Ok JUndef)
  end.

Lemma startBackend_ready_last_witness :
  exists tr x, Runs (@startBackend demo_config) tr x /\ tells_ready (Ok JUndef) ∈ tr /\
    exists pre post, tr = (pre ++ tells_ready (Ok JUndef) :: post)%list /\ started pre.
Proof.
  pose proof (run_is_Runs healthy (@startBackend demo_config) 5) as H.
  assert (last (snd (fst (run healthy (@startBackend demo_config) 5)))
          = Some (tells_ready (Ok JUndef))) as Hl by (vm_compute; reflexivity).
  apply last_Some in Hl as [l Hl]. rewrite Hl in H.
  assert (tells_ready (Ok JUndef) ∈ (l ++ [tells_ready (Ok JUndef)])%list) as Hin
    by (apply elem_of_app; right; apply list_elem_of_singleton; reflexivity).
  eexists _, _. split; [exact H|]. split; [exact Hin|].
  exact (@startBackend_ready_last demo_config _ _ (Ok JUndef) H Hin).
Defined.

(** *** RPC pass-through *)

(** What the renderer is told, from the answer to the HTTP request: its failure; a text that is not
    JSON; JSON without fields (null); the RPC's error, by its message; or the RPC's result, which
    may be missing. *)
Inductive rpc_reply : result jsval -> jsval -> Prop :=
| reply_failed e : rpc_reply (Throw e) (fail_obj (message e))
| reply_no_json d e :
    Json.parse (as_text d) = Throw e -> rpc_reply (Ok d) (fail_obj (message e))
| reply_null d :
    Json.parse (as_text d) = Ok JNull ->
    rpc_reply (Ok d) (fail_obj "Cannot read properties of null (reading 'error')")
| reply_error d v :
    Json.parse (as_text d) = Ok v -> truthy (get_opt v "error") = true ->
    rpc_reply (Ok d) (fail_obj (message (error_of (get_opt (get_opt v "error") "message"))))
| reply_result d v :
    Json.parse (as_text d) = Ok v -> v <> JNull -> truthy (get_opt v "error") = false ->
    rpc_reply (Ok d) (ok_obj [("result", get_opt v "result")]).

(** One request for the method, or none when it cannot be written as JSON. *)
Definition rpc_exchange (port : Z) (method params timeoutMs : jsval) (tr : list (event mop))
    (x : result jsval) : Prop :=
  match Json.stringify "" (JObj [("jsonrpc", JStr "2.0"); ("id", JStr "0"); ("method", method);
                                 ("params", default_arg params (JObj []))]) with
  | Ok body =>
      exists a v, tr = [(HttpPost port "/json_rpc" body timeoutMs, a)] /\ x = Ok v /\ rpc_reply a v
  | Throw e => tr = [] /\ x = Ok (fail_obj (message e))
  end.

Lemma get_json v k : v <> JNull -> Json.json_value v -> get v k = Ok (get_opt v k).
Proof. unfold get_opt. by destruct v. Qed.

(** The end of a request, as the handlers pass it on. *)
Lemma rpc_finish_reply a v :
  rpc_reply a v <->
  v = match (d <-! a; rpc_finish (as_text d)) with
      | Ok r => ok_obj [("result", r)]
      | Throw e => fail_obj (message e)
      end.
Proof.
  destruct a as [d|e]; cbn [rbind].
  2: { split; [by inversion 1|]. intros ->. constructor. }
  unfold rpc_finish. split.
  - inversion 1 as [|d' e Hp|d' Hp|d' w Hp Ht|d' w Hp Hn Ht]; subst; rewrite Hp; cbn [rbind];
      [done|done|..].
    + rewrite (get_defined w "error" "error" Ht). cbn [rbind]. rewrite Ht.
      by rewrite (get_truthy _ "message" Ht).
    + rewrite (get_json w "error"), (get_json w "result") by (done || by eapply Json.parse_json).
      cbn [rbind]. by rewrite Ht.
  - intros ->. destruct (Json.parse (as_text d)) as [w|e] eqn:Hp; cbn [rbind]; [|by econstructor].
    destruct (decide (w = JNull)) as [->|Hn]; [by constructor|].
    rewrite (get_json w "error"), (get_json w "result") by (done || by eapply Json.parse_json).
    cbn [rbind]. destruct (truthy (get_opt w "error")) eqn:Ht; [|by econstructor].
    rewrite (get_truthy _ "message" Ht). cbn [rbind]. by econstructor.
Qed.

Lemma guarded_reply (p : prog mop jsval) (f : jsval -> jsval) tr x :
  Runs (guarded (bind p (fun r => Ret (f r)))) tr x <->
  exists r, Runs p tr r /\ x = Ok (match r with Ok v => f v | Throw e => fail_obj (message e) end).
Proof.
  unfold guarded. split.
  - intros [(a & H & ->)|(t1 & t2 & e & -> & H & Hh)]%Runs_try.
    + apply Runs_bind in H as [(t1 & t2 & v & -> & H & Hr)|(e & _ & [=])].
      apply Runs_ret_iff in Hr as [-> [= ->]]. rewrite app_nil_r. by exists (Ok v).
    + apply Runs_ret_iff in Hh as [-> ->]. rewrite app_nil_r.
      apply Runs_bind in H as [(t1' & t2 & v & -> & H & Hr)|(e' & H & [= <-])].
      * by apply Runs_ret_iff in Hr as [_ [=]].
      * by exists (Throw e).
  - intros ([v|e] & H & ->); apply Runs_try.
    + left. exists (f v). split; [|done]. apply Runs_bind. left.
      exists tr, [], v. rewrite app_nil_r. split_and!; [done|done|constructor].
    + right. exists tr, [], e. rewrite app_nil_r. split_and!; [done| |constructor].
      apply Runs_bind. right. eauto.
Qed.

Lemma rpcCall_exchange port method params timeoutMs tr x :
  Runs (guarded (bind (rpcCall port method params timeoutMs)
                   (fun r => Ret (ok_obj [("result", r)])))) tr x
  <-> rpc_exchange port method params timeoutMs tr x.
Proof.
  rewrite (guarded_reply _ (fun r => ok_obj [("result", r)])). unfold rpcCall, rpc_exchange.
  destruct (Json.stringify _ _) as [body|e]; cbn [lift bind].
  2: { split; [|intros [-> ->]; exists (Throw e); split; [constructor|done]].
       intros (r & [-> ->]%Runs_raise_iff & ->). done. }
  setoid_rewrite rpc_finish_reply. split.
  - intros (r & (a & t & -> & Hr)%Runs_bind_call & ->). exists a.
    destruct a as [d|e]; [apply Runs_lift in Hr as [-> ->]|destruct Hr as [-> ->]]; eauto.
  - intros (a & v & -> & -> & ->). exists (d <-! a; rpc_finish (as_text d)). split; [|done].
    apply Runs_bind_call. exists a, []. split; [done|]. destruct a; [|done]. by apply Runs_lift.
Qed.

(** C37 (functional). The RPC handlers make the request they are asked for and report its outcome
    on every branch.  ['daemon-rpc'] and ['wallet-rpc'] write the method and the parameters (an empty
    object by default) as JSON and post them once to the daemon's or the wallet's port, the wallet's
    with the caller's timeout or ten seconds; the reply is [{ ok: true, result }] with the result
    of a JSON answer without an error, and [{ ok: false, error }] with the message of the failure
    when the parameters cannot be written, the request fails or times out, the answer is not JSON
    or null, or it carries an error.  They never throw, and do nothing else. *)
Theorem rpc_handlers_reply (method params timeoutMs : jsval) (tr : list (event mop))
    (x : result jsval) :
  (Runs (handle_daemon_rpc method params) tr x <->
   rpc_exchange DAEMON_RPC_PORT method params (JNum (Num.of_Z 10000)) tr x) /\
  (Runs (handle_wallet_rpc method params timeoutMs) tr x <->
   rpc_exchange WALLET_RPC_PORT method params
     (if truthy timeoutMs then timeoutMs else JNum (Num.of_Z 10000)) tr x).
Proof. split; apply rpcCall_exchange. Qed.

(** The wallet answers that it is busy. *)
Definition busy : jsval :=
  JObj [("error", JObj [("code", JNum (Num.of_Z (-3))); ("message", JStr "busy")])].
Definition busy_answer : jsval := JStr (Json.text "" "" busy).

Lemma rpc_handlers_reply_witness :
  exists body,
    Runs (handle_wallet_rpc (JStr "get_balance") JUndef JUndef)
      [(HttpPost WALLET_RPC_PORT "/json_rpc" body (JNum (Num.of_Z 10000)), Ok busy_answer)]
      (Ok (fail_obj "busy")).
Proof.
  destruct (Json.stringify "" (JObj [("jsonrpc", JStr "2.0"); ("id", JStr "0");
      ("method", JStr "get_balance"); ("params", JObj [])])) as [body|e] eqn:E;
    [|exfalso; vm_compute in E; discriminate E].
  exists body. apply (rpc_handlers_reply (JStr "get_balance") JUndef JUndef).
  unfold rpc_exchange. cbn [default_arg]. rewrite E. exists (Ok busy_answer), (fail_obj "busy").
  split; [reflexivity|]. split; [reflexivity|].
  apply (reply_error busy_answer busy); vm_compute; reflexivity.
Defined.

(** *** Listing wallets *)

Section wallets.
Context (ext : mop -> result jsval) (h : host).

Definition present (p : path) : bool := bool_decide (is_Some (files h !! p) \/ p ∈ dirs h).

(** A wallet is a file with a [.keys] companion, other than the companions themselves. *)
Definition wallet_in (dir : path) (f : string) : bool :=
  present (dir ++ [f +:+ ".keys"])%list && bool_decide (is_Some (files h !! (dir ++ [f])%list))
  && negb (ends_with f ".keys") && negb (ends_with f ".address.txt") && negb (ends_with f ".lock").

Lemma run_is_wallet_file dir f :
  present (dir ++ [f])%list = true ->
  exists tr, run (exec_host ext) (is_wallet_file dir f) h = (h, tr, Ok (wallet_in dir f)).
Proof.
  intros Hp. unfold is_wallet_file, wallet_in. rewrite run_bind, run_call. cbn [exec_host fst snd truthy].
  fold (present (dir ++ [f +:+ ".keys"])%list).
  destruct (present (dir ++ [f +:+ ".keys"])%list); cbn [negb andb]; [|by eexists].
  rewrite run_bind, run_call. cbn [exec_host fst snd]. apply bool_decide_eq_true in Hp.
  destruct (files h !! (dir ++ [f])%list) eqn:E.
  - by eexists.
  - destruct Hp as [[]|Hd]; [done|]. rewrite (bool_decide_eq_true_2 _ Hd). by eexists.
Qed.

Lemma run_filterM dir l :
  Forall (fun f => present (dir ++ [f])%list = true) l ->
  exists tr, run (exec_host ext) (filterM (is_wallet_file dir) l) h
             = (h, tr, Ok (List.filter (wallet_in dir) l)).
Proof.
  induction 1 as [|f l Hf Hl [tr IH]]; [by eexists|]. cbn [filterM List.filter].
  destruct (run_is_wallet_file dir f Hf) as [tr' E].
  rewrite run_bind, E, run_bind, IH. by eexists.
Qed.

Lemma child_of_Some p q f : child_of p q = Some f <-> q = (p ++ [f])%list.
Proof.
  unfold child_of. split.
  - destruct (reverse q) as [|name r] eqn:E; [done|]. case_bool_decide as Hp; [|done].
    intros [= <-]. rewrite <- (reverse_involutive q), E, reverse_cons, Hp. done.
  - intros ->. rewrite reverse_snoc, reverse_involutive. by rewrite bool_decide_eq_true_2.
Qed.

Lemma elem_of_names p f :
  f ∈ omap (child_of p) (map fst (map_to_list (files h)) ++ elements (dirs h))%list
  <-> present (p ++ [f])%list = true.
Proof.
  rewrite list_elem_of_omap. unfold present. rewrite bool_decide_eq_true. split.
  - intros (q & Hin & ->%child_of_Some). rewrite elem_of_app in Hin.
    destruct Hin as [Hin|Hin]; [left|right; by apply elem_of_elements].
    apply list_elem_of_fmap in Hin as ([q' c] & -> & Hin).
    apply elem_of_map_to_list in Hin. by eexists.
  - intros Hp. exists (p ++ [f])%list. rewrite child_of_Some, elem_of_app. split; [|done].
    destruct Hp as [[c Hc]|Hd]; [left|right; by apply elem_of_elements].
    apply list_elem_of_fmap. exists ((p ++ [f])%list, c). split; [done|].
    by apply elem_of_map_to_list.
Qed.
End wallets.

(** C36 (functional). ['list-wallets'] on any file system that has the wallet directory: the reply
    lists, in increasing order of their UTF-16 code units, exactly the names [f] such that [f] is a
    file of the directory, [f.keys] exists and [f] is not itself a [.keys], [.address.txt] or
    [.lock] file; the file system is left unchanged. *)
Theorem list_wallets_exact (cfg : Config) (ext : mop -> result jsval) (h : host) :
  let dir := (userDataPath ++ [WALLET_DIR_NAME])%list in
  dir ∈ dirs h ->
  exists tr l, run (exec_host ext) handle_list_wallets h
               = (h, tr, Ok (ok_obj [("wallets", JArr (map JStr l))]))
    /\ sorted js_leb_string l
    /\ forall f, f ∈ l <-> wallet_in h dir f = true.
Proof.
  intros dir Hdir. unfold handle_list_wallets, guarded, getWalletDir, ensure_dir, getUserDataPath.
  fold dir. rewrite run_try, run_bind, run_bind, run_call. cbn [exec_host fst snd truthy].
  rewrite bool_decide_eq_true_2 by auto. rewrite run_bind. cbn [run].
  rewrite run_bind, run_call. cbn [exec_host fst snd].
  rewrite (bool_decide_eq_true_2 (dir ∈ dirs h)) by done. cbn [strings_of].
  match goal with |- context [JArr (map JStr ?l)] => set (names := l) end.
  assert (map to_str (map JStr names) = names) as ->.
  { rewrite map_map. apply map_id. }
  destruct (run_filterM ext h dir names) as [tr E].
  { apply Forall_forall. intros f Hf. by apply elem_of_names. }
  rewrite run_bind, E. cbn [run].
  eexists _, (isort js_leb_string (List.filter (wallet_in h dir) names)). split_and!.
  - reflexivity.
  - apply isort_sorted; [apply js_leb_string_total|apply js_leb_string_trans].
  - intros f. rewrite elem_of_isort, list_elem_of_In, filter_In, <- list_elem_of_In.
    unfold names. rewrite elem_of_names. split; [by intros [_ ?]|]. intros Hw. split; [|done].
    unfold wallet_in in Hw. rewrite !andb_true_iff, bool_decide_eq_true in Hw.
    apply bool_decide_eq_true. left. tauto.
Qed.

Lemma list_wallets_exact_witness :
  let dir := (@userDataPath demo_config ++ [WALLET_DIR_NAME])%list in
  let h := Host (list_to_map [((dir ++ ["main"])%list, ""); ((dir ++ ["main.keys"])%list, "k");
                              ((dir ++ ["stray"])%list, "")]) {[ dir ]} in
  dir ∈ dirs h /\
  exists tr l, run (exec_host (fun _ => Ok JUndef)) (@handle_list_wallets demo_config) h
               = (h, tr, Ok (ok_obj [("wallets", JArr (map JStr l))]))
    /\ sorted js_leb_string l /\ forall f, f ∈ l <-> wallet_in h dir f = true.
Proof.
  intros dir h. assert (dir ∈ dirs h) as Hd by (apply (bool_decide_unpack _); vm_compute; exact I).
  split; [exact Hd|]. exact (list_wallets_exact demo_config (fun _ => Ok JUndef) h Hd).
Defined.
