(* ===== verification/NexusWallet.v ===== *)
(** * The Nexus wallet bound to a CryLo wallet (electron/main.js)

    Each CryLo wallet may have one Nexus (EVM) wallet, kept in a JSON file beside it.  The file
    binds the private key to the CryLo address it was created for; every handler that signs a
    Nexus transaction obtains its key through [loadBoundNexusWallet]. *)

From Stdlib Require Import Ascii String.
From S2P Require Import Prelude JsNumber JsString JsConv JsVal Json Prog MainEnv Backend.

Definition BRIDGE_API_URL : string := "http://34.118.158.133:8088".

(** ** File names *)

(** [.replace(/[^a-zA-Z0-9]/g, '_')] works on UTF-16 code units: one underscore for each unit
    that is not a letter or digit.  In UTF-8 a lead byte stands for its one or two units. *)
Definition safe_char (c : ascii) : string :=
  if is_alnum c then String c ""
  else repeat_char (Z.to_nat (units_of_byte (byte_of c))) "_".

Fixpoint replace_unsafe (s : string) : string :=
  match s with "" => "" | String c r => safe_char c +:+ replace_unsafe r end.

Definition safeNexusFileName (cryloAddress : jsval) : string :=
  replace_unsafe (to_str (js_or cryloAddress (JStr ""))).

(** ** Replies of [fetch] *)

(** A response has the flag [ok] and the text of its body; [res.json()] parses the body. *)
Definition response (ok : bool) (body : string) : jsval :=
  JObj [("ok", JBool ok); ("body", JStr body)].

Definition res_json (res : jsval) : result jsval :=
  body <-! get res "body"; Json.parse (to_str body).

Section nexus_wallet.
Context `{Config} `{Ethers}.
Local Open Scope prog_scope.

Definition registerBoundNexusWallet (nexusAddress : jsval) : prog mop jsval :=
  body <- lift (Json.stringify "" (JObj [("nexusAddress", nexusAddress)]));
  res <- call (Fetch "POST" (BRIDGE_API_URL +:+ "/nexus/register-bound-wallet") (Some body));
  json <- lift (res_json res);
  resOk <- lift (get res "ok");
  jsonOk <- lift (if truthy resOk then get json "ok" else Ok JUndef);
  if negb (truthy resOk) || negb (truthy jsonOk) then
    error <- lift (get json "error");
    Raise (error_of (js_or error (JStr "Failed to register Nexus wallet for gas support")))
  else Ret json.

(** [path.join(getWalletDir(), `${safeNexusFileName(walletName)}.nexus.json`)] *)
Definition nexusFileName (walletName : jsval) : string :=
  safeNexusFileName walletName +:+ ".nexus.json".
Definition nexusFile (walletName : jsval) : prog mop path :=
  dir <- getWalletDir;
  Ret (dir ++ [nexusFileName walletName])%list.

(** [JSON.parse(fs.readFileSync(file, 'utf8'))] *)
Definition readJson (file : path) : prog mop jsval :=
  text <- call (FsRead file);
  lift (Json.parse (as_text text)).

Definition handle_nexus_wallet_create (walletName cryloAddress : jsval) : prog mop jsval :=
  guarded
    (if negb (truthy walletName) || negb (truthy cryloAddress) then
       Raise (Error "Open a CryLo wallet before creating a Nexus wallet")
     else
       file <- nexusFile walletName;
       present <- call (FsExists file);
       if truthy present then
         existing <- readJson file;
         addr <- lift (get existing "nexusAddress");
         registration <- (if truthy addr then registerBoundNexusWallet addr else Ret JNull);
         Ret (ok_obj [("alreadyExists", JBool true);
                      ("nexusAddress", js_or addr (JStr ""));
                      ("gasRegistered", JBool (truthy (get_opt registration "ok")))])
       else
         wallet <- call NewWallet;
         address <- lift (get wallet "address");
         privateKey <- lift (get wallet "privateKey");
         iso <- call NowIso;
         text <- lift (Json.stringify "  "
           (JObj [("walletName", walletName); ("cryloAddress", cryloAddress);
                  ("nexusAddress", address); ("privateKey", privateKey);
                  ("createdAt", iso)]));
         call (FsWrite file text 384) ;;                       (* mode 0o600 *)
         registration <- registerBoundNexusWallet address;
         regOk <- lift (get registration "ok");
         Ret (ok_obj [("alreadyExists", JBool false); ("nexusAddress", address);
                      ("gasRegistered", JBool (truthy regOk))])).

Definition handle_nexus_wallet_load (walletName cryloAddress : jsval) : prog mop jsval :=
  let unbound := ok_obj [("nexusAddress", JStr "")] in
  guarded
    (if negb (truthy walletName) || negb (truthy cryloAddress) then Ret unbound
     else
       file <- nexusFile walletName;
       present <- call (FsExists file);
       if negb (truthy present) then Ret unbound
       else
         data <- readJson file;
         bound <- lift (get data "cryloAddress");
         if negb (strict_eq bound cryloAddress) then Ret unbound
         else
           addr <- lift (get data "nexusAddress");
           Ret (ok_obj [("nexusAddress", js_or addr (JStr ""))])).

(** A wallet is represented by its address, which its key determines; [Send] and the provider
    calls of the signer use it. *)
Definition loadBoundNexusWallet (walletName cryloAddress : jsval) : prog mop string :=
  if negb (truthy walletName) || negb (truthy cryloAddress) then
    Raise (Error "Open a CryLo wallet first")
  else
    file <- nexusFile walletName;
    present <- call (FsExists file);
    if negb (truthy present) then
      Raise (Error "Create a Nexus wallet for this CryLo wallet first")
    else
      data <- readJson file;
      bound <- lift (get data "cryloAddress");
      if negb (strict_eq bound cryloAddress) then Raise (Error "Invalid Nexus wallet binding")
      else
        key <- lift (get data "privateKey");
        if negb (truthy key) then Raise (Error "Missing Nexus private key")
        else lift (walletAddress key).
End nexus_wallet.

(** ** Properties *)

Definition safe_name_char (c : ascii) : bool := is_alnum c || Ascii.eqb c "_".

Lemma replace_unsafe_safe s : all_chars safe_name_char (replace_unsafe s) = true.
Proof.
  induction s as [|c s IH]; [done|]. cbn [replace_unsafe]. rewrite all_chars_app, IH, andb_true_r.
  unfold safe_char. destruct (is_alnum c) eqn:E.
  - cbn. unfold safe_name_char. by rewrite E.
  - by apply all_chars_repeat.
Qed.

Lemma replace_unsafe_alnum s : all_chars is_alnum s = true -> replace_unsafe s = s.
Proof.
  induction s as [|c s IH]; [done|]. cbn. intros [Hc Hs]%andb_true_iff.
  unfold safe_char. rewrite Hc, IH by done. done.
Qed.

Section nexus_facts.
Context (cfg : Config) (eth : Ethers).

Definition walletDir : path := (userDataPath ++ [WALLET_DIR_NAME])%list.
Definition nexusPath (walletName : jsval) : path :=
  (walletDir ++ [nexusFileName walletName])%list.

(** The operations of the three functions stay inside the wallet directory and its one file;
    a write is private to the user. *)
Definition confined (walletName : jsval) (o : mop) : Prop :=
  match o with
  | FsExists p => p = walletDir \/ p = nexusPath walletName
  | FsMkdir p => p = walletDir
  | FsRead p => p = nexusPath walletName
  | FsWrite p _ mode => p = nexusPath walletName /\ mode = 384
  | Fetch meth url _ => meth = "POST" /\ url = BRIDGE_API_URL +:+ "/nexus/register-bound-wallet"
  | NewWallet | NowIso => True
  | _ => False
  end.

Lemma nexusFile_confined n : Only (confined n) (nexusFile n).
Proof.
  unfold nexusFile, getWalletDir, ensure_dir. only_with ltac:(simpl; unfold walletDir; auto).
Qed.

Lemma run_nexusFile ext n h :
  exists tr, run (exec_host ext) (nexusFile n) h = (with_dir walletDir h, tr, Ok (nexusPath n)).
Proof.
  unfold nexusFile. destruct (run_ensure_dir ext walletDir h) as [tr E].
  rewrite run_bind. unfold getWalletDir, getUserDataPath. fold walletDir. rewrite E. by eexists.
Qed.

Lemma nexusFile_result n tr f : Runs (nexusFile n) tr (Ok f) -> f = nexusPath n.
Proof.
  unfold nexusFile, getWalletDir, ensure_dir. intros Hr.
  repeat (runs_step || match goal with H : Runs (if ?b then _ else _) _ _ |- _ => destruct b end);
    done.
Qed.

Lemma confined_file {A} n (k : path -> prog mop A) :
  Only (confined n) (k (nexusPath n)) -> Only (confined n) (f <- nexusFile n; k f)%prog.
Proof.
  intros Hk. apply Only_bind_runs; [apply nexusFile_confined|].
  by intros tr f ->%nexusFile_result.
Qed.

Lemma register_confined n addr : Only (confined n) (registerBoundNexusWallet addr).
Proof. unfold registerBoundNexusWallet. only_with ltac:(simpl; auto). Qed.

Lemma create_confined n c : Only (confined n) (handle_nexus_wallet_create n c).
Proof.
  unfold handle_nexus_wallet_create, guarded. apply Only_try; [|intros; constructor].
  destruct (negb (truthy n) || _); [constructor|]. apply confined_file. unfold readJson.
  only_with ltac:(simpl; auto); apply register_confined.
Qed.

Lemma load_confined n c : Only (confined n) (handle_nexus_wallet_load n c).
Proof.
  unfold handle_nexus_wallet_load, guarded. apply Only_try; [|intros; constructor].
  destruct (negb (truthy n) || _); [constructor|]. apply confined_file. unfold readJson.
  only_with ltac:(simpl; auto).
Qed.

Lemma loadBound_confined n c : Only (confined n) (loadBoundNexusWallet n c).
Proof.
  unfold loadBoundNexusWallet. destruct (negb (truthy n) || _); [constructor|].
  apply confined_file. unfold readJson. only_with ltac:(simpl; auto).
Qed.

(** C25 (safety). Creating, loading and using a Nexus wallet touches one file, in the wallet
    directory, whose name is made of letters, digits and underscores before [.nexus.json]: no
    wallet name can reach another directory; it is written with mode 0600, and the only host
    contacted is the bridge's registration endpoint. *)
Theorem nexus_wallet_confined (walletName cryloAddress : jsval) (tr : list (event mop)) :
  all_chars safe_name_char (safeNexusFileName walletName) = true /\
  (forall x, Runs (handle_nexus_wallet_create walletName cryloAddress) tr x \/
             Runs (handle_nexus_wallet_load walletName cryloAddress) tr x ->
             Forall (fun ev => confined walletName (fst ev)) tr) /\
  (forall x, Runs (loadBoundNexusWallet walletName cryloAddress) tr x ->
             Forall (fun ev => confined walletName (fst ev)) tr).
Proof.
  split; [apply replace_unsafe_safe|]. split.
  - intros x [Hr|Hr]; revert Hr; apply Only_Runs; [apply create_confined|apply load_confined].
  - intros x. apply Only_Runs, loadBound_confined.
Qed.

Lemma register_keeps addr : Only keeps_host (registerBoundNexusWallet addr).
Proof. unfold registerBoundNexusWallet. only_with ltac:(exact I). Qed.

(** *** Runs on a host *)

Lemma occupied_with_dir h n :
  occupied (with_dir walletDir h) (nexusPath n) = occupied h (nexusPath n).
Proof.
  unfold occupied. apply bool_decide_ext. rewrite files_with_dir, dirs_with_dir_longer; [done|].
  unfold nexusPath. rewrite length_app. simpl. lia.
Qed.

Lemma outcome_nexusFile ext n h :
  outcome ext (nexusFile n) h = (with_dir walletDir h, Ok (nexusPath n)).
Proof. unfold outcome, final. by destruct (run_nexusFile ext n h) as [tr ->]. Qed.

Lemma outcome_register ext addr h :
  exists r, outcome ext (registerBoundNexusWallet addr) h = (h, r).
Proof.
  pose proof (Only_run_state (exec_host ext) keeps_host _ h (exec_keeps_host ext h)
                (register_keeps addr)) as Hs.
  unfold outcome, final. destruct (run _ _ h) as [[h' tr] r]. simpl in Hs. subst h'. by eexists.
Qed.
End nexus_facts.

(** Evaluate the outcome of a handler on a host, operation by operation. *)
Ltac outcome_step :=
  first
    [ rewrite outcome_bind | rewrite outcome_try | rewrite outcome_call | rewrite outcome_lift
    | rewrite outcome_ret | rewrite outcome_nexusFile ];
  cbn [exec_host].

Section wallet_files.
Context (cfg : Config) (eth : Ethers) (ext : mop -> result jsval).

(** The contents of a wallet file. *)
Definition binding (n c a k iso : string) : jsval :=
  JObj [("walletName", JStr n); ("cryloAddress", JStr c); ("nexusAddress", JStr a);
        ("privateKey", JStr k); ("createdAt", JStr iso)].

Lemma create_fresh n c a k iso h :
  n <> "" -> c <> "" -> occupied h (nexusPath cfg (JStr n)) = false ->
  ext NewWallet = Ok (JObj [("address", JStr a); ("privateKey", JStr k)]) ->
  ext NowIso = Ok (JStr iso) ->
  exists text reply,
    Json.parse text = Ok (binding n c a k iso) /\
    outcome ext (handle_nexus_wallet_create (JStr n) (JStr c)) h
    = (Host (<[nexusPath cfg (JStr n) := text]> (files h)) (dirs (with_dir (walletDir cfg) h)),
       Ok reply).
Proof.
  intros Hn Hc Hfree Hw Hiso.
  destruct (Json.parse_stringify (binding n c a k iso) "  ") as (text & Es & Ep);
    [done|done|].
  unfold handle_nexus_wallet_create, guarded.
  rewrite !(proj2 (truthy_str _)) by done. cbn [negb orb].
  rewrite <- (occupied_with_dir cfg) in Hfree. unfold occupied in Hfree.
  repeat outcome_step. rewrite Hfree. cbn [truthy].
  repeat outcome_step. rewrite Hw. js_get. repeat outcome_step. js_get. repeat outcome_step.
  rewrite Hiso. unfold binding in Es. rewrite Es. repeat outcome_step.
  rewrite files_with_dir.
  destruct (outcome_register ext (JStr a)
              (Host (<[nexusPath cfg (JStr n) := text]> (files h)) (dirs (with_dir (walletDir cfg) h))))
    as [r ->].
  destruct r as [v|e].
  - repeat outcome_step. destruct (get v "ok"); repeat outcome_step; eauto.
  - repeat outcome_step. eauto.
Qed.

Lemma load_existing n c text data h :
  n <> "" -> c <> "" -> files h !! nexusPath cfg (JStr n) = Some text ->
  Json.parse text = Ok data ->
  outcome ext (handle_nexus_wallet_load (JStr n) (JStr c)) h
  = (with_dir (walletDir cfg) h,
     Ok (match (b <-! get data "cryloAddress";
                if strict_eq b (JStr c)
                then (x <-! get data "nexusAddress"; Ok (js_or x (JStr ""))) else Ok (JStr "")) with
         | Ok x => ok_obj [("nexusAddress", x)]
         | Throw e => fail_obj (message e)
         end)) /\
  outcome ext (loadBoundNexusWallet (JStr n) (JStr c)) h
  = (with_dir (walletDir cfg) h,
     b <-! get data "cryloAddress";
     if strict_eq b (JStr c)
     then (key <-! get data "privateKey";
           if truthy key then walletAddress key else Throw (Error "Missing Nexus private key"))
     else Throw (Error "Invalid Nexus wallet binding")).
Proof.
  intros Hn Hc Hf Hp.
  assert (files (with_dir (walletDir cfg) h) !! nexusPath cfg (JStr n) = Some text) as Hf'
    by (by rewrite files_with_dir).
  assert (bool_decide (is_Some (files (with_dir (walletDir cfg) h) !! nexusPath cfg (JStr n))
            \/ nexusPath cfg (JStr n) ∈ dirs (with_dir (walletDir cfg) h)) = true) as Hocc.
  { apply bool_decide_eq_true. left. rewrite Hf'. eauto. }
  unfold handle_nexus_wallet_load, loadBoundNexusWallet, guarded, readJson.
  rewrite !(proj2 (truthy_str _)) by done. cbn [negb orb].
  repeat outcome_step. rewrite Hocc. cbn [truthy negb].
  repeat outcome_step. rewrite Hf'. cbn [as_text to_str]. unfold as_text. cbn [to_str].
  repeat outcome_step. rewrite Hp. repeat outcome_step.
  destruct (get data "cryloAddress") as [b|e]; cbn [rbind];
    [|split; repeat outcome_step; done].
  destruct (strict_eq b (JStr c)); cbn [negb].
  - split; repeat outcome_step.
    + by destruct (get data "nexusAddress"); repeat outcome_step.
    + destruct (get data "privateKey") as [key|]; cbn [rbind]; [|done].
      by destruct (truthy key); cbn [negb]; repeat outcome_step.
  - split; repeat outcome_step; done.
Qed.
End wallet_files.

Lemma readJson_result file tr data :
  Runs (readJson file) tr (Ok data) ->
  exists text, tr = [(FsRead file, Ok text)] /\ Json.parse (as_text text) = Ok data.
Proof.
  unfold readJson. intros [(t1 & t2 & v & -> & H & Hr)|(e & _ & [=])]%Runs_bind.
  apply Runs_call in H as ->. apply Runs_lift in Hr as [-> Hr]. rewrite app_nil_r. eauto.
Qed.

Section kept.
Context (cfg : Config) (eth : Ethers) (ext : mop -> result jsval).

Lemma outcome_keeps {A} (p : prog mop A) h :
  Only keeps_host p -> fst (outcome ext p h) = h.
Proof.
  intros Hp. pose proof (Only_run_state _ _ p h (exec_keeps_host ext h) Hp) as Hs.
  unfold outcome, final. by destruct (run _ p h) as [[h' tr] x].
Qed.

Lemma outcome_guarded p h : fst (outcome ext (guarded p) h) = fst (outcome ext p h).
Proof. unfold guarded. rewrite outcome_try. by destruct (outcome ext p h) as [h' [a|e]]. Qed.

Lemma files_after_file {A} n (k : path -> prog mop A) h :
  Only keeps_host (k (nexusPath cfg n)) ->
  files (fst (outcome ext (f <- nexusFile n; k f)%prog h)) = files h.
Proof.
  intros Hk. repeat outcome_step. rewrite outcome_keeps by done. apply files_with_dir.
Qed.

Lemma load_keeps_files n c h :
  files (fst (outcome ext (handle_nexus_wallet_load n c) h)) = files h.
Proof.
  unfold handle_nexus_wallet_load. rewrite outcome_guarded.
  destruct (negb (truthy n) || _); [done|]. apply files_after_file.
  unfold readJson. only_with ltac:(exact I).
Qed.

Lemma loadBound_keeps_files n c h :
  files (fst (outcome ext (loadBoundNexusWallet n c) h)) = files h.
Proof.
  unfold loadBoundNexusWallet. destruct (negb (truthy n) || _); [done|].
  apply files_after_file. unfold readJson. only_with ltac:(exact I).
Qed.

(** A part of a program that keeps the host, before the rest of it. *)
Lemma outcome_bind_keeps {A B} (p : prog mop A) (f : A -> prog mop B) h (R : host -> Prop) :
  Only keeps_host p -> R h -> (forall a, R (fst (outcome ext (f a) h))) ->
  R (fst (outcome ext (bind p f) h)).
Proof.
  intros Hp Hh Hf. rewrite outcome_bind. pose proof (outcome_keeps p h Hp) as Hs.
  destruct (outcome ext p h) as [h' [a|e]]; cbn [fst] in *; subst h'; auto.
Qed.

Lemma create_keeps_files n c h :
  files h ⊆ files (fst (outcome ext (handle_nexus_wallet_create n c) h)).
Proof.
  unfold handle_nexus_wallet_create. rewrite outcome_guarded.
  destruct (negb (truthy n) || _); [done|]. repeat outcome_step.
  rewrite <- (files_with_dir (walletDir cfg) h). set (h1 := with_dir (walletDir cfg) h).
  case_bool_decide as Hocc; cbn [truthy].
  - rewrite outcome_keeps; [done|]. unfold readJson, registerBoundNexusWallet.
    only_with ltac:(exact I).
  - do 5 (apply (outcome_bind_keeps _ _ _ (fun h => files h1 ⊆ files h));
            [only_with ltac:(exact I)|done|intros ?]).
    rewrite outcome_bind, outcome_call. cbn [exec_host]. rewrite outcome_keeps.
    + cbn [files]. apply insert_subseteq. destruct (files h1 !! _) eqn:E; [|done].
      destruct Hocc. left. by eexists.
    + unfold registerBoundNexusWallet. only_with ltac:(exact I).
Qed.
End kept.

(** C2 (roundtrip). Creating a Nexus wallet where none exists and loading it later gives back what
    was created, whatever the registration with the bridge did and whatever happens around it:
    the handler finds the address, signing finds the private key, and for any other CryLo address
    the same file is refused by both. *)
Theorem nexus_create_load (cfg : Config) (eth : Ethers) (ext later : mop -> result jsval) (h : host)
    (n c a k iso : string) :
  n <> "" -> c <> "" -> a <> "" -> k <> "" ->
  occupied h (nexusPath cfg (JStr n)) = false ->
  ext NewWallet = Ok (JObj [("address", JStr a); ("privateKey", JStr k)]) ->
  ext NowIso = Ok (JStr iso) ->
  let h' := fst (outcome ext (handle_nexus_wallet_create (JStr n) (JStr c)) h) in
  forall c', c' <> "" ->
  snd (outcome later (handle_nexus_wallet_load (JStr n) (JStr c')) h')
    = Ok (ok_obj [("nexusAddress", JStr (if String.eqb c c' then a else ""))]) /\
  snd (outcome later (loadBoundNexusWallet (JStr n) (JStr c')) h')
    = if String.eqb c c' then walletAddress (JStr k)
      else Throw (Error "Invalid Nexus wallet binding").
Proof.
  intros Hn Hc Ha Hk Hfree Hw Hiso h' c' Hc'.
  destruct (create_fresh cfg ext n c a k iso h Hn Hc Hfree Hw Hiso) as (text & reply & Hp & E).
  unfold h'. rewrite E. cbn [fst].
  edestruct (load_existing cfg eth later n c' text) as [-> ->]; [done|done| |exact Hp|].
  { cbn [files]. apply lookup_insert_eq. }
  unfold binding. js_get. cbn [rbind]. cbn [strict_eq].
  destruct (String.eqb c c'); [|done]. cbn [rbind snd].
  unfold js_or. rewrite !(proj2 (truthy_str _)) by done. done.
Qed.

Lemma nexus_create_load_witness :
  let ext o := match o with
               | NewWallet => Ok (JObj [("address", JStr "0xA1"); ("privateKey", JStr "0xK1")])
               | NowIso => Ok (JStr "2026-01-01T00:00:00.000Z")
               | _ => Throw (Error "fetch failed")
               end in
  let h := Host empty empty in
  occupied h (nexusPath demo_config (JStr "main")) = false /\
  let h' := fst (outcome ext (@handle_nexus_wallet_create demo_config (JStr "main") (JStr "cry1")) h) in
  snd (outcome ext (@handle_nexus_wallet_load demo_config (JStr "main") (JStr "cry1")) h')
    = Ok (ok_obj [("nexusAddress", JStr "0xA1")]) /\
  snd (outcome ext (@loadBoundNexusWallet demo_config demo_ethers (JStr "main") (JStr "cry1")) h')
    = Ok "0x0xK1".
Proof.
  intros ext h. assert (occupied h (nexusPath demo_config (JStr "main")) = false) as Hf
    by (vm_compute; reflexivity).
  split; [exact Hf|]. intros h'.
  refine (nexus_create_load demo_config demo_ethers ext ext h "main" "cry1" "0xA1" "0xK1"
            "2026-01-01T00:00:00.000Z" _ _ _ _ Hf eq_refl eq_refl "cry1" _); discriminate.
Defined.

(** C24 (invariant). No operation on Nexus wallets loses a key: after ['nexus-wallet-create'] every
    file of the host is still there with its contents, whatever the arguments and the answers of
    the environment; loading changes no file. *)
Theorem nexus_files_kept (cfg : Config) (eth : Ethers) (ext : mop -> result jsval) (h : host)
    (n c : jsval) :
  files h ⊆ files (fst (outcome ext (handle_nexus_wallet_create n c) h)) /\
  files (fst (outcome ext (handle_nexus_wallet_load n c) h)) = files h /\
  files (fst (outcome ext (loadBoundNexusWallet n c) h)) = files h.
Proof.
  split; [apply create_keeps_files|]. split; [apply load_keeps_files|apply loadBound_keeps_files].
Qed.

(** A key is used only for the wallet it was created for: whenever
    [loadBoundNexusWallet] returns, the file of that wallet name has been read, is a JSON object
    bound to exactly the given CryLo address and holds the private key the signer is built
    from. *)
Lemma loadBound_binding (cfg : Config) (eth : Ethers) (n c : jsval) (tr : list (event mop))
    (addr : string) :
  Runs (loadBoundNexusWallet n c) tr (Ok addr) ->
  truthy n = true /\ truthy c = true /\
  exists text data bound key,
    (FsRead (nexusPath cfg n), Ok text) ∈ tr /\ Json.parse (as_text text) = Ok data /\
    get data "cryloAddress" = Ok bound /\ strict_eq bound c = true /\
    get data "privateKey" = Ok key /\ truthy key = true /\ walletAddress key = Ok addr.
Proof.
  unfold loadBoundNexusWallet. intros Hr.
  destruct (truthy n) eqn:En; cbn [negb orb] in Hr; [|by runs_step].
  destruct (truthy c) eqn:Ec; cbn [negb] in Hr; [|by runs_step].
  split_and!; [done|done|].
  apply Runs_bind in Hr as [(t1 & t2 & f & -> & Hf%nexusFile_result & Hr)|(e & _ & [=])]. subst f.
  apply Runs_bind in Hr as [(t3 & t4 & pr & -> & _ & Hr)|(e & _ & [=])].
  destruct (negb (truthy pr)); [by runs_step|].
  apply Runs_bind in Hr as [(t5 & t6 & data & -> & Hd & Hr)|(e & _ & [=])].
  apply readJson_result in Hd as (text & -> & Hp).
  repeat match goal with
  | H : Runs (lift _) _ _ |- _ => apply Runs_lift in H as [-> ?]
  | H : Runs (bind (lift _) _) _ _ |- _ =>
      apply Runs_bind in H as [(? & ? & ? & -> & ? & H)|(? & _ & [=])]
  | H : Runs (if negb ?b then Raise _ else _) _ _ |- _ =>
      destruct b eqn:?; cbn [negb] in H; [|by runs_step]
  end.
  eexists text, data, _, _. split_and!; eauto. set_solver.
Qed.

(** A host with one Nexus wallet, created for the wallet [a_b] with address [cry1]. *)
Definition demo_file : string := Json.text "  " "" (binding "a_b" "cry1" "0xA1" "K1" "2026").
Definition demo_host : host :=
  Host {[ nexusPath demo_config (JStr "a_b") := demo_file ]} {[ walletDir demo_config ]}.
Definition demo_ext (o : mop) : result jsval :=
  match o with
  | Fetch _ _ _ => Ok (response true (Json.text "" "" (JObj [("ok", JBool true)])))
  | NowIso => Ok (JStr "2026-01-01T00:00:00.000Z")
  | _ => Throw (Error "offline")
  end.

(** Two wallet names can share a file, and ['nexus-wallet-create'] does not look at the binding
    of a file it finds: for the wallet [a-b] with address [cry2] it reports the Nexus wallet of
    [a_b], which ['nexus-wallet-load'] then refuses. *)
Lemma create_ignores_binding :
  safeNexusFileName (JStr "a-b") = safeNexusFileName (JStr "a_b") /\
  outcome demo_ext (@handle_nexus_wallet_create demo_config (JStr "a-b") (JStr "cry2")) demo_host
  = (demo_host, Ok (ok_obj [("alreadyExists", JBool true); ("nexusAddress", JStr "0xA1");
                            ("gasRegistered", JBool true)])) /\
  snd (outcome demo_ext (@handle_nexus_wallet_load demo_config (JStr "a-b") (JStr "cry2")) demo_host)
  = Ok (ok_obj [("nexusAddress", JStr "")]).
Proof. split; [|split]; vm_compute; reflexivity. Qed.

Lemma nexus_wallet_confined_witness :
  let p := @handle_nexus_wallet_load demo_config (JStr "a_b") (JStr "cry1") in
  exists tr x, Runs p tr x /\ Forall (fun ev => confined demo_config (JStr "a_b") (fst ev)) tr.
Proof.
  intros p. pose proof (run_is_Runs (exec_host demo_ext) p demo_host) as Hr.
  eexists _, _. split; [exact Hr|].
  exact (proj1 (proj2 (nexus_wallet_confined demo_config demo_ethers (JStr "a_b") (JStr "cry1") _))
           _ (or_intror Hr)).
Defined.
