(* ===== verification/NexusChain.v ===== *)
(** * Contract handlers of the main process (electron/main.js)

    The handlers that read the Nexus contracts and those that sign transactions with the bound
    wallet: staking, node registration, buyback and burning of NFTs, the bridge's burn, gas.
    A signed action that needs an allowance is two transactions: an approval with the pending
    nonce and, once it is mined, the action with the next nonce. *)

From Stdlib Require Import Ascii String.
From S2P Require Import Prelude JsNumber JsString JsConv JsVal Json Prog MainEnv Backend NexusWallet.

(** ** Contracts *)

Definition tokenAddress : string := "0x53E57880dD0865b484AfD0f467BBe8844c9d9727".
Definition nftAddress : string := "0x2C4A328a533C699c318eD65df8C4F3E98D462a56".
Definition vaultAddress : string := "0xD1946c051c31722d1Dab8698897f0109225e38e1".
Definition bridgeAddress : string := "0x5f59a0f0010468E8bc6bbF551ac839a8Ddc964a2".
Definition stakingAddress : string := "0xA51adce930306362528C5064Eb1E69f906CA830A".
Definition nodeStakingAddress : string := "0x8Ec32977c1Ba0d537fD565c3047A5b7750E83B3a".
Definition GAS_MANAGER_ADDRESS : string := "0xCB26FebCD655De1946e21db1A17fF9B70Cf536Cf".

(** ** Units *)

Definition WCRYLO_DECIMALS : Z := 11.
Definition NEXUS_GAS_DECIMALS : Z := 18.

Section chain.
Context `{Config} `{Ethers}.
Local Open Scope prog_scope.

Definition parseWcryloUnits (amountText : jsval) : result jsval :=
  parseUnits (to_str amountText) WCRYLO_DECIMALS.
Definition formatWcryloUnits (amount : jsval) : result string := formatUnits amount WCRYLO_DECIMALS.
Definition formatNexusGasUnits (amount : jsval) : result string :=
  formatUnits amount NEXUS_GAS_DECIMALS.

(** The [catch] of the signing handlers: [e.shortMessage || e.reason || e.message]. *)
Definition guarded_tx (p : prog mop jsval) : prog mop jsval :=
  try_catch p (fun e => Ret (fail_obj (err_text e))).

Definition view (contract meth : string) (args : list jsval) : prog mop jsval :=
  call (View contract meth args).

(** [{ ok: true, txHash: tx.hash, blockNumber: receipt.blockNumber, ...extra }] *)
Definition tx_reply (tx receipt : jsval) (extra : list (string * jsval)) : prog mop jsval :=
  hash <- lift (get tx "hash");
  block <- lift (get receipt "blockNumber");
  Ret (ok_obj (("txHash", hash) :: ("blockNumber", block) :: extra)).

(** [nonce++] *)
Definition next_nonce (nonce : jsval) : jsval := JNum (Num.add (to_number nonce) (Num.of_Z 1)).

(** The approval and the action, with consecutive nonces:
<<
  let nonce = await provider.getTransactionCount(wallet.address, 'pending');
  let tx = await token.approve(spender, amount, { nonce });
  await tx.wait();
  nonce++;
  tx = await contract.meth(...args, { nonce });
  const receipt = await tx.wait();
>> *)
Definition approve_then (wallet token spender : string) (amount : jsval)
    (contract meth : string) (args : list jsval) : prog mop (jsval * jsval) :=
  nonce <- call (PendingNonce wallet);
  tx <- call (Send wallet token "approve" [JStr spender; amount] (Some nonce));
  call (TxWait tx) ;;
  tx <- call (Send wallet contract meth args (Some (next_nonce nonce)));
  receipt <- call (TxWait tx);
  Ret (tx, receipt).

(** *** Reading *)

Definition handle_nexus_wcrylo_balance (linkedAddress : jsval) : prog mop jsval :=
  guarded
    (if negb (isAddress linkedAddress) then Ret (fail_obj "Invalid Nexus address")
     else
       balance <- view tokenAddress "balanceOf" [linkedAddress];
       text <- lift (formatWcryloUnits balance);
       Ret (ok_obj [("balance", JStr text)])).

Definition handle_nexus_staked_balance (linkedAddress : jsval) : prog mop jsval :=
  guarded
    (if negb (isAddress linkedAddress) then Ret (fail_obj "Invalid Nexus address")
     else
       balance <- view stakingAddress "stakedBalance" [linkedAddress];
       text <- lift (formatWcryloUnits balance);
       Ret (ok_obj [("balance", JStr text)])).

Definition handle_nexus_pending_rewards (linkedAddress : jsval) : prog mop jsval :=
  guarded
    (if negb (isAddress linkedAddress) then Ret (fail_obj "Invalid Nexus address")
     else
       rewards <- view stakingAddress "pendingRewards" [linkedAddress];
       text <- lift (formatWcryloUnits rewards);
       Ret (ok_obj [("rewards", JStr text)])).

Definition handle_nexus_node_status (linkedAddress : jsval) : prog mop jsval :=
  guarded_tx
    (if negb (isAddress linkedAddress) then Ret (fail_obj "Invalid Nexus address")
     else
       tier <- view nodeStakingAddress "nodeTier" [linkedAddress];
       stake <- view nodeStakingAddress "nodeStake" [linkedAddress];
       pending <- view nodeStakingAddress "pendingRewards" [linkedAddress];
       operatorStake <- view nodeStakingAddress "operatorStake" [];
       validatorStake <- view nodeStakingAddress "validatorStake" [];
       tierText <- lift (toString_method tier);
       stakeText <- lift (formatWcryloUnits stake);
       pendingText <- lift (formatWcryloUnits pending);
       operatorText <- lift (formatWcryloUnits operatorStake);
       validatorText <- lift (formatWcryloUnits validatorStake);
       Ret (ok_obj [("tier", JStr tierText); ("stake", JStr stakeText);
                    ("pending", JStr pendingText); ("operatorStake", JStr operatorText);
                    ("validatorStake", JStr validatorText)])).

(** The seven reads are issued together ([Promise.all]); they have no effect, so that they are
    modelled in the order of the array. *)
Definition handle_nexus_gas_status (linkedAddress : jsval) : prog mop jsval :=
  guarded_tx
    (if negb (isAddress linkedAddress) then Ret (fail_obj "Invalid Nexus address")
     else
       nativeBalance <- call (NativeBalance linkedAddress);
       dailyGasAmount <- view GAS_MANAGER_ADDRESS "dailyGasAmount" [];
       starterGasAmount <- view GAS_MANAGER_ADDRESS "starterGasAmount" [];
       lowGasThreshold <- view GAS_MANAGER_ADDRESS "lowGasThreshold" [];
       lastGasClaimAt <- view GAS_MANAGER_ADDRESS "lastGasClaimAt" [linkedAddress];
       lastActivityAt <- view GAS_MANAGER_ADDRESS "lastActivityAt" [linkedAddress];
       canClaim <- view GAS_MANAGER_ADDRESS "canClaimDailyGas" [linkedAddress];
       vaultBalance <- view GAS_MANAGER_ADDRESS "vaultBalance" [];
       native <- lift (formatNexusGasUnits nativeBalance);
       daily <- lift (formatNexusGasUnits dailyGasAmount);
       starter <- lift (formatNexusGasUnits starterGasAmount);
       low <- lift (formatNexusGasUnits lowGasThreshold);
       vault <- lift (formatNexusGasUnits vaultBalance);
       Ret (ok_obj [("nativeGas", JStr native); ("dailyGasAmount", JStr daily);
                    ("starterGasAmount", JStr starter); ("lowGasThreshold", JStr low);
                    ("lastGasClaimAt", JNum (to_number lastGasClaimAt));
                    ("lastActivityAt", JNum (to_number lastActivityAt));
                    ("canClaim", canClaim); ("vaultBalance", JStr vault)])).

(** *** NFTs *)

(** The body of the scan's loop: the entry pushed for a token, [None] for [continue] and for a
    token that cannot be read. *)
Definition scan_token (normalizedLinked : string) (tokenId : Z) : prog mop (option jsval) :=
  let id := JNum (Num.of_Z tokenId) in
  try_catch
    (owner <- view nftAddress "ownerOf" [id];
     lower <- lift (lower_method owner);
     if negb (String.eqb lower normalizedLinked) then Ret None
     else
       code <- view nftAddress "getMintCode" [id];
       codeHash <- lift (keccakUtf8 code);
       poolData <- view vaultAddress "codePools" [JStr codeHash];
       approved <- lift (index poolData 0);
       poolBalance <- lift (index poolData 1);
       redeemedCount <- lift (index poolData 2);
       pool <- lift (formatWcryloUnits poolBalance);
       redeemed <- lift (toString_method redeemedCount);
       Ret (Some (JObj [("tokenId", id); ("owner", owner); ("code", code);
                        ("eligible", JBool (truthy approved)); ("codePool", JStr pool);
                        ("redeemed", JStr redeemed)])))
    (fun _ => Ret None).

(** [for (let tokenId = 0; tokenId < nextTokenId; tokenId++)]; a count is at most [2^53]. *)
Definition token_ids (nextTokenId : num) : list Z :=
  match nextTokenId with
  | Fin z => seqZ 0 (- (- z / Num.U))
  | _ => []
  end.

Definition handle_nexus_scan_nfts (linkedAddress : jsval) : prog mop jsval :=
  guarded
    (let normalizedLinked := to_lower (to_str (js_or linkedAddress (JStr ""))) in
     if negb (isAddress (JStr normalizedLinked)) then Ret (fail_obj "Invalid linked Nexus address")
     else
       next <- view nftAddress "nextTokenId" [];
       let nextTokenId := to_number next in
       vaultBalance <- view tokenAddress "balanceOf" [JStr vaultAddress];
       found <- mapM (scan_token normalizedLinked) (token_ids nextTokenId);
       let owned := omap id found in
       vaultText <- lift (formatWcryloUnits vaultBalance);
       Ret (ok_obj [("linkedAddress", linkedAddress); ("nextTokenId", JNum nextTokenId);
                    ("vaultBalance", JStr vaultText); ("nfts", JArr owned)])).

(** [{ ok: false, error, txHash: tx.hash }] *)
Definition fail_tx (error : string) (tx : jsval) : prog mop jsval :=
  hash <- lift (get tx "hash");
  Ret (JObj [("ok", JBool false); ("error", JStr error); ("txHash", hash)]).

Definition handle_nexus_buyback_nft (tokenId walletName cryloAddress : jsval) : prog mop jsval :=
  guarded_tx
    (wallet <- loadBoundNexusWallet walletName cryloAddress;
     let id := to_number tokenId in
     owner <- view nftAddress "ownerOf" [JNum id];
     lower <- lift (lower_method owner);
     if negb (String.eqb lower (to_lower wallet)) then
       Ret (fail_obj "Linked wallet does not own this NFT.")
     else
       r <- approve_then wallet nftAddress vaultAddress (JNum id) vaultAddress "buyBack" [JNum id];
       let '(tx, receipt) := r in
       newOwner <- view nftAddress "ownerOf" [JNum id];
       newLower <- lift (lower_method newOwner);
       if negb (String.eqb newLower (to_lower vaultAddress)) then
         fail_tx ("Buyback transaction completed, but NFT #" +:+ num_to_string id
                  +:+ " is still owned by " +:+ to_str newOwner) tx
       else
         hash <- lift (get tx "hash");
         block <- lift (get receipt "blockNumber");
         Ret (ok_obj [("tokenId", JNum id); ("txHash", hash); ("blockNumber", block);
                      ("newOwner", newOwner)])).

Definition handle_nexus_burn_nft (tokenId walletName cryloAddress : jsval) : prog mop jsval :=
  guarded_tx
    (wallet <- loadBoundNexusWallet walletName cryloAddress;
     let id := to_number tokenId in
     owner <- view nftAddress "ownerOf" [JNum id];
     lower <- lift (lower_method owner);
     if negb (String.eqb lower (to_lower wallet)) then
       Ret (fail_obj "Linked wallet does not own this NFT.")
     else
       nonce <- call (PendingNonce wallet);
       tx <- call (Send wallet nftAddress "burn" [JNum id] (Some nonce));
       receipt <- call (TxWait tx);
       try_catch
         (view nftAddress "ownerOf" [JNum id] ;;
          fail_tx ("Burn transaction completed, but NFT #" +:+ num_to_string id
                   +:+ " still exists.") tx)
         (fun _ =>
            hash <- lift (get tx "hash");
            block <- lift (get receipt "blockNumber");
            Ret (ok_obj [("tokenId", JNum id); ("txHash", hash); ("blockNumber", block)]))).

(** *** Bridge, staking, gas *)

Definition handle_nexus_burn_for_crylo (amountText walletName cryloAddress : jsval) :
  prog mop jsval :=
  guarded_tx
    (wallet <- loadBoundNexusWallet walletName cryloAddress;
     amount <- lift (parseWcryloUnits amountText);
     nonce <- call (PendingNonce wallet);
     tx <- call (Send wallet bridgeAddress "burnForCryLo" [cryloAddress; amount] (Some nonce));
     receipt <- call (TxWait tx);
     tx_reply tx receipt []).

Definition handle_nexus_claim_rewards (walletName cryloAddress : jsval) : prog mop jsval :=
  guarded_tx
    (wallet <- loadBoundNexusWallet walletName cryloAddress;
     tx <- call (Send wallet stakingAddress "claimRewards" [] None);
     receipt <- call (TxWait tx);
     tx_reply tx receipt []).

Definition handle_nexus_stake_wcrylo (amountText walletName cryloAddress : jsval) :
  prog mop jsval :=
  guarded_tx
    (wallet <- loadBoundNexusWallet walletName cryloAddress;
     amount <- lift (parseWcryloUnits amountText);
     r <- approve_then wallet tokenAddress stakingAddress amount stakingAddress "stake" [amount];
     tx_reply (fst r) (snd r) []).

Definition handle_nexus_unstake_wcrylo (amountText walletName cryloAddress : jsval) :
  prog mop jsval :=
  guarded_tx
    (wallet <- loadBoundNexusWallet walletName cryloAddress;
     amount <- lift (parseWcryloUnits amountText);
     nonce <- call (PendingNonce wallet);
     tx <- call (Send wallet stakingAddress "unstake" [amount] (Some nonce));
     receipt <- call (TxWait tx);
     tx_reply tx receipt []).

Definition handle_nexus_claim_daily_gas (walletName cryloAddress : jsval) : prog mop jsval :=
  guarded_tx
    (wallet <- loadBoundNexusWallet walletName cryloAddress;
     tx <- call (Send wallet GAS_MANAGER_ADDRESS "claimDailyGas" [] None);
     receipt <- call (TxWait tx);
     tx_reply tx receipt []).

Definition handle_nexus_buy_gas_wcrylo (amountText walletName cryloAddress : jsval) :
  prog mop jsval :=
  guarded_tx
    (wallet <- loadBoundNexusWallet walletName cryloAddress;
     amount <- lift (parseWcryloUnits amountText);
     r <- approve_then wallet tokenAddress GAS_MANAGER_ADDRESS amount
            GAS_MANAGER_ADDRESS "buyGasWithWcrylo" [amount];
     tx_reply (fst r) (snd r) []).

(** *** Nodes *)

Definition operatorDir : path := (homeDir ++ [".config"; "crylo-wallet"; "operator"])%list.

(** The argument's fields are passed one by one; the creation date of an existing readable
    configuration is kept. *)
Definition saveOperatorConfig (cryloAddress : jsval) (nexusAddress tier nodeRpc : string)
    (chainId : Z) (nodeStakingContract : string) : prog mop jsval :=
  call (FsMkdir operatorDir) ;;
  let file := (operatorDir ++ ["operator.json"])%list in
  now <- call NowIso;
  present <- call (FsExists file);
  createdAt <- (if truthy present then
                  try_catch (old <- readJson file;
                             at_ <- lift (get old "createdAt");
                             Ret (js_or at_ now))
                            (fun _ => Ret now)
                else Ret now);
  let config := JObj [("version", JNum (Num.of_Z 1)); ("cryloAddress", cryloAddress);
                      ("nexusAddress", JStr nexusAddress); ("tier", JStr tier);
                      ("nodeRpc", JStr nodeRpc); ("chainId", JNum (Num.of_Z chainId));
                      ("nodeStakingContract", JStr nodeStakingContract);
                      ("createdAt", createdAt); ("updatedAt", now)] in
  text <- lift (Json.stringify "  " config);
  call (FsWrite file (text +:+ Json.newline) 384) ;;
  Ret config.

Definition handle_nexus_register_operator (walletName cryloAddress : jsval) : prog mop jsval :=
  guarded_tx
    (wallet <- loadBoundNexusWallet walletName cryloAddress;
     amount <- view nodeStakingAddress "operatorStake" [];
     r <- approve_then wallet tokenAddress nodeStakingAddress amount
            nodeStakingAddress "registerOperator" [];
     operatorConfig <- saveOperatorConfig cryloAddress wallet "Operator" NEXUS_RPC_URL 5546
                         nodeStakingAddress;
     tx_reply (fst r) (snd r) [("operatorConfig", operatorConfig)]).

Definition handle_nexus_register_validator (walletName cryloAddress : jsval) : prog mop jsval :=
  guarded_tx
    (wallet <- loadBoundNexusWallet walletName cryloAddress;
     amount <- view nodeStakingAddress "validatorStake" [];
     r <- approve_then wallet tokenAddress nodeStakingAddress amount
            nodeStakingAddress "registerValidator" [];
     operatorConfig <- saveOperatorConfig cryloAddress wallet "Validator" NEXUS_RPC_URL 5546
                         nodeStakingAddress;
     tx_reply (fst r) (snd r) [("operatorConfig", operatorConfig)]).

Definition handle_nexus_unregister_node (walletName cryloAddress : jsval) : prog mop jsval :=
  guarded_tx
    (wallet <- loadBoundNexusWallet walletName cryloAddress;
     nonce <- call (PendingNonce wallet);
     tx <- call (Send wallet nodeStakingAddress "unregisterNode" [] (Some nonce));
     receipt <- call (TxWait tx);
     tx_reply tx receipt []).

Definition handle_nexus_claim_node_rewards (walletName cryloAddress : jsval) : prog mop jsval :=
  guarded_tx
    (wallet <- loadBoundNexusWallet walletName cryloAddress;
     tx <- call (Send wallet nodeStakingAddress "claimRewards" [] None);
     receipt <- call (TxWait tx);
     tx_reply tx receipt []).
End chain.

(** ** Properties *)

(** *** Signed transactions in a trace *)

Definition is_send (o : mop) : bool := match o with Send _ _ _ _ _ => true | _ => false end.
Definition not_send (o : mop) : Prop := is_send o = false.
Definition sends (tr : list (event mop)) : list (event mop) :=
  List.filter (fun ev => is_send (fst ev)) tr.

Lemma sends_app t1 t2 : sends (t1 ++ t2) = (sends t1 ++ sends t2)%list.
Proof. apply List.filter_app. Qed.

Lemma sends_none tr : Forall (fun ev => not_send (fst ev)) tr -> sends tr = [].
Proof. induction 1 as [|ev tr Hev _ IH]; [done|]. simpl. by rewrite Hev. Qed.

Lemma Only_sends {A} (p : prog mop A) tr x : Only not_send p -> Runs p tr x -> sends tr = [].
Proof. intros Hp Hr. apply sends_none. by eapply Only_Runs. Qed.

Lemma sends_in o r tr : is_send o = true -> (o, r) ∈ tr -> (o, r) ∈ sends tr.
Proof.
  intros Ho Hin. unfold sends. apply list_elem_of_In, filter_In. split; [by apply list_elem_of_In|done].
Qed.

Ltac only_reads := only_with ltac:(reflexivity).

Section no_send.
Context (cfg : Config) (eth : Ethers).

Lemma nexusFile_reads n : Only not_send (nexusFile n).
Proof. unfold nexusFile, getWalletDir, ensure_dir. only_reads. Qed.

Lemma loadBound_reads n c : Only not_send (loadBoundNexusWallet n c).
Proof.
  unfold loadBoundNexusWallet, readJson. only_reads. apply nexusFile_reads.
Qed.

Lemma tx_reply_reads tx rc extra : Only not_send (tx_reply tx rc extra).
Proof. unfold tx_reply. only_reads. Qed.

Lemma saveOperatorConfig_reads ca na t u ch nc :
  Only not_send (saveOperatorConfig ca na t u ch nc).
Proof. unfold saveOperatorConfig, readJson. only_reads. Qed.
End no_send.

(** *** Approve, then act *)

(** The transactions of a two-step action.  Nothing signed: the reply is a failure.  One: it is
    the approval, with the pending nonce.  Two: the approval was sent, mined, and only then the
    action was sent with the next nonce, by the same signer and for the same amount.  There are
    never three.  A success is reported only for a mined action, with the action's hash. *)
Definition two_step (token spender contract meth : string) (valid : string -> jsval -> Prop)
    (args : jsval -> list jsval) (tr : list (event mop)) (reply : jsval) : Prop :=
  match sends tr with
  | [] => reply_ok reply = false
  | [a] => reply_ok reply = false /\
      exists w amount n r, valid w amount /\
        a = (Send w token "approve" [JStr spender; amount] (Some n), r)
  | [a; b] =>
      exists w amount n tx1 rc1 r2, valid w amount /\
        a = (Send w token "approve" [JStr spender; amount] (Some n), Ok tx1) /\
        b = (Send w contract meth (args amount) (Some (next_nonce n)), r2) /\
        [(PendingNonce w, Ok n); a; (TxWait tx1, Ok rc1); b] `sublist_of` tr /\
        (reply_ok reply = true ->
         exists tx2 rc2, r2 = Ok tx2 /\ (TxWait tx2, Ok rc2) ∈ tr /\
                         get_opt reply "txHash" = get_opt tx2 "hash")
  | _ => False
  end.

Section two_step.
Context (w token spender contract meth : string) (amount : jsval) (args : jsval -> list jsval).

Let approval (n : jsval) : mop := Send w token "approve" [JStr spender; amount] (Some n).
Let action (n : jsval) : mop := Send w contract meth (args amount) (Some (next_nonce n)).

Inductive staged : list (event mop) -> result (jsval * jsval) -> Prop :=
| staged_nonce e : staged [(PendingNonce w, Throw e)] (Throw e)
| staged_approve n e : staged [(PendingNonce w, Ok n); (approval n, Throw e)] (Throw e)
| staged_unmined n tx e :
    staged [(PendingNonce w, Ok n); (approval n, Ok tx); (TxWait tx, Throw e)] (Throw e)
| staged_action n tx rc e :
    staged [(PendingNonce w, Ok n); (approval n, Ok tx); (TxWait tx, Ok rc);
            (action n, Throw e)] (Throw e)
| staged_reverted n tx rc tx2 e :
    staged [(PendingNonce w, Ok n); (approval n, Ok tx); (TxWait tx, Ok rc);
            (action n, Ok tx2); (TxWait tx2, Throw e)] (Throw e)
| staged_done n tx rc tx2 rc2 :
    staged [(PendingNonce w, Ok n); (approval n, Ok tx); (TxWait tx, Ok rc);
            (action n, Ok tx2); (TxWait tx2, Ok rc2)] (Ok (tx2, rc2)).

Lemma approve_then_staged tr x :
  Runs (approve_then w token spender amount contract meth (args amount)) tr x -> staged tr x.
Proof.
  unfold approve_then. intros Hr.
  repeat match goal with
  | H : Runs (bind (call _) _) _ _ |- _ =>
      apply Runs_bind in H as [(? & ? & ? & -> & ->%Runs_call & H)|(? & ->%Runs_call & ->)]
  | H : Runs (Ret _) _ _ |- _ => apply Runs_ret_iff in H as [-> ->]
  end; cbn [app]; constructor.
Qed.

(** A two-step action inside a handler: [pre] is what happened before, [K] what follows. *)
Lemma two_step_core (valid : string -> jsval -> Prop) (K : jsval * jsval -> prog mop jsval) pre tr x :
  sends pre = [] -> valid w amount -> (forall r, Only not_send (K r)) ->
  (forall tx rc t reply, Runs (K (tx, rc)) t (Ok reply) -> reply_ok reply = true ->
                         get_opt reply "txHash" = get_opt tx "hash") ->
  Runs (bind (approve_then w token spender amount contract meth (args amount)) K) tr x ->
  two_step token spender contract meth valid args (pre ++ tr)
    (match x with Ok reply => reply | Throw e => fail_obj (err_text e) end).
Proof.
  intros Hpre Hv HK Hhash Hr. unfold two_step. rewrite sends_app, Hpre.
  apply Runs_bind in Hr as [(t1 & t2 & [tx2 rc2] & -> & Hs%approve_then_staged & Hr)
                           |(e & Hs%approve_then_staged & ->)].
  - rewrite sends_app, (Only_sends _ _ _ (HK _) Hr), app_nil_r.
    inversion Hs; subst; cbn [app sends List.filter fst is_send approval action].
    eexists w, amount, n, tx, rc, _. split_and!; [done|reflexivity|reflexivity| |].
    + apply sublist_inserts_l. repeat apply sublist_skip. apply sublist_nil_l.
    + destruct x as [reply|e]; [|done]. intros Hok. exists tx2, rc2.
      split_and!; [done|set_solver|by eapply Hhash].
  - inversion Hs; subst; cbn [app sends List.filter fst is_send approval action]; try done.
    + split; [done|]. eauto 7.
    + split; [done|]. eauto 7.
    + eexists w, amount, n, tx, rc, _. split_and!; [done|reflexivity|reflexivity| |done].
      by apply sublist_inserts_l.
    + eexists w, amount, n, tx, rc, _. split_and!; [done|reflexivity|reflexivity| |done].
      apply sublist_inserts_l. repeat apply sublist_skip. apply sublist_nil_l.
Qed.
End two_step.

Section signing.
Context (cfg : Config) (eth : Ethers).

(** What follows the two steps in the handlers: the reply with the action's hash. *)
Lemma tx_reply_hash tx rc extra t reply :
  Runs (tx_reply tx rc extra) t (Ok reply) -> get_opt reply "txHash" = get_opt tx "hash".
Proof.
  unfold tx_reply. intros [(t1 & t2 & h & -> & Hh & Hr)|(e & _ & [=])]%Runs_bind.
  apply Runs_lift in Hh as [-> Hh].
  apply Runs_bind in Hr as [(t3 & t4 & b & -> & _ & Hr)|(e & _ & [=])].
  apply Runs_ret_iff in Hr as [-> [= ->]]. unfold get_opt at 2. by rewrite <- Hh.
Qed.

Lemma guarded_tx_runs p tr x :
  Runs (guarded_tx p) tr x ->
  exists y, Runs p tr y /\
            x = Ok (match y with Ok reply => reply | Throw e => fail_obj (err_text e) end).
Proof.
  unfold guarded_tx. intros [(a & Hr & ->)|(t1 & t2 & e & -> & Hr & Hh)]%Runs_try.
  - by exists (Ok a).
  - apply Runs_ret_iff in Hh as [-> ->]. rewrite app_nil_r. by exists (Throw e).
Qed.

(** The signer of a trace that begins by loading the wallet bound to [n] and [c]. *)
Definition signer_of (n c : jsval) (tr : list (event mop)) (w : string) : Prop :=
  exists pre, pre `prefix_of` tr /\ Runs (loadBoundNexusWallet n c) pre (Ok w).

(** Nothing signed before the two steps. *)
Lemma two_step_unsigned token spender contract meth valid args tr e :
  sends tr = [] -> two_step token spender contract meth valid args tr (fail_obj e).
Proof. unfold two_step. by intros ->. Qed.

(** The shape shared by staking, buying gas and registering a node: load the wallet, find the
    amount, approve, act, report. *)
Lemma two_step_handler n c (G : prog mop jsval) token spender contract meth args
    (K : string -> jsval * jsval -> prog mop jsval) tr x :
  Only not_send G -> (forall w r, Only not_send (K w r)) ->
  (forall w tx rc t reply, Runs (K w (tx, rc)) t (Ok reply) -> reply_ok reply = true ->
                           get_opt reply "txHash" = get_opt tx "hash") ->
  Runs (guarded_tx (wallet <- loadBoundNexusWallet n c; amount <- G;
                    r <- approve_then wallet token spender amount contract meth (args amount);
                    K wallet r)%prog) tr x ->
  exists reply, x = Ok reply /\
    two_step token spender contract meth
      (fun w a => signer_of n c tr w /\ exists t, Runs G t (Ok a) /\ t `sublist_of` tr) args tr reply.
Proof.
  intros HG HK Hh (y & Hr & ->)%guarded_tx_runs. eexists. split; [reflexivity|].
  apply Runs_bind in Hr as [(t1 & t2 & w & -> & Hw & Hr)|(e & Hw & ->)];
    pose proof (Only_sends _ _ _ (loadBound_reads cfg eth n c) Hw) as Hw0;
    [|by apply two_step_unsigned].
  apply Runs_bind in Hr as [(t3 & t4 & a & -> & Ha & Hr)|(e & Ha & ->)].
  - rewrite app_assoc. eapply two_step_core; [| |apply (HK w)|apply (Hh w)|exact Hr].
    + by rewrite sends_app, Hw0, (Only_sends _ _ _ HG Ha).
    + rewrite <- app_assoc. split.
      * exists t1. split; [by apply prefix_app_r|done].
      * exists t3. split; [done|]. by apply sublist_inserts_l, sublist_inserts_r.
  - apply two_step_unsigned. by rewrite sends_app, Hw0, (Only_sends _ _ _ HG Ha).
Qed.

Lemma two_step_mono token spender contract meth (V V' : string -> jsval -> Prop) args tr reply :
  (forall w a, V w a -> V' w a) ->
  two_step token spender contract meth V args tr reply ->
  two_step token spender contract meth V' args tr reply.
Proof.
  intros HV. unfold two_step. destruct (sends tr) as [|a [|b [|]]]; [done| | |done].
  - intros (? & w & am & n & r & ? & ?). split; [done|]. exists w, am, n, r. auto.
  - intros (w & am & n & tx & rc & r & ? & ?). exists w, am, n, tx, rc, r. auto.
Qed.

(** C3 (safety). Staking signs at most an approval of the staking contract and then the stake:
    the stake is sent only after the approval was mined, for the same parsed amount, by the
    wallet bound to the CryLo address, with the next nonce; the reply says [ok] only when the
    stake was mined, and carries its hash. *)
Theorem stake_protocol (amountText n c : jsval) (tr : list (event mop)) (x : result jsval) :
  Runs (handle_nexus_stake_wcrylo amountText n c) tr x ->
  exists reply, x = Ok reply /\
    two_step tokenAddress stakingAddress stakingAddress "stake"
      (fun w a => signer_of n c tr w /\ parseWcryloUnits amountText = Ok a)
      (fun a => [a]) tr reply.
Proof.
  intros Hr. eapply two_step_handler in Hr as (reply & -> & Hs);
    [|apply Only_lift|intros; apply tx_reply_reads|intros; by eapply tx_reply_hash].
  exists reply. split; [done|]. revert Hs. apply two_step_mono.
  intros w a (Hw & t & [_ Ha]%Runs_lift & _). auto.
Qed.

(** C21 (safety). Buying gas signs at most an approval of the gas manager and then the purchase,
    under the same protocol as staking. *)
Theorem buy_gas_protocol (amountText n c : jsval) (tr : list (event mop)) (x : result jsval) :
  Runs (handle_nexus_buy_gas_wcrylo amountText n c) tr x ->
  exists reply, x = Ok reply /\
    two_step tokenAddress GAS_MANAGER_ADDRESS GAS_MANAGER_ADDRESS "buyGasWithWcrylo"
      (fun w a => signer_of n c tr w /\ parseWcryloUnits amountText = Ok a)
      (fun a => [a]) tr reply.
Proof.
  intros Hr. eapply two_step_handler in Hr as (reply & -> & Hs);
    [|apply Only_lift|intros; apply tx_reply_reads|intros; by eapply tx_reply_hash].
  exists reply. split; [done|]. revert Hs. apply two_step_mono.
  intros w a (Hw & t & [_ Ha]%Runs_lift & _). auto.
Qed.

Lemma register_protocol_for stakeName meth tier n c tr x :
  Runs (guarded_tx
          (wallet <- loadBoundNexusWallet n c;
           amount <- view nodeStakingAddress stakeName [];
           r <- approve_then wallet tokenAddress nodeStakingAddress amount
                  nodeStakingAddress meth [];
           operatorConfig <- saveOperatorConfig c wallet tier NEXUS_RPC_URL 5546
                               nodeStakingAddress;
           tx_reply (fst r) (snd r) [("operatorConfig", operatorConfig)])%prog) tr x ->
  exists reply, x = Ok reply /\
    two_step tokenAddress nodeStakingAddress nodeStakingAddress meth
      (fun w a => signer_of n c tr w /\ (View nodeStakingAddress stakeName [], Ok a) ∈ tr)
      (fun _ => []) tr reply.
Proof.
  intros Hr.
  eapply (two_step_handler n c _ _ _ _ _ (fun _ => [])
            (fun w r => (cf <- saveOperatorConfig c w tier NEXUS_RPC_URL 5546 nodeStakingAddress;
                         tx_reply (fst r) (snd r) [("operatorConfig", cf)])%prog))
    in Hr as (reply & -> & Hs).
  - exists reply. split; [done|]. revert Hs. apply two_step_mono.
    intros w a (Hw & t & ->%Runs_call & Hs). split; [done|].
    by eapply sublist_subseteq; [exact Hs|apply list_elem_of_singleton].
  - by apply Only_call.
  - intros. apply Only_bind; [apply saveOperatorConfig_reads|intros; apply tx_reply_reads].
  - intros w tx rc t rp Hk _. cbn [fst snd] in Hk.
    apply Runs_bind in Hk as [(t1 & t2 & cf & _ & _ & Hk)|(e & _ & [=])].
    by eapply tx_reply_hash.
Qed.

(** C20 (safety). Registering as operator or validator approves exactly the stake the node
    contract asked for, and registers only after the approval was mined; the reply says [ok]
    only when the registration was mined. *)
Theorem register_protocol (n c : jsval) (tr : list (event mop)) (x : result jsval) :
  let two_step_for stakeName meth :=
    exists reply, x = Ok reply /\
      two_step tokenAddress nodeStakingAddress nodeStakingAddress meth
        (fun w a => signer_of n c tr w /\ (View nodeStakingAddress stakeName [], Ok a) ∈ tr)
        (fun _ => []) tr reply in
  (Runs (handle_nexus_register_operator n c) tr x ->
   two_step_for "operatorStake" "registerOperator") /\
  (Runs (handle_nexus_register_validator n c) tr x ->
   two_step_for "validatorStake" "registerValidator").
Proof. split; apply register_protocol_for. Qed.

Lemma lower_method_ok v s : lower_method v = Ok s -> exists o, v = JStr o /\ s = to_lower o.
Proof. destruct v; cbn; try done. intros [= <-]. eauto. Qed.

Lemma fail_tx_not_ok err tx t reply : Runs (fail_tx err tx) t (Ok reply) -> reply_ok reply = false.
Proof.
  unfold fail_tx. intros [(t1 & t2 & h & -> & _ & Hr)|(e & _ & [=])]%Runs_bind.
  by apply Runs_ret_iff in Hr as [-> [= ->]].
Qed.

(** The end of the buyback, after its two transactions. *)
Definition buyback_report (id : num) (r : jsval * jsval) : prog mop jsval :=
  (let '(tx, receipt) := r in
   newOwner <- view nftAddress "ownerOf" [JNum id];
   newLower <- lift (lower_method newOwner);
   if negb (String.eqb newLower (to_lower vaultAddress)) then
     fail_tx ("Buyback transaction completed, but NFT #" +:+ num_to_string id
              +:+ " is still owned by " +:+ to_str newOwner) tx
   else
     hash <- lift (get tx "hash");
     block <- lift (get receipt "blockNumber");
     Ret (ok_obj [("tokenId", JNum id); ("txHash", hash); ("blockNumber", block);
                  ("newOwner", newOwner)]))%prog.

Lemma buyback_report_ok id tx rc t reply :
  Runs (buyback_report id (tx, rc)) t (Ok reply) -> reply_ok reply = true ->
  get_opt reply "txHash" = get_opt tx "hash" /\
  exists o, t = [(View nftAddress "ownerOf" [JNum id], Ok (JStr o))] /\
            to_lower o = to_lower vaultAddress.
Proof.
  unfold buyback_report, view. intros Hr Hok.
  apply Runs_bind in Hr as [(t1 & t2 & o & -> & ->%Runs_call & Hr)|(e & _ & [=])].
  apply Runs_bind in Hr as [(t3 & t4 & l & -> & [-> Hl]%Runs_lift & Hr)|(e & _ & [=])].
  symmetry in Hl. apply lower_method_ok in Hl as (o' & -> & ->).
  destruct (String.eqb_spec (to_lower o') (to_lower vaultAddress)); cbn [negb] in Hr.
  - apply Runs_bind in Hr as [(t5 & t6 & h & -> & [-> Hh]%Runs_lift & Hr)|(e' & _ & [=])].
    apply Runs_bind in Hr as [(t7 & t8 & b & -> & [-> _]%Runs_lift & Hr)|(e' & _ & [=])].
    apply Runs_ret_iff in Hr as [-> [= ->]]. split; [|eauto].
    unfold get_opt at 2. by rewrite <- Hh.
  - apply fail_tx_not_ok in Hr. congruence.
Qed.

Lemma buyback_report_reads id r : Only not_send (buyback_report id r).
Proof. destruct r. unfold buyback_report, view, fail_tx. only_reads. Qed.

(** What loads the wallet and checks that it owns the token, before anything is signed. *)
Lemma owner_checked n c (id : num) (K : string -> prog mop jsval) tr x :
  Runs (guarded_tx
          (wallet <- loadBoundNexusWallet n c;
           owner <- view nftAddress "ownerOf" [JNum id];
           lower <- lift (lower_method owner);
           if negb (String.eqb lower (to_lower wallet)) then
             Ret (fail_obj "Linked wallet does not own this NFT.")
           else K wallet)%prog) tr x ->
  (sends tr = [] /\ exists e, x = Ok (fail_obj e)) \/
  exists w o pre t y, tr = (pre ++ t)%list /\ sends pre = [] /\ signer_of n c tr w /\
    (View nftAddress "ownerOf" [JNum id], Ok (JStr o)) ∈ tr /\ to_lower o = to_lower w /\
    Runs (K w) t y /\
    x = Ok (match y with Ok reply => reply | Throw e => fail_obj (err_text e) end).
Proof.
  intros (y & Hr & ->)%guarded_tx_runs.
  apply Runs_bind in Hr as [(t1 & t2 & w & -> & Hw & Hr)|(e & Hw & ->)];
    pose proof (Only_sends _ _ _ (loadBound_reads cfg eth n c) Hw) as Hw0; [|eauto].
  unfold view in Hr.
  apply Runs_bind in Hr as [(t3 & t4 & o & -> & ->%Runs_call & Hr)|(e & ->%Runs_call & ->)];
    [|left; rewrite sends_app, Hw0; eauto].
  apply Runs_bind in Hr as [(t5 & t6 & l & -> & [-> Hl]%Runs_lift & Hr)|(e & [-> _]%Runs_lift & ->)];
    [|left; rewrite sends_app, Hw0; eauto].
  symmetry in Hl. apply lower_method_ok in Hl as (o' & -> & ->).
  destruct (String.eqb_spec (to_lower o') (to_lower w)) as [Heq|_]; cbn [negb] in Hr.
  - right. exists w, o', (t1 ++ [(View nftAddress "ownerOf" [JNum id], Ok (JStr o'))])%list, t6, y.
    split_and!; [by rewrite <- app_assoc|by rewrite sends_app, Hw0| |set_solver|done|done|done].
    exists t1. split; [by apply prefix_app_r|done].
  - apply Runs_ret_iff in Hr as [-> ->]. left. rewrite sends_app, Hw0. eauto.
Qed.

(** C19 (safety). A buyback signs only for a token the bound wallet owns, approves exactly that
    token to the vault and sells it after the approval was mined; it reports success only when
    the last thing it read is that the vault is now the owner. *)
Theorem buyback_protocol (tokenId n c : jsval) (tr : list (event mop)) (x : result jsval) :
  let id := JNum (to_number tokenId) in
  Runs (handle_nexus_buyback_nft tokenId n c) tr x ->
  exists reply, x = Ok reply /\
    two_step nftAddress vaultAddress vaultAddress "buyBack"
      (fun w a => signer_of n c tr w /\ a = id /\
         exists o, (View nftAddress "ownerOf" [id], Ok (JStr o)) ∈ tr /\ to_lower o = to_lower w)
      (fun a => [a]) tr reply /\
    (reply_ok reply = true ->
     exists o, last tr = Some (View nftAddress "ownerOf" [id], Ok (JStr o)) /\
               to_lower o = to_lower vaultAddress).
Proof.
  intros id [[Hs [e ->]]|(w & o & pre & t & y & -> & Hpre & Hw & Ho & Heq & Hr & ->)]%owner_checked.
  { eexists. split; [done|]. split; [by apply two_step_unsigned|done]. }
  eexists. split; [reflexivity|]. split.
  - eapply (two_step_core _ _ _ _ _ (JNum (to_number tokenId)) (fun a => [a]) _ (buyback_report (to_number tokenId)));
      [done|eauto 8|apply buyback_report_reads| |exact Hr].
    intros tx rc t' reply Hk Hok. by eapply buyback_report_ok.
  - destruct y as [reply|e]; [|done]. intros Hok.
    apply Runs_bind in Hr as [(t1 & t2 & [tx rc] & -> & _ & Hr)|(e & _ & [=])].
    apply buyback_report_ok in Hr as (_ & o' & -> & Ho'); [|done].
    exists o'. split; [|done]. by rewrite app_assoc, last_snoc.
Qed.

(** *** One transaction *)

(** At most one transaction is signed; a success is reported only when it was mined. *)
Definition one_step (contract meth : string) (valid : string -> list jsval -> Prop)
    (tr : list (event mop)) (reply : jsval) : Prop :=
  match sends tr with
  | [] => reply_ok reply = false
  | [a] => exists w args nonce r, valid w args /\ a = (Send w contract meth args nonce, r) /\
      (reply_ok reply = true ->
       exists tx rc, r = Ok tx /\ (TxWait tx, Ok rc) ∈ tr /\
                     get_opt reply "txHash" = get_opt tx "hash")
  | _ => False
  end.

Definition send_wait_reply (w contract meth : string) (args : list jsval) (nonce : option jsval) :
  prog mop jsval :=
  (tx <- call (Send w contract meth args nonce);
   receipt <- call (TxWait tx);
   tx_reply tx receipt [])%prog.

Lemma one_step_core w contract meth args nonce valid pre tr x :
  sends pre = [] -> (valid w args : Prop) ->
  Runs (send_wait_reply w contract meth args nonce) tr x ->
  one_step contract meth valid (pre ++ tr)
    (match x with Ok reply => reply | Throw e => fail_obj (err_text e) end).
Proof.
  intros Hpre Hv Hr. unfold one_step. rewrite sends_app, Hpre.
  apply Runs_bind in Hr as [(t1 & t2 & tx & -> & ->%Runs_call & Hr)|(e & ->%Runs_call & ->)];
    [|by eexists w, args, nonce, _].
  apply Runs_bind in Hr as [(t3 & t4 & rc & -> & ->%Runs_call & Hr)|(e & ->%Runs_call & ->)];
    [|by eexists w, args, nonce, _].
  rewrite !sends_app, (Only_sends _ _ _ (tx_reply_reads tx rc []) Hr).
  cbn [app sends List.filter fst is_send].
  eexists w, args, nonce, _. split_and!; [done|reflexivity|].
  destruct x as [reply|e]; [|done]. intros _. exists tx, rc.
  split_and!; [done|set_solver|by eapply tx_reply_hash].
Qed.

(** A handler that loads the wallet and whose body [B] fails before signing or ends with the
    transaction. *)
Lemma one_step_handler n c (B : string -> prog mop jsval) contract meth
    (V : list jsval -> Prop) tr x :
  (forall w t y, Runs (B w) t y ->
     (sends t = [] /\ exists e, y = Throw e) \/
     (exists t1 t2 args nonce, t = (t1 ++ t2)%list /\ sends t1 = [] /\ V args /\
        Runs (send_wait_reply w contract meth args nonce) t2 y)) ->
  Runs (guarded_tx (wallet <- loadBoundNexusWallet n c; B wallet)%prog) tr x ->
  exists reply, x = Ok reply /\
    one_step contract meth (fun w args => signer_of n c tr w /\ V args) tr reply.
Proof.
  intros HB (y & Hr & ->)%guarded_tx_runs. eexists. split; [reflexivity|].
  apply Runs_bind in Hr as [(t1 & t2 & w & -> & Hw & Hr)|(e & Hw & ->)];
    pose proof (Only_sends _ _ _ (loadBound_reads cfg eth n c) Hw) as Hw0;
    [|unfold one_step; by rewrite Hw0].
  destruct (HB w _ _ Hr) as [[Hs [e ->]]|(t3 & t4 & args & nonce & -> & Hs & HV & Hk)].
  - unfold one_step. by rewrite sends_app, Hw0, Hs.
  - rewrite app_assoc. eapply one_step_core; [by rewrite sends_app, Hw0| |exact Hk].
    rewrite <- app_assoc. split; [|done]. exists t1. split; [by apply prefix_app_r|done].
Qed.

Lemma nonce_then w contract meth args t y :
  Runs (nonce <- call (PendingNonce w); send_wait_reply w contract meth args (Some nonce))%prog t y ->
  (sends t = [] /\ exists e, y = Throw e) \/
  (exists t1 t2 args' nonce, t = (t1 ++ t2)%list /\ sends t1 = [] /\ args' = args /\
     Runs (send_wait_reply w contract meth args' nonce) t2 y).
Proof.
  intros [(t1 & t2 & nc & -> & ->%Runs_call & Hr)|(e & ->%Runs_call & ->)]%Runs_bind;
    [right|left; eauto].
  eexists _, t2, args, (Some nc). split_and!; [reflexivity|done|done|exact Hr].
Qed.

Lemma parsed_then w amountText contract meth (args : jsval -> list jsval) t y :
  Runs (amount <- lift (parseWcryloUnits amountText); nonce <- call (PendingNonce w);
        send_wait_reply w contract meth (args amount) (Some nonce))%prog t y ->
  (sends t = [] /\ exists e, y = Throw e) \/
  (exists t1 t2 args' nonce, t = (t1 ++ t2)%list /\ sends t1 = [] /\
     (exists a, parseWcryloUnits amountText = Ok a /\ args' = args a) /\
     Runs (send_wait_reply w contract meth args' nonce) t2 y).
Proof.
  intros [(t1 & t2 & a & -> & [-> Ha]%Runs_lift & Hr)|(e & [-> _]%Runs_lift & ->)]%Runs_bind;
    [|left; eauto].
  destruct (nonce_then _ _ _ _ _ _ Hr) as [?|(t3 & t4 & args' & nc & -> & Hs & -> & Hk)];
    [by left|right].
  exists t3, t4, (args a), nc. split_and!; eauto.
Qed.

Lemma at_once w contract meth args t y :
  Runs (send_wait_reply w contract meth args None) t y ->
  (sends t = [] /\ exists e, y = Throw e) \/
  (exists t1 t2 args' nonce, t = (t1 ++ t2)%list /\ sends t1 = [] /\ args' = args /\
     Runs (send_wait_reply w contract meth args' nonce) t2 y).
Proof. intros Hr. right. exists [], t, args, None. auto. Qed.

(** C22 (safety). Unstaking, burning for the bridge, unregistering a node and the three claims
    sign at most one transaction, by the wallet bound to the CryLo address, to the contract and
    with the arguments shown: the amount is the parsed one, and the bridge is told the very
    CryLo address the wallet is bound to; success is reported only for a mined transaction. *)
Theorem single_tx_protocol (amountText n c : jsval) (tr : list (event mop)) (x : result jsval) :
  let signs contract meth V :=
    exists reply, x = Ok reply /\
      one_step contract meth (fun w args => signer_of n c tr w /\ (V args : Prop)) tr reply in
  let parsed a := parseWcryloUnits amountText = Ok a in
  (Runs (handle_nexus_unstake_wcrylo amountText n c) tr x ->
   signs stakingAddress "unstake" (fun l => exists a, parsed a /\ l = [a])) /\
  (Runs (handle_nexus_burn_for_crylo amountText n c) tr x ->
   signs bridgeAddress "burnForCryLo" (fun l => exists a, parsed a /\ l = [c; a])) /\
  (Runs (handle_nexus_unregister_node n c) tr x ->
   signs nodeStakingAddress "unregisterNode" (fun l => l = [])) /\
  (Runs (handle_nexus_claim_rewards n c) tr x ->
   signs stakingAddress "claimRewards" (fun l => l = [])) /\
  (Runs (handle_nexus_claim_node_rewards n c) tr x ->
   signs nodeStakingAddress "claimRewards" (fun l => l = [])) /\
  (Runs (handle_nexus_claim_daily_gas n c) tr x ->
   signs GAS_MANAGER_ADDRESS "claimDailyGas" (fun l => l = [])).
Proof.
  intros signs parsed. split_and!; apply one_step_handler; intros w t y Hr.
  - by apply (parsed_then w amountText _ _ (fun a => [a])).
  - by apply (parsed_then w amountText _ _ (fun a => [c; a])).
  - by apply nonce_then.
  - by apply at_once.
  - by apply at_once.
  - by apply at_once.
Qed.

(** *** Burning an NFT *)

Lemma fail_tx_reads err tx : Only not_send (fail_tx err tx).
Proof. unfold fail_tx. only_reads. Qed.

Lemma fail_tx_throws err tx t e :
  Runs (fail_tx err tx) t (Throw e) -> t = [] /\ get tx "hash" = Throw e.
Proof.
  unfold fail_tx. intros [(t1 & t2 & h & -> & _ & Hr)|(e' & [-> He]%Runs_lift & [= ->])]%Runs_bind.
  - by apply Runs_ret_iff in Hr as [_ [=]].
  - auto.
Qed.

(** The reply of a burn whose token is gone. *)
Definition burn_report (id : num) (tx rc : jsval) : prog mop jsval :=
  (hash <- lift (get tx "hash");
   block <- lift (get rc "blockNumber");
   Ret (ok_obj [("tokenId", JNum id); ("txHash", hash); ("blockNumber", block)]))%prog.

Lemma burn_report_reads id tx rc : Only not_send (burn_report id tx rc).
Proof. unfold burn_report. only_reads. Qed.

Lemma burn_report_ok id tx rc t y :
  Runs (burn_report id tx rc) t y ->
  t = [] /\ forall reply, y = Ok reply ->
    exists h, get tx "hash" = Ok h /\ get_opt reply "txHash" = h.
Proof.
  unfold burn_report.
  intros [(t1 & t2 & h & -> & [-> Hh]%Runs_lift & Hr)|(e & [-> _]%Runs_lift & ->)]%Runs_bind;
    [|done].
  apply Runs_bind in Hr as [(t3 & t4 & b & -> & [-> _]%Runs_lift & Hr)|(e & [-> _]%Runs_lift & ->)];
    [|done].
  apply Runs_ret_iff in Hr as [-> ->]. split; [done|]. intros ? [= <-]. by exists h.
Qed.

(** C23 (safety). Burning signs at most one transaction, for a token the bound wallet owns, and
    reports success only when the transaction was mined and the token can no longer be read. *)
Theorem burn_protocol (tokenId n c : jsval) (tr : list (event mop)) (x : result jsval) :
  let id := JNum (to_number tokenId) in
  Runs (handle_nexus_burn_nft tokenId n c) tr x ->
  exists reply, x = Ok reply /\
    match sends tr with
    | [] => reply_ok reply = false
    | [a] => exists w o nonce r, signer_of n c tr w /\
        (View nftAddress "ownerOf" [id], Ok (JStr o)) ∈ tr /\ to_lower o = to_lower w /\
        a = (Send w nftAddress "burn" [id] (Some nonce), r) /\
        (reply_ok reply = true ->
         exists tx rc e, r = Ok tx /\ (TxWait tx, Ok rc) ∈ tr /\
           last tr = Some (View nftAddress "ownerOf" [id], Throw e) /\
           get_opt reply "txHash" = get_opt tx "hash")
    | _ => False
    end.
Proof.
  intros id [[Hs [e ->]]|(w & o & pre & t & y & -> & Hpre & Hw & Ho & Heq & Hr & ->)]%owner_checked.
  { eexists. rewrite Hs. done. }
  eexists. split; [reflexivity|]. rewrite sends_app, Hpre.
  apply Runs_bind in Hr as [(t1 & t2 & nc & -> & ->%Runs_call & Hr)|(e & ->%Runs_call & ->)]; [|done].
  apply Runs_bind in Hr as [(t3 & t4 & tx & -> & ->%Runs_call & Hr)|(e & ->%Runs_call & ->)];
    [|by eexists w, o, nc, _].
  apply Runs_bind in Hr as [(t5 & t6 & rc & -> & ->%Runs_call & Hr)|(e & ->%Runs_call & ->)];
    [|by eexists w, o, nc, _].
  unfold view in Hr.
  apply Runs_try in Hr as [(reply & Hr & ->)|(t7 & t8 & e & -> & Hv & Hr)].
  - apply Runs_bind in Hr as [(t7 & t8 & o' & -> & ->%Runs_call & Hr)|(e & _ & [=])].
    rewrite !sends_app.
    rewrite (Only_sends _ t8 _ (fail_tx_reads _ tx) Hr). apply fail_tx_not_ok in Hr.
    eexists w, o, nc, _. split_and!; [done..|congruence].
  - rewrite !sends_app, (Only_sends _ t8 _ (burn_report_reads _ tx rc) Hr).
    apply burn_report_ok in Hr as [-> Hrep].
    apply Runs_bind in Hv as [(t9 & t10 & o' & -> & ->%Runs_call & Hv)|(e' & ->%Runs_call & [= <-])].
    + apply fail_tx_throws in Hv as [-> Hh]. eexists w, o, nc, _. split_and!; [done..|].
      destruct y as [reply|]; [|done]. intros _. destruct (Hrep reply eq_refl) as (h & Hh' & _).
      congruence.
    + eexists w, o, nc, _. split_and!; [done..|]. destruct y as [reply|]; [|done].
      intros _. destruct (Hrep reply eq_refl) as (h & Hh & Hrp).
      exists tx, rc, e. split_and!; [done|set_solver| |by unfold get_opt at 2; rewrite Hh].
      by rewrite app_nil_r, !app_assoc, last_snoc.
Qed.
End signing.

(** *** Every signature is by the bound wallet *)

Section binding.
Context (cfg : Config) (eth : Ethers).

(** The handlers that sign, for the wallet [n] with CryLo address [c]. *)
Inductive signing_handler (n c : jsval) : prog mop jsval -> Prop :=
| sh_buyback id : signing_handler n c (handle_nexus_buyback_nft id n c)
| sh_burn id : signing_handler n c (handle_nexus_burn_nft id n c)
| sh_burn_for a : signing_handler n c (handle_nexus_burn_for_crylo a n c)
| sh_claim : signing_handler n c (handle_nexus_claim_rewards n c)
| sh_stake a : signing_handler n c (handle_nexus_stake_wcrylo a n c)
| sh_unstake a : signing_handler n c (handle_nexus_unstake_wcrylo a n c)
| sh_operator : signing_handler n c (handle_nexus_register_operator n c)
| sh_validator : signing_handler n c (handle_nexus_register_validator n c)
| sh_unregister : signing_handler n c (handle_nexus_unregister_node n c)
| sh_claim_node : signing_handler n c (handle_nexus_claim_node_rewards n c)
| sh_claim_gas : signing_handler n c (handle_nexus_claim_daily_gas n c)
| sh_buy_gas a : signing_handler n c (handle_nexus_buy_gas_wcrylo a n c).

Definition signed_by (w : string) (o : mop) : Prop :=
  match o with Send w' _ _ _ _ => w' = w | _ => True end.

(** The body of a signing handler signs only as the wallet it was given. *)
Lemma signing_shape n c p :
  signing_handler n c p ->
  exists B, p = guarded_tx (bind (loadBoundNexusWallet n c) B) /\
            forall w, Only (signed_by w) (B w).
Proof.
  intros []; (eexists; split; [reflexivity|]); intros w;
    unfold approve_then, saveOperatorConfig, readJson, tx_reply, fail_tx, view;
    only_with ltac:(simpl; auto).
Qed.

(** Whatever handler runs and whatever the environment answers, a transaction is
    signed only with a private key read from the file of the requested wallet, after that file
    was found to be bound to exactly the requested CryLo address. *)
Lemma signing_requires_binding (n c : jsval) (p : prog mop jsval) (tr : list (event mop))
    (x : result jsval) (w contract meth : string) (args : list jsval) (nonce : option jsval)
    (r : result jsval) :
  signing_handler n c p -> Runs p tr x -> (Send w contract meth args nonce, r) ∈ tr ->
  truthy n = true /\ truthy c = true /\
  exists text data bound key,
    (FsRead (nexusPath cfg n), Ok text) ∈ tr /\ Json.parse (as_text text) = Ok data /\
    get data "cryloAddress" = Ok bound /\ strict_eq bound c = true /\
    get data "privateKey" = Ok key /\ truthy key = true /\ walletAddress key = Ok w.
Proof.
  intros (B & -> & HB)%signing_shape (y & Hr & ->)%guarded_tx_runs Hin.
  apply Runs_bind in Hr as [(t1 & t2 & w' & -> & Hw & Hr)|(e & Hw & ->)];
    pose proof (Only_sends _ _ _ (loadBound_reads cfg eth n c) Hw) as Hw0.
  - assert (w = w') as ->.
    { apply elem_of_app in Hin as [Hin|Hin].
      - apply (sends_in (Send w contract meth args nonce)) in Hin; [|done].
        rewrite Hw0 in Hin. by apply elem_of_nil in Hin.
      - pose proof (Only_Runs _ _ _ _ (HB w') Hr) as Hall.
        rewrite Forall_forall in Hall. by apply Hall in Hin. }
    apply (loadBound_binding cfg eth) in Hw
      as (Hn & Hc & text & data & bound & key & Hrd & Hrest).
    split; [done|]. split; [done|]. exists text, data, bound, key. split; [set_solver|done].
  - apply (sends_in (Send w contract meth args nonce)) in Hin; [|done].
    rewrite Hw0 in Hin. by apply elem_of_nil in Hin.
Qed.

(** *** Reading never signs *)

Inductive reading_handler : prog mop jsval -> Prop :=
| rh_balance a : reading_handler (handle_nexus_wcrylo_balance a)
| rh_staked a : reading_handler (handle_nexus_staked_balance a)
| rh_pending a : reading_handler (handle_nexus_pending_rewards a)
| rh_node a : reading_handler (handle_nexus_node_status a)
| rh_gas a : reading_handler (handle_nexus_gas_status a)
| rh_scan a : reading_handler (handle_nexus_scan_nfts a).

Definition only_chain_reads (o : mop) : Prop :=
  match o with View _ _ _ | NativeBalance _ => True | _ => False end.

Lemma reading_only p : reading_handler p -> Only only_chain_reads p.
Proof.
  intros []; unfold handle_nexus_wcrylo_balance, handle_nexus_staked_balance,
    handle_nexus_pending_rewards, handle_nexus_node_status, handle_nexus_gas_status,
    handle_nexus_scan_nfts, guarded, guarded_tx, view; only_with ltac:(exact I).
  apply Only_mapM. intros tid. unfold scan_token, view. only_with ltac:(exact I).
Qed.

(** A handler that catches everything replies. *)
Lemma guarded_tx_total p tr x : Runs (guarded_tx p) tr x -> exists v, x = Ok v.
Proof. intros (y & _ & ->)%guarded_tx_runs. eauto. Qed.

Lemma guarded_total p tr x : Runs (guarded p) tr x -> exists v, x = Ok v.
Proof.
  unfold guarded. intros [(a & _ & ->)|(t1 & t2 & e & -> & _ & Hh)]%Runs_try; [eauto|].
  apply Runs_ret_iff in Hh as [_ ->]. eauto.
Qed.

(** C38 (safety). The handlers that show balances, rewards, node and gas status and owned NFTs
    need no wallet file and sign nothing: the only operations they perform are contract reads
    and a balance query; and each of them, like every signing handler, answers the renderer
    with a value, never with an exception. *)
Theorem reading_never_signs (p : prog mop jsval) (tr : list (event mop)) (x : result jsval) :
  Runs p tr x ->
  (reading_handler p -> Forall (fun ev => only_chain_reads (fst ev)) tr /\ exists v, x = Ok v) /\
  (forall n c, signing_handler n c p -> exists v, x = Ok v).
Proof.
  intros Hr. split.
  - intros Hp. split; [by eapply Only_Runs; [apply reading_only|]|].
    destruct Hp; first [by eapply guarded_total|by eapply guarded_tx_total].
  - intros n c (B & -> & _)%signing_shape. by eapply guarded_tx_total.
Qed.
End binding.

(** *** The NFT scan *)

Section scan.
Context (cfg : Config) (eth : Ethers) (ext : mop -> result jsval).

(** The chain says that token [i] belongs to [linked], with this code and pool; [e] is the
    entry the wallet shows for it. *)
Definition owned_entry (linked : string) (i : Z) (e : jsval) : Prop :=
  let id := JNum (Num.of_Z i) in
  exists owner code hash poolData approved balance count pool redeemed,
    ext (View nftAddress "ownerOf" [id]) = Ok (JStr owner) /\ to_lower owner = linked /\
    ext (View nftAddress "getMintCode" [id]) = Ok code /\ keccakUtf8 code = Ok hash /\
    ext (View vaultAddress "codePools" [JStr hash]) = Ok poolData /\
    index poolData 0 = Ok approved /\ index poolData 1 = Ok balance /\ index poolData 2 = Ok count /\
    formatWcryloUnits balance = Ok pool /\ toString_method count = Ok redeemed /\
    e = JObj [("tokenId", id); ("owner", JStr owner); ("code", code);
              ("eligible", JBool (truthy approved)); ("codePool", JStr pool);
              ("redeemed", JStr redeemed)].

(** The entries found, each with its id. *)
Definition with_id {A} (f : Z -> option A) (i : Z) : option (Z * A) :=
  match f i with Some e => Some (i, e) | None => None end.

(** What the loop body leaves for a token. *)
Definition found (linked : string) (i : Z) : option jsval :=
  match eval ext (scan_token linked i) with Ok o => o | Throw _ => None end.

Lemma eval_scan_token linked i : eval ext (scan_token linked i) = Ok (found linked i).
Proof. unfold found, scan_token. rewrite eval_try. by destruct (eval ext _). Qed.

Lemma found_spec linked i e : found linked i = Some e <-> owned_entry linked i e.
Proof.
  unfold found, scan_token, view, owned_entry. rewrite eval_try. split.
  - repeat (rewrite eval_bind, ?eval_call, ?eval_lift;
            match goal with |- context [rbind ?r _] => destruct r as [?|?] eqn:? end;
            cbn [rbind]; [|done];
            try match goal with
            | |- context [if negb ?b then _ else _] => destruct b eqn:?; cbn [negb]; [|done]
            end).
    rewrite eval_ret. intros [= <-].
    repeat match goal with H : lower_method _ = Ok _ |- _ =>
      apply lower_method_ok in H as (? & -> & ->) end.
    repeat match goal with H : String.eqb _ _ = true |- _ => apply String.eqb_eq in H end.
    do 9 eexists. split_and!; try reflexivity; eassumption.
  - intros (owner & code & hash & pd & ap & ba & co & pool & red & E1 & El & E2 & E3 & E4 & E5
            & E6 & E7 & E8 & E9 & ->).
    rewrite eval_bind, eval_call, E1. cbn [rbind]. rewrite eval_bind, eval_lift. cbn [lower_method rbind].
    rewrite El, String.eqb_refl. cbn [negb].
    do 2 (rewrite eval_bind, ?eval_call, ?eval_lift, ?E2, ?E3; cbn [rbind]).
    do 6 (rewrite eval_bind, ?eval_call, ?eval_lift, ?E4, ?E5, ?E6, ?E7, ?E8, ?E9; cbn [rbind]).
    done.
Qed.

Lemma elem_of_token_ids n i :
  0 <= n <= 2 ^ 53 -> i ∈ token_ids (Num.of_Z n) <-> 0 <= i < n.
Proof.
  intros Hn. rewrite Num.of_Z_safe by lia. cbn [token_ids].
  rewrite <- Z.mul_opp_l, Z.div_mul, Z.opp_involutive by (pose proof Num.U_pos; lia).
  rewrite elem_of_seqZ. lia.
Qed.

Lemma with_ids_snd {A} (f : Z -> option A) (l : list Z) :
  map snd (omap (with_id f) l) = omap id (map f l).
Proof.
  induction l as [|i l IH]; [done|]. cbn. unfold with_id at 1. by destruct (f i); cbn; rewrite IH.
Qed.

Lemma elem_of_with_ids {A} (f : Z -> option A) (l : list Z) i e :
  (i, e) ∈ omap (with_id f) l <-> i ∈ l /\ f i = Some e.
Proof.
  rewrite list_elem_of_omap. unfold with_id. split.
  - intros (j & Hj & Hf). destruct (f j) eqn:E; simplify_eq. auto.
  - intros [Hi Hf]. exists i. by rewrite Hf.
Qed.

Lemma with_ids_sorted {A} (f : Z -> option A) (l : list Z) :
  StronglySorted Z.lt l -> StronglySorted Z.lt (map fst (omap (with_id f) l)).
Proof.
  induction 1 as [|i l Hl IH Hi]; [constructor|]. cbn. unfold with_id at 1.
  destruct (f i) as [e|]; cbn; [|done]. constructor; [done|].
  apply Forall_forall. intros j ([j' e'] & -> & Hj)%list_elem_of_fmap.
  apply elem_of_with_ids in Hj as [Hj _]. rewrite Forall_forall in Hi. by apply Hi.
Qed.

Lemma seqZ_sorted m n : StronglySorted Z.lt (seqZ m n).
Proof.
  destruct (Z_le_gt_dec n 0) as [Hn|Hn]; [rewrite seqZ_nil by lia; constructor|].
  rewrite <- (Z2Nat.id n) by lia. generalize (Z.to_nat n) as k. clear n Hn. intros k.
  revert m. induction k as [|k IH]; intros m; [constructor|].
  rewrite seqZ_cons by lia. constructor.
  - replace (Z.pred (Z.of_nat (S k))) with (Z.of_nat k) by lia. apply IH.
  - apply Forall_forall. intros j Hj%elem_of_seqZ. lia.
Qed.

(** C30 (functional). The NFT scan on any state of the chain with a readable counter and vault:
    it lists, in increasing order of the token id, exactly the tokens below the counter that
    the chain attributes to the linked address, up to case, and whose code and pool can be read; a
    burned or unreadable token is skipped without failing the scan. *)
Theorem scan_lists_owned (linkedAddress next balance : jsval) (n : Z) (vaultText : string) :
  let linked := to_lower (to_str (js_or linkedAddress (JStr ""))) in
  isAddress (JStr linked) = true ->
  ext (View nftAddress "nextTokenId" []) = Ok next -> to_number next = Num.of_Z n ->
  0 <= n <= 2 ^ 53 ->
  ext (View tokenAddress "balanceOf" [JStr vaultAddress]) = Ok balance ->
  formatWcryloUnits balance = Ok vaultText ->
  exists nfts : list (Z * jsval),
    eval ext (handle_nexus_scan_nfts linkedAddress)
    = Ok (ok_obj [("linkedAddress", linkedAddress); ("nextTokenId", JNum (Num.of_Z n));
                  ("vaultBalance", JStr vaultText); ("nfts", JArr (map snd nfts))]) /\
    StronglySorted Z.lt (map fst nfts) /\
    forall i e, (i, e) ∈ nfts <-> 0 <= i < n /\ owned_entry linked i e.
Proof.
  intros linked Hadr Hnext Hnum Hn Hbal Hfmt.
  exists (omap (with_id (found linked)) (token_ids (Num.of_Z n))).
  split_and!.
  - unfold handle_nexus_scan_nfts, guarded, view. rewrite eval_try. fold linked.
    rewrite Hadr. cbn [negb]. rewrite eval_bind, eval_call, Hnext. cbn [rbind].
    rewrite eval_bind, eval_call, Hbal. cbn [rbind]. rewrite Hnum.
    rewrite eval_bind, (eval_mapM _ _ (found linked)) by apply eval_scan_token. cbn [rbind].
    rewrite eval_bind, eval_lift, Hfmt. cbn [rbind]. rewrite eval_ret. by rewrite with_ids_snd.
  - apply with_ids_sorted. unfold token_ids. destruct (Num.of_Z n); try constructor.
    apply seqZ_sorted.
  - intros i e. by rewrite elem_of_with_ids, elem_of_token_ids, found_spec.
Qed.
End scan.

(** *** The operator's configuration *)

Section operator_config.
Context (cfg : Config) (eth : Ethers).

Definition operatorFile : path := (operatorDir ++ ["operator.json"])%list.

Definition operator_config (c na tier url : string) (chainId : Z) (contract created updated : string) :
  jsval :=
  JObj [("version", JNum (Num.of_Z 1)); ("cryloAddress", JStr c); ("nexusAddress", JStr na);
        ("tier", JStr tier); ("nodeRpc", JStr url); ("chainId", JNum (Num.of_Z chainId));
        ("nodeStakingContract", JStr contract); ("createdAt", JStr created);
        ("updatedAt", JStr updated)].

(** The creation date that a readable configuration of the host holds. *)
Definition created_in (h : host) : option string :=
  match files h !! operatorFile with
  | Some text => match Json.parse text with
                 | Ok old => match get old "createdAt" with
                             | Ok (JStr s) => if String.eqb s "" then None else Some s
                             | _ => None
                             end
                 | Throw _ => None
                 end
  | None => None
  end.

(** The date a save writes as [createdAt]. *)
Definition creation_date (h : host) (now : string) : string :=
  match created_in h with Some s => s | None => now end.

(** The old file is absent, or a JSON object whose [createdAt] is a text. *)
Definition dated (h : host) : bool :=
  match files h !! operatorFile with
  | None => bool_decide (operatorFile ∉ dirs h)
  | Some text => match Json.parse text with
                 | Ok old => match get old "createdAt" with Ok (JStr _) => true | _ => false end
                 | Throw _ => true
                 end
  end.

Lemma operator_file_not_prefix : operatorFile ∉ prefixes [] operatorDir.
Proof.
  intros Hin%elem_of_prefixes. unfold operatorFile in Hin. rewrite length_app in Hin.
  simpl in Hin. lia.
Qed.

(** The program's choice of [createdAt]. *)
Lemma created_outcome ext h now :
  dated h = true ->
  let h1 := Host (files h) (list_to_set (prefixes [] operatorDir) ∪ dirs h) in
  outcome ext
    (present <- call (FsExists operatorFile);
     if truthy present then
       try_catch (old <- readJson operatorFile;
                  at_ <- lift (get old "createdAt");
                  Ret (js_or at_ (JStr now)))
                 (fun _ => Ret (JStr now))
     else Ret (JStr now))%prog h1
  = (h1, Ok (JStr (creation_date h now))).
Proof.
  intros Hd h1. unfold dated in Hd. unfold creation_date, created_in.
  unfold readJson. repeat outcome_step.
  change (files h1) with (files h).
  destruct (files h !! operatorFile) as [text|] eqn:Ef.
  - rewrite bool_decide_eq_true_2 by eauto. cbn [truthy]. repeat outcome_step.
    change (files h1) with (files h). rewrite Ef. repeat outcome_step.
    unfold as_text. cbn [to_str].
    destruct (Json.parse text) as [old|e]; [|by repeat outcome_step]. repeat outcome_step.
    destruct (get old "createdAt") as [[]|]; try done. repeat outcome_step.
    unfold js_or. cbn [truthy]. by destruct (String.eqb s "").
  - apply bool_decide_eq_true in Hd. rewrite bool_decide_eq_false_2; [done|].
    unfold h1. cbn [dirs]. rewrite elem_of_union, elem_of_list_to_set.
    intros [[? [=]]|[Hp|Hp]]; [by apply operator_file_not_prefix|done].
Qed.

Lemma save_outcome ext h c na tier url contract now :
  ext NowIso = Ok (JStr now) -> dated h = true ->
  exists text h',
    outcome ext (saveOperatorConfig (JStr c) na tier url 5546 contract) h
    = (h', Ok (operator_config c na tier url 5546 contract (creation_date h now) now)) /\
    files h' = <[operatorFile := text]> (files h) /\
    Json.parse text
    = Ok (operator_config c na tier url 5546 contract (creation_date h now) now).
Proof.
  intros Hnow Hd.
  destruct (Json.parse_stringify_ws
              (operator_config c na tier url 5546 contract (creation_date h now) now)
              "  " Json.newline) as (text & Es & Ep); [vm_compute; reflexivity|done|done|].
  exists (text +:+ Json.newline). eexists. split; [|split; [|exact Ep]].
  - unfold saveOperatorConfig. fold operatorFile. rewrite outcome_bind, outcome_call.
    cbn [exec_host]. rewrite outcome_bind, outcome_call. cbn [exec_host]. rewrite Hnow.
    pose proof (created_outcome ext h now Hd) as Hc. cbv zeta in Hc.
    rewrite outcome_bind in Hc. rewrite outcome_bind.
    destruct (outcome ext (call (FsExists operatorFile)) _) as [h2 [v|e]]; [|done].
    rewrite outcome_bind, Hc. unfold operator_config in Es. rewrite outcome_bind, outcome_lift, Es.
    rewrite outcome_bind, outcome_call. cbn [exec_host]. reflexivity.
  - reflexivity.
Qed.

(** C33 (roundtrip). Registering a node writes a configuration that reads back as what was
    saved, and registering again, with another tier or address, keeps the first creation date
    while everything else is the new registration's. *)
Theorem operator_config_kept (ext1 ext2 : mop -> result jsval) (h : host)
    (c na tier url contract now c' na' tier' url' contract' now' : string) :
  ext1 NowIso = Ok (JStr now) -> ext2 NowIso = Ok (JStr now') -> now <> "" ->
  files h !! operatorFile = None -> operatorFile ∉ dirs h ->
  let first := outcome ext1 (saveOperatorConfig (JStr c) na tier url 5546 contract) h in
  let second := outcome ext2 (saveOperatorConfig (JStr c') na' tier' url' 5546 contract') (fst first) in
  snd first = Ok (operator_config c na tier url 5546 contract now now) /\
  snd second = Ok (operator_config c' na' tier' url' 5546 contract' now now') /\
  exists text, files (fst second) !! operatorFile = Some text /\ Json.parse text = snd second.
Proof.
  intros H1 H2 Hne Hf Hd first second.
  destruct (save_outcome ext1 h c na tier url contract now H1) as (t1 & h1 & E1 & F1 & P1).
  { unfold dated. rewrite Hf. by apply bool_decide_eq_true. }
  assert (creation_date h now = now) as Hc1 by (unfold creation_date, created_in; by rewrite Hf).
  rewrite Hc1 in E1, P1.
  assert (created_in h1 = Some now /\ dated h1 = true) as [Hcr Hd1].
  { unfold created_in, dated. rewrite F1, lookup_insert_eq, P1. unfold operator_config.
    js_get. by rewrite (proj2 (String.eqb_neq now "") Hne). }
  destruct (save_outcome ext2 h1 c' na' tier' url' contract' now' H2 Hd1) as (t2 & h2 & E2 & F2 & P2).
  unfold creation_date in E2, P2. rewrite Hcr in E2, P2.
  unfold second, first. rewrite E1. cbn [fst snd]. rewrite E2. cbn [fst snd].
  split_and!; [done|done|]. exists t2. rewrite F2, lookup_insert_eq. done.
Qed.
End operator_config.

(** ** Examples: a chain on which everything is mined *)

(** The state is the host and the number of transactions sent; the tokens pass to the vault with
    the first transaction. *)
Definition demo_chain (w : host * nat) (o : mop) : (host * nat) * result jsval :=
  match o with
  | Send _ _ _ _ _ => ((fst w, S (snd w)), Ok (JObj [("hash", JStr "0xh")]))
  | TxWait _ => (w, Ok (JObj [("blockNumber", JNum (Num.of_Z 7))]))
  | PendingNonce _ => (w, Ok (JNum (Num.of_Z 5)))
  | View _ meth _ =>
      (w, if String.eqb meth "ownerOf" then
            match snd w with
            | O => Ok (JStr "0xK1")
            | 1%nat => Throw (Error "nonexistent token")
            | _ => Ok (JStr vaultAddress)
            end
          else Ok (JBig 500))
  | _ => let '(h, r) := exec_host demo_ext (fst w) o in ((h, snd w), r)
  end.

Definition demo_run (p : prog mop jsval) : list (event mop) * result jsval :=
  let '(_, tr, x) := run demo_chain p (demo_host, 0%nat) in (tr, x).

Lemma demo_Runs p : Runs p (fst (demo_run p)) (snd (demo_run p)).
Proof.
  pose proof (run_is_Runs demo_chain p (demo_host, 0%nat)) as H.
  unfold demo_run. by destruct (run demo_chain p (demo_host, 0%nat)) as [[w tr] x].
Qed.

Definition succeeds (x : result jsval) : bool :=
  match x with Ok v => reply_ok v | Throw _ => false end.

#[local] Abbreviation name := (JStr "a_b").
#[local] Abbreviation addr := (JStr "cry1").

Lemma stake_protocol_witness :
  let p := @handle_nexus_stake_wcrylo demo_config demo_ethers (JStr "1.5") name addr in
  exists tr x, Runs p tr x /\ succeeds x = true /\
  exists reply, x = Ok reply /\
    two_step tokenAddress stakingAddress stakingAddress "stake"
      (fun w a => @signer_of demo_config demo_ethers name addr tr w /\
                  @parseWcryloUnits demo_ethers (JStr "1.5") = Ok a) (fun a => [a]) tr reply.
Proof.
  intros p. exists (fst (demo_run p)), (snd (demo_run p)).
  split; [apply demo_Runs|]. split; [vm_compute; reflexivity|].
  exact (stake_protocol demo_config demo_ethers (JStr "1.5") name addr _ _ (demo_Runs p)).
Defined.

Lemma buy_gas_protocol_witness :
  let p := @handle_nexus_buy_gas_wcrylo demo_config demo_ethers (JStr "0.25") name addr in
  exists tr x, Runs p tr x /\ succeeds x = true /\
  exists reply, x = Ok reply /\
    two_step tokenAddress GAS_MANAGER_ADDRESS GAS_MANAGER_ADDRESS "buyGasWithWcrylo"
      (fun w a => @signer_of demo_config demo_ethers name addr tr w /\
                  @parseWcryloUnits demo_ethers (JStr "0.25") = Ok a) (fun a => [a]) tr reply.
Proof.
  intros p. exists (fst (demo_run p)), (snd (demo_run p)).
  split; [apply demo_Runs|]. split; [vm_compute; reflexivity|].
  exact (buy_gas_protocol demo_config demo_ethers (JStr "0.25") name addr _ _ (demo_Runs p)).
Defined.

Lemma register_protocol_witness :
  let p := @handle_nexus_register_operator demo_config demo_ethers name addr in
  exists tr x, Runs p tr x /\ succeeds x = true /\
  exists reply, x = Ok reply /\
    two_step tokenAddress nodeStakingAddress nodeStakingAddress "registerOperator"
      (fun w a => @signer_of demo_config demo_ethers name addr tr w /\
                  (View nodeStakingAddress "operatorStake" [], Ok a) ∈ tr) (fun _ => []) tr reply.
Proof.
  intros p. exists (fst (demo_run p)), (snd (demo_run p)).
  split; [apply demo_Runs|]. split; [vm_compute; reflexivity|].
  exact (proj1 (register_protocol demo_config demo_ethers name addr _ _) (demo_Runs p)).
Defined.

Lemma buyback_protocol_witness :
  let p := @handle_nexus_buyback_nft demo_config demo_ethers (JStr "3") name addr in
  exists tr x, Runs p tr x /\ succeeds x = true /\
  exists reply, x = Ok reply /\
    (reply_ok reply = true ->
     exists o, last tr = Some (View nftAddress "ownerOf" [JNum (to_number (JStr "3"))], Ok (JStr o)) /\
               to_lower o = to_lower vaultAddress).
Proof.
  intros p. exists (fst (demo_run p)), (snd (demo_run p)).
  split; [apply demo_Runs|]. split; [vm_compute; reflexivity|].
  destruct (buyback_protocol demo_config demo_ethers (JStr "3") name addr _ _ (demo_Runs p))
    as (reply & E & _ & Hl).
  exists reply. split; [exact E|exact Hl].
Defined.

Lemma burn_protocol_witness :
  let p := @handle_nexus_burn_nft demo_config demo_ethers (JStr "3") name addr in
  exists tr x, Runs p tr x /\ succeeds x = true /\ length (sends tr) = 1%nat /\
  exists reply, x = Ok reply /\ match sends tr with [] | [_] => True | _ => False end.
Proof.
  intros p. exists (fst (demo_run p)), (snd (demo_run p)).
  split; [apply demo_Runs|]. split; [vm_compute; reflexivity|]. split; [vm_compute; reflexivity|].
  destruct (burn_protocol demo_config demo_ethers (JStr "3") name addr _ _ (demo_Runs p))
    as (reply & E & Hs).
  exists reply. split; [exact E|]. destruct (sends _) as [|? [|]]; [exact I|exact I|exact Hs].
Defined.

Lemma single_tx_protocol_witness :
  let p := @handle_nexus_burn_for_crylo demo_config demo_ethers (JStr "2") name addr in
  exists tr x, Runs p tr x /\ succeeds x = true /\
  exists reply, x = Ok reply /\
    one_step bridgeAddress "burnForCryLo"
      (fun w args => @signer_of demo_config demo_ethers name addr tr w /\
         exists a, @parseWcryloUnits demo_ethers (JStr "2") = Ok a /\ args = [addr; a]) tr reply.
Proof.
  intros p. exists (fst (demo_run p)), (snd (demo_run p)).
  split; [apply demo_Runs|]. split; [vm_compute; reflexivity|].
  exact (proj1 (proj2 (single_tx_protocol demo_config demo_ethers (JStr "2") name addr _ _))
               (demo_Runs p)).
Defined.

Lemma reading_never_signs_witness :
  let p := @handle_nexus_staked_balance demo_ethers (JStr "0xA1") in
  exists tr x, Runs p tr x /\ succeeds x = true /\
    Forall (fun ev => only_chain_reads (fst ev)) tr /\ exists v, x = Ok v.
Proof.
  intros p. exists (fst (demo_run p)), (snd (demo_run p)).
  split; [apply demo_Runs|]. split; [vm_compute; reflexivity|].
  exact (proj1 (reading_never_signs demo_config demo_ethers p _ _ (demo_Runs p))
               (rh_staked demo_ethers (JStr "0xA1"))).
Defined.

(** A chain with three tokens, of which the first was burned and the last belongs to [0xa1]. *)
Definition demo_tokens (o : mop) : result jsval :=
  match o with
  | View _ meth args =>
      if String.eqb meth "nextTokenId" then Ok (JBig 3)
      else if String.eqb meth "balanceOf" then Ok (JBig 500)
      else if String.eqb meth "ownerOf" then
        match args with
        | [JNum (Fin 0)] => Throw (Error "nonexistent token")
        | [JNum x] => Ok (JStr (if Num.eqb x (Num.of_Z 2) then "0xA1" else "0xB2"))
        | _ => Throw (Error "bad call")
        end
      else if String.eqb meth "getMintCode" then Ok (JStr "gold")
      else Ok (JArr [JBool true; JBig 70; JBig 1])
  | _ => Throw (Error "not a read")
  end.

Lemma scan_lists_owned_witness :
  exists nfts : list (Z * jsval),
    eval demo_tokens (@handle_nexus_scan_nfts demo_ethers (JStr "0xA1"))
    = Ok (ok_obj [("linkedAddress", JStr "0xA1"); ("nextTokenId", JNum (Num.of_Z 3));
                  ("vaultBalance", JStr "0.00000000500"); ("nfts", JArr (map snd nfts))]) /\
    StronglySorted Z.lt (map fst nfts) /\
    forall i e, (i, e) ∈ nfts <-> 0 <= i < 3 /\ @owned_entry demo_ethers demo_tokens "0xa1" i e.
Proof.
  refine (scan_lists_owned demo_ethers demo_tokens (JStr "0xA1") (JBig 3) (JBig 500) 3
            "0.00000000500" _ _ _ _ _ _); try (vm_compute; reflexivity). lia.
Defined.

Lemma operator_config_kept_witness :
  let at_ t o := match o with NowIso => Ok (JStr t) | _ => Ok JUndef end in
  let h := Host empty empty in
  files h !! @operatorFile demo_config = None /\
  let first := outcome (at_ "2026-01-01") (@saveOperatorConfig demo_config (JStr "c") "0xA" "Operator"
                                             "http://n" 5546 nodeStakingAddress) h in
  snd (outcome (at_ "2026-02-02") (@saveOperatorConfig demo_config (JStr "c") "0xA" "Validator"
                                     "http://n" 5546 nodeStakingAddress) (fst first))
  = Ok (operator_config "c" "0xA" "Validator" "http://n" 5546 nodeStakingAddress
          "2026-01-01" "2026-02-02").
Proof.
  intros at_ h. assert (files h !! @operatorFile demo_config = None) as Hf by (vm_compute; reflexivity).
  split; [exact Hf|].
  refine (proj1 (proj2 (operator_config_kept demo_config (at_ "2026-01-01") (at_ "2026-02-02") h
            "c" "0xA" "Operator" "http://n" nodeStakingAddress "2026-01-01"
            "c" "0xA" "Validator" "http://n" nodeStakingAddress "2026-02-02"
            eq_refl eq_refl _ Hf _))).
  - discriminate.
  - apply not_elem_of_empty.
Defined.
