(* ===== verification/BridgeApi.v ===== *)
(** * The bridge service's API (electron/main.js)

    Three handlers ask the bridge service: a request for a deposit, the state of a deposit and
    the state of a release.  The service's JSON object is spread into the reply after
    [ok: true]. *)

From Stdlib Require Import Ascii String.
From S2P Require Import Prelude JsNumber JsString JsConv JsVal Json Prog MainEnv Backend NexusWallet.

(** ** encodeURIComponent *)

(** Letters, digits and [- _ . ! ~ * ' ( )] are kept. *)
Definition uri_unreserved (c : ascii) : bool :=
  is_alnum c || existsb (Ascii.eqb c) ["-"; "_"; "."; "!"; "~"; "*"; "'"; "("; ")"]%char.

Definition upper_hex (n : Z) : ascii := if n <? 10 then chr (48 + n) else chr (55 + n).

Definition uri_char (c : ascii) : string :=
  if uri_unreserved c then String c ""
  else String "%" (String (upper_hex (byte_of c / 16)) (String (upper_hex (byte_of c mod 16)) "")).

Fixpoint uri_encode (s : string) : string :=
  match s with "" => "" | String c r => uri_char c +:+ uri_encode r end.

Definition encodeURIComponent (v : jsval) : string := uri_encode (to_str v).

(** ** Replies *)

(** A response as the three handlers see it: [ok], [status] and the text of the body. *)
Definition api_response (ok : bool) (status : Z) (body : string) : jsval :=
  JObj [("ok", JBool ok); ("status", JNum (Num.of_Z status)); ("body", JStr body)].

Section bridge_api.
Local Open Scope prog_scope.

(** The part the three handlers share, after [fetch]. *)
Definition api_reply (res : jsval) : result jsval :=
  body <-! get res "body";
  let text := to_str body in
  let data := match Json.parse text with
              | Ok d => d
              | Throw _ => JObj [("error", JStr text)]
              end in
  resOk <-! get res "ok";
  if negb (truthy resOk) then
    error <-! get data "error";
    status <-! get res "status";
    Ok (JObj [("ok", JBool false);
              ("error", js_or error (js_or (JStr text) (JStr ("HTTP " +:+ to_str status))))])
  else Ok (JObj (spread [("ok", JBool true)] data)).

Definition handle_bridge_request (payload : jsval) : prog mop jsval :=
  guarded
    (body <- lift (Json.stringify "" payload);
     res <- call (Fetch "POST" (BRIDGE_API_URL +:+ "/bridge/request") (Some body));
     lift (api_reply res)).

Definition handle_bridge_status (paymentId : jsval) : prog mop jsval :=
  guarded
    (res <- call (Fetch "GET" (BRIDGE_API_URL +:+ "/bridge/status/" +:+ encodeURIComponent paymentId)
                    None);
     lift (api_reply res)).

Definition handle_bridge_release_status (nexusTxHash : jsval) : prog mop jsval :=
  guarded
    (res <- call (Fetch "GET" (BRIDGE_API_URL +:+ "/bridge/release-status/"
                               +:+ encodeURIComponent nexusTxHash) None);
     lift (api_reply res)).
End bridge_api.

(** ** Properties *)

(** Decoding of percent escapes, as a server does. *)
Definition hex_val (c : ascii) : option Z :=
  if is_digit c then Some (byte_of c - 48)
  else if in_range 65 70 (byte_of c) then Some (byte_of c - 55) else None.

Fixpoint uri_decode (s : string) : option string :=
  match s with
  | "" => Some ""
  | String c r =>
      if Ascii.eqb c "%" then
        match r with
        | String a (String b r') =>
            match hex_val a, hex_val b, uri_decode r' with
            | Some x, Some y, Some t => Some (String (chr (16 * x + y)) t)
            | _, _, _ => None
            end
        | _ => None
        end
      else match uri_decode r with Some t => Some (String c t) | None => None end
  end.

Definition path_safe (c : ascii) : bool := uri_unreserved c || Ascii.eqb c "%".

Lemma upper_hex_ok x :
  0 <= x < 16 -> hex_val (upper_hex x) = Some x /\ path_safe (upper_hex x) = true.
Proof.
  intros Hx.
  assert (forallb (fun x => bool_decide (hex_val (upper_hex x) = Some x) && path_safe (upper_hex x))
            (seqZ 0 16) = true) as H by (vm_compute; reflexivity).
  rewrite forallb_forall in H. specialize (H x).
  rewrite andb_true_iff, bool_decide_eq_true in H. apply H, list_elem_of_In, elem_of_seqZ. lia.
Qed.

Lemma byte_hex c :
  let hi := byte_of c / 16 in let lo := byte_of c mod 16 in
  0 <= hi < 16 /\ 0 <= lo < 16 /\ 16 * hi + lo = byte_of c.
Proof.
  pose proof (byte_of_range c). pose proof (Z.div_mod (byte_of c) 16 ltac:(lia)).
  pose proof (Z.mod_pos_bound (byte_of c) 16 ltac:(lia)).
  cbv zeta. split; [split; [apply Z.div_pos|apply Z.div_lt_upper_bound]; lia|lia].
Qed.

Lemma chr_byte_of c : chr (byte_of c) = c.
Proof. unfold chr, byte_of. rewrite N2Z.id. apply Ascii.ascii_N_embedding. Qed.

Lemma uri_decode_char c t u :
  uri_decode t = Some u -> uri_decode (uri_char c +:+ t) = Some (String c u).
Proof.
  intros Ht. unfold uri_char. destruct (uri_unreserved c) eqn:E.
  - app_norm. cbn [uri_decode].
    destruct (Ascii.eqb_spec c "%") as [->|_]; [by vm_compute in E|]. by rewrite Ht.
  - app_norm. cbn [uri_decode]. destruct (byte_hex c) as (Hhi & Hlo & Heq).
    change (Ascii.eqb "%" "%") with true. cbv iota.
    destruct (upper_hex_ok _ Hhi) as [-> _], (upper_hex_ok _ Hlo) as [-> _].
    by rewrite Ht, Heq, chr_byte_of.
Qed.

Lemma uri_char_safe c : all_chars path_safe (uri_char c) = true.
Proof.
  unfold uri_char. destruct (uri_unreserved c) eqn:E; cbn [all_chars].
  - unfold path_safe. by rewrite E.
  - destruct (byte_hex c) as (Hhi & Hlo & _).
    by destruct (upper_hex_ok _ Hhi) as [_ ->], (upper_hex_ok _ Hlo) as [_ ->].
Qed.

Lemma uri_encode_safe s : all_chars path_safe (uri_encode s) = true.
Proof.
  induction s as [|c s IH]; [done|]. cbn [uri_encode]. by rewrite all_chars_app, uri_char_safe, IH.
Qed.

Lemma uri_decode_encode s : uri_decode (uri_encode s) = Some s.
Proof. induction s as [|c s IH]; [done|]. cbn [uri_encode]. by apply uri_decode_char. Qed.

(** The reply to the renderer for an answer to [fetch]. *)
Definition reply_for (a : result jsval) : jsval :=
  match rbind a api_reply with Ok r => r | Throw e => fail_obj (message e) end.

Lemma fetch_reply f tr x :
  Runs (guarded (res <- call f; lift (api_reply res))%prog) tr x ->
  exists a, tr = [(f, a)] /\ x = Ok (reply_for a).
Proof.
  unfold guarded, reply_for. intros [(v & Hr & ->)|(t1 & t2 & e & -> & Hr & Hh)]%Runs_try.
  - apply Runs_bind in Hr as [(t1 & t2 & res & -> & ->%Runs_call & [-> Ha]%Runs_lift)|(e & _ & [=])].
    exists (Ok res). split; [done|]. cbn [rbind]. by rewrite <- Ha.
  - apply Runs_ret_iff in Hh as [-> ->].
    apply Runs_bind in Hr as [(t3 & t4 & res & -> & ->%Runs_call & [-> Ha]%Runs_lift)
                             |(e' & ->%Runs_call & [= <-])].
    + exists (Ok res). split; [done|]. cbn [rbind]. by rewrite <- Ha.
    + by exists (Throw e).
Qed.

(** An answer of [fetch]: an exception or a response. *)
Definition fetched (a : result jsval) : Prop :=
  match a with Throw _ => True | Ok r => exists ok st body, r = api_response ok st body end.

(** What the renderer is told for it.  A failed request; a status outside 200-299, whose body is
    JSON with an error, null, other JSON, another text, or empty; a success, whose body is a JSON
    object, another JSON value, or another text. *)
Inductive bridge_reply : result jsval -> jsval -> Prop :=
| bridge_failed e : bridge_reply (Throw e) (fail_obj (message e))
| bridge_error st body v :
    Json.parse body = Ok v -> truthy (get_opt v "error") = true ->
    bridge_reply (Ok (api_response false st body))
      (JObj [("ok", JBool false); ("error", get_opt v "error")])
| bridge_null st body :
    Json.parse body = Ok JNull ->
    bridge_reply (Ok (api_response false st body))
      (fail_obj "Cannot read properties of null (reading 'error')")
| bridge_no_error st body v :
    Json.parse body = Ok v -> v <> JNull -> truthy (get_opt v "error") = false ->
    bridge_reply (Ok (api_response false st body)) (fail_obj body)
| bridge_text st body e :
    Json.parse body = Throw e -> body <> "" ->
    bridge_reply (Ok (api_response false st body)) (fail_obj body)
| bridge_empty st :
    bridge_reply (Ok (api_response false st "")) (fail_obj ("HTTP " +:+ num_to_string (Num.of_Z st)))
| bridge_object st body o reply :
    Json.parse body = Ok (JObj o) ->
    (forall k, obj_get reply k = if bool_decide (k ∈ map fst o) then obj_get o k
                                 else obj_get [("ok", JBool true)] k) ->
    bridge_reply (Ok (api_response true st body)) (JObj reply)
| bridge_value st body v :
    Json.parse body = Ok v -> (forall o, v <> JObj o) ->
    bridge_reply (Ok (api_response true st body)) (JObj (spread [("ok", JBool true)] v))
| bridge_success_text st body e :
    Json.parse body = Throw e ->
    bridge_reply (Ok (api_response true st body)) (ok_obj [("error", JStr body)]).

(** The reply to a response, its fields read. *)
Lemma api_reply_fields ok st body :
  api_reply (api_response ok st body)
  = let data := match Json.parse body with Ok d => d | Throw _ => JObj [("error", JStr body)] end in
    if ok then Ok (JObj (spread [("ok", JBool true)] data))
    else error <-! get data "error";
         Ok (JObj [("ok", JBool false);
                   ("error", js_or error (js_or (JStr body)
                               (JStr ("HTTP " +:+ num_to_string (Num.of_Z st)))))]).
Proof.
  unfold api_reply, api_response. js_get. cbn [rbind to_str]. js_get. cbn [rbind truthy].
  destruct ok; cbn [negb]; [done|]. cbv zeta. destruct (get _ "error"); [|done]. cbn [rbind].
  js_get. done.
Qed.

Lemma refused_reply st body :
  let a := Ok (api_response false st body) in bridge_reply a (reply_for a).
Proof.
  intros a. subst a. unfold reply_for. cbn [rbind]. rewrite api_reply_fields. cbv zeta.
  destruct (Json.parse body) as [v|e] eqn:Hp.
  - assert (truthy (JStr body) = true) as Hb by (apply truthy_str; intros ->; vm_compute in Hp; discriminate Hp).
    destruct (decide (v = JNull)) as [->|Hn]; [by constructor|].
    rewrite get_json by (done || by eapply Json.parse_json). cbn [rbind].
    destruct (truthy (get_opt v "error")) eqn:Ht.
    + rewrite js_or_truthy by done. by econstructor.
    + rewrite js_or_falsy, js_or_truthy by done. by eapply bridge_no_error.
  - js_get. cbn [rbind]. destruct (decide (body = "")) as [->|Hne]; [by constructor|].
    rewrite js_or_truthy by by apply truthy_str. by econstructor.
Qed.

Lemma accepted_reply st body :
  let a := Ok (api_response true st body) in bridge_reply a (reply_for a).
Proof.
  intros a. subst a. unfold reply_for. cbn [rbind]. rewrite api_reply_fields. cbv zeta.
  destruct (Json.parse body) as [v|e] eqn:Hp; [|by econstructor].
  destruct v as [| | | | | | |o]; try by eapply bridge_value.
  eapply bridge_object; [exact Hp|]. intros k. apply obj_get_spread. exact (Json.parse_json _ _ Hp).
Qed.

Lemma reply_for_spec a : fetched a -> bridge_reply a (reply_for a).
Proof.
  destruct a as [r|e]; [|constructor]. intros ([|] & st & body & ->);
    [apply accepted_reply|apply refused_reply].
Qed.

(** C34 (functional). Each bridge handler makes one request, to the service's endpoint for it, and
    answers the renderer on every branch.  A payload that cannot be written as JSON is a failure
    without a request, a failed request is a failure with the exception's message.  A status
    outside 200-299 is a failure that carries the service's [error] whatever its type and the other
    fields, else the text of the body, else, when that is empty, the status; the body null is a
    failure with the exception it causes.  A status in 200-299 is answered with all the fields of
    the service's object and [ok] unless the object has an [ok] of its own; another JSON value is
    spread into the reply, and a text that is not JSON becomes its [error] field. *)
Theorem bridge_replies (v : jsval) (tr : list (event mop)) (x : result jsval) :
  let answers meth path_ b :=
    exists a reply, tr = [(Fetch meth (BRIDGE_API_URL +:+ path_) b, a)] /\ x = Ok reply /\
                    (fetched a -> bridge_reply a reply) in
  (Runs (handle_bridge_request v) tr x ->
   match Json.stringify "" v with
   | Ok body => answers "POST" "/bridge/request" (Some body)
   | Throw e => tr = [] /\ x = Ok (fail_obj (message e))
   end) /\
  (Runs (handle_bridge_status v) tr x ->
   answers "GET" ("/bridge/status/" +:+ encodeURIComponent v) None) /\
  (Runs (handle_bridge_release_status v) tr x ->
   answers "GET" ("/bridge/release-status/" +:+ encodeURIComponent v) None).
Proof.
  intros answers.
  assert (forall f, Runs (guarded (res <- call f; lift (api_reply res))%prog) tr x ->
            exists a reply, tr = [(f, a)] /\ x = Ok reply /\ (fetched a -> bridge_reply a reply)) as Hone.
  { intros f (a & Htr & Hx)%fetch_reply. exists a, (reply_for a). auto using reply_for_spec. }
  split_and!; [|apply Hone|apply Hone].
  unfold handle_bridge_request. destruct (Json.stringify "" v) as [body|e]; cbn [lift bind]; [apply Hone|].
  unfold guarded. cbn [try_catch]. by intros [-> ->]%Runs_ret_iff.
Qed.

Lemma bridge_replies_witness :
  let body := Json.text "" "" (JObj [("ok", JBool false); ("status", JStr "pending")]) in
  let a := Ok (api_response true 200 body) in
  exists tr x, Runs (handle_bridge_status (JStr "a/b")) tr x /\ map snd tr = [a] /\
  exists reply, tr = [(Fetch "GET" (BRIDGE_API_URL +:+ "/bridge/status/a%2Fb") None, a)] /\
                x = Ok reply /\ bridge_reply a reply.
Proof.
  intros body a.
  pose proof (run_is_Runs (fun (_ : unit) _ => (tt, a)) (handle_bridge_status (JStr "a/b")) tt) as Hr.
  eexists _, _. split; [exact Hr|]. split; [reflexivity|].
  destruct (proj1 (proj2 (bridge_replies (JStr "a/b") _ _)) Hr) as (a' & reply & Htr & Hx & Hreply).
  injection Htr as Ha. subst a'. exists reply. split; [reflexivity|]. split; [exact Hx|].
  apply Hreply. exists true, 200, body. reflexivity.
Defined.

(** C35 (safety). The two status handlers ask for exactly the id they are given: whatever the id,
    each makes one request, whose URL is that of its endpoint and one more segment; the segment
    consists of unreserved characters and percent escapes (no separator, query or fragment), a
    server that decodes it gets the id back, and it is one of the dot segments only when the id
    itself is a dot or two. *)
Theorem ids_in_their_segment (v : jsval) (tr : list (event mop)) (x : result jsval) :
  let asks path_ :=
    exists seg a, tr = [(Fetch "GET" (BRIDGE_API_URL +:+ path_ +:+ seg) None, a)] /\
      all_chars path_safe seg = true /\ uri_decode seg = Some (to_str v) /\
      (seg = "." \/ seg = ".." -> to_str v = seg) in
  (Runs (handle_bridge_status v) tr x -> asks "/bridge/status/") /\
  (Runs (handle_bridge_release_status v) tr x -> asks "/bridge/release-status/").
Proof.
  intros asks. split; intros (a & -> & _)%fetch_reply; exists (encodeURIComponent v), a;
    (split; [done|]); unfold encodeURIComponent; rewrite uri_encode_safe;
    pose proof (uri_decode_encode (to_str v)) as Hd; rewrite Hd; (split; [done|]); (split; [done|]);
    intros [E|E]; rewrite E in Hd |- *; by injection Hd as <-.
Qed.

Lemma ids_in_their_segment_witness :
  exists tr x, Runs (handle_bridge_status (JStr "a/b?c")) tr x /\
  exists seg a, tr = [(Fetch "GET" (BRIDGE_API_URL +:+ "/bridge/status/" +:+ seg) None, a)] /\
    all_chars path_safe seg = true /\ uri_decode seg = Some "a/b?c" /\
    (seg = "." \/ seg = ".." -> "a/b?c" = seg).
Proof.
  pose proof (run_is_Runs (fun (_ : unit) _ => (tt, Throw (Error "down")))
                (handle_bridge_status (JStr "a/b?c")) tt) as Hr.
  eexists _, _. split; [exact Hr|].
  exact (proj1 (ids_in_their_segment (JStr "a/b?c") _ _) Hr).
Defined.

(** The id [..] is asked for as a dot segment, which leads [fetch] to another URL of the service. *)
Lemma dot_dot_id : encodeURIComponent (JStr "..") = "..".
Proof. reflexivity. Qed.
