(* ===== verification/NexusHistory.v ===== *)
(** * The Nexus transaction history (electron/main.js, 'nexus-transactions')

    The handler reads the logs of the last fifty thousand blocks from five contracts, labels and
    formats them, and returns the hundred newest. *)

From Stdlib Require Import Ascii String.
From S2P Require Import Prelude JsNumber JsString JsConv JsVal Json Prog MainEnv Backend NexusWallet NexusChain.

Definition erc20Iface : list string :=
  ["event Transfer(address indexed from,address indexed to,uint256 value)"].
Definition gasIface : list string :=
  ["event DailyGasClaimed(address indexed wallet,uint256 amount)";
   "event GasPurchased(address indexed wallet,uint256 wcryloAmount,uint256 nativeGasAmount)";
   "event StarterGasSent(address indexed wallet,uint256 amount)"].
Definition stakingIface : list string :=
  ["event Staked(address indexed user,uint256 amount)";
   "event Unstaked(address indexed user,uint256 amount)";
   "event RewardsClaimed(address indexed user,uint256 amount)";
   "event OperatorRegistered(address indexed user)";
   "event ValidatorRegistered(address indexed user)"].
Definition bridgeIface : list string :=
  ["event MintedFromCryLo(bytes32 indexed depositId,address indexed to,uint256 amount)";
   "event BurnedForCryLo(address indexed from,string cryloAddress,uint256 amount,uint256 indexed nonce)"].

(** An element of the array [logs]. *)
Record log_item := LogItem { li_log : jsval; li_parsed : jsval; li_label : string }.

(** [v != null] *)
Definition not_nullish (v : jsval) : bool := negb (is_nullish v).

Section history.
Context `{Ethers}.
Local Open Scope prog_scope.

Definition elements_of (v : jsval) : result (list jsval) :=
  match v with
  | JArr l => Ok l
  | _ => Throw (Error "got is not iterable")
  end.

(** The entries [safeLogs] pushes: logs that do not parse are dropped, and so are all of them
    when the query fails. *)
Definition safeLogs (address : string) (fromBlock latest : jsval) (topics : list (option string))
    (parser : list string) (label : string) : prog mop (list log_item) :=
  try_catch
    (got <- call (GetLogs address fromBlock latest topics);
     l <- lift (elements_of got);
     Ret (omap (fun log => match parseLog parser log with
                           | Ok parsed => Some (LogItem log parsed label)
                           | Throw _ => None
                           end) l))
    (fun _ => Ret []).

(** The queries, in order: contract, topics, interface, label. *)
Definition history_queries (zeroTopicUser : string) :
  list (string * list (option string) * list string * string) :=
  let by_user iface address event :=
    (address, [Some (topicHash iface event); Some zeroTopicUser], iface, event) in
  ([(tokenAddress, [Some (topicHash erc20Iface "Transfer"); Some zeroTopicUser], erc20Iface,
     "wCRYLO Sent");
    (tokenAddress, [Some (topicHash erc20Iface "Transfer"); None; Some zeroTopicUser], erc20Iface,
     "wCRYLO Received")]
   ++ map (by_user gasIface GAS_MANAGER_ADDRESS) ["DailyGasClaimed"; "GasPurchased"; "StarterGasSent"]
   ++ map (by_user stakingIface stakingAddress) ["Staked"; "Unstaked"; "RewardsClaimed"]
   ++ map (by_user stakingIface nodeStakingAddress)
        ["OperatorRegistered"; "ValidatorRegistered"; "RewardsClaimed"]
   ++ [(bridgeAddress, [Some (topicHash bridgeIface "MintedFromCryLo"); None; Some zeroTopicUser],
        bridgeIface, "Bridge Minted");
       (bridgeAddress, [Some (topicHash bridgeIface "BurnedForCryLo"); Some zeroTopicUser],
        bridgeIface, "Bridge Burned")])%list.

(** The text of the amount column. *)
Definition amount_text (name args : jsval) : result string :=
  if strict_eq name (JStr "Transfer") then
    value <-! get args "value";
    t <-! formatWcryloUnits value; Ok (t +:+ " wCRYLO")
  else if strict_eq name (JStr "MintedFromCryLo") || strict_eq name (JStr "BurnedForCryLo") then
    amount <-! get args "amount";
    t <-! formatWcryloUnits amount; Ok (t +:+ " wCRYLO")
  else
    amount <-! get args "amount";
    if not_nullish amount then
      t <-! formatWcryloUnits amount;
      if includes (to_str name) "Gas" || strict_eq name (JStr "StarterGasSent")
      then Ok (t +:+ " CRYLO (GAS)") else Ok (t +:+ " wCRYLO")
    else
      wcryloAmount <-! get args "wcryloAmount";
      if not_nullish wcryloAmount then
        t <-! formatWcryloUnits wcryloAmount;
        native <-! get args "nativeGasAmount";
        u <-! formatNexusGasUnits native;
        Ok (t +:+ " wCRYLO → " +:+ u +:+ " CRYLO (GAS)")
      else Ok "".

(** The row pushed for a log. *)
Definition history_row (item : log_item) : prog mop jsval :=
  blockNumber <- lift (get (li_log item) "blockNumber");
  block <- call (GetBlock blockNumber);
  name <- lift (get (li_parsed item) "name");
  args <- lift (get (li_parsed item) "args");
  amount <- lift (amount_text name args);
  hash <- lift (get (li_log item) "transactionHash");
  address <- lift (get (li_log item) "address");
  Ret (JObj [("type", if strict_eq name (JStr "Transfer") then JStr (li_label item) else name);
             ("hash", hash); ("blockNumber", blockNumber);
             ("timestamp", js_or (get_opt block "timestamp") (JNum (Fin 0)));
             ("amount", JStr amount); ("address", address)]).

(** [txs.sort((a, b) => b.blockNumber - a.blockNumber)]: [a] may stay before [b] unless the
    comparison is positive. *)
Definition newer_first (a b : jsval) : bool :=
  negb (Num.ltb (Fin 0) (Num.sub (to_number (get_opt b "blockNumber"))
                                 (to_number (get_opt a "blockNumber")))).

Definition handle_nexus_transactions (linkedAddress : jsval) : prog mop jsval :=
  guarded_tx
    (if negb (isAddress linkedAddress) then Ret (fail_obj "Invalid Nexus address")
     else
       user <- lift (getAddress linkedAddress);
       latest <- call BlockNumber;
       let fromBlock := JNum (Num.max (Fin 0) (Num.sub (to_number latest) (Num.of_Z 50000))) in
       logs <- mapM (fun '(address, topics, parser, label) =>
                       safeLogs address fromBlock latest topics parser label)
                    (history_queries (zeroPadValue32 user));
       txs <- mapM history_row (concat logs);
       Ret (ok_obj [("latest", latest); ("fromBlock", fromBlock);
                    ("transactions", JArr (take 100 (isort newer_first txs)))])).
End history.

(** ** Properties *)

(** The block of a row, when it is a safe integer. *)
Definition row_block (row : jsval) : Z :=
  match get_opt row "blockNumber" with JNum (Fin z) => z / Num.U | _ => 0 end.
Definition has_block (row : jsval) : Prop :=
  exists k, 0 <= k <= 2 ^ 53 /\ get_opt row "blockNumber" = JNum (Fin (k * Num.U)).

Lemma newer_first_blocks a b :
  has_block a -> has_block b -> newer_first a b = (row_block b <=? row_block a).
Proof.
  intros (i & Hi & Ea) (j & Hj & Eb). unfold newer_first, row_block. rewrite Ea, Eb. cbn [to_number].
  pose proof Num.U_pos. rewrite Num.sub_safe, !Z.div_mul by lia. cbn [Num.ltb].
  destruct (Z.leb_spec j i), (Z.ltb_spec 0 ((j - i) * Num.U)); try done; nia.
Qed.

Section history_facts.
Context (eth : Ethers) (ext : mop -> result jsval).

(** The logs a query contributes: none when it fails. *)
Definition logs_of (fromBlock latest : jsval)
    (q : string * list (option string) * list string * string) : list log_item :=
  let '(address, topics, parser, label) := q in
  match ext (GetLogs address fromBlock latest topics) with
  | Ok (JArr l) => omap (fun log => match parseLog parser log with
                                    | Ok parsed => Some (LogItem log parsed label)
                                    | Throw _ => None
                                    end) l
  | _ => []
  end.

Lemma eval_safeLogs fromBlock latest q :
  eval ext (let '(address, topics, parser, label) := q in
            safeLogs address fromBlock latest topics parser label)
  = Ok (logs_of fromBlock latest q).
Proof.
  destruct q as [[[address topics] parser] label]. unfold safeLogs, logs_of.
  rewrite eval_try, eval_bind, eval_call.
  destruct (ext _) as [v|e]; cbn [rbind]; [|done]. rewrite eval_bind, eval_lift.
  by destruct v.
Qed.

(** C31 (functional). The transaction history: a query that fails and a log that cannot be
    decoded are skipped; the reply shows at most a hundred of the remaining rows, in decreasing
    order of their block, rows of one block in the order in which they were read, and no row
    that was left out is newer than one that is shown. *)
Theorem history_newest (linkedAddress latest : jsval) (user : string) (rows : list jsval) :
  let fromBlock := JNum (Num.max (Fin 0) (Num.sub (to_number latest) (Num.of_Z 50000))) in
  let items := concat (map (logs_of fromBlock latest) (history_queries (zeroPadValue32 user))) in
  isAddress linkedAddress = true -> getAddress linkedAddress = Ok user ->
  ext BlockNumber = Ok latest ->
  Forall2 (fun item row => eval ext (history_row item) = Ok row) items rows ->
  Forall has_block rows ->
  exists shown omitted,
    eval ext (handle_nexus_transactions linkedAddress)
    = Ok (ok_obj [("latest", latest); ("fromBlock", fromBlock); ("transactions", JArr shown)]) /\
    shown ++ omitted ≡ₚ rows /\ length shown = Nat.min 100 (length rows) /\
    StronglySorted (fun a b => row_block b <= row_block a) (shown ++ omitted) /\
    forall k, List.filter (fun r => row_block r =? k) (shown ++ omitted)
              = List.filter (fun r => row_block r =? k) rows.
Proof.
  intros fromBlock items Hadr Huser Hlatest Hrows Hblocks.
  pose (le a b := row_block b <=? row_block a).
  assert (isort newer_first rows = isort le rows) as Hs.
  { apply isort_ext. intros a b Ha Hb. rewrite Forall_forall in Hblocks.
    apply newer_first_blocks; auto. }
  exists (take 100 (isort le rows)), (drop 100 (isort le rows)). rewrite take_drop. split_and!.
  - unfold handle_nexus_transactions, guarded_tx. rewrite eval_try, Hadr. cbn [negb].
    rewrite eval_bind, eval_lift, Huser. cbn [rbind].
    rewrite eval_bind, eval_call, Hlatest. cbn [rbind]. fold fromBlock.
    rewrite eval_bind, (eval_mapM _ _ (logs_of fromBlock latest)) by apply eval_safeLogs.
    cbn [rbind]. fold items. rewrite eval_bind, (eval_mapM_Forall2 _ _ _ rows Hrows). cbn [rbind].
    by rewrite eval_ret, Hs.
  - apply isort_perm.
  - by rewrite length_take, length_isort.
  - eapply StronglySorted_weaken, isort_sorted.
    + intros a b H. by apply Z.leb_le in H.
    + intros a b. unfold le. rewrite !Z.leb_le. lia.
    + intros a b c. unfold le. rewrite !Z.leb_le. lia.
  - intros k. apply isort_stable. intros a b Ha%Z.eqb_eq Hb%Z.eqb_eq. apply Z.leb_le. lia.
Qed.
End history_facts.

Section own_logs.
Context (eth : Ethers).

(** The operations of the history after the current block is known. *)
Definition own_query (user : string) (fromBlock latest : jsval) (o : mop) : Prop :=
  match o with
  | GetLogs _ f l topics => f = fromBlock /\ l = latest /\ Some (zeroPadValue32 user) ∈ topics
  | GetBlock _ => True
  | _ => False
  end.

Lemma queries_own z : Forall (fun q => Some z ∈ snd (fst (fst q))) (history_queries z).
Proof. unfold history_queries. repeat constructor; simpl; set_solver. Qed.

Lemma history_row_own user f l item : Only (own_query user f l) (history_row item).
Proof. unfold history_row. only_with ltac:(exact I). Qed.

Lemma safeLogs_own user f l q :
  Some (zeroPadValue32 user) ∈ snd (fst (fst q)) ->
  Only (own_query user f l) (let '(address, topics, parser, label) := q in
                             safeLogs address f l topics parser label).
Proof.
  destruct q as [[[a t] p] lb]. intros Hin. unfold safeLogs.
  only_with ltac:(simpl; auto).
Qed.
End own_logs.

(** C32 (safety). The history asks the chain only about the user's own events and signs nothing:
    every log query is limited to the fifty thousand blocks up to the current one and filters on
    the user's topic, and the other operations are reading the current block number and block
    headers. *)
Theorem history_own_logs (eth : Ethers) (linkedAddress : jsval) (tr : list (event mop))
    (x : result jsval) :
  Runs (handle_nexus_transactions linkedAddress) tr x ->
  (exists v, x = Ok v) /\
  Forall (fun ev => match fst ev with
                    | GetLogs _ fromBlock latest topics =>
                        (BlockNumber, Ok latest) ∈ tr /\
                        fromBlock = JNum (Num.max (Fin 0) (Num.sub (to_number latest) (Num.of_Z 50000))) /\
                        exists user, getAddress linkedAddress = Ok user /\
                                     Some (zeroPadValue32 user) ∈ topics
                    | BlockNumber | GetBlock _ => True
                    | _ => False
                    end) tr.
Proof.
  intros (y & Hr & ->)%guarded_tx_runs. split; [eauto|].
  destruct (isAddress linkedAddress); cbn [negb] in Hr;
    [|apply Runs_ret_iff in Hr as [-> _]; constructor].
  apply Runs_bind in Hr as [(t1 & t2 & user & -> & [-> Hu]%Runs_lift & Hr)|(e & [-> _]%Runs_lift & _)];
    [|constructor].
  apply Runs_bind in Hr as [(t3 & t4 & latest & -> & ->%Runs_call & Hr)|(e & ->%Runs_call & _)];
    [|by repeat constructor].
  cbv zeta in Hr. set (fromBlock := JNum (Num.max _ _)) in Hr.
  constructor; [done|]. eapply Forall_impl; [eapply (Only_Runs (own_query eth user fromBlock latest)); [|exact Hr]|].
  - apply Only_bind; [|intros logs; apply Only_bind; [|intros; constructor]].
    + apply Only_mapM_Forall. eapply Forall_impl; [apply queries_own|].
      intros q Hq. by apply safeLogs_own.
    + apply Only_mapM. intros item. apply history_row_own.
  - intros [o r] Ho. cbn [fst] in *. destruct o; try done.
    destruct Ho as (-> & -> & Ht). split_and!; [set_solver|done|]. exists user. auto.
Qed.

(** A gas claim shown by the history: the daily gas of one coin, [10^18] units, is printed with
    the eleven decimals of wCRYLO. *)
Lemma gas_claim_shown_wrong :
  let one_coin := JObj [("amount", JBig (10 ^ 18))] in
  @amount_text demo_ethers (JStr "DailyGasClaimed") one_coin = Ok "10000000.00000000000 CRYLO (GAS)" /\
  @formatNexusGasUnits demo_ethers (JBig (10 ^ 18)) = Ok "1.000000000000000000".
Proof. split; vm_compute; reflexivity. Qed.

(** ** Examples: two transfers, the other queries failing *)

Definition demo_log (block : Z) (hash : string) (amount : Z) : jsval :=
  JObj [("blockNumber", JNum (Num.of_Z block)); ("transactionHash", JStr hash);
        ("address", JStr tokenAddress);
        ("parsed", JObj [("name", JStr "Transfer"); ("args", JObj [("value", JBig amount)])])].

Definition demo_history (o : mop) : result jsval :=
  match o with
  | BlockNumber => Ok (JNum (Num.of_Z 100))
  | GetBlock _ => Ok (JObj [("timestamp", JNum (Num.of_Z 1700000000))])
  | GetLogs a _ _ [_; _] =>
      if String.eqb a tokenAddress then Ok (JArr [demo_log 7 "0x1" 5; demo_log 9 "0x2" (10 ^ 11)])
      else Throw (Error "rate limited")
  | _ => Throw (Error "rate limited")
  end.

Definition demo_row (block : Z) (hash amount : string) : jsval :=
  JObj [("type", JStr "wCRYLO Sent"); ("hash", JStr hash); ("blockNumber", JNum (Num.of_Z block));
        ("timestamp", JNum (Num.of_Z 1700000000)); ("amount", JStr amount);
        ("address", JStr tokenAddress)].

Lemma history_newest_witness :
  let rows := [demo_row 7 "0x1" "0.00000000005 wCRYLO"; demo_row 9 "0x2" "1.00000000000 wCRYLO"] in
  exists shown omitted,
    eval demo_history (@handle_nexus_transactions demo_ethers (JStr "0xA1"))
    = Ok (ok_obj [("latest", JNum (Num.of_Z 100));
                  ("fromBlock", JNum (Num.max (Fin 0) (Num.sub (Num.of_Z 100) (Num.of_Z 50000))));
                  ("transactions", JArr shown)]) /\
    shown ++ omitted ≡ₚ rows /\ length shown = Nat.min 100 (length rows) /\
    StronglySorted (fun a b => row_block b <= row_block a) (shown ++ omitted) /\
    forall k, List.filter (fun r => row_block r =? k) (shown ++ omitted)
              = List.filter (fun r => row_block r =? k) rows.
Proof.
  intros rows.
  refine (history_newest demo_ethers demo_history (JStr "0xA1") (JNum (Num.of_Z 100)) "0xA1" rows
            eq_refl eq_refl eq_refl _ _).
  - match goal with |- Forall2 _ ?l _ =>
      assert (l = [LogItem (demo_log 7 "0x1" 5) (get_opt (demo_log 7 "0x1" 5) "parsed") "wCRYLO Sent";
                   LogItem (demo_log 9 "0x2" (10 ^ 11)) (get_opt (demo_log 9 "0x2" (10 ^ 11)) "parsed")
                     "wCRYLO Sent"]) as E by (vm_compute; reflexivity); rewrite E end.
    constructor; [vm_compute; reflexivity|]. constructor; [vm_compute; reflexivity|]. constructor.
  - constructor; [exists 7; split; [lia|vm_compute; reflexivity]|].
    constructor; [exists 9; split; [lia|vm_compute; reflexivity]|constructor].
Defined.

Lemma history_own_logs_witness :
  let p := @handle_nexus_transactions demo_ethers (JStr "0xA1") in
  exists tr x, Runs p tr x /\ length tr = 16%nat /\ exists v, x = Ok v.
Proof.
  intros p. pose proof (run_is_Runs (fun (_ : unit) o => (tt, demo_history o)) p tt) as Hr.
  eexists _, _. split; [exact Hr|]. split; [vm_compute; reflexivity|].
  exact (proj1 (history_own_logs demo_ethers (JStr "0xA1") _ _ Hr)).
Defined.
