(* ===== verification/Lifecycle.v ===== *)
(** * Process lifecycle and navigation (electron/main.js)

    Stopping the child processes when the last window is closed, what is done when the wallet RPC
    exits by itself, which navigations the window is allowed, and which windows are opened. *)

From Stdlib Require Import Ascii String.
From S2P Require Import Prelude JsNumber JsString JsConv JsVal Json Prog MainEnv Backend.

(** ** Stopping processes *)

Inductive child := Miner | WalletRpc | Daemon.

#[global] Instance child_eq_dec : EqDecision child.
Proof. solve_decision. Defined.

(** The operations of the shutdown.  [ExitOrTimer p] waits for the first of the ['exit'] event of
    [p] and the five-second timer, and answers [true] for the event.  (The timer is not cleared
    when the process exits first; signalling a process that has exited does nothing.) *)
Inductive lop :=
| SetShuttingDown
| ChildProc (p : child)      (* the global variable: [null] or the process with its exitCode *)
| Sigterm (p : child)
| ExitOrTimer (p : child)
| Sigkill (p : child)
| Quit.

Section shutdown.
Local Open Scope prog_scope.

Definition killProc (p : child) : prog lop jsval :=
  proc <- call (ChildProc p);
  if negb (truthy proc) then Ret JUndef
  else
    code <- lift (get proc "exitCode");
    if negb (strict_eq code JNull) then Ret JUndef
    else
      call (Sigterm p) ;;
      exited <- call (ExitOrTimer p);
      if truthy exited then Ret JUndef
      else try_catch (call (Sigkill p)) (fun _ => Ret JUndef) ;; Ret JUndef.

(** The ['window-all-closed'] handler. *)
Definition on_window_all_closed : prog lop jsval :=
  call SetShuttingDown ;;
  killProc Miner ;;
  killProc WalletRpc ;;
  killProc Daemon ;;
  call Quit.
End shutdown.

(** ** The wallet RPC exits by itself: the process's ['exit'] callback *)

Section exit.
Context `{Config}.
Local Open Scope prog_scope.

Definition on_wallet_rpc_exit (logFile : path) (code : jsval) : prog mop jsval :=
  logger_write "wallet-rpc" logFile ("Wallet-RPC exited with code " +:+ to_str code +:+ Json.newline) ;;
  down <- call ShuttingDown;
  if truthy down then Ret JUndef
  else
    alive <- call WindowAlive;
    if truthy alive then call (WindowSend "wallet-rpc-exit" code) else Ret JUndef.
End exit.

(** ** Navigation *)

(** The ['will-navigate'] handler: whether the navigation is prevented and the URL opened in the
    system browser. *)
Definition on_will_navigate (url : string) : bool * option string :=
  if negb (starts_with "file://" url) then (true, Some url) else (false, None).

(** The window-open handler: always denied; the URL that is handed to the system browser. *)
Definition on_window_open (url : string) : bool * option string :=
  (true, if starts_with "https://" url || starts_with "http://" url then Some url else None).

(** ** Windows

    [createWindow], the events of the window it makes and ['activate']: what is done, and the
    windows that are open.  Windows are numbered in the order of their creation; files are relative
    to the application's directory. *)

Record web_preferences := WebPreferences {
  wp_preload : string;
  contextIsolation : bool;
  nodeIntegration : bool;
  sandbox : bool;
}.

Inductive window_op :=
| NewWindow (id : nat) (prefs : web_preferences)
| LoadFile (id : nat) (file : string)
| ShowWindow (id : nat)
| StartBackend.

Record windows := Windows {
  mainWindow : option nat;   (* the global variable *)
  open_windows : list nat;   (* BrowserWindow.getAllWindows() *)
  made : nat;
}.

Definition no_windows : windows := Windows None [] 0.

Definition createWindow (w : windows) : windows * list window_op :=
  let id := made w in
  (Windows (Some id) (id :: open_windows w) (S id),
   [NewWindow id (WebPreferences "preload.js" true false false); LoadFile id "src/index.html"]).

(** The ['ready-to-show'] callback shows the window that the variable holds by then. *)
Definition on_ready_to_show (w : windows) : windows * list window_op :=
  match mainWindow w with
  | Some id => (w, [ShowWindow id; StartBackend])
  | None => (w, [])   (* a TypeError on null *)
  end.

Definition on_closed (id : nat) (w : windows) : windows * list window_op :=
  (Windows None (List.filter (fun i => negb (i =? id)%nat) (open_windows w)) (made w), []).

Definition on_activate (w : windows) : windows * list window_op :=
  match open_windows w with [] => createWindow w | _ => (w, []) end.

(** The application's events: ready once, first; then windows become ready or close, and the
    application is activated. *)
Inductive window_step : windows -> windows -> list window_op -> Prop :=
| win_ready_to_show id w w' ops :
    id ∈ open_windows w -> on_ready_to_show w = (w', ops) -> window_step w w' ops
| win_closed id w w' ops :
    id ∈ open_windows w -> on_closed id w = (w', ops) -> window_step w w' ops
| win_activate w w' ops : on_activate w = (w', ops) -> window_step w w' ops.

Inductive window_run : windows -> list window_op -> Prop :=
| run_ready w ops : createWindow no_windows = (w, ops) -> window_run w ops
| run_step w ops w' ops' :
    window_run w ops -> window_step w w' ops' -> window_run w' (ops ++ ops').

(** ** Properties *)

(** *** Windows *)

(** The variable holds the open window: there is one, or none and the variable is [null]. *)
Definition one_window (w : windows) : Prop :=
  match mainWindow w with Some id => open_windows w = [id] | None => open_windows w = [] end.

(** The page never gets Node's functions, whatever is opened. *)
Definition isolated (o : window_op) : Prop :=
  match o with
  | NewWindow _ prefs => contextIsolation prefs = true /\ nodeIntegration prefs = false
  | _ => True
  end.

Lemma window_invariant w ops : window_run w ops -> one_window w /\ Forall isolated ops.
Proof.
  induction 1 as [w ops [= <- <-]|w ops w' ops' _ [Hw Hi] Hs]; [by repeat constructor|].
  unfold one_window in *.
  destruct Hs as [id w w' ops' Hin Hr|id w w' ops' Hin Hr|w w' ops' Hr].
  - unfold on_ready_to_show in Hr. destruct (mainWindow w) eqn:E; injection Hr as <- <-; rewrite E;
      (split; [done|]); apply Forall_app; by repeat constructor.
  - injection Hr as <- <-. cbn. destruct (mainWindow w) as [i|]; rewrite Hw in *.
    + apply list_elem_of_singleton in Hin as ->. cbn. rewrite Nat.eqb_refl. by rewrite app_nil_r.
    + by apply elem_of_nil in Hin.
  - unfold on_activate in Hr. destruct (open_windows w) eqn:E.
    + injection Hr as <- <-. cbn. rewrite E. split; [done|]. apply Forall_app. by repeat constructor.
    + injection Hr as <- <-. rewrite app_nil_r, E. done.
Qed.

(** *** Shutdown *)

(** A run in which the process table and the timers work: the operations answer. *)
Definition answered (tr : list (event lop)) : Prop := Forall (fun ev => exists v, snd ev = Ok v) tr.

(** How a child is stopped: not running, or told to terminate and then seen to exit or killed. *)
Inductive stopped (p : child) : list (event lop) -> Prop :=
| stopped_absent v : truthy v = false -> stopped p [(ChildProc p, Ok v)]
| stopped_before v c :
    truthy v = true -> get v "exitCode" = Ok c -> strict_eq c JNull = false ->
    stopped p [(ChildProc p, Ok v)]
| stopped_exited v a b :
    truthy v = true -> truthy b = true ->
    stopped p [(ChildProc p, Ok v); (Sigterm p, Ok a); (ExitOrTimer p, Ok b)]
| stopped_killed v a b r :
    truthy v = true -> truthy b = false ->
    stopped p [(ChildProc p, Ok v); (Sigterm p, Ok a); (ExitOrTimer p, Ok b); (Sigkill p, r)].

Lemma answered_app t1 t2 : answered (t1 ++ t2) <-> answered t1 /\ answered t2.
Proof. apply Forall_app. Qed.

(** A truthy value has properties. *)
Lemma truthy_get v k e : truthy v = true -> get v k <> Throw e.
Proof. by destruct v. Qed.

Lemma killProc_stops p tr x :
  Runs (killProc p) tr x -> answered tr -> x = Ok JUndef /\ stopped p tr.
Proof.
  unfold killProc. intros Hr Ha.
  assert (forall o e, ~ answered [(o, Throw e)]) as Hno.
  { intros o e H%Forall_inv. by destruct H. }
  apply Runs_bind in Hr as [(t1 & t2 & v & -> & ->%Runs_call & Hr)|(e & ->%Runs_call & ->)];
    [|by apply Hno in Ha]. apply answered_app in Ha as [_ Ha].
  destruct (truthy v) eqn:Ev; cbn [negb] in Hr;
    [|apply Runs_ret_iff in Hr as [-> ->]; split; [done|by constructor]].
  apply Runs_bind in Hr as [(t3 & t4 & c & -> & [-> Hc]%Runs_lift & Hr)|(e & [_ He]%Runs_lift & ->)];
    [|symmetry in He; by apply truthy_get in He].
  destruct (strict_eq c JNull) eqn:Ec; cbn [negb] in Hr;
    [|apply Runs_ret_iff in Hr as [-> ->]; split; [done|by econstructor]].
  apply Runs_bind in Hr as [(t5 & t6 & a & -> & ->%Runs_call & Hr)|(e & ->%Runs_call & ->)];
    [|by apply Hno in Ha]. apply answered_app in Ha as [_ Ha%answered_app]. destruct Ha as [_ Ha].
  apply Runs_bind in Hr as [(t7 & t8 & b & -> & ->%Runs_call & Hr)|(e & ->%Runs_call & ->)];
    [|by apply Hno in Ha].
  destruct (truthy b) eqn:Eb.
  - apply Runs_ret_iff in Hr as [-> ->]. split; [done|by constructor].
  - apply Runs_bind in Hr as [(t9 & t10 & u & -> & Hk & [-> ->]%Runs_ret_iff)|(e & Hk & ->)];
      apply Runs_try in Hk as [(w & ->%Runs_call & ?)|(t11 & t12 & e' & -> & ->%Runs_call & Hh)];
      try (apply Runs_ret_iff in Hh as [-> ?]); simplify_eq; (split; [done|by constructor]).
Qed.

(** C40 (safety). Closing the last window stops the three children one after the other, the wallet
    RPC before the daemon: each one that runs is sent SIGTERM and is then seen to exit or, after
    five seconds, killed; the shutting-down flag is raised before anything else, and the
    application quits after all of them. *)
Theorem shutdown_order (tr : list (event lop)) (x : result jsval) :
  Runs on_window_all_closed tr x -> answered tr ->
  exists r m w d q, tr = ((SetShuttingDown, r) :: m ++ w ++ d ++ [(Quit, q)])%list /\
    stopped Miner m /\ stopped WalletRpc w /\ stopped Daemon d.
Proof.
  unfold on_window_all_closed. intros Hr Ha.
  apply Runs_bind in Hr as [(t1 & t2 & v & -> & ->%Runs_call & Hr)|(e & ->%Runs_call & ->)];
    [|apply Forall_inv in Ha; by destruct Ha]. apply answered_app in Ha as [_ Ha].
  assert (forall p (k : prog lop jsval) t, Runs (bind (killProc p) (fun _ => k)) t x -> answered t ->
            exists t1 t2, t = (t1 ++ t2)%list /\ stopped p t1 /\ answered t2 /\ Runs k t2 x) as Hstep.
  { intros p k t Hk Ht.
    apply Runs_bind in Hk as [(t3 & t4 & u & -> & Hp & Hk)|(e & Hp & ->)].
    - apply answered_app in Ht as [H1 H2]. apply killProc_stops in Hp as [_ Hs]; [|done]. eauto 8.
    - by apply killProc_stops in Hp as [? _]. }
  apply Hstep in Hr as (m & t3 & -> & Hm & Ha3 & Hr); [|done].
  apply Hstep in Hr as (w & t4 & -> & Hw & Ha4 & Hr); [|done].
  apply Hstep in Hr as (d & t5 & -> & Hd & Ha5 & ->%Runs_call); [|done].
  exists (Ok v), m, w, d, x. split_and!; [|done..]. done.
Qed.

Lemma shutdown_order_witness :
  let env (_ : unit) o := (tt, Ok (match o with
                                   | ChildProc Miner => JNull
                                   | ChildProc _ => JObj [("exitCode", JNull)]
                                   | ExitOrTimer WalletRpc => JBool true
                                   | _ => JBool false
                                   end)) in
  exists tr x, Runs on_window_all_closed tr x /\ answered tr /\
  exists r m w d q, tr = ((SetShuttingDown, r) :: m ++ w ++ d ++ [(Quit, q)])%list /\
    stopped Miner m /\ stopped WalletRpc w /\ stopped Daemon d.
Proof.
  intros env. pose proof (run_is_Runs env on_window_all_closed tt) as Hr.
  assert (answered (snd (fst (run env on_window_all_closed tt)))) as Ha
    by (repeat constructor; eexists; reflexivity).
  eexists _, _. split; [exact Hr|]. split; [exact Ha|].
  exact (shutdown_order _ _ Hr Ha).
Defined.
