(* ===== verification/Ipc.v ===== *)
(** * The bridge between renderer and main process (electron/preload.js, ipcMain.handle)

    [main] registers one handler per channel.  The preload script exposes the object [crylo] to the
    page: functions that send a message on a channel and return its answer, functions that
    subscribe to the events the main process sends, and one that removes listeners; nothing else.
    [dispatch] is the registry, [invoke] a call of an exposed function.  A missing argument of an
    IPC message is [undefined]. *)

From Stdlib Require Import Ascii String.
From S2P Require Import Prelude JsNumber JsString JsConv JsVal Json Prog MainEnv Backend NexusWallet NexusChain BridgeApi NexusHistory.

Definition arg (args : list jsval) (i : nat) : jsval :=
  match args !! i with Some v => v | None => JUndef end.

Section ipc.
Context `{Config} `{Ethers}.

(** The handlers registered by the main process, by channel. *)
Definition handlers (args : list jsval) : list (string * prog mop jsval) :=
  let a := arg args in
  [("daemon-rpc", handle_daemon_rpc (a 0%nat) (a 1%nat));
   ("wallet-rpc", handle_wallet_rpc (a 0%nat) (a 1%nat) (a 2%nat));
   ("list-wallets", handle_list_wallets);
   ("nexus-wallet-create", handle_nexus_wallet_create (a 0%nat) (a 1%nat));
   ("nexus-wallet-load", handle_nexus_wallet_load (a 0%nat) (a 1%nat));
   ("open-log-dir", handle_open_log_dir);
   ("open-data-dir", handle_open_data_dir);
   ("get-version", handle_get_version);
   ("confirm-dialog", handle_confirm_dialog (a 0%nat));
   ("miner-get-info", handle_miner_get_info);
   ("miner-start", handle_miner_start (a 0%nat));
   ("miner-stop", handle_miner_stop);
   ("miner-get-status", handle_miner_get_status);
   ("nexus-scan-nfts", handle_nexus_scan_nfts (a 0%nat));
   ("nexus-buyback-nft", handle_nexus_buyback_nft (a 0%nat) (a 1%nat) (a 2%nat));
   ("nexus-burn-nft", handle_nexus_burn_nft (a 0%nat) (a 1%nat) (a 2%nat));
   ("nexus-burn-for-crylo", handle_nexus_burn_for_crylo (a 0%nat) (a 1%nat) (a 2%nat));
   ("bridge-request", handle_bridge_request (a 0%nat));
   ("bridge-status", handle_bridge_status (a 0%nat));
   ("bridge-release-status", handle_bridge_release_status (a 0%nat));
   ("nexus-wcrylo-balance", handle_nexus_wcrylo_balance (a 0%nat));
   ("nexus-staked-balance", handle_nexus_staked_balance (a 0%nat));
   ("nexus-pending-rewards", handle_nexus_pending_rewards (a 0%nat));
   ("nexus-claim-rewards", handle_nexus_claim_rewards (a 0%nat) (a 1%nat));
   ("nexus-stake-wcrylo", handle_nexus_stake_wcrylo (a 0%nat) (a 1%nat) (a 2%nat));
   ("nexus-unstake-wcrylo", handle_nexus_unstake_wcrylo (a 0%nat) (a 1%nat) (a 2%nat));
   ("nexus-node-status", handle_nexus_node_status (a 0%nat));
   ("nexus-register-operator", handle_nexus_register_operator (a 0%nat) (a 1%nat));
   ("nexus-register-validator", handle_nexus_register_validator (a 0%nat) (a 1%nat));
   ("nexus-unregister-node", handle_nexus_unregister_node (a 0%nat) (a 1%nat));
   ("nexus-claim-node-rewards", handle_nexus_claim_node_rewards (a 0%nat) (a 1%nat));
   ("nexus-gas-status", handle_nexus_gas_status (a 0%nat));
   ("nexus-claim-daily-gas", handle_nexus_claim_daily_gas (a 0%nat) (a 1%nat));
   ("nexus-buy-gas-wcrylo", handle_nexus_buy_gas_wcrylo (a 0%nat) (a 1%nat) (a 2%nat));
   ("nexus-transactions", handle_nexus_transactions (a 0%nat))].

Fixpoint assoc {A} (l : list (string * A)) (k : string) : option A :=
  match l with
  | [] => None
  | (k', v) :: l' => if String.eqb k k' then Some v else assoc l' k
  end.

(** [ipcRenderer.invoke(channel, ...args)] as the main process serves it. *)
Definition dispatch (channel : string) (args : list jsval) : option (prog mop jsval) :=
  assoc (handlers args) channel.
End ipc.

(** What a function of [window.crylo] does: [ipcRenderer.invoke(channel, ...)] with its first [params]
    parameters in order, [ipcRenderer.on(channel, cb)], or [ipcRenderer.removeAllListeners]. *)
Inductive exposed :=
| Invokes (channel : string) (params : nat)
| Subscribes (channel : string)
| RemovesListeners.

Definition crylo : list (string * exposed) :=
  [("daemonRpc", Invokes "daemon-rpc" 2); ("walletRpc", Invokes "wallet-rpc" 3);
   ("listWallets", Invokes "list-wallets" 0);
   ("nexusWalletCreate", Invokes "nexus-wallet-create" 2);
   ("nexusWalletLoad", Invokes "nexus-wallet-load" 2); ("openLogDir", Invokes "open-log-dir" 0);
   ("openDataDir", Invokes "open-data-dir" 0); ("getVersion", Invokes "get-version" 0);
   ("confirm", Invokes "confirm-dialog" 1); ("minerStart", Invokes "miner-start" 1);
   ("minerStop", Invokes "miner-stop" 0); ("minerGetStatus", Invokes "miner-get-status" 0);
   ("minerGetInfo", Invokes "miner-get-info" 0); ("nexusScanNfts", Invokes "nexus-scan-nfts" 1);
   ("nexusBuyBackNft", Invokes "nexus-buyback-nft" 3);
   ("nexusBurnNft", Invokes "nexus-burn-nft" 3);
   ("nexusGasStatus", Invokes "nexus-gas-status" 1);
   ("nexusTransactions", Invokes "nexus-transactions" 1);
   ("nexusClaimDailyGas", Invokes "nexus-claim-daily-gas" 2);
   ("nexusBuyGasWithWcrylo", Invokes "nexus-buy-gas-wcrylo" 3);
   ("nexusWcryloBalance", Invokes "nexus-wcrylo-balance" 1);
   ("nexusStakedBalance", Invokes "nexus-staked-balance" 1);
   ("nexusStakeWcrylo", Invokes "nexus-stake-wcrylo" 3);
   ("nexusPendingRewards", Invokes "nexus-pending-rewards" 1);
   ("nexusClaimRewards", Invokes "nexus-claim-rewards" 2);
   ("nexusUnstakeWcrylo", Invokes "nexus-unstake-wcrylo" 3);
   ("nexusNodeStatus", Invokes "nexus-node-status" 1);
   ("nexusRegisterOperator", Invokes "nexus-register-operator" 2);
   ("nexusRegisterValidator", Invokes "nexus-register-validator" 2);
   ("nexusUnregisterNode", Invokes "nexus-unregister-node" 2);
   ("nexusClaimNodeRewards", Invokes "nexus-claim-node-rewards" 2);
   ("bridgeRequest", Invokes "bridge-request" 1); ("bridgeStatus", Invokes "bridge-status" 1);
   ("bridgeReleaseStatus", Invokes "bridge-release-status" 1);
   ("nexusBurnForCryLo", Invokes "nexus-burn-for-crylo" 3);
   ("onStartupStatus", Subscribes "startup-status"); ("onLog", Subscribes "log");
   ("onDaemonExit", Subscribes "daemon-exit"); ("onWalletRpcExit", Subscribes "wallet-rpc-exit");
   ("removeAllListeners", RemovesListeners)]%nat.

(** [window.crylo.name(...args)]: the handler it makes the main process run, if any. *)
Definition invoke `{Config} `{Ethers} (name : string) (args : list jsval) : option (prog mop jsval) :=
  match assoc crylo name with
  | Some (Invokes channel n) => dispatch channel (take n args)
  | _ => None
  end.

(** ** Properties *)

Lemma assoc_elem {A} (l : list (string * A)) k v : assoc l k = Some v -> (k, v) ∈ l.
Proof.
  induction l as [|[k' v'] l IH]; [done|]. cbn [assoc].
  destruct (String.eqb_spec k k') as [->|]; [intros [= ->]; left|right; auto].
Qed.

Lemma assoc_is_Some {A} (l : list (string * A)) k : is_Some (assoc l k) <-> k ∈ map fst l.
Proof.
  induction l as [|[k' v'] l IH]; cbn [assoc map fst].
  - split; [by intros []|by intros ?%elem_of_nil].
  - destruct (String.eqb_spec k k') as [->|Hne].
    + split; [constructor|eauto].
    + rewrite IH, elem_of_cons. naive_solver.
Qed.

(** The functions that send a message: their channel and parameters; and the others. *)
Definition invoked : list (string * (string * nat)) :=
  omap (fun '(name, e) => match e with Invokes c n => Some (name, (c, n)) | _ => None end) crylo.
Definition listening : list (string * exposed) :=
  List.filter (fun '(_, e) => match e with Invokes _ _ => false | _ => true end) crylo.

Lemma assoc_invoked name c n : assoc crylo name = Some (Invokes c n) -> (name, (c, n)) ∈ invoked.
Proof.
  intros Hin%assoc_elem. apply list_elem_of_omap. by exists (name, Invokes c n).
Qed.

(** The registered channels. *)
Definition channels : list string :=
  ["daemon-rpc"; "wallet-rpc"; "list-wallets"; "nexus-wallet-create"; "nexus-wallet-load";
   "open-log-dir"; "open-data-dir"; "get-version"; "confirm-dialog"; "miner-get-info"; "miner-start";
   "miner-stop"; "miner-get-status"; "nexus-scan-nfts"; "nexus-buyback-nft"; "nexus-burn-nft";
   "nexus-burn-for-crylo"; "bridge-request"; "bridge-status"; "bridge-release-status";
   "nexus-wcrylo-balance"; "nexus-staked-balance"; "nexus-pending-rewards"; "nexus-claim-rewards";
   "nexus-stake-wcrylo"; "nexus-unstake-wcrylo"; "nexus-node-status"; "nexus-register-operator";
   "nexus-register-validator"; "nexus-unregister-node"; "nexus-claim-node-rewards";
   "nexus-gas-status"; "nexus-claim-daily-gas"; "nexus-buy-gas-wcrylo"; "nexus-transactions"].

(** Inclusion of lists of names, by evaluation. *)
Definition sub (l k : list string) : bool := forallb (fun c => existsb (String.eqb c) k) l.

Lemma sub_sound l k : sub l k = true -> forall c, c ∈ l -> c ∈ k.
Proof.
  unfold sub. rewrite forallb_forall. intros H c Hc%list_elem_of_In.
  apply H, existsb_exists in Hc as (c' & Hc' & ->%String.eqb_eq). by apply list_elem_of_In.
Qed.

Lemma channels_exposed : sub channels (map (fun f => fst (snd f)) invoked) = true.
Proof. vm_compute. reflexivity. Qed.

Lemma channels_distinct : NoDup (map (fun f => fst (snd f)) invoked).
Proof. apply (bool_decide_unpack _). vm_compute. exact I. Qed.

Lemma channels_handled : sub (map (fun f => fst (snd f)) invoked) channels = true.
Proof. vm_compute. reflexivity. Qed.

Lemma listening_elem name e :
  assoc crylo name = Some e -> match e with Invokes _ _ => false | _ => true end = true ->
  name ∈ map fst listening.
Proof.
  intros Hin%assoc_elem He. apply list_elem_of_fmap. exists (name, e). split; [done|].
  apply list_elem_of_In, filter_In. by rewrite <- list_elem_of_In.
Qed.

Lemma subscriptions_unhandled channel :
  channel ∈ map (fun f => match snd f with Subscribes c => c | _ => "" end) listening ->
  channel ∉ map (fun f => fst (snd f)) invoked.
Proof.
  assert (forallb (fun c => negb (existsb (String.eqb c) (map (fun f => fst (snd f)) invoked)))
            (map (fun f => match snd f with Subscribes c => c | _ => "" end) listening) = true) as H
    by (vm_compute; reflexivity).
  rewrite forallb_forall in H. intros Hin%list_elem_of_In%H Hc%list_elem_of_In.
  apply negb_true_iff in Hin. rewrite <- not_true_iff_false, existsb_exists in Hin. apply Hin.
  exists channel. split; [done|apply String.eqb_refl].
Qed.

Section ipc_facts.
Context (cfg : Config) (eth : Ethers).

Lemma arg_take args n i : (i < n)%nat -> arg (take n args) i = arg args i.
Proof. intros Hi. unfold arg. by rewrite lookup_take_lt. Qed.

Lemma arg_elem k args i : truthy (arg (take k args) i) = true -> arg (take k args) i ∈ args.
Proof.
  unfold arg. destruct (take k args !! i) as [v|] eqn:E; [|done]. intros _.
  apply list_elem_of_lookup_2 in E. by apply elem_of_take in E as (j & E & _); eapply list_elem_of_lookup_2.
Qed.

Lemma handlers_names args : map fst (handlers args) = channels.
Proof. reflexivity. Qed.

(** Evaluate the registry at a known channel. *)
Ltac registry := lazy beta iota zeta delta [dispatch handlers assoc String.eqb Ascii.eqb Bool.eqb].

Lemma dispatch_take name channel n args :
  (name, (channel, n)) ∈ invoked -> dispatch channel (take n args) = dispatch channel args.
Proof.
  let l := eval vm_compute in invoked in change invoked with l. intros Hin.
  do 35 (apply elem_of_cons in Hin as [[= -> -> ->]|Hin];
         [registry; rewrite ?arg_take by lia; reflexivity|]).
  destruct (proj1 (elem_of_nil _) Hin).
Qed.

Lemma dispatch_is_Some channel args :
  is_Some (dispatch channel args) <-> channel ∈ map (fun f => fst (snd f)) invoked.
Proof.
  unfold dispatch. rewrite assoc_is_Some, handlers_names. split; intros Hin.
  - by apply (sub_sound _ _ channels_exposed).
  - by apply (sub_sound _ _ channels_handled).
Qed.

(** C39 (equivalence). The page and the main process agree on the protocol.  Every function exposed
    to the page that sends a message reaches a registered handler and passes it every argument the
    handler reads; no two of them share a channel, and every registered channel is exposed by one.
    The only other functions are the four that subscribe to an event, each to one of its own on
    which no handler is registered, and the one that removes listeners; they run no handler. *)
Theorem preload_matches_main (name : string) (args : list jsval) :
  name ∈ map fst crylo ->
  match assoc crylo name with
  | Some (Invokes channel n) =>
      exists p, invoke name args = Some p /\ dispatch channel args = Some p
  | _ => invoke name args = None /\ name ∈ map fst listening
  end /\
  NoDup (map (fun f => fst (snd f)) invoked) /\
  (forall channel, is_Some (dispatch channel args) <->
                   channel ∈ map (fun f => fst (snd f)) invoked) /\
  listening = [("onStartupStatus", Subscribes "startup-status"); ("onLog", Subscribes "log");
               ("onDaemonExit", Subscribes "daemon-exit");
               ("onWalletRpcExit", Subscribes "wallet-rpc-exit");
               ("removeAllListeners", RemovesListeners)] /\
  (forall f channel, (f, Subscribes channel) ∈ crylo -> dispatch channel args = None).
Proof.
  intros Hname. split_and!.
  - apply assoc_is_Some in Hname as [e He]. unfold invoke. rewrite He.
    destruct e as [channel n|channel|]; [|split; [done|by eapply listening_elem]..].
    assert (is_Some (dispatch channel args)) as [p Hp].
    { apply dispatch_is_Some, list_elem_of_fmap. exists (name, (channel, n)).
      split; [done|by apply assoc_invoked]. }
    exists p. by rewrite (dispatch_take name) by by apply assoc_invoked.
  - apply channels_distinct.
  - intros channel. apply dispatch_is_Some.
  - vm_compute. reflexivity.
  - intros f channel Hin. apply eq_None_not_Some. rewrite dispatch_is_Some.
    intros Hc. apply (subscriptions_unhandled channel); [|done].
    apply list_elem_of_fmap. exists (f, Subscribes channel). split; [done|].
    apply list_elem_of_In, filter_In. by rewrite <- list_elem_of_In.
Qed.

(** *** What a page can make the main process do *)

(** What an exposed function may do to files: it may write one Nexus wallet file or the
    operator's configuration, readable by the user only, and create their directories. *)
Definition file_safe (o : mop) : Prop :=
  match o with
  | FsUnlink _ => False
  | FsWrite p _ mode => mode = 384 /\ ((exists n, p = nexusPath cfg n) \/ p = operatorFile cfg)
  | FsMkdir p => p = walletDir cfg \/ p = (userDataPath ++ [LOG_DIR_NAME])%list \/ p = operatorDir
  | _ => True
  end.

Lemma confined_file_safe n o : confined cfg n o -> file_safe o.
Proof. destruct o; simpl; naive_solver. Qed.

Lemma loadBound_file_safe n c : Only file_safe (loadBoundNexusWallet n c).
Proof. eapply Only_impl; [apply confined_file_safe|apply loadBound_confined]. Qed.

Ltac file_ops := only_with ltac:(simpl; unfold operatorFile, walletDir; eauto 8).

Lemma signing_file_safe n c p : signing_handler cfg eth n c p -> Only file_safe p.
Proof.
  intros [];
    unfold handle_nexus_buyback_nft, handle_nexus_burn_nft, handle_nexus_burn_for_crylo,
      handle_nexus_claim_rewards, handle_nexus_stake_wcrylo, handle_nexus_unstake_wcrylo,
      handle_nexus_register_operator, handle_nexus_register_validator, handle_nexus_unregister_node,
      handle_nexus_claim_node_rewards, handle_nexus_claim_daily_gas, handle_nexus_buy_gas_wcrylo,
      guarded_tx, approve_then, saveOperatorConfig, readJson, tx_reply, fail_tx, view; file_ops;
    apply loadBound_file_safe.
Qed.

(** Operations that sign nothing and are safe for the files. *)
Definition quiet (o : mop) : Prop := not_send o /\ file_safe o.

Ltac quiet_ops := only_with ltac:(split; [reflexivity|simpl; unfold walletDir; auto]).

Lemma confined_quiet n o : confined cfg n o -> quiet o.
Proof. intros Ho. split; [|by eapply confined_file_safe]. by destruct o. Qed.

Lemma reading_quiet o : only_chain_reads o -> quiet o.
Proof. by destruct o. Qed.

Lemma rpc_quiet port m ps t : Only quiet (rpcCall port m ps t).
Proof. unfold rpcCall. quiet_ops. Qed.

Lemma daemonHttp_quiet url b t : Only quiet (daemonHttp url b t).
Proof. unfold daemonHttp. quiet_ops. Qed.

Lemma filterM_quiet f l : (forall x, Only quiet (f x)) -> Only quiet (filterM f l).
Proof. intros Hf. induction l; simpl; quiet_ops; auto. Qed.

Lemma list_wallets_quiet : Only quiet handle_list_wallets.
Proof.
  unfold handle_list_wallets, guarded, getWalletDir, ensure_dir, getUserDataPath. quiet_ops.
  apply filterM_quiet. intros f. unfold is_wallet_file. quiet_ops.
Qed.

Lemma history_quiet a : Only quiet (handle_nexus_transactions a).
Proof.
  unfold handle_nexus_transactions, guarded_tx. quiet_ops.
  - apply Only_mapM. intros [[[? ?] ?] ?]. unfold safeLogs. quiet_ops.
  - apply Only_mapM. intros item. unfold history_row. quiet_ops.
Qed.

Ltac handler_case :=
  first
    [ left; first [exists 0%nat; constructor | exists 1%nat; constructor]
    | right; eapply Only_impl; [apply reading_quiet|apply (reading_only eth); constructor]
    | right; eapply Only_impl;
        [apply confined_quiet|first [apply create_confined|apply load_confined]]
    | right; first [apply list_wallets_quiet|apply history_quiet]
    | right;
      unfold handle_daemon_rpc, handle_wallet_rpc, handle_open_log_dir, handle_open_data_dir,
        handle_get_version, handle_confirm_dialog, handle_miner_get_info, handle_miner_start,
        handle_miner_stop, handle_miner_get_status, handle_bridge_request, handle_bridge_status,
        handle_bridge_release_status, guarded, daemonRpc, walletRpc, getLogDir, ensure_dir,
        getUserDataPath; quiet_ops; first [apply rpc_quiet|apply daemonHttp_quiet] ].

(** Every registered handler signs as the wallet named in its arguments, or is quiet. *)
Lemma dispatch_cases channel args p :
  dispatch channel args = Some p ->
  (exists i, signing_handler cfg eth (arg args i) (arg args (S i)) p) \/ Only quiet p.
Proof.
  unfold dispatch. intros Hin%assoc_elem. unfold handlers in Hin. cbv zeta in Hin.
  do 35 (apply elem_of_cons in Hin as [[= -> ->]|Hin]; [handler_case|]).
  destruct (proj1 (elem_of_nil _) Hin).
Qed.

(** C1 (safety). Whatever function of [window.crylo] the page calls, with whatever arguments and
    whatever the network answers: files are never deleted, the only files written are Nexus
    wallet files and the operator's configuration, with mode 0600; and a transaction is signed
    only with the key of a wallet file that was read during the call and is bound to the CryLo
    address among the call's arguments. *)
Theorem page_cannot_misuse_keys (name : string) (args : list jsval) (p : prog mop jsval)
    (tr : list (event mop)) (x : result jsval) :
  invoke name args = Some p -> Runs p tr x ->
  Forall (fun ev => file_safe (fst ev)) tr /\
  forall w contract meth l nonce r, (Send w contract meth l nonce, r) ∈ tr ->
    exists n c text data bound key, n ∈ args /\ c ∈ args /\
      (FsRead (nexusPath cfg n), Ok text) ∈ tr /\ Json.parse (as_text text) = Ok data /\
      get data "cryloAddress" = Ok bound /\ strict_eq bound c = true /\
      get data "privateKey" = Ok key /\ truthy key = true /\ walletAddress key = Ok w.
Proof.
  unfold invoke. destruct (assoc crylo name) as [[channel k| |]|]; [|done..].
  intros [[i Hsig]|Hq]%dispatch_cases Hr.
  - split; [by eapply Only_Runs; [apply (signing_file_safe _ _ _ Hsig)|]|].
    intros w ct m l nc r Hin.
    destruct (signing_requires_binding cfg eth _ _ _ _ _ _ _ _ _ _ _ Hsig Hr Hin)
      as (Hn & Hc & text & data & bound & key & Hrest).
    exists (arg (take k args) i), (arg (take k args) (S i)), text, data, bound, key.
    split; [by apply (arg_elem k)|]. split; [by apply (arg_elem k)|done].
  - pose proof (Only_Runs _ _ _ _ Hq Hr) as Hall. split.
    + eapply Forall_impl; [exact Hall|]. by intros ? [].
    + intros w ct m l nc r Hin. rewrite Forall_forall in Hall. by apply Hall in Hin as [].
Qed.
End ipc_facts.

(** A page that asks to claim rewards, on the example chain. *)
Lemma page_cannot_misuse_keys_witness :
  let args := [JStr "a_b"; JStr "cry1"] in
  exists p tr x, @invoke demo_config demo_ethers "nexusClaimRewards" args = Some p /\ Runs p tr x /\
    succeeds x = true /\ Forall (fun ev => file_safe demo_config (fst ev)) tr.
Proof.
  intros args.
  pose (p := @handle_nexus_claim_rewards demo_config demo_ethers (JStr "a_b") (JStr "cry1")).
  exists p, (fst (demo_run p)), (snd (demo_run p)).
  split; [reflexivity|]. split; [apply demo_Runs|]. split; [vm_compute; reflexivity|].
  exact (proj1 (page_cannot_misuse_keys demo_config demo_ethers "nexusClaimRewards" args p _ _
                  eq_refl (demo_Runs p))).
Defined.

Lemma preload_matches_main_witness :
  "bridgeStatus" ∈ map fst crylo /\
  exists p, @invoke demo_config demo_ethers "bridgeStatus" [JStr "id"] = Some p /\
    @dispatch demo_config demo_ethers "bridge-status" [JStr "id"] = Some p.
Proof.
  assert ("bridgeStatus" ∈ map fst crylo) as Hin
    by (apply (bool_decide_unpack _); vm_compute; exact I).
  split; [exact Hin|].
  exact (proj1 (preload_matches_main demo_config demo_ethers "bridgeStatus" [JStr "id"] Hin)).
Defined.
