(* ===== verification/CoinNumbers.v ===== *)
(** * Numbers that stand for coin amounts

    The page keeps amounts of coins as JavaScript numbers and moves between numbers and text.
    [coin m] is the number nearest to [m] atomic units (of [10^-11] coins).  For amounts of up to
    a few hundred coins these numbers are far enough apart that fixed-point printing, reading and
    the shortest decimal notation all lead back to [m] exactly; the lemmas here show it and are
    what the exactness of the bridge deposits rests on. *)

From Stdlib Require Import Ascii String.
From S2P Require Import Prelude JsNumber JsString JsConv JsVal Amounts.

Abbreviation ATOMS := Amounts.COIN_Z.

Definition coin (m : Z) : num := Num.of_frac m ATOMS.

(** ** Rounding depends on the quotient only *)

Lemma rne_scale p q c : 0 < q -> 0 < c -> rne (p * c) (q * c) = rne p q.
Proof.
  intros Hq Hc. rewrite !rne_unfold, Z.div_mul_cancel_r, Z.mul_mod_distr_r by lia.
  assert (forall a b, (a * c <? b * c) = (a <? b)) as Hlt.
  { intros a b. apply eq_true_iff_eq. rewrite !Z.ltb_lt. nia. }
  rewrite !Z.mul_assoc, !Hlt. done.
Qed.

Lemma round_pos_scale p q c : 0 < q -> 0 < c -> Num.round_pos (p * c) (q * c) = Num.round_pos p q.
Proof.
  intros Hq Hc. unfold Num.round_pos, Num.ulp_exp. rewrite Z.div_mul_cancel_r by lia.
  set (k := Z.max 0 _). pose proof (pow2_pos k ltac:(lia)).
  replace (q * c * 2 ^ k) with (q * 2 ^ k * c) by ring. rewrite rne_scale by nia. done.
Qed.

Lemma of_frac_nonneg m d : 0 <= m -> 0 < d -> Num.of_frac m d = Num.round_pos (m * Num.U) d.
Proof.
  intros Hm Hd. unfold Num.of_frac, Num.round. pose proof Num.U_pos.
  rewrite (proj2 (Z.ltb_ge _ _)) by nia. done.
Qed.

Lemma of_frac_scale m d c : 0 <= m -> 0 < d -> 0 < c -> Num.of_frac (m * c) (d * c) = Num.of_frac m d.
Proof.
  intros Hm Hd Hc. rewrite !of_frac_nonneg by nia.
  replace (m * c * Num.U) with (m * Num.U * c) by ring. by apply round_pos_scale.
Qed.

(** ** How far a coin number is from its amount *)

(** Two hundred coins: more than the bridge takes. *)
Definition MAX_ATOMS : Z := 200 * ATOMS.

(** [z] units are within a hundredth of an atomic unit of the amount [m]. *)
Definition close (z m : Z) : Prop := 100 * Z.abs (z * ATOMS - m * Num.U) <= Num.U.

Lemma U_big : 2 ^ 60 * ATOMS <= Num.U.
Proof. apply Z.leb_le. vm_compute. reflexivity. Qed.

Lemma U_huge : 1000 * Num.U <= Num.huge.
Proof. apply Z.leb_le. vm_compute. reflexivity. Qed.

Lemma coin_tight m :
  0 <= m <= MAX_ATOMS ->
  exists z, coin m = Fin z /\ 0 <= z /\ 450 * Z.abs (z * ATOMS - m * Num.U) <= Num.U.
Proof.
  intros Hm. unfold coin, MAX_ATOMS, Amounts.COIN_Z in *.
  pose proof Num.U_pos as HU. pose proof U_big as Hb. pose proof U_huge as Hh.
  unfold Amounts.COIN_Z in Hb. rewrite of_frac_nonneg by lia.
  destruct (Num.round_pos_finite (m * Num.U) 100000000000 ltac:(lia)) as (z & Hz & Hz0 & _).
  { split; [nia|]. nia. }
  exists z. split; [done|]. split; [done|].
  pose proof (Num.round_pos_rel (m * Num.U) 100000000000 z ltac:(lia) ltac:(nia) Hz). nia.
Qed.

Lemma coin_close m : 0 <= m <= MAX_ATOMS -> exists z, coin m = Fin z /\ 0 <= z /\ close z m.
Proof.
  intros (z & Hz & Hz0 & Hc)%coin_tight. exists z. unfold close. pose proof Num.U_pos.
  split_and!; [done|done|lia].
Qed.

Lemma coin_0 : coin 0 = Fin 0.
Proof. vm_compute. reflexivity. Qed.

Lemma close_unique z m m' : close z m -> close z m' -> m = m'.
Proof. unfold close, Amounts.COIN_Z. pose proof Num.U_pos. nia. Qed.

Lemma coin_inj m m' : 0 <= m <= MAX_ATOMS -> 0 <= m' <= MAX_ATOMS -> coin m = coin m' -> m = m'.
Proof.
  intros Hm Hm' E. destruct (coin_close m Hm) as (z & Hz & _ & Hc).
  destruct (coin_close m' Hm') as (z' & Hz' & _ & Hc'). rewrite Hz, Hz' in E.
  injection E as ->. eauto using close_unique.
Qed.

Lemma coin_pos m : 0 <= m <= MAX_ATOMS -> Num.ltb (Fin 0) (coin m) = (0 <? m).
Proof.
  intros Hm. destruct (decide (m = 0)) as [->|]; [by rewrite coin_0|].
  destruct (coin_close m Hm) as (z & -> & Hz0 & Hz). cbn [Num.ltb].
  unfold close, Amounts.COIN_Z in Hz. pose proof Num.U_pos.
  rewrite !(proj2 (Z.ltb_lt _ _)); [done|lia|nia].
Qed.

(** ** Fixed-point printing and reading back *)

Lemma to_fixed_nonneg z f :
  0 <= z < 10 ^ 21 * Num.U -> to_fixed (Fin z) f = fixed_digits (rhu (z * 10 ^ f) Num.U) f.
Proof.
  intros Hz. unfold to_fixed. rewrite Z.abs_eq by lia.
  rewrite (proj2 (Z.leb_gt _ _)), (proj2 (Z.ltb_ge _ _)) by lia. done.
Qed.

Lemma to_fixed_close z m :
  0 <= z -> 0 <= m <= MAX_ATOMS -> close z m -> to_fixed (Fin z) 11 = fixed_digits m 11.
Proof.
  intros Hz Hm Hc. unfold close, MAX_ATOMS, Amounts.COIN_Z in *. pose proof Num.U_pos.
  rewrite to_fixed_nonneg by nia. f_equal. apply rhu_unique; [done|].
  change (10 ^ 11) with 100000000000. nia.
Qed.

Lemma number_of_decimal s m k :
  decimal_text s m k -> k <= 11 -> number_of_string s = coin (m * 10 ^ (11 - k)).
Proof.
  intros Ht Hk. destruct (decimal_text_nonneg _ _ _ Ht) as [Hm Hk0].
  destruct (decimal_text_number _ _ _ Ht) as (len & Hlen & Hkl & ->). unfold scaled.
  case_bool; [subst; rewrite Z.mul_0_l; by rewrite coin_0|].
  do 2 (rewrite (proj2 (Z.ltb_ge _ _)) by lia). pose proof (pow10_pos (11 - k) ltac:(lia)).
  assert (10 ^ k * 10 ^ (11 - k) = ATOMS) as HC.
  { rewrite <- Z.pow_add_r by lia. replace (k + (11 - k)) with 11 by lia. done. }
  unfold coin. rewrite <- HC, of_frac_scale by (try apply pow10_pos; lia).
  case_bool; [|by rewrite Z.opp_involutive].
  assert (k = 0) as -> by lia. by rewrite Z.mul_1_r.
Qed.

Lemma read_fixed m : 0 <= m -> number_of_string (fixed_digits m 11) = coin m.
Proof.
  intros Hm. rewrite (number_of_decimal _ m 11) by (try apply fixed_digits_text; lia).
  by rewrite Z.sub_diag, Z.mul_1_r.
Qed.

(** ** The shortest decimal notation of a coin number *)

Lemma find_exponent_hit fuel z n n1 :
  dec_exponent_step z n1 = true -> n <= n1 < n + Z.of_nat fuel ->
  dec_exponent_step z (find_exponent fuel z n) = true /\ n <= find_exponent fuel z n <= n1.
Proof.
  intros H1. revert n. induction fuel as [|fuel IH]; intros n Hn; [lia|]. cbn [find_exponent].
  destruct (dec_exponent_step z n) eqn:E; [split; [done|lia]|].
  assert (n <> n1) by congruence. destruct (IH (n + 1)); [lia|]. split; [done|lia].
Qed.

(** The exponents of amounts from [10^-7] to [100]: the estimate is at most four below. *)
Lemma dec_exponent_window z n :
  -6 <= n <= 2 -> 0 < z -> dec_exponent_step z n = true ->
  dec_exponent_step z (dec_exponent z) = true /\ n - 4 <= dec_exponent z <= n.
Proof.
  intros Hn Hz Hs. unfold dec_exponent.
  enough (n - 4 <= (Z.log2 z - 1074) * 30103 / 100000 - 2 <= n).
  { destruct (find_exponent_hit 6 z ((Z.log2 z - 1074) * 30103 / 100000 - 2) n Hs) as [Hf Hr];
      [lia|]. split; [exact Hf|lia]. }
  assert (exists lo hi, Z.log2 lo <= Z.log2 z <= Z.log2 hi /\
    n - 4 <= (Z.log2 lo - 1074) * 30103 / 100000 - 2 /\
    (Z.log2 hi - 1074) * 30103 / 100000 - 2 <= n) as (lo & hi & [Hlo Hhi] & H1 & H2).
  { exists (if 1 <=? n then 10 ^ (n - 1) * Num.U else Num.U / 10 ^ (1 - n)),
           (if 1 <=? n then 10 ^ n * Num.U else Num.U / 10 ^ (- n) + 1).
    split.
    - unfold dec_exponent_step in Hs. case_bool; apply andb_true_iff in Hs as [Ha Hb];
        apply Z.leb_le in Ha; apply Z.ltb_lt in Hb; split; apply Z.log2_le_mono.
      + done.
      + lia.
      + apply Z.div_le_upper_bound; [apply pow10_pos; lia|]. lia.
      + pose proof (Z.mul_succ_div_gt Num.U (10 ^ (- n)) (pow10_pos (- n) ltac:(lia))).
        pose proof (pow10_pos (- n) ltac:(lia)). nia.
    - assert (n = -6 \/ n = -5 \/ n = -4 \/ n = -3 \/ n = -2 \/ n = -1 \/ n = 0 \/ n = 1 \/ n = 2)
        as Hcases by lia.
      repeat destruct Hcases as [->|Hcases]; try subst n;
        (split; apply Z.leb_le; vm_compute; reflexivity). }
  assert (forall a b, a <= b -> (a - 1074) * 30103 / 100000 <= (b - 1074) * 30103 / 100000) as Hmono.
  { intros a b Hab. apply Z.div_le_mono; lia. }
  pose proof (Hmono _ _ Hlo). pose proof (Hmono _ _ Hhi). lia.
Qed.

Lemma try_digits_sound z n k s :
  try_digits z n k = Some s -> 10 ^ (k - 1) <= s <= 10 ^ k /\ decimal s (n - k) = Fin z.
Proof.
  unfold try_digits. destruct (if 0 <=? n - k then _ else _) as [p q].
  destruct (Z.div_eucl p q) as [lo r]. intros H.
  assert (forall s', (10 ^ (k - 1) <=? s') && (s' <=? 10 ^ k) && Num.eqb (decimal s' (n - k)) (Fin z)
            = true -> 10 ^ (k - 1) <= s' <= 10 ^ k /\ decimal s' (n - k) = Fin z) as Hok.
  { intros s'. rewrite !andb_true_iff, !Z.leb_le. intros [[? ?] He]. split; [done|].
    destruct (decimal s' (n - k)); try done. cbn [Num.eqb] in He. f_equal. by apply Z.eqb_eq. }
  repeat case_match; simplify_eq; auto.
Qed.

Lemma shortest_hit fuel z n k d s :
  try_digits z n d = Some s -> k <= d < k + Z.of_nat fuel ->
  exists s' k', shortest fuel z n k = (s', k') /\ k <= k' <= d /\ try_digits z n k' = Some s'.
Proof.
  intros Hd. revert k. induction fuel as [|fuel IH]; intros k Hk; [lia|]. cbn [shortest].
  destruct (try_digits z n k) as [s0|] eqn:E.
  - exists s0, k. split_and!; [done|lia|lia|done].
  - assert (k <> d) by congruence. destruct (IH (k + 1) ltac:(lia)) as (s' & k' & -> & ? & ?).
    exists s', k'. split_and!; [done|lia|lia|done].
Qed.

Lemma dec_exponent_step_scaled z n :
  -10 <= n <= 3 ->
  dec_exponent_step z n = true <-> 10 ^ (n + 10) * Num.U <= z * ATOMS < 10 ^ (n + 11) * Num.U.
Proof.
  intros Hn. unfold dec_exponent_step. case_bool; rewrite andb_true_iff, Z.leb_le, Z.ltb_lt.
  - change ATOMS with (10 ^ 11). replace (n + 10) with (n - 1 + 11) by lia.
    rewrite !(Z.pow_add_r 10 _ 11) by lia. lia.
  - pose proof (pow10_pos (n + 10) ltac:(lia)). pose proof (pow10_pos (n + 11) ltac:(lia)).
    assert (10 ^ (1 - n) * 10 ^ (n + 10) = ATOMS) as H1
      by (rewrite <- Z.pow_add_r by lia; by replace (1 - n + (n + 10)) with 11 by lia).
    assert (10 ^ (- n) * 10 ^ (n + 11) = ATOMS) as H2
      by (rewrite <- Z.pow_add_r by lia; by replace (- n + (n + 11)) with 11 by lia).
    assert (10 ^ (n + 10) * Num.U <= z * ATOMS <-> Num.U <= z * 10 ^ (1 - n)) as ->.
    { rewrite <- H1. split; nia. }
    assert (z * ATOMS < 10 ^ (n + 11) * Num.U <-> z * 10 ^ (- n) < Num.U) as ->; [|done].
    rewrite <- H2. split; nia.
Qed.

(** The decimal [s * 10^e], in atomic units. *)
Lemma decimal_coin s e : 0 <= s -> -11 <= e -> decimal s e = coin (s * 10 ^ (e + 11)).
Proof.
  intros Hs He. unfold decimal, coin. change ATOMS with (10 ^ 11). case_bool.
  - unfold Num.of_Z. rewrite Z.pow_add_r by lia. rewrite Z.mul_assoc.
    change (Num.round (s * 10 ^ e * Num.U) 1) with (Num.of_frac (s * 10 ^ e) 1).
    pose proof (pow10_pos e ltac:(lia)).
    rewrite <- (of_frac_scale _ 1 (10 ^ 11)) by nia. by rewrite Z.mul_1_l.
  - replace (10 ^ 11) with (10 ^ (- e) * 10 ^ (e + 11))
      by (rewrite <- Z.pow_add_r by lia; by replace (- e + (e + 11)) with 11 by lia).
    rewrite of_frac_scale; [done|done|apply pow10_pos; lia|apply pow10_pos; lia].
Qed.

(** Digits enough for every digit of the amount: the amount itself is found. *)
Lemma try_digits_coin z n m :
  coin m = Fin z -> close z m -> -10 <= n <= 3 ->
  10 ^ (n + 10) <= m <= 10 ^ (n + 11) -> try_digits z n (n + 11) = Some m.
Proof.
  intros Hz Hc Hn Hm. unfold try_digits. replace (n - (n + 11)) with (-11) by lia.
  change (0 <=? -11) with false. cbv iota.
  pose proof (Z_div_mod (z * 10 ^ (- -11)) Num.U ltac:(pose proof Num.U_pos; lia)) as Hdm.
  destruct (Z.div_eucl _ _) as [lo r]. destruct Hdm as [Hz' Hr].
  change (10 ^ (- -11)) with ATOMS in Hz'.
  assert ((if 2 * r <=? Num.U then lo else lo + 1) = m) as ->.
  { unfold close, Amounts.COIN_Z in *. pose proof Num.U_pos. case_bool; nia. }
  pose proof (pow10_pos (n + 10) ltac:(lia)).
  rewrite decimal_coin by lia. change (-11 + 11) with 0. rewrite Z.mul_1_r, Hz.
  cbn [Num.eqb]. rewrite Z.eqb_refl.
  replace (n + 11 - 1) with (n + 10) by lia.
  rewrite !(proj2 (Z.leb_le _ _)) by lia. done.
Qed.

Local Ltac exponent k :=
  exists k; split; [lia|];
  let a := eval compute in (10 ^ (k + 10)) in let b := eval compute in (10 ^ (k + 11)) in
  change (10 ^ (k + 10)) with a; change (10 ^ (k + 11)) with b; lia.

(** The exponent of a coin number between [10^-6] and 100 coins. *)
Lemma dec_exponent_coin z m :
  close z m -> 10 ^ 5 <= m < 10 ^ 13 ->
  let n := dec_exponent z in
  -10 <= n <= 2 /\ 10 ^ (n + 10) <= m <= 10 ^ (n + 11).
Proof.
  intros Hc Hm n. pose proof Num.U_pos as HU. unfold close, Amounts.COIN_Z in Hc.
  assert (exists n1, -6 <= n1 <= 2 /\ 10 ^ (n1 + 10) * Num.U <= z * ATOMS < 10 ^ (n1 + 11) * Num.U)
    as (n1 & Hn1 & Hs).
  { assert (10 ^ 5 * Num.U <= m * Num.U <= (10 ^ 13 - 1) * Num.U) by nia.
    assert (10 ^ 4 * Num.U <= z * ATOMS < 10 ^ 13 * Num.U) as Hz
      by (unfold Amounts.COIN_Z; lia).
    destruct (Z.lt_ge_cases (z * ATOMS) (10 ^ 5 * Num.U)); [exponent (-6)|].
    destruct (Z.lt_ge_cases (z * ATOMS) (10 ^ 6 * Num.U)); [exponent (-5)|].
    destruct (Z.lt_ge_cases (z * ATOMS) (10 ^ 7 * Num.U)); [exponent (-4)|].
    destruct (Z.lt_ge_cases (z * ATOMS) (10 ^ 8 * Num.U)); [exponent (-3)|].
    destruct (Z.lt_ge_cases (z * ATOMS) (10 ^ 9 * Num.U)); [exponent (-2)|].
    destruct (Z.lt_ge_cases (z * ATOMS) (10 ^ 10 * Num.U)); [exponent (-1)|].
    destruct (Z.lt_ge_cases (z * ATOMS) (10 ^ 11 * Num.U)); [exponent (0)|].
    destruct (Z.lt_ge_cases (z * ATOMS) (10 ^ 12 * Num.U)); [exponent (1)|].
    exponent 2. }
  destruct (dec_exponent_window z n1) as [Hstep Hr]; [lia| |by apply dec_exponent_step_scaled; [lia|]|].
  { pose proof (pow10_pos (n1 + 10) ltac:(lia)). unfold Amounts.COIN_Z in *. nia. }
  fold n in Hstep, Hr. split; [lia|]. apply dec_exponent_step_scaled in Hstep; [|lia].
  unfold Amounts.COIN_Z in *. pose proof (pow10_pos (n + 10) ltac:(lia)).
  pose proof (pow10_pos (n + 11) ltac:(lia)). nia.
Qed.

(** A number has as many digits as its size says. *)
Lemma digits_of_len fuel n acc k :
  0 <= n < 10 ^ k -> 1 <= k -> slen (digits_of fuel n acc) <= k + slen acc.
Proof.
  revert n acc k. induction fuel as [|fuel IH]; intros n acc k Hn Hk; cbn [digits_of]; [lia|].
  case_bool; [rewrite slen_cons; lia|].
  assert (1 <= k - 1).
  { destruct (decide (k = 1)) as [->|]; [|lia]. change (10 ^ 1) with 10 in Hn. lia. }
  pose proof (IH (n / 10) (String (digit_char (n mod 10)) acc) (k - 1)) as IH'.
  rewrite slen_cons in IH'. enough (0 <= n / 10 < 10 ^ (k - 1)) by lia.
  split; [apply Z.div_pos; lia|]. apply Z.div_lt_upper_bound; [lia|].
  rewrite <- Z.pow_succ_r by lia. replace (Z.succ (k - 1)) with k by lia. lia.
Qed.

Lemma string_of_nonneg_len n k :
  1 <= k -> 10 ^ (k - 1) <= n < 10 ^ k -> slen (string_of_nonneg n) = k.
Proof.
  intros Hk Hn. pose proof (pow10_pos (k - 1) ltac:(lia)).
  destruct (string_of_nonneg_spec n ltac:(lia)) as [Hd Hv].
  pose proof (dval_bound _ Hd) as Hb. rewrite Hv in Hb.
  pose proof (digits_of_len (S (Z.to_nat (Z.log2 n))) n "" k ltac:(lia) Hk) as Hl.
  change (slen "") with 0 in Hl. fold (string_of_nonneg n) in Hl.
  destruct (Z.lt_ge_cases (slen (string_of_nonneg n)) k) as [Hlt|]; [|lia].
  assert (10 ^ slen (string_of_nonneg n) <= 10 ^ (k - 1)) by (apply Z.pow_le_mono_r; lia). lia.
Qed.

(** The notation of [s * 10^(n - k)], [s] of [k] digits, when it has no exponent part. *)
Lemma layout_text s k n :
  1 <= k -> 10 ^ (k - 1) <= s < 10 ^ k -> -6 < n <= 21 ->
  decimal_text (layout s k n) (s * 10 ^ (Z.max 0 (n - k))) (Z.max 0 (k - n)).
Proof.
  intros Hk Hs Hn. unfold layout. pose proof (pow10_pos (k - 1) ltac:(lia)).
  pose proof (string_of_nonneg_len s k Hk Hs) as Hl.
  destruct (string_of_nonneg_spec s ltac:(lia)) as [Hd Hv].
  set (ds := string_of_nonneg s) in *.
  assert (ds <> "") as Hne by (intros E; rewrite E in Hl; change (slen "") with 0 in Hl; lia).
  destruct (Z.le_gt_cases k n) as [Hkn|Hkn].
  - rewrite !(proj2 (Z.leb_le _ _)) by lia. cbn [andb]. rewrite !Z.max_r, Z.max_l by lia.
    set (zs := repeat_char _ _).
    assert (dval 0 (ds +:+ zs) = s * 10 ^ (n - k)) as <-.
    { unfold zs. rewrite dval_app_0, dval_zeros, slen_repeat, Z2Nat.id by lia. lia. }
    apply dt_int; [|by destruct ds].
    unfold all_digits, zs in *. by rewrite all_chars_app, all_chars_repeat, Hd.
  - rewrite (proj2 (Z.leb_gt k n)) by lia. cbn [andb].
    rewrite Z.max_l, Z.max_r, Z.pow_0_r, Z.mul_1_r by lia.
    destruct (Z.lt_ge_cases 0 n) as [Hn0|Hn0].
    + rewrite (proj2 (Z.ltb_lt _ _)), (proj2 (Z.leb_le _ _)) by lia. cbn [andb].
      pose proof (take_drop_string (Z.to_nat n) ds) as Htd.
      assert (slen (stake (Z.to_nat n) ds) = n) as Hw by (rewrite slen_take; lia).
      assert (slen (sdrop (Z.to_nat n) ds) = k - n) as Hf.
      { pose proof (slen_app (stake (Z.to_nat n) ds) (sdrop (Z.to_nat n) ds)).
        rewrite Htd in *. lia. }
      pose proof (dt_frac (stake (Z.to_nat n) ds) (sdrop (Z.to_nat n) ds)) as Hdt.
      rewrite Htd, Hv, Hf in Hdt. apply Hdt.
      * by apply all_chars_take.
      * intros E. rewrite E in Hw. change (slen "") with 0 in Hw. lia.
      * by apply all_chars_drop.
      * intros E. rewrite E in Hf. change (slen "") with 0 in Hf. lia.
    + rewrite (proj2 (Z.ltb_ge 0 n)), (proj2 (Z.ltb_lt (-6) n)), (proj2 (Z.leb_le n 0)) by lia.
      cbn [andb]. set (fs := repeat_char (Z.to_nat (- n)) "0" +:+ ds).
      assert (all_digits fs = true) as Hfs.
      { unfold fs, all_digits in *. by rewrite all_chars_app, all_chars_repeat, Hd. }
      assert (slen fs = k - n) as Hlf.
      { unfold fs. rewrite slen_app, slen_repeat, Z2Nat.id by lia. lia. }
      assert (dval 0 ("0" +:+ fs) = s) as Hvf.
      { unfold fs. rewrite dval_app. change (dval 0 "0") with 0. by rewrite dval_app, dval_zeros. }
      pose proof (dt_frac "0" fs) as Hdt. rewrite Hlf, Hvf in Hdt. apply Hdt; [done|done|done|].
      unfold fs. destruct (repeat_char _ _); [by destruct ds|done].
Qed.

(** Printing a coin number between a millionth of a coin and 100 coins, and reading the text back
    as atomic units, gives the amount. *)
Theorem print_coin m :
  10 ^ 5 <= m < 10 ^ 13 ->
  exists s k, decimal_text (num_to_string (coin m)) s k /\ k <= 11 /\ s * 10 ^ (11 - k) = m.
Proof.
  intros Hm. destruct (coin_close m) as (z & Hz & Hz0 & Hc).
  { unfold MAX_ATOMS, Amounts.COIN_Z. lia. }
  destruct (dec_exponent_coin z m Hc Hm) as [Hn Hnm].
  unfold num_to_string. rewrite Hz.
  assert (0 < z) by (unfold close, Amounts.COIN_Z in Hc; pose proof Num.U_pos; nia).
  rewrite (proj2 (Z.eqb_neq _ _)), (proj2 (Z.ltb_ge _ _)) by lia.
  unfold pos_to_string. set (n := dec_exponent z) in *.
  destruct (shortest_hit 17 z n 1 (n + 11) m) as (s & k & -> & Hk & Htry).
  { by apply try_digits_coin; [| |lia|]. }
  { lia. }
  destruct (try_digits_sound _ _ _ _ Htry) as [Hs Hdec].
  pose proof (pow10_pos (k - 1) ltac:(lia)).
  rewrite decimal_coin in Hdec by lia. rewrite <- Hz in Hdec.
  assert (s * 10 ^ (n - k + 11) = m) as Hval.
  { apply coin_inj; [|unfold MAX_ATOMS, Amounts.COIN_Z; lia|done].
    pose proof (pow10_pos (n - k + 11) ltac:(lia)). split; [nia|].
    assert (s * 10 ^ (n - k + 11) <= 10 ^ (n + 11)).
    { replace (n + 11) with (k + (n - k + 11)) by lia. rewrite (Z.pow_add_r 10 k) by lia.
      apply Z.mul_le_mono_nonneg_r; lia. }
    assert (10 ^ (n + 11) <= 10 ^ 13) by (apply Z.pow_le_mono_r; lia).
    unfold MAX_ATOMS, Amounts.COIN_Z. lia. }
  assert (forall s' k' n', 1 <= k' -> 10 ^ (k' - 1) <= s' < 10 ^ k' -> -11 <= n' - k' ->
            s' * 10 ^ (n' - k' + 11) = m -> n' <= 21 ->
            exists s1 k1, decimal_text (layout s' k' n') s1 k1 /\ k1 <= 11 /\ s1 * 10 ^ (11 - k1) = m)
    as Hlay.
  { intros s' k' n' Hk' Hs' He Hv Hn'.
    assert (-6 < n').
    { destruct (Z.lt_ge_cases (-6) n') as [|Hle]; [done|].
      assert (s' * 10 ^ (n' - k' + 11) < 10 ^ k' * 10 ^ (n' - k' + 11))
        by (apply Z.mul_lt_mono_pos_r; [apply pow10_pos; lia|lia]).
      rewrite <- Z.pow_add_r in H1 by lia.
      assert (10 ^ (k' + (n' - k' + 11)) <= 10 ^ 5) by (apply Z.pow_le_mono_r; lia). lia. }
    exists (s' * 10 ^ Z.max 0 (n' - k')), (Z.max 0 (k' - n')).
    split; [by apply layout_text; [| |lia]|]. split; [lia|].
    rewrite <- Z.mul_assoc, <- Z.pow_add_r by lia. rewrite <- Hv. do 2 f_equal. lia. }
  case_bool.
  - apply (Hlay 1 1 (n + 1)); [lia|simpl; lia|lia| |lia]. subst s.
    rewrite <- Z.pow_add_r in Hval by lia. rewrite Z.mul_1_l, <- Hval. f_equal. lia.
  - apply (Hlay s k n); lia.
Qed.
