(* ===== verification/Page.v ===== *)
(** * The page: environment, state and Nexus wallet panel (electron/src/app.js)

    The operations a function of the page performs: calls of [window.crylo], reads and writes of
    the global [State], of elements and of local storage, dialogs and timers.  [State] is shared
    by functions that run concurrently, so reading it is an operation whose answer may be anything
    that another function left there. *)

From Stdlib Require Import Ascii String.
From S2P Require Import Prelude JsNumber JsString JsConv JsVal Json Prog MainEnv Amounts.

Inductive pop :=
| Crylo (name : string) (args : list jsval)        (* await window.crylo.name(...args) *)
| GetState (field : string)
| SetState (field : string) (v : jsval)
| Value (id : string)                              (* el(id).value *)
| TextContent (id : string)                        (* document.getElementById(id)?.textContent *)
| HasElement (id : string)
| SetProp (id prop : string) (v : jsval)           (* el(id).prop = v *)
| SetHidden (id : string) (hidden : bool)          (* classList.add / remove('hidden') *)
| IsHidden (id : string)                           (* classList.contains('hidden') *)
| Focus (id : string)
| Append (id : string) (child : jsval)             (* el(id).appendChild(child) *)
| Clipboard (text : string)                        (* navigator.clipboard.writeText *)
| OnClick (selector f : string)                    (* a click on one of these calls f *)
| SelectTab (tab : string)                         (* the 'active' class of tabs and panels *)
| Toast (msg kind : string) (ms : Z)
| Confirm (msg : string)                           (* window.confirm *)
| Start (f : string)                               (* f(), an async function, not awaited *)
| AwaitAll (fs : list string)                      (* await Promise.all([f(), ...]) *)
| Later (f : string) (ms : Z)                      (* setTimeout(f, ms) *)
| Every (f : string) (args : list jsval) (ms : Z)  (* setInterval *)
| ClearTimer (t : jsval)
| StorageSet (k v : string)
| StorageRemove (k : string)
| NowMs.

Abbreviation page := (prog pop jsval).

(** What depends on the user's locale: [v.toLocaleString()], and
    [new Date(ms).toLocaleString()]. *)
Class Locale := {
  localeString : jsval -> string;
  localeDate : num -> string;
}.

(** The number an arithmetic operator makes of a value; a BigInt cannot be mixed with numbers. *)
Definition to_numeric (v : jsval) : result num :=
  match v with
  | JBig _ => Throw (Error "Cannot mix BigInt and other types, use explicit conversions")
  | _ => Ok (to_number v)
  end.

(** The elements of a value that [forEach], [map] or a spread walks over. *)
Definition as_array (v : jsval) : result (list jsval) :=
  match v with
  | JArr l => Ok l
  | JUndef => Throw (type_error_read "undefined" "forEach")
  | JNull => Throw (type_error_read "null" "forEach")
  | _ => Throw (Error "value is not iterable")
  end.

(** [v.k1 || v.k2 || ... || default] *)
Definition first_truthy (v : jsval) (ks : list string) (default : jsval) : jsval :=
  fold_right (fun k acc => js_or (get_opt v k) acc) default ks.

(** [v > n] and [v <= n]: the comparisons convert, and [undefined] is not a number. *)
Definition js_gtb (v : jsval) (n : num) : bool := Num.ltb n (to_number v).
Definition js_leb (v : jsval) (n : num) : bool := Num.leb (to_number v) n.

(** An attribute value between double quotes, as a template writes it. *)
Definition quoted (s : string) : string := String Json.dquote (s +:+ String Json.dquote "").

Section page.
Context `{Locale}.
Local Open Scope prog_scope.

Definition crylo_call (name : string) (args : list jsval) : page := call (Crylo name args).
Definition walletRpc_call (method : string) (params : jsval) (timeout : option Z) : page :=
  call (Crylo "walletRpc" (JStr method :: params ::
                           match timeout with Some t => [JNum (Num.of_Z t)] | None => [] end)).

Definition get_state (f : string) : page := call (GetState f).
Definition set_state (f : string) (v : jsval) : page := call (SetState f v).
Definition set_prop (id prop : string) (v : jsval) : page := call (SetProp id prop v).
Definition set_text (id : string) (s : string) : page := call (SetProp id "textContent" (JStr s)).

(** [toast(msg, kind, ms)], with its default of four seconds. *)
Definition toast (msg kind : string) : page := call (Toast msg kind 4000).

(** [const e = document.getElementById(id); if (e) e.prop = v;] *)
Definition set_prop_opt (id prop : string) (v : jsval) : page :=
  present <- call (HasElement id);
  if truthy present then set_prop id prop v else Ret JUndef.
Definition set_text_opt (id s : string) : page := set_prop_opt id "textContent" (JStr s).

Definition account0 : jsval := JObj [("account_index", JNum (Fin 0))].

Definition getLinkedNexusAddress : page :=
  a <- get_state "nexusAddress"; Ret (js_or a (JStr "")).

Definition ensureCryLoAddressLoaded : prog pop bool :=
  a <- get_state "address";
  if truthy a then Ret true
  else
    addrRes <- walletRpc_call "get_address" account0 None;
    resOk <- lift (get addrRes "ok");
    if negb (truthy resOk) then Ret false
    else
      result <- lift (get addrRes "result");
      if negb (truthy result) then Ret false
      else
        address <- lift (get result "address");
        if negb (truthy address) then Ret false
        else
          set_state "address" address ;;
          shown <- get_state "address";
          set_prop_opt "receive-address" "textContent" shown ;;
          Ret true.

Definition setNexusUiAddress (addr : jsval) : page :=
  set_state "nexusAddress" (js_or addr (JStr "")) ;;
  a <- get_state "nexusAddress";
  set_text_opt "nexus-wallet-label"
    (if truthy a then "Bound Nexus Wallet" else "Create / Bind Nexus Wallet") ;;
  hasInput <- call (HasElement "nexus-linked-address");
  (if truthy hasInput then
     set_prop "nexus-linked-address" "value" a ;;
     set_prop "nexus-linked-address" "attribute:value" a
   else Ret JUndef) ;;
  set_text_opt "nexus-linked-status"
    (if truthy a then "Bound Nexus wallet: " +:+ to_str a
     else "No Nexus wallet created for this CryLo wallet yet.").

Definition clearNexusUiForWalletSwitch : page :=
  set_state "nexusAddress" (JStr "") ;;
  hasInput <- call (HasElement "nexus-linked-address");
  (if truthy hasInput then
     set_prop "nexus-linked-address" "value" (JStr "") ;;
     set_prop "nexus-linked-address" "attribute:value" (JStr "")
   else Ret JUndef) ;;
  set_text_opt "nexus-linked-status" "No Nexus wallet loaded for this CryLo wallet yet." ;;
  set_prop_opt "nexus-nft-list" "innerHTML" (JStr "") ;;
  set_text_opt "nexus-status"
    "Create a Nexus wallet to access staking, NFTs, buybacks, and node features." ;;
  set_text_opt "nexus-wcrylo-balance" "0.0000 wCRYLO" ;;
  set_text_opt "nexus-staked-balance" "0.0000 wCRYLO" ;;
  set_text_opt "nexus-pending-rewards" "0.0000 wCRYLO".

(** The unit shown after a balance. *)
Definition wcrylo_html (amount : string) : jsval :=
  JStr (amount +:+ "<span class=" +:+ quoted "balance-unit" +:+ "> wCRYLO</span>").

(** [fmtDecimalAmount(v, places)] *)
Definition shown_amount (v : jsval) (places : Z) : string := Amounts.fmtDecimalAmount v places.

Definition refreshNexusWcryloBalance : page :=
  present <- call (HasElement "bal-wcrylo");
  if negb (truthy present) then Ret JUndef
  else
    linked <- getLinkedNexusAddress;
    if negb (truthy linked) then set_prop "bal-wcrylo" "innerHTML" (wcrylo_html "—")
    else
      try_catch
        (result <- crylo_call "nexusWcryloBalance" [linked];
         resOk <- lift (get result "ok");
         if negb (truthy resOk) then set_prop "bal-wcrylo" "innerHTML" (wcrylo_html "—")
         else
           balance <- lift (get result "balance");
           set_prop "bal-wcrylo" "innerHTML" (wcrylo_html (shown_amount balance 4)))
        (fun _ => set_prop "bal-wcrylo" "innerHTML" (wcrylo_html "—")).

Definition refreshNexusStakedBalance : page :=
  present <- call (HasElement "bal-staked-wcrylo");
  if negb (truthy present) then Ret JUndef
  else
    linked <- getLinkedNexusAddress;
    if negb (truthy linked) then set_prop "bal-staked-wcrylo" "innerHTML" (wcrylo_html "—")
    else
      try_catch
        (result <- crylo_call "nexusStakedBalance" [linked];
         resOk <- lift (get result "ok");
         if negb (truthy resOk) then set_prop "bal-staked-wcrylo" "innerHTML" (wcrylo_html "0.0000")
         else
           balance <- lift (get result "balance");
           set_prop "bal-staked-wcrylo" "innerHTML" (wcrylo_html (shown_amount balance 4)))
        (fun _ => set_prop "bal-staked-wcrylo" "innerHTML" (wcrylo_html "0.0000")).

Definition refreshNexusPendingRewards : page :=
  present <- call (HasElement "nexus-pending-rewards");
  if negb (truthy present) then Ret JUndef
  else
    linked <- getLinkedNexusAddress;
    if negb (truthy linked) then set_text "nexus-pending-rewards" "—"
    else
      try_catch
        (result <- crylo_call "nexusPendingRewards" [linked];
         resOk <- lift (get result "ok");
         if negb (truthy resOk) then set_text "nexus-pending-rewards" "0.0000"
         else
           rewards <- lift (get result "rewards");
           set_text "nexus-pending-rewards" (shown_amount rewards 6))
        (fun _ => set_text "nexus-pending-rewards" "0.0000").

Definition refreshNexusNodeStatus : page :=
  present <- call (HasElement "nexus-node-status");
  if negb (truthy present) then Ret JUndef
  else
    linkedAddress <- getLinkedNexusAddress;
    if negb (truthy linkedAddress) then set_text "nexus-node-status" "No Nexus wallet linked."
    else
      try_catch
        (result <- crylo_call "nexusNodeStatus" [linkedAddress];
         resOk <- lift (get result "ok");
         if negb (truthy resOk) then
           error <- lift (get result "error");
           set_prop "nexus-node-status" "textContent"
             (js_or error (JStr "Unable to load node status."))
         else
           tier <- lift (get result "tier");
           stake <- lift (get result "stake");
           pending <- lift (get result "pending");
           let tierName := if strict_eq tier (JStr "2") then "Validator"
                           else if strict_eq tier (JStr "1") then "Operator" else "None" in
           set_prop "nexus-node-status" "innerHTML"
             (JStr ("Tier: <strong>" +:+ tierName +:+ "</strong> · Stake: <strong>"
                    +:+ to_fixed (to_number stake) 4 +:+ " wCRYLO</strong> · Pending: <strong>"
                    +:+ to_fixed (to_number pending) 6 +:+ " wCRYLO</strong>")))
        (fun _ => set_text "nexus-node-status" "Unable to load node status.").

Definition fmtUnix (ts : jsval) : string :=
  if negb (truthy ts) then "Never"
  else localeDate (Num.mul (to_number ts) (Num.of_Z 1000)).

(** Three days without activity, in seconds. *)
Definition activity_window : num := Num.of_Z (3 * 24 * 60 * 60).

Definition refreshNexusGasStatus : page :=
  linkedAddress <- getLinkedNexusAddress;
  if negb (truthy linkedAddress) then
    set_text_opt "nexus-gas-status" "Gas status: Create/bind a Nexus wallet first."
  else
    try_catch
      (result <- crylo_call "nexusGasStatus" [linkedAddress];
       resOk <- lift (get result "ok");
       if negb (truthy resOk) then
         error <- lift (get result "error");
         set_text_opt "nexus-gas-status"
           ("Gas status: " +:+ to_str (js_or error (JStr "Unavailable")))
       else
         nowMs <- call NowMs;
         let now := Num.div (to_number nowMs) (Num.of_Z 1000) in
         lastActivityAt <- lift (get result "lastActivityAt");
         active <- lift (if truthy lastActivityAt then
                           at_ <-! to_numeric lastActivityAt;
                           Ok (Num.leb (Num.sub now at_) activity_window)
                         else Ok false);
         canClaim <- lift (get result "canClaim");
         set_text_opt "nexus-gas-status"
           (if truthy canClaim then "Gas status: Daily gas available"
            else "Gas status: " +:+ (if active : bool then "Active / cooldown"
                                     else "Inactive until Nexus activity")) ;;
         nativeGas <- lift (get result "nativeGas");
         set_text_opt "nexus-gas-native"
           ("Native Gas: " +:+ shown_amount nativeGas 6 +:+ " CRYLO (GAS)") ;;
         daily <- lift (get result "dailyGasAmount");
         vault <- lift (get result "vaultBalance");
         set_text_opt "nexus-gas-daily"
           ("Daily Gas: " +:+ shown_amount daily 6 +:+ " CRYLO (GAS) · Vault: "
            +:+ shown_amount vault 4 +:+ " CRYLO (GAS)") ;;
         lastClaim <- lift (get result "lastGasClaimAt");
         set_text_opt "nexus-gas-activity"
           ("Last Activity: " +:+ fmtUnix lastActivityAt +:+ " · Last Claim: "
            +:+ fmtUnix lastClaim))
      (fun _ => set_text_opt "nexus-gas-status" "Gas status: error").

Definition createBoundNexusWallet : page :=
  loaded <- ensureCryLoAddressLoaded;
  if negb loaded then
    set_text_opt "nexus-linked-status" "Open a CryLo wallet before creating a Nexus wallet."
  else
    walletName <- get_state "walletName";
    address <- get_state "address";
    result <- crylo_call "nexusWalletCreate" [walletName; address];
    resOk <- lift (get result "ok");
    if negb (truthy resOk) then
      error <- lift (get result "error");
      set_text_opt "nexus-linked-status" ("Failed to create Nexus wallet: " +:+ to_str error)
    else
      nexusAddress <- lift (get result "nexusAddress");
      setNexusUiAddress nexusAddress ;;
      refreshNexusWcryloBalance ;;
      refreshNexusStakedBalance ;;
      refreshNexusPendingRewards ;;
      refreshNexusNodeStatus.

Definition loadSavedNexusLinkedAddress : page :=
  loaded <- ensureCryLoAddressLoaded;
  if negb loaded then setNexusUiAddress (JStr "")
  else
    walletName <- get_state "walletName";
    address <- get_state "address";
    result <- crylo_call "nexusWalletLoad" [walletName; address];
    resOk <- lift (get result "ok");
    found <- lift (if truthy resOk then get result "nexusAddress" else Ok JUndef);
    if truthy resOk && truthy found then setNexusUiAddress found else setNexusUiAddress (JStr "").
End page.

(** ** Runs with a state

    The fields of [State] are a map; every other operation is answered by [ext]. *)
Definition page_state : Type := gmap string jsval.

(** [v] of the field, [undefined] when it is missing. *)
Definition field (st : page_state) (f : string) : jsval := default JUndef (st !! f).

(** The initial [State]; [nexusAddress] is added by the first assignment. *)
Definition initial_State : page_state :=
  list_to_map
    [("ready", JBool false); ("walletOpen", JBool false); ("walletName", JStr "");
     ("currentHeight", JNum (Fin 0)); ("activeTab", JStr "transactions");
     ("refreshTimer", JNull); ("blockPoller", JNull); ("address", JStr "");
     ("unlockedBalance", JNum (Fin 0)); ("miningActive", JBool false);
     ("miningStatusTimer", JNull); ("miningStartHeight", JNull)].

Definition exec_page (ext : pop -> result jsval) (st : page_state) (o : pop) :
  page_state * result jsval :=
  match o with
  | GetState f => (st, Ok (match st !! f with Some v => v | None => JUndef end))
  | SetState f v => (<[f := v]> st, Ok JUndef)
  | _ => (st, ext o)
  end.

(** An operation that is not a call of the wallet or daemon API never throws on a complete page:
    its elements exist. *)
Definition complete_page (ext : pop -> result jsval) : Prop :=
  forall o, match o with Crylo _ _ => True | _ => exists v, ext o = Ok v end.

(** ** Functions that only show things

    On a complete page they end without an exception and leave [State] as it is. *)
Section shows.
Context (ext : pop -> result jsval) (Hc : complete_page ext).

Definition shows {A} (p : prog pop A) : Prop :=
  forall st, exists tr v, run (exec_page ext) p st = (st, tr, Ok v).

Lemma shows_ret {A} (a : A) : shows (Ret a).
Proof. intros st. by exists [], a. Qed.

Lemma shows_bind {A B} (p : prog pop A) (k : A -> prog pop B) :
  shows p -> (forall a, shows (k a)) -> shows (bind p k).
Proof.
  intros Hp Hk st. rewrite run_bind. destruct (Hp st) as (t1 & a & ->).
  destruct (Hk a st) as (t2 & b & ->). eauto.
Qed.

Lemma shows_call o :
  match o with Crylo _ _ | SetState _ _ => False | _ => True end -> shows (call o).
Proof.
  intros Ho st. rewrite run_call. specialize (Hc o).
  destruct o; try done; cbn [exec_page fst snd]; try (destruct Hc as [? ->]);
    eexists _, _; reflexivity.
Qed.

Definition no_assignment (o : pop) : Prop := match o with SetState _ _ => False | _ => True end.

(** What is tried may throw, if the handler does not. *)
Lemma shows_try {A} (p : prog pop A) (h : jserr -> prog pop A) :
  Only no_assignment p -> (forall e, shows (h e)) -> shows (try_catch p h).
Proof.
  intros Hp Hh st. rewrite run_try.
  assert (fst (fst (run (exec_page ext) p st)) = st) as E.
  { apply (Only_run_state _ no_assignment); [|done]. intros o Ho. by destruct o. }
  destruct (run (exec_page ext) p st) as [[st1 t1] [a|e]]; cbn in E; subst st1; [eauto|].
  destruct (Hh e st) as (t2 & v & ->). eauto.
Qed.
End shows.
