(* ===== verification/PageWallet.v ===== *)
(** * The page: wallet forms, balance and sending (electron/src/app.js) *)

From Stdlib Require Import Ascii String.
From S2P Require Import Prelude JsNumber JsString JsConv JsVal Json Prog MainEnv Amounts Page.

Section wallet_forms.
Context `{Locale}.
Local Open Scope prog_scope.

(** ** Opening, creating and restoring a wallet *)

(** [/^[a-zA-Z0-9_\-]+$/.test(name)] *)
Definition valid_name (name : string) : bool :=
  negb (String.eqb name "") &&
  all_chars (fun c => is_alnum c || Ascii.eqb c "_" || Ascii.eqb c "-") name.

(** The functions [refreshWalletList] and the variables [openBtn] and [openLoading] are used but
    not declared anywhere: evaluating them throws. *)
Definition reference_error (name : string) : jserr := Error (name +:+ " is not defined").
Definition refreshWalletList : page := Raise (reference_error "refreshWalletList").

Definition close_wallet (autosave : bool) : page :=
  walletRpc_call "close_wallet" (JObj [("autosave_current", JBool autosave)]) None.

Definition createWallet : page :=
  name0 <- call (Value "create-name");
  let name := trim (to_str name0) in
  pass <- call (Value "create-pass");
  pass2 <- call (Value "create-pass2");
  if String.eqb name "" then toast "Please enter a wallet name." "error"
  else if negb (valid_name name) then toast "Name: use only letters, numbers, - or _" "error"
  else if negb (strict_eq pass pass2) then toast "Passwords do not match." "error"
  else
    set_prop "create-btn" "disabled" (JBool true) ;;
    set_text "create-btn" "Creating..." ;;
    try_catch (close_wallet false) (fun _ => Ret JUndef) ;;
    res <- walletRpc_call "create_wallet"
             (JObj [("filename", JStr name); ("password", pass); ("language", JStr "English")])
             (Some 60000);
    resOk <- lift (get res "ok");
    if negb (truthy resOk) then
      set_prop "create-btn" "disabled" (JBool false) ;;
      set_text "create-btn" "Create Wallet" ;;
      error <- lift (get res "error");
      toast ("Failed: " +:+ to_str error) "error"
    else
      seedRes <- walletRpc_call "query_key" (JObj [("key_type", JStr "mnemonic")]) None;
      seedOk <- lift (get seedRes "ok");
      seed <- (if truthy seedOk then
                 result <- lift (get seedRes "result"); lift (get result "key")
               else Ret (JStr ("(could not retrieve seed – open the wallet and use "
                               +:+ quoted "query_key mnemonic" +:+ " in CLI)")));
      set_prop "create-seed-display" "textContent" seed ;;
      call (SetHidden "create-seed-section" false) ;;
      call (SetHidden "create-btn" true) ;;
      call (SetHidden "create-continue-btn" false) ;;
      set_state "walletName" (JStr name) ;;
      set_state "address" (JStr "") ;;
      set_state "nexusAddress" (JStr "") ;;
      clearNexusUiForWalletSwitch ;;
      refreshWalletList ;;
      toast "Wallet created! Save your seed phrase now." "success".

Definition setOpenWalletLoading (isLoading : bool) : page :=
  set_prop_opt "open-wallet-btn" "disabled" (JBool isLoading) ;;
  present <- call (HasElement "open-wallet-loading");
  if truthy present then call (SetHidden "open-wallet-loading" (negb isLoading)) else Ret JUndef.

Definition markPasswordInvalid (inputId : string) : page :=
  present <- call (HasElement inputId);
  if negb (truthy present) then Ret JUndef
  else
    set_prop inputId "style.border" (JStr "2px solid #ff4d4d") ;;
    set_prop inputId "style.boxShadow" (JStr "0 0 0 2px rgba(255, 77, 77, 0.25)") ;;
    call (Focus inputId).

(** The data load and the two timers; [refreshTimer] and [blockPoller] are replaced. *)
Definition openMainScreen : page :=
  call (SetHidden "setup-screen" true) ;;
  call (SetHidden "main-screen" false) ;;
  name <- get_state "walletName";
  set_prop "topbar-wallet-name" "textContent" name ;;
  call (Start "initialLoad") ;;
  old <- get_state "refreshTimer";
  (if truthy old then call (ClearTimer old) else Ret JUndef) ;;
  t <- call (Every "refreshAll" [] 30000);
  set_state "refreshTimer" t ;;
  oldPoller <- get_state "blockPoller";
  (if truthy oldPoller then call (ClearTimer oldPoller) else Ret JUndef) ;;
  p <- call (Every "blockPoll" [] 10000);
  set_state "blockPoller" p.

Definition openWallet : page :=
  setOpenWalletLoading true ;;
  name <- call (Value "open-select");
  pass <- call (Value "open-pass");
  if negb (truthy pass) then
    setOpenWalletLoading false ;; markPasswordInvalid "open-pass"
  else if negb (truthy name) then
    setOpenWalletLoading false ;; toast "Please select a wallet." "error"
  else
    try_catch (close_wallet false) (fun _ => Ret JUndef) ;;
    res <- walletRpc_call "open_wallet" (JObj [("filename", name); ("password", pass)]) (Some 30000);
    resOk <- lift (get res "ok");
    if negb (truthy resOk) then
      setOpenWalletLoading false ;; markPasswordInvalid "open-pass"
    else
      set_state "walletName" name ;;
      set_state "address" (JStr "") ;;
      set_state "nexusAddress" (JStr "") ;;
      clearNexusUiForWalletSwitch ;;
      set_state "address" (JStr "") ;;
      openMainScreen.

(** The number of pieces of [s.split(/\s+/)]: one more than the number of runs of white space. *)
Fixpoint split_ws_count (fuel : nat) (in_ws : bool) (s : string) : Z :=
  match fuel with
  | O => 1
  | S fuel' =>
      match s with
      | "" => 1
      | String _ r =>
          match find (fun w => starts_with w s) white_space with
          | Some w => (if in_ws then 0 else 1) + split_ws_count fuel' true (sdrop (String.length w) s)
          | None => split_ws_count fuel' false r
          end
      end
  end.
Definition word_count (s : string) : Z := split_ws_count (String.length s) false s.

Definition restoreWallet : page :=
  name0 <- call (Value "restore-name");
  seed0 <- call (Value "restore-seed");
  height0 <- call (Value "restore-height");
  pass <- call (Value "restore-pass");
  let name := trim (to_str name0) in
  let seed := trim (to_str seed0) in
  let height := js_or (JNum (parse_int10 (to_str height0))) (JNum (Fin 0)) in
  if String.eqb name "" then toast "Please enter a wallet name." "error"
  else if String.eqb seed "" then toast "Please enter your seed phrase." "error"
  else if negb (word_count seed =? 25) then toast "Seed must be exactly 25 words." "error"
  else
    res <- walletRpc_call "restore_deterministic_wallet"
             (JObj [("filename", JStr name); ("seed", JStr seed); ("password", pass);
                    ("restore_height", height); ("language", JStr "English");
                    ("autosave_current", JBool true)]) (Some 60000);
    resOk <- lift (get res "ok");
    if negb (truthy resOk) then
      error <- lift (get res "error");
      toast ("Failed: " +:+ to_str error) "error"
    else
      set_state "walletName" (JStr name) ;;
      set_state "address" (JStr "") ;;
      set_state "nexusAddress" (JStr "") ;;
      clearNexusUiForWalletSwitch ;;
      refreshWalletList ;;
      toast "Wallet restored successfully!" "success" ;;
      openMainScreen.

(** ** The setup screen *)

Definition setup_forms : list string := ["form-create"; "form-open"; "form-restore"].

Definition backToSetupCards : page :=
  call (SetHidden "setup-cards" false) ;;
  mapM (fun id => call (SetHidden id true)) setup_forms ;;
  Ret JUndef.

Definition showSetupForm (type : string) : page :=
  call (SetHidden "setup-cards" true) ;;
  mapM (fun id => call (SetHidden id true)) setup_forms ;;
  call (SetHidden ("form-" +:+ type) false) ;;
  if String.eqb type "create" then
    call (SetHidden "create-seed-section" true) ;;
    call (SetHidden "create-btn" false) ;;
    call (SetHidden "create-continue-btn" true)
  else Ret JUndef.

(** An empty list ends in the use of the undeclared [openBtn]. *)
Definition loadWalletList : page :=
  res <- crylo_call "listWallets" [];
  set_prop "open-select" "innerHTML" (JStr "") ;;
  resOk <- lift (get res "ok");
  wallets <- lift (get res "wallets");
  len <- lift (if truthy resOk then get wallets "length" else Ok JUndef);
  if negb (truthy resOk) || strict_eq len (JNum (Fin 0)) then
    set_prop "open-select" "innerHTML"
      (JStr ("<option value=" +:+ quoted "" +:+ ">No wallets found</option>")) ;;
    Raise (reference_error "openBtn")
  else
    ws <- lift (as_array wallets);
    mapM (fun w => call (Append "open-select" (JObj [("value", w); ("textContent", w)]))) ws ;;
    Ret JUndef.

Definition showSetup : page :=
  call (SetHidden "setup-screen" false) ;;
  call (SetHidden "main-screen" true) ;;
  backToSetupCards ;;
  call (Start "loadWalletList").

Definition hideSplash : page := call (SetHidden "splash" true).

(** Both branches on the number of wallets show the setup screen. *)
Definition showSetupOrMain : page :=
  res <- crylo_call "listWallets" [];
  resOk <- lift (get res "ok");
  wallets <- lift (if truthy resOk then get res "wallets" else Ok (JArr []));
  hideSplash ;;
  lift (get wallets "length") ;;
  showSetup.

Definition clearPasswordInvalid (inputId : string) : page :=
  present <- call (HasElement inputId);
  if negb (truthy present) then Ret JUndef
  else
    set_prop inputId "style.border" (JStr "") ;;
    set_prop inputId "style.boxShadow" (JStr "").

(** The listeners of the password fields (the default action of Enter is prevented). *)
Definition password_inputs : list string := ["create-pass"; "create-pass2"; "open-pass"; "restore-pass"].
Definition on_password_input (id : string) : page := clearPasswordInvalid id.
Definition on_password_key (id key : string) : page :=
  if negb (String.eqb key "Enter") then Ret JUndef
  else if String.eqb id "create-pass" || String.eqb id "create-pass2" then call (Start "createWallet")
  else if String.eqb id "open-pass" then call (Start "openWallet")
  else if String.eqb id "restore-pass" then call (Start "restoreWallet")
  else Ret JUndef.

(** The reaction to a message of the main process about the start of the back end. *)
Definition onStartupStatus (state message : jsval) : page :=
  set_prop "splash-msg" "textContent" message ;;
  if strict_eq state (JStr "ready") then
    set_state "ready" (JBool true) ;;
    call (Later "showSetupOrMain" 600)
  else if strict_eq state (JStr "error") then
    set_prop "splash-error" "textContent" message ;;
    call (SetHidden "splash-error" false) ;;
    set_prop "splash-progress" "style.animation" (JStr "none") ;;
    set_prop "splash-progress" "style.background" (JStr "var(--danger)") ;;
    set_prop "splash-progress" "style.width" (JStr "100%")
  else Ret JUndef.

(** The reactions to the exit of the daemon and of the wallet RPC: a toast of zero milliseconds. *)
Definition exit_notice (what : string) (code : jsval) : page :=
  if negb (strict_eq code (JNum (Fin 0))) && negb (strict_eq code JNull) then
    call (Toast (what +:+ " exited (code " +:+ to_str code +:+ "). Please restart the app.")
            "error" 0)
  else Ret JUndef.
Definition onDaemonExit (code : jsval) : page := exit_notice "Daemon process" code.
Definition onWalletRpcExit (code : jsval) : page := exit_notice "Wallet RPC" code.

Definition close_timer (field : string) : page :=
  t <- get_state field;
  if truthy t then call (ClearTimer t) ;; set_state field JNull else Ret JUndef.

Definition switchWallet : page :=
  confirmed <- crylo_call "confirm"
    [JObj [("title", JStr "Switch Wallet");
           ("message", JStr "Close current wallet and go back to wallet selection?");
           ("buttons", JArr [JStr "Yes"; JStr "Cancel"])]];
  if negb (truthy confirmed) then Ret JUndef
  else
    close_wallet true ;;
    set_state "walletName" (JStr "") ;;
    set_state "address" (JStr "") ;;
    close_timer "refreshTimer" ;;
    close_timer "blockPoller" ;;
    showSetup.

(** ** Refreshing the main screen *)

Definition refreshAll : page :=
  call (AwaitAll ["updateSyncStatus"; "updateBalance"; "refreshNexusWcryloBalance";
                  "refreshNexusStakedBalance"; "refreshNexusPendingRewards"; "refreshActiveTab"]).

(** The callback of [blockPoller]. *)
Definition blockPoll : page :=
  res <- crylo_call "daemonRpc" [JStr "get_info"];
  resOk <- lift (get res "ok");
  if negb (truthy resOk) then Ret JUndef
  else
    info <- lift (get res "result");
    height <- lift (get info "height");
    let newHeight := js_or height (JNum (Fin 0)) in
    current <- get_state "currentHeight";
    if js_gtb newHeight (to_number current) then
      set_state "currentHeight" newHeight ;; refreshAll
    else Ret JUndef.

(** The hash rate of the last ten blocks. *)
Definition rangeHashrate (height : jsval) : prog pop jsval :=
  h <- lift (to_numeric height);
  rangeRes <- crylo_call "daemonRpc"
    [JStr "get_block_headers_range";
     JObj [("start_height", JNum (Num.sub h (Num.of_Z 11)));
           ("end_height", JNum (Num.sub h (Num.of_Z 1)))]];
  resOk <- lift (get rangeRes "ok");
  if negb (truthy resOk) then Ret JUndef
  else
    result <- lift (get rangeRes "result");
    headers <- lift (get result "headers");
    if negb (truthy headers) then Ret JUndef
    else
      let hs := match headers with JArr l => l | _ => [] end in
      if (length hs <? 2)%nat then Ret JUndef
      else
        let newest := List.last hs JUndef in
        let oldest := List.hd JUndef hs in
        t1 <- lift (get newest "timestamp"); n1 <- lift (to_numeric t1);
        t0 <- lift (get oldest "timestamp"); n0 <- lift (to_numeric t0);
        let avgTime := Num.div (Num.sub n1 n0) (Num.of_Z (Z.of_nat (length hs) - 1)) in
        if Num.ltb (Fin 0) avgTime then
          d <- lift (get newest "difficulty"); difficulty <- lift (to_numeric d);
          set_text "sb-nethr" (Amounts.fmtHashrate (Num.div difficulty avgTime))
        else Ret JUndef.

(** The hash rate from the difficulty and the block target of 210 seconds. *)
Definition targetHashrate (difficulty : jsval) : page :=
  if truthy difficulty then
    d <- lift (to_numeric difficulty);
    set_text "sb-nethr" (Amounts.fmtHashrate (Num.div d (Num.of_Z 210)))
  else Ret JUndef.

Definition or_zero (v : jsval) : jsval := js_or v (JNum (Fin 0)).

Definition updateSyncStatus : page :=
  res <- crylo_call "daemonRpc" [JStr "get_info"];
  resOk <- lift (get res "ok");
  if negb (truthy resOk) then
    set_prop "sync-dot" "className" (JStr "sync-dot offline") ;;
    set_text "sync-label" "Daemon offline"
  else
    info <- lift (get res "result");
    height <- lift (get info "height");
    set_state "currentHeight" (or_zero height) ;;
    set_text "sb-height" (localeString (or_zero height)) ;;
    outgoing <- lift (get info "outgoing_connections_count");
    incoming <- lift (get info "incoming_connections_count");
    set_text "sb-peers" (to_str (or_zero outgoing) +:+ "/" +:+ to_str (or_zero incoming)) ;;
    difficulty <- lift (get info "difficulty");
    (if js_gtb height (Num.of_Z 10) then
       try_catch (rangeHashrate height) (fun _ => targetHashrate difficulty)
     else targetHashrate difficulty) ;;
    target <- lift (get info "target_height");
    set_prop "sync-dot" "className" (JStr "sync-dot synced") ;;
    if js_gtb (or_zero target) (to_number (or_zero height)) then
      set_text "sync-label"
        ("Wallet Synced 100% · " +:+ localeString (or_zero height) +:+ " blocks")
    else
      set_text "sync-label" ("Wallet Synced · " +:+ localeString (or_zero height) +:+ " blocks").

Definition crylo_html (amount : string) : jsval :=
  JStr (amount +:+ "<span class=" +:+ quoted "balance-unit" +:+ "> CryLo</span>").

(** [Amounts.fmt] of a number. *)
Definition fmt_num (x : num) : prog pop string := lift (Amounts.fmt (JNum x)).

(** [res.result?.result || res.result || {}] *)
Definition inner_result (result : jsval) : jsval :=
  js_or (get_opt result "result") (js_or result (JObj [])).

Definition lockedText (lockedShown : string) (btu : jsval) : string :=
  if js_gtb btu (Fin 0) && js_leb btu (Num.of_Z 4) then
    "⏳ " +:+ lockedShown +:+ " CryLo locked — waiting confirmations (~" +:+ to_str btu +:+ " blocks)"
  else if js_gtb btu (Num.of_Z 4) then
    "🔒 " +:+ lockedShown +:+ " CryLo in vesting (" +:+ to_str btu +:+ " blocks remaining)"
  else "🔒 " +:+ lockedShown +:+ " CryLo locked".

Definition updateBalance : page :=
  res <- walletRpc_call "get_balance" account0 None;
  resOk <- lift (get res "ok");
  if negb (truthy resOk) then Ret JUndef
  else
    result <- lift (get res "result");
    let r := inner_result result in
    balance <- lift (get r "balance");
    unlocked_balance <- lift (get r "unlocked_balance");
    let total := to_number (or_zero balance) in
    let unlocked := to_number (or_zero unlocked_balance) in
    let locked := Num.max (Fin 0) (Num.sub total unlocked) in
    totalShown <- fmt_num total;
    set_prop "bal-total" "innerHTML" (crylo_html totalShown) ;;
    unlockedShown <- fmt_num unlocked;
    set_prop "bal-unlocked" "innerHTML" (crylo_html unlockedShown) ;;
    lockedShown <- fmt_num locked;
    set_prop "bal-locked" "innerHTML" (crylo_html lockedShown) ;;
    set_text_opt "send-max-label" ("Available: " +:+ unlockedShown +:+ " CryLo") ;;
    hasInfo <- call (HasElement "send-locked-info");
    (if negb (truthy hasInfo) then Ret JUndef
     else if Num.ltb (Fin 0) locked then
       btu <- lift (get r "blocks_to_unlock");
       set_text "send-locked-info" (lockedText lockedShown (or_zero btu)) ;;
       call (SetHidden "send-locked-info" false)
     else call (SetHidden "send-locked-info" true)) ;;
    set_state "unlockedBalance" (JNum unlocked).

(** ** The address of the open wallet *)

Definition loadAddress : page :=
  res <- walletRpc_call "get_address" account0 None;
  resOk <- lift (get res "ok");
  if negb (truthy resOk) then Ret JUndef
  else
    result <- lift (get res "result");
    if negb (truthy result) then Ret JUndef
    else
      newAddress <- lift (get result "address");
      if negb (truthy newAddress) then Ret JUndef
      else
        old <- get_state "address";
        let changed := negb (strict_eq old newAddress) in
        set_state "address" newAddress ;;
        shown <- get_state "address";
        set_prop "receive-address" "textContent" shown ;;
        (if changed then clearNexusUiForWalletSwitch else Ret JUndef) ;;
        loadSavedNexusLinkedAddress ;;
        refreshNexusWcryloBalance ;;
        refreshNexusStakedBalance ;;
        refreshNexusPendingRewards ;;
        refreshNexusNodeStatus.

Definition copyAddress : page :=
  address <- get_state "address";
  if negb (truthy address) then Ret JUndef
  else
    call (Clipboard (to_str address)) ;;
    call (Toast "Address copied!" "success" 2000).

Definition copyPaymentRequest : page :=
  amount <- call (Value "req-amount");
  address <- get_state "address";
  if negb (truthy address) then toast "Address not loaded." "error"
  else
    call (Clipboard (if truthy amount
                     then "crylo:" +:+ to_str address +:+ "?tx_amount=" +:+ to_str amount
                     else to_str address)) ;;
    call (Toast "Payment request copied!" "success" 2000).

(** ** Sending *)

(** [v.slice(0, 16)] *)
Definition slice16 (v : jsval) : result string :=
  match v with
  | JStr s => Ok (slice_first s 16)
  | JUndef => Throw (type_error_read "undefined" "slice")
  | JNull => Throw (type_error_read "null" "slice")
  | _ => Throw (Error "slice is not a function")
  end.

Definition set_fields_empty (ids : list string) : prog pop (list jsval) :=
  mapM (fun id => set_prop id "value" (JStr "")) ids.

Definition sendTx : page :=
  addr0 <- call (Value "send-addr");
  amount0 <- call (Value "send-amount");
  pid0 <- call (Value "send-pid");
  note0 <- call (Value "send-note");
  let addr := trim (to_str addr0) in
  let amountText := trim (to_str amount0) in
  let pid := trim (to_str pid0) in
  let note := trim (to_str note0) in
  if String.eqb addr "" then toast "Please enter a recipient address." "error"
  else
    match Amounts.cryloToAtomic (JStr amountText) with
    | Throw err =>
        toast (if String.eqb (message err) "" then "Please enter a valid amount." else message err)
          "error"
    | Ok amountAtomic =>
        confirmed <- crylo_call "confirm"
          [JObj [("title", JStr "Confirm Send");
                 ("message", JStr ("Send " +:+ amountText +:+ "  CryLo to:" +:+ Json.newline +:+ addr
                                   +:+ Json.newline +:+ Json.newline +:+ "This cannot be undone."));
                 ("buttons", JArr [JStr "Send"; JStr "Cancel"])]];
        if negb (truthy confirmed) then Ret JUndef
        else
          set_prop "send-btn" "disabled" (JBool true) ;;
          set_text "send-btn" "Sending..." ;;
          let destinations :=
            JArr [JObj [("amount", JNum (number_of_string amountAtomic)); ("address", JStr addr)]] in
          let params :=
            (* if (pid) params.payment_id = pid; if (note) params.tx_extra = note; *)
            ([("destinations", destinations); ("account_index", JNum (Fin 0))]
             ++ (if String.eqb pid "" then [] else [("payment_id", JStr pid)])
             ++ (if String.eqb note "" then [] else [("tx_extra", JStr note)]))%list in
          res <- walletRpc_call "transfer" (JObj params) None;
          set_prop "send-btn" "disabled" (JBool false) ;;
          set_text "send-btn" "Send →" ;;
          resOk <- lift (get res "ok");
          if negb (truthy resOk) then
            error <- lift (get res "error");
            toast ("Send failed: " +:+ to_str error) "error"
          else
            result <- lift (get res "result");
            hash <- lift (get result "tx_hash");
            shown <- lift (slice16 hash);
            call (Toast ("Sent! TXID: " +:+ shown +:+ "...") "success" 6000) ;;
            set_fields_empty ["send-addr"; "send-amount"; "send-pid"; "send-note"] ;;
            call (Later "updateBalance" 3000)
    end.

(** ** Consolidating outputs *)

Definition consolidate_question : pop :=
  Crylo "confirm"
    [JObj [("type", JStr "question"); ("title", JStr "Consolidate UTXOs");
           ("message", JStr ("This will merge all your small inputs (UTXOs) into one large output by sending your entire balance to yourself."
              +:+ Json.newline +:+ Json.newline
              +:+ "This is needed when you have many small mining rewards and want to send large amounts."
              +:+ Json.newline +:+ Json.newline
              +:+ "A small network fee will be deducted."
              +:+ Json.newline +:+ Json.newline +:+ "Proceed?"));
           ("buttons", JArr [JStr "Consolidate"; JStr "Cancel"])]].

(** One tick of the interval that follows the first transaction; [timer] is its handle. *)
Definition consolidateTick (timer txid : jsval) : page :=
  try_catch
    (txRes <- walletRpc_call "get_transfer_by_txid" (JObj [("txid", txid)]) None;
     resOk <- lift (get txRes "ok");
     result <- lift (get txRes "result");
     transfer <- lift (if truthy resOk && truthy result then get result "transfer" else Ok JUndef);
     if negb (truthy transfer) then Ret JUndef
     else
       c <- lift (get transfer "confirmations");
       let conf := or_zero c in
       if Num.leb (Num.of_Z 4) (to_number conf) then
         call (ClearTimer timer) ;;
         set_text "consolidate-info"
           ("✅ Consolidation confirmed! (" +:+ to_str conf +:+ " blocks)") ;;
         set_prop "consolidate-info" "style.color" (JStr "var(--success)") ;;
         call (Later "hideConsolidateInfo" 10000) ;;
         call (Start "updateBalance")
       else set_text "consolidate-info" ("Confirming: " +:+ to_str conf +:+ "/4 blocks..."))
    (fun _ => Ret JUndef).

Definition sweep (myAddress : jsval) : page :=
  res <- walletRpc_call "sweep_all"
           (JObj [("address", myAddress); ("account_index", JNum (Fin 0))]) (Some 300000);
  resOk <- lift (get res "ok");
  if negb (truthy resOk) then
    error <- lift (get res "error");
    toast ("Consolidation failed: " +:+ to_str error) "error" ;;
    set_text "consolidate-info" ("Failed: " +:+ to_str error)
  else
    result <- lift (get res "result");
    hashes <- lift (get result "tx_hash_list");
    let txList := js_or hashes (JArr []) in
    len <- lift (get txList "length");
    let txCount := to_str (js_or len (JNum (Num.of_Z 1))) in
    call (Toast ("Consolidation sent! " +:+ txCount +:+ " transaction(s). Tracking confirmations...")
            "success" 8000) ;;
    set_text "consolidate-info"
      (txCount +:+ " tx sent. Waiting for 4 block confirmations (0/4)...") ;;
    call (Later "updateBalance" 5000) ;;
    if js_gtb len (Fin 0) then
      txid <- lift (index txList 0);
      call (Every "consolidateTick" [txid] 30000)
    else Ret JUndef.

Definition consolidateUtxos : page :=
  addrRes <- walletRpc_call "get_address" account0 None;
  addrOk <- lift (get addrRes "ok");
  if negb (truthy addrOk) then
    error <- lift (get addrRes "error");
    toast ("Failed to get wallet address: " +:+ to_str error) "error"
  else
    addrResult <- lift (get addrRes "result");
    myAddress <- lift (get addrResult "address");
    confirmed <- call consolidate_question;
    if negb (truthy confirmed) then Ret JUndef
    else
      set_prop "consolidate-btn" "disabled" (JBool true) ;;
      set_text "consolidate-btn" "🔄 Consolidating..." ;;
      set_prop "consolidate-info" "style.display" (JStr "block") ;;
      set_text "consolidate-info" "Sweeping all outputs to your address..." ;;
      try_catch (sweep myAddress)
        (fun e =>
           toast ("Consolidation error: " +:+ message e) "error" ;;
           set_text "consolidate-info" ("Error: " +:+ message e)) ;;
      set_prop "consolidate-btn" "disabled" (JBool false) ;;
      set_text "consolidate-btn" "🔄 Consolidate UTXOs (merge small inputs)".

(** ** Tabs *)

Definition refreshActiveTab : page :=
  tab <- get_state "activeTab";
  if strict_eq tab (JStr "transactions") then call (AwaitAll ["loadTransactions"])
  else if strict_eq tab (JStr "vesting") then call (AwaitAll ["loadVesting"])
  else if strict_eq tab (JStr "receive") then loadAddress
  else Ret JUndef.

Definition start_if (b : bool) (f : string) : page := if b then call (Start f) else Ret JUndef.

Definition switchTab (tab : string) : page :=
  set_state "activeTab" (JStr tab) ;;
  call (SelectTab tab) ;;
  start_if (String.eqb tab "transactions") "loadTransactions" ;;
  start_if (String.eqb tab "vesting") "loadVesting" ;;
  start_if (String.eqb tab "receive") "loadAddress" ;;
  start_if (String.eqb tab "mining") "initMiningTab" ;;
  (if String.eqb tab "nexus" then
     clearNexusUiForWalletSwitch ;; call (Start "loadNexusTab")
   else Ret JUndef) ;;
  start_if (String.eqb tab "nexusTx") "loadNexusTransactions" ;;
  start_if (String.eqb tab "nexusNfts") "loadSavedNexusLinkedAddress".

Definition toggleAdvanced : page :=
  hidden <- call (IsHidden "advanced-fields");
  if truthy hidden then
    call (SetHidden "advanced-fields" false) ;;
    set_text "advanced-toggle" "⚙ Hide advanced options"
  else
    call (SetHidden "advanced-fields" true) ;;
    set_text "advanced-toggle" "⚙ Advanced options".
End wallet_forms.

(** ** Properties *)

(** *** Sending *)

Definition is_transfer (o : pop) : bool :=
  match o with
  | Crylo name (JStr m :: _) => String.eqb name "walletRpc" && String.eqb m "transfer"
  | _ => false
  end.
Definition no_transfer (o : pop) : Prop := is_transfer o = false.
Definition transfers (tr : list (event pop)) : list (event pop) :=
  List.filter (fun ev => is_transfer (fst ev)) tr.

Lemma transfers_app t1 t2 : transfers (t1 ++ t2) = (transfers t1 ++ transfers t2)%list.
Proof. apply List.filter_app. Qed.

Lemma transfers_skip o r tr : no_transfer o -> transfers ((o, r) :: tr) = transfers tr.
Proof. intros Ho. cbn [transfers List.filter fst]. by rewrite Ho. Qed.

Lemma Only_transfers {A} (p : prog pop A) tr x :
  Only no_transfer p -> Runs p tr x -> transfers tr = [].
Proof.
  intros Hp Hr. pose proof (Only_Runs _ _ _ _ Hp Hr) as H. clear Hp Hr.
  induction H as [|ev tr Hev _ IH]; [done|]. cbn [transfers List.filter]. by rewrite Hev.
Qed.

(** The question put to the user, and the request sent when it is answered yes. *)
Definition send_question (amountText addr : string) : pop :=
  Crylo "confirm"
    [JObj [("title", JStr "Confirm Send");
           ("message", JStr ("Send " +:+ amountText +:+ "  CryLo to:" +:+ Json.newline +:+ addr
                             +:+ Json.newline +:+ Json.newline +:+ "This cannot be undone."));
           ("buttons", JArr [JStr "Send"; JStr "Cancel"])]].

(** The parameters of a request that pays [amount] to [addr], and nothing else. *)
Definition pays (params : jsval) (amount : num) (addr : string) : Prop :=
  get_opt params "destinations" = JArr [JObj [("amount", JNum amount); ("address", JStr addr)]].

Ltac page_ops :=
  unfold set_fields_empty, toast, set_text, set_prop, set_state, get_state, crylo_call,
    walletRpc_call; cbn [mapM]; only_with ltac:(reflexivity).
Ltac no_more_transfers H :=
  rewrite ?transfers_skip by reflexivity; apply Only_transfers in H as ->; [|page_ops].

(** C6 (safety). "Send" asks the wallet for at most one transfer, and only after the user has
    answered yes to a question that shows the recipient and the amount of that very transfer:
    the recipient is the trimmed text of the address field, the amount is the number of atomic
    units that the shown text denotes. *)
Theorem send_confirmed (tr : list (event pop)) (x : result jsval) :
  Runs sendTx tr x ->
  match transfers tr with
  | [] => True
  | [t] =>
      exists addr0 amount0 addr amountText atomic answer params r pre post,
        (Value "send-addr", Ok addr0) ∈ tr /\ addr = trim (to_str addr0) /\ addr <> "" /\
        (Value "send-amount", Ok amount0) ∈ tr /\ amountText = trim (to_str amount0) /\
        Amounts.cryloToAtomic (JStr amountText) = Ok atomic /\
        t = (Crylo "walletRpc" [JStr "transfer"; params], r) /\
        pays params (number_of_string atomic) addr /\
        tr = (pre ++ t :: post)%list /\
        (send_question amountText addr, Ok answer) ∈ pre /\ truthy answer = true
  | _ => False
  end.
Proof.
  unfold sendTx. intros Hr.
  repeat match goal with
  | H : Runs (bind (call (Value _)) _) _ _ |- _ =>
      apply Runs_bind_call in H as ([?|?] & ? & -> & H); [|by destruct H as [-> ->]]
  end.
  cbv zeta in Hr.
  match type of Hr with context [String.eqb ?a ""] => destruct (String.eqb_spec a "") end.
  { by no_more_transfers Hr. }
  match type of Hr with context [Amounts.cryloToAtomic ?a] =>
    destruct (Amounts.cryloToAtomic a) as [atomic|err] eqn:Hatomic end.
  2: { by no_more_transfers Hr. }
  apply Runs_bind_call in Hr as ([answer|?] & ? & -> & Hr); [|by destruct Hr as [-> ->]].
  destruct (truthy answer) eqn:Hanswer; cbn [negb] in Hr; [|by no_more_transfers Hr].
  do 2 (apply Runs_bind_call in Hr as ([?|?] & ? & -> & Hr); [|by destruct Hr as [-> ->]]).
  apply Runs_bind_call in Hr as (r & post & -> & Hr).
  assert (Hpost : transfers post = []).
  { destruct r; [by no_more_transfers Hr|]. by destruct Hr as [-> _]. }
  rewrite !transfers_skip by reflexivity.
  match goal with |- context [transfers ((?o, ?v) :: post)] =>
    change (transfers ((o, v) :: post)) with ((o, v) :: transfers post) end.
  rewrite Hpost.
  eexists a, a0, _, _, atomic, answer, _, r, [_; _; _; _; _; _; _], post.
  split_and!; [|reflexivity|exact n| |reflexivity|exact Hatomic|reflexivity|reflexivity
              |reflexivity| |exact Hanswer];
    unfold send_question; rewrite ?elem_of_cons; tauto.
Qed.

(** A page where 1.5 CryLo are sent to "addr" and everything is answered favourably. *)
Definition sample_page (o : pop) : result jsval :=
  match o with
  | Value "send-addr" => Ok (JStr " addr ")
  | Value "send-amount" => Ok (JStr "1.5")
  | Value _ => Ok (JStr "")
  | Crylo "confirm" _ => Ok (JBool true)
  | Crylo "walletRpc" _ =>
      Ok (JObj [("ok", JBool true); ("result", JObj [("tx_hash", JStr "0123456789abcdef0123")])])
  | HasElement _ => Ok (JBool true)
  | _ => Ok JUndef
  end.

Definition sample_send := run (exec_page sample_page) sendTx ∅.

Lemma send_confirmed_witness :
  transfers (snd (fst sample_send))
  = [(Crylo "walletRpc"
        [JStr "transfer";
         JObj [("destinations",
                JArr [JObj [("amount", JNum (Num.of_Z 150000000000)); ("address", JStr "addr")]]);
               ("account_index", JNum (Fin 0))]],
      Ok (JObj [("ok", JBool true); ("result", JObj [("tx_hash", JStr "0123456789abcdef0123")])]))]
  /\ exists addr amountText answer pre post,
     snd (fst sample_send) = (pre ++ post)%list
     /\ (send_question amountText addr, Ok answer) ∈ pre /\ truthy answer = true.
Proof.
  split; [by vm_compute|].
  pose proof (send_confirmed _ _ (run_is_Runs (exec_page sample_page) sendTx ∅)) as H.
  fold sample_send in H.
  set (t := transfers _) in H. vm_compute in t. subst t.
  destruct H as (addr0 & amount0 & addr & amountText & atomic & answer & params & r & pre & post
                 & _ & _ & _ & _ & _ & _ & _ & _ & H9 & H10 & H11).
  eexists addr, amountText, answer, pre, _. exact (conj H9 (conj H10 H11)).
Defined.
