(* ===== verification/PageTx.v ===== *)
(** * The page: lists of transfers and vesting rows (electron/src/app.js)

    What the wallet's transfers are turned into: the list of transactions, newest first with
    unconfirmed ones on top, and the table of mining rewards, each split into an instant and a
    vested half.  Block heights of replies are numbers. *)

From Stdlib Require Import Ascii String.
From S2P Require Import Prelude JsNumber JsString JsConv JsVal Json Prog MainEnv Amounts Page PageWallet.

Section tx_lists.
Context `{Locale}.
Local Open Scope prog_scope.

Definition fmtDate (ts : jsval) : result string :=
  if negb (truthy ts) then Ok "—"
  else t <-! to_numeric ts; Ok (localeDate (Num.mul t (Num.of_Z 1000))).

(** ** Mined coins, by halves *)

Record split_balances := SplitBalances {
  sb_found : bool;
  sb_total : num;
  sb_unlocked : num;
  sb_locked : num;
}.

(** [typeof] tests on a transfer. *)
Definition has_type (tx : jsval) (type : string) : result bool :=
  t <-! get tx "type"; Ok (strict_eq t (JStr type)).

(** One transfer: the two sums after it. *)
Definition add_mined (acc : num * num) (tx : jsval) : result (num * num) :=
  let '(instant, vested) := acc in
  block <-! has_type tx "block";
  if negb block then Ok acc
  else
    a <-! get tx "amounts";
    let amounts := match a with JArr l => map to_number l | _ => [] end in
    match amounts with
    | x :: y :: _ => Ok (Num.add instant x, Num.add vested y)
    | _ =>
        v <-! get tx "amount";
        let amount := to_number (or_zero v) in
        let half := Num.floor (Num.div amount (Num.of_Z 2)) in
        Ok (Num.add instant half, Num.add vested (Num.sub amount half))
    end.

Fixpoint sum_mined (acc : num * num) (txs : list jsval) : result (num * num) :=
  match txs with
  | [] => Ok acc
  | tx :: txs' => acc' <-! add_mined acc tx; sum_mined acc' txs'
  end.

Definition getMinedSplitBalances : prog pop split_balances :=
  res <- walletRpc_call "get_transfers" (JObj [("in", JBool true)]) None;
  result <- lift (get res "result");
  let r := inner_result result in
  i <- lift (get r "in");
  txs <- lift (as_array (js_or i (JArr [])));
  sums <- lift (sum_mined (Fin 0, Fin 0) txs);
  let '(instant, vested) := sums in
  Ret (SplitBalances (Num.ltb (Fin 0) (Num.add instant vested)) (Num.add instant vested)
         instant vested).

(** ** The list of transactions *)

Definition height_of (tx : jsval) : num := to_number (or_zero (get_opt tx "height")).

(** The comparator of the sort: [cmp(a, b) <= 0]. *)
Definition tx_before (a b : jsval) : bool :=
  let ha := height_of a in
  let hb := height_of b in
  let zero h := Num.eqb h (Fin 0) in
  if zero ha && negb (zero hb) then true
  else if zero hb && negb (zero ha) then false
  else Num.leb (Num.sub hb ha) (Fin 0).

(** [r.k || []], spread into an array. *)
Definition transfers_of (r : jsval) (k : string) : result (list jsval) :=
  v <-! get r k; as_array (js_or v (JArr [])).

Definition all_transfers (r : jsval) : result (list jsval) :=
  i <-! transfers_of r "in";
  o <-! transfers_of r "out";
  p <-! transfers_of r "pool";
  q <-! transfers_of r "pending";
  Ok (i ++ o ++ p ++ q)%list.

(** [list.every] and [list.filter] with a test that may throw. *)
Fixpoint filter_result {X} (f : X -> result bool) (l : list X) : result (list X) :=
  match l with
  | [] => Ok []
  | x :: l' => b <-! f x; l'' <-! filter_result f l'; Ok (if b : bool then x :: l'' else l'')
  end.
Fixpoint map_result {X Y} (f : X -> result Y) (l : list X) : result (list Y) :=
  match l with
  | [] => Ok []
  | x :: l' => y <-! f x; ys <-! map_result f l'; Ok (y :: ys)
  end.

(** [new Set(txs.filter(t => t.type === 'out').map(t => t.txid))] *)
Definition out_txids (txs : list jsval) : result (list jsval) :=
  outs <-! filter_result (fun t => has_type t "out") txs;
  map_result (fun t => get t "txid") outs.

Definition badge (style text : string) : string :=
  "<div class=" +:+ quoted "tx-locked-badge" +:+ style +:+ ">" +:+ text +:+ "</div>".
Definition status_badge (isPending isMined isChange isLocked : bool) : string :=
  if isPending && negb isMined then
    badge (" style=" +:+ quoted "background:rgba(110,69,226,0.2);color:#a78bfa") "⏳ Pending"
  else if isChange then
    badge (" style=" +:+ quoted "background:rgba(79,195,247,0.1);color:#4fc3f7") "↩ Change"
  else if isLocked then badge "" "🔒 locked"
  else "".

(** The element of one transfer: its content and its tooltip (lines without indentation). *)
Definition tx_item (outTxids : list jsval) (tx : jsval) : result jsval :=
  isMined <-! has_type tx "block";
  isOut0 <-! has_type tx "out";
  isPend <-! has_type tx "pending";
  let isOut := isOut0 || isPend in
  height <-! get tx "height";
  let isPending := negb (truthy height) || strict_eq height (JNum (Fin 0)) in
  isIn <-! has_type tx "in";
  txid <-! get tx "txid";
  let isChange := isIn && existsb (strict_eq txid) outTxids in
  let icon := if isMined : bool then "⛏" else if isOut then "↑" else if isChange then "↩" else "↓" in
  let cls := if isMined then "block" else if isOut then "out" else "in" in
  let amtCls := if isMined then "mined" else if isOut then "negative" else "positive" in
  let amtSign := if isOut then "-" else "+" in
  locked <-! get tx "locked";
  timestamp <-! get tx "timestamp";
  date <-! fmtDate timestamp;
  confirmations <-! get tx "confirmations";
  amount <-! get tx "amount";
  shown <-! Amounts.fmt amount;
  full <-! Amounts.fmtFull amount;
  unlock_time <-! get tx "unlock_time";
  Ok (JObj
    [("className", JStr "tx-item");
     ("innerHTML", JStr (join Json.newline
        ["<div class=" +:+ quoted ("tx-type-badge " +:+ cls) +:+ ">" +:+ icon +:+ "</div>";
         "<div class=" +:+ quoted "tx-info" +:+ ">";
         "<div class=" +:+ quoted "tx-txid" +:+ ">" +:+ to_str (js_or txid (JStr "(pending)"))
           +:+ "</div>";
         "<div class=" +:+ quoted "tx-meta" +:+ ">";
         (if isPending then "<span style=" +:+ quoted "color:var(--accent)" +:+ ">⏳ Unconfirmed</span>"
          else "Block " +:+ localeString (or_zero height)) +:+ " · ";
         date;
         (if negb (is_nullish confirmations) && negb isPending
          then " · " +:+ to_str confirmations +:+ " conf" else "");
         "</div>"; "</div>";
         status_badge isPending isMined isChange (truthy locked);
         "<div class=" +:+ quoted ("tx-amount " +:+ amtCls) +:+ ">" +:+ amtSign +:+ shown
           +:+ "  CryLo</div>"]));
     ("title", JStr ("TXID: " +:+ to_str txid +:+ Json.newline +:+ "Amount: " +:+ full +:+ "  CryLo"
        +:+ Json.newline +:+ "Unlock: " +:+ to_str (or_zero unlock_time)))]).

Definition empty_state (icon text : string) : jsval :=
  JStr ("<div class=" +:+ quoted "empty-state" +:+ "><div class=" +:+ quoted "empty-icon" +:+ ">"
        +:+ icon +:+ "</div>" +:+ text +:+ "</div>").
Definition loading_row (text : string) : jsval :=
  JStr ("<div class=" +:+ quoted "loading-row" +:+ "><div class=" +:+ quoted "spinner"
        +:+ "></div> " +:+ text +:+ "</div>").

(** The transfers in the order of the list, and the elements of the list. *)
Definition sorted_transfers (r : jsval) : result (list jsval) :=
  txs <-! all_transfers r; Ok (isort tx_before txs).

Definition loadTransactions : page :=
  set_prop "tx-list-container" "innerHTML" (loading_row "Loading transactions...") ;;
  res <- walletRpc_call "get_transfers"
    (JObj [("in", JBool true); ("out", JBool true); ("pending", JBool true);
           ("failed", JBool false); ("pool", JBool true); ("coinbase", JBool true)]) None;
  resOk <- lift (get res "ok");
  if negb (truthy resOk) then
    error <- lift (get res "error");
    set_prop "tx-list-container" "innerHTML" (empty_state "⚠️" (to_str error))
  else
    r <- lift (get res "result");
    txs <- lift (sorted_transfers r);
    match txs with
    | [] => set_prop "tx-list-container" "innerHTML" (empty_state "📭" "No transactions yet")
    | _ =>
        outTxids <- lift (out_txids txs);
        items <- lift (map_result (tx_item outTxids) txs);
        set_prop "tx-list-container" "innerHTML" (JStr "") ;;
        call (Append "tx-list-container"
                (JObj [("className", JStr "tx-list"); ("children", JArr items)]))
    end.

(** ** The vesting table *)

(** [VESTING_TIERS]: number, delay in blocks, label and class. *)
Definition VESTING_TIERS : list (Z * Z * string * string) :=
  [(1, 0, "Instant Miner", "t1"); (2, 18514, "45-Day Vested", "t2")].

Record vest_row := VestRow {
  vr_txid : jsval;
  vr_blockH : num;
  vr_tier : Z;
  vr_label : string;
  vr_cls : string;
  vr_amount : num;
  vr_unlockH : num;
  vr_unlocked : bool;
  vr_blocksLeft : num;
  vr_timestamp : jsval;
}.

Definition vest_row_of (curH blockH : num) (txid timestamp : jsval)
    (tier : Z * Z * string * string) (amount : num) : vest_row :=
  let '(t, delay, label, cls) := tier in
  let unlockH := Num.add blockH (Num.of_Z delay) in
  let unlocked := Num.leb unlockH curH in
  VestRow txid blockH t label cls amount unlockH unlocked
    (if unlocked then Fin 0 else Num.sub unlockH curH) timestamp.

(** The two rows of a mined transfer. *)
Definition vest_rows (curH : num) (tx : jsval) : result (list vest_row) :=
  amount0 <-! get tx "amount";
  amount <-! to_numeric amount0;
  txid <-! get tx "txid";
  timestamp <-! get tx "timestamp";
  let blockH := height_of tx in
  let instantAmount := Num.floor (Num.div amount (Num.of_Z 2)) in
  let vestedAmount := Num.sub amount instantAmount in
  Ok [vest_row_of curH blockH txid timestamp (1, 0, "Instant Miner", "t1") instantAmount;
      vest_row_of curH blockH txid timestamp (2, 18514, "45-Day Vested", "t2") vestedAmount].

(** [tierTotals[i]]: the sum of the amounts of a tier, in the order of the rows. *)
Definition tier_total (tier : Z) (rows : list vest_row) : num :=
  foldl (fun acc r => if vr_tier r =? tier then Num.add acc (vr_amount r) else acc) (Fin 0) rows.

(** The comparator of the sort: newest block first, then the tier. *)
Definition row_before (a b : vest_row) : bool :=
  let d := Num.sub (vr_blockH b) (vr_blockH a) in
  if negb (Num.eqb d (Fin 0) || Num.is_nan d) then Num.ltb d (Fin 0)
  else vr_tier a <=? vr_tier b.

Definition status_html (r : vest_row) : string :=
  if vr_unlocked r then "<span class=" +:+ quoted "status-unlocked" +:+ ">✓ Unlocked</span>"
  else if Num.ltb (vr_blocksLeft r) (Num.of_Z 1000) then
    "<span class=" +:+ quoted "status-locked" +:+ ">🔒 " +:+ localeString (JNum (vr_blocksLeft r))
    +:+ " blocks</span>"
  else "<span class=" +:+ quoted "status-wait" +:+ ">⏳ " +:+ localeString (JNum (vr_blocksLeft r))
       +:+ " blocks</span>".

Definition row_html (r : vest_row) : result jsval :=
  date <-! fmtDate (vr_timestamp r);
  shown <-! Amounts.fmt (JNum (vr_amount r));
  Ok (JStr (join Json.newline
    ["<td>" +:+ localeString (JNum (vr_blockH r)) +:+ "</td>";
     "<td>" +:+ date +:+ "</td>";
     "<td><span class=" +:+ quoted ("tier-badge " +:+ vr_cls r) +:+ ">" +:+ vr_label r
       +:+ "</span></td>";
     "<td class=" +:+ quoted "text-coin" +:+ ">" +:+ shown +:+ "  CryLo</td>";
     "<td>" +:+ localeString (JNum (vr_unlockH r)) +:+ "</td>";
     "<td>" +:+ status_html r +:+ "</td>"])).

Definition vest_header : jsval :=
  JStr (join Json.newline
    ["<thead>"; "<tr>"; "<th>Block</th>"; "<th>Date</th>"; "<th>Category</th>"; "<th>Amount</th>";
     "<th>Unlock Block</th>"; "<th>Status</th>"; "</tr>"; "</thead>"]).

(** The summary shows the spendable balance, and the rest of the mined coins as vested. *)
Definition vest_summary (rows : list vest_row) : page :=
  try_catch
    (balRes <- walletRpc_call "get_balance" account0 None;
     result <- lift (get balRes "result");
     let bal := inner_result result in
     u <- lift (get bal "unlocked_balance");
     let realUnlocked := to_number (or_zero u) in
     let minedTotal := Num.add (tier_total 1 rows) (tier_total 2 rows) in
     let realLocked := Num.max (Fin 0) (Num.sub minedTotal realUnlocked) in
     unlockedShown <- fmt_num realUnlocked;
     set_text "vest-t1" (unlockedShown +:+ "  CryLo") ;;
     lockedShown <- fmt_num realLocked;
     set_text "vest-t2" (lockedShown +:+ "  CryLo"))
    (fun _ =>
       mapM (fun '(t, _, _, _) =>
               shown <- fmt_num (tier_total t rows);
               set_text ("vest-t" +:+ string_of_Z t) (shown +:+ "  CryLo")) VESTING_TIERS ;;
       Ret JUndef).

(** The mined transfers of a reply, and the rows made of them, in the order they are shown. *)
Definition mined_transfers (r : jsval) : result (list jsval) :=
  allIn <-! transfers_of r "in"; filter_result (fun tx => has_type tx "block") allIn.

Definition loadVesting : page :=
  set_prop "vesting-table-container" "innerHTML" (loading_row "Loading vesting data...") ;;
  res <- walletRpc_call "get_transfers"
    (JObj [("in", JBool true); ("out", JBool false); ("pending", JBool false);
           ("failed", JBool false); ("pool", JBool false); ("coinbase", JBool true)]) None;
  resOk <- lift (get res "ok");
  if negb (truthy resOk) then
    error <- lift (get res "error");
    set_prop "vesting-table-container" "innerHTML" (empty_state "⚠️" (to_str error))
  else
    result <- lift (get res "result");
    mined <- lift (mined_transfers result);
    match mined with
    | [] =>
        set_prop "vesting-table-container" "innerHTML" (empty_state "⛏" "No mined blocks found") ;;
        mapM (fun t => set_text ("vest-" +:+ t) "0.0000  CryLo") ["t1"; "t2"] ;;
        Ret JUndef
    | _ =>
        cur <- get_state "currentHeight";
        rowss <- lift (map_result (vest_rows (to_number cur)) mined);
        let rows := List.concat rowss in
        vest_summary rows ;;
        trs <- lift (map_result row_html (isort row_before rows));
        set_prop "vesting-table-container" "innerHTML" (JStr "") ;;
        call (Append "vesting-table-container"
                (JObj [("className", JStr "vesting-table-wrap");
                       ("table", JObj [("className", JStr "vesting-table");
                                       ("innerHTML", vest_header); ("tbody", JArr trs)])]))
    end.
End tx_lists.

(** ** Properties *)

(** *** The list of transactions *)

(** A transfer as the wallet RPC reports it: an object with a numeric height (0 or missing while
    it is unconfirmed), amount and time. *)
Definition wf_transfer (tx : jsval) : Prop :=
  (exists fs, tx = JObj fs) /\
  (exists h, 0 <= h <= 2 ^ 53 /\ height_of tx = Fin (h * Num.U)) /\
  (exists n, get_opt tx "amount" = JNum n) /\ (exists n, get_opt tx "timestamp" = JNum n).

(** The height, as an integer. *)
Definition tx_height (tx : jsval) : Z :=
  match height_of tx with Fin z => z / Num.U | _ => 0 end.

(** The order of the list: unconfirmed transfers, then the newer before the older. *)
Definition newest_first (a b : jsval) : bool :=
  (tx_height a =? 0) || (negb (tx_height b =? 0) && (tx_height b <=? tx_height a)).

Lemma Fin_eqb_U h : Num.eqb (Fin (h * Num.U)) (Fin 0) = (h =? 0).
Proof.
  pose proof Num.U_pos. cbn. destruct (Z.eqb_spec h 0) as [->|Hh]; [done|]. apply Z.eqb_neq. nia.
Qed.

Lemma sub_leb_0 a b :
  0 <= a <= 2 ^ 53 -> 0 <= b <= 2 ^ 53 ->
  Num.leb (Num.sub (Fin (b * Num.U)) (Fin (a * Num.U))) (Fin 0) = (b <=? a).
Proof.
  intros Ha Hb. pose proof Num.U_pos. rewrite Num.sub_safe by lia. unfold Num.leb. cbn.
  destruct (Z.leb_spec b a); [apply orb_true_iff|apply orb_false_iff].
  - rewrite Z.ltb_lt, Z.eqb_eq. nia.
  - rewrite Z.ltb_ge, Z.eqb_neq. nia.
Qed.

Lemma tx_before_heights a b :
  wf_transfer a -> wf_transfer b -> tx_before a b = newest_first a b.
Proof.
  intros (_ & (h & Hh & Ea) & _) (_ & (k & Hk & Eb) & _).
  unfold tx_before, newest_first, tx_height. rewrite Ea, Eb, !Fin_eqb_U, sub_leb_0 by done.
  rewrite !Z.div_mul by (pose proof Num.U_pos; lia).
  by destruct (Z.eqb_spec h 0), (Z.eqb_spec k 0); subst.
Qed.

Lemma newest_first_total a b : newest_first a b = true \/ newest_first b a = true.
Proof.
  unfold newest_first. rewrite !orb_true_iff, !andb_true_iff, !negb_true_iff, !Z.eqb_eq, !Z.eqb_neq,
    !Z.leb_le. lia.
Qed.
Lemma newest_first_trans a b c :
  newest_first a b = true -> newest_first b c = true -> newest_first a c = true.
Proof.
  unfold newest_first. rewrite !orb_true_iff, !andb_true_iff, !negb_true_iff, !Z.eqb_eq, !Z.eqb_neq,
    !Z.leb_le. lia.
Qed.

Lemma sorted_transfers_spec txs :
  Forall wf_transfer txs ->
  let shown := isort tx_before txs in
  shown ≡ₚ txs /\ StronglySorted (fun a b => newest_first a b = true) shown /\
  forall h, List.filter (fun tx => tx_height tx =? h) shown
            = List.filter (fun tx => tx_height tx =? h) txs.
Proof.
  intros Hwf. cbv zeta. rewrite (isort_ext tx_before newest_first).
  2: { rewrite Forall_forall in Hwf. intros a b Ha Hb. apply tx_before_heights; auto. }
  split; [apply isort_perm|]. split.
  - exact (isort_sorted _ newest_first_total newest_first_trans txs).
  - intros h. apply isort_stable. intros a b Ha%Z.eqb_eq Hb%Z.eqb_eq. unfold newest_first.
    rewrite orb_true_iff, andb_true_iff, negb_true_iff, Z.eqb_eq, Z.eqb_neq, Z.leb_le. lia.
Qed.

Lemma map_result_ok {X Y} (f : X -> result Y) l :
  Forall (fun x => exists y, f x = Ok y) l ->
  exists ys, map_result f l = Ok ys /\ Forall2 (fun x y => f x = Ok y) l ys.
Proof.
  induction 1 as [|x l [y Hy] _ (ys & Hys & Hf)]; [by exists []|].
  exists (y :: ys). cbn [map_result]. rewrite Hy. cbn [rbind]. rewrite Hys. by repeat constructor.
Qed.

Lemma map_result_map {X Y} (f : X -> result Y) (g : X -> Y) l :
  Forall (fun x => f x = Ok (g x)) l -> map_result f l = Ok (map g l).
Proof.
  induction 1 as [|x l Hx _ IH]; [done|]. cbn [map_result map]. rewrite Hx. cbn [rbind].
  by rewrite IH.
Qed.

Lemma filter_result_ok {X} (f : X -> result bool) (g : X -> bool) l :
  Forall (fun x => f x = Ok (g x)) l -> filter_result f l = Ok (List.filter g l).
Proof.
  induction 1 as [|x l Hx _ IH]; [done|]. cbn [filter_result List.filter]. rewrite Hx. cbn [rbind].
  rewrite IH. by destruct (g x).
Qed.

Section properties.
Context `{Locale}.

Lemma fmtDate_ok v : (exists n, v = JNum n) -> exists s, fmtDate v = Ok s.
Proof. intros [n ->]. unfold fmtDate. destruct (truthy _); cbn; eauto. Qed.

Lemma tx_item_ok ids tx : wf_transfer tx -> exists item, tx_item ids tx = Ok item.
Proof.
  intros ([fs ->] & _ & [n Hn] & Hts). unfold tx_item, has_type. unfold get_opt in Hn, Hts.
  cbn [get rbind] in *. apply fmtDate_ok in Hts as [d Hd]. rewrite Hd, Hn.
  unfold Amounts.fmt, Amounts.fmtFull. cbn [rbind is_nullish]. eexists. reflexivity.
Qed.

Lemma out_txids_ok txs :
  Forall wf_transfer txs ->
  exists ids, out_txids txs = Ok ids /\
    forall v, v ∈ ids <-> exists tx, tx ∈ txs /\ strict_eq (get_opt tx "type") (JStr "out") = true
                                    /\ get_opt tx "txid" = v.
Proof.
  intros Hwf. set (is_out tx := strict_eq (get_opt tx "type") (JStr "out")).
  exists (map (fun tx => get_opt tx "txid") (List.filter is_out txs)). split.
  - unfold out_txids. rewrite (filter_result_ok _ is_out).
    2: { eapply Forall_impl; [exact Hwf|]. intros tx [[fs ->] _]. reflexivity. }
    cbn [rbind]. apply map_result_map. rewrite Forall_forall in Hwf |- *.
    intros tx Hin%list_elem_of_In%filter_In. destruct Hin as [Hin%list_elem_of_In _].
    destruct (Hwf tx Hin) as [[fs ->] _]. reflexivity.
  - intros v. rewrite list_elem_of_In, in_map_iff. setoid_rewrite filter_In.
    setoid_rewrite <- list_elem_of_In. naive_solver.
Qed.

Definition all_kinds : jsval :=
  JObj [("in", JBool true); ("out", JBool true); ("pending", JBool true);
        ("failed", JBool false); ("pool", JBool true); ("coinbase", JBool true)].

(** C14 (functional). The list of transactions shows every transfer the wallet reports, each once:
    when the wallet answers with well-formed transfers (of the four kinds together at least one),
    the page ends by putting one element per transfer into the container, made by [tx_item] from
    that transfer, in an order that is a permutation of the reported one with the unconfirmed
    transfers first, then decreasing heights, and the reported order kept among equal heights. *)
Theorem transactions_listed (ext : pop -> result jsval) (st : page_state) (res r : jsval)
    (txs : list jsval) :
  complete_page ext ->
  ext (Crylo "walletRpc" [JStr "get_transfers"; all_kinds]) = Ok res ->
  truthy (get_opt res "ok") = true -> get_opt res "result" = r ->
  all_transfers r = Ok txs -> txs <> [] -> Forall wf_transfer txs ->
  exists shown ids items a,
    shown ≡ₚ txs /\
    StronglySorted (fun a b => newest_first a b = true) shown /\
    (forall h, List.filter (fun tx => tx_height tx =? h) shown
               = List.filter (fun tx => tx_height tx =? h) txs) /\
    (forall v, v ∈ ids <-> exists tx, tx ∈ txs /\ strict_eq (get_opt tx "type") (JStr "out") = true
                                      /\ get_opt tx "txid" = v) /\
    Forall2 (fun tx item => tx_item ids tx = Ok item) shown items /\
    snd (run (exec_page ext) loadTransactions st) = Ok a /\
    last (snd (fst (run (exec_page ext) loadTransactions st)))
    = Some (Append "tx-list-container"
              (JObj [("className", JStr "tx-list"); ("children", JArr items)]), Ok a).
Proof.
  intros Hc Hres Hok Hr Hall Hne Hwf.
  destruct (sorted_transfers_spec txs Hwf) as (Hperm & Hsorted & Hstable).
  set (shown := isort tx_before txs) in *.
  assert (Forall wf_transfer shown) as Hwf' by by rewrite Hperm.
  destruct (out_txids_ok shown Hwf') as (ids & Hids & Hin).
  destruct (map_result_ok (tx_item ids) shown) as (items & Hitems & Hf2).
  { eapply Forall_impl; [exact Hwf'|]. apply tx_item_ok. }
  destruct (Hc (Append "tx-list-container"
    (JObj [("className", JStr "tx-list"); ("children", JArr items)]))) as [a Ha].
  exists shown, ids, items, a.
  assert (sorted_transfers r = Ok shown) as Hs by (unfold sorted_transfers; by rewrite Hall).
  assert (get res "ok" = Ok (get_opt res "ok")) as Eok by by apply (get_defined res "ok").
  assert (get res "result" = Ok r) as Er by (rewrite <- Hr; by apply (get_defined res "ok")).
  assert (exists pre, run (exec_page ext) loadTransactions st
    = (st, (pre ++ [(Append "tx-list-container"
                       (JObj [("className", JStr "tx-list"); ("children", JArr items)]), Ok a)])%list,
       Ok a)) as [pre ->].
  { destruct (Hc (SetProp "tx-list-container" "innerHTML" (loading_row "Loading transactions...")))
      as [v1 E1]. destruct (Hc (SetProp "tx-list-container" "innerHTML" (JStr ""))) as [v2 E2].
    unfold loadTransactions, set_prop, walletRpc_call.
    rewrite run_bind, run_call. cbn [exec_page fst snd]. rewrite E1.
    rewrite run_bind, run_call. cbn [exec_page fst snd]. unfold all_kinds in Hres. rewrite Hres.
    rewrite Eok. cbn [lift bind]. rewrite Hok. cbn [negb].
    rewrite Er. cbn [lift bind]. rewrite Hs. cbn [lift bind].
    destruct shown as [|tx0 shown'] eqn:Eshown; [by apply Permutation_nil_l in Hperm|].
    rewrite Hids. cbn [lift bind]. rewrite Hitems. cbn [lift bind].
    rewrite run_bind, run_call. cbn [exec_page fst snd]. rewrite E2.
    rewrite run_call. cbn [exec_page fst snd]. rewrite Ha. eexists [_; _; _]. reflexivity. }
  split_and!; [done|done|done| |done|done|].
  { intros v. rewrite Hin. setoid_rewrite Hperm. reflexivity. }
  cbn [fst snd]. apply last_snoc.
Qed.
(** *** The vesting table *)

(** A mined transfer: an object with an integer amount of atomic units, a height and a time. *)
Definition wf_mined (tx : jsval) (a h : Z) : Prop :=
  (exists fs, tx = JObj fs) /\ 0 <= a <= 2 ^ 53 /\ 0 <= h <= 2 ^ 52 /\
  get_opt tx "amount" = JNum (Fin (a * Num.U)) /\ height_of tx = Fin (h * Num.U) /\
  exists n, get_opt tx "timestamp" = JNum n.

(** The rows the page's own tiers ([VESTING_TIERS]) give a reward of [a] at height [h] when the
    chain is at height [c]: [amount] atomic units shown as unlocking [delay] blocks later.  The rule
    is the page's, applied at every height; wallet2.cpp locks the second half only from height 2
    on, and cryptonote_config.h describes another schedule. *)
Definition due_row (c : Z) (tx : jsval) (h : Z) (tier delay : Z) (label cls : string) (amount : Z) :
  vest_row :=
  VestRow (get_opt tx "txid") (Fin (h * Num.U)) tier label cls (Fin (amount * Num.U))
    (Fin ((h + delay) * Num.U)) (h + delay <=? c) (Fin (Z.max 0 (h + delay - c) * Num.U))
    (get_opt tx "timestamp").
Definition due_rows (c : Z) (tx : jsval) (a h : Z) : list vest_row :=
  [due_row c tx h 1 0 "Instant Miner" "t1" (a / 2);
   due_row c tx h 2 18514 "45-Day Vested" "t2" (a - a / 2)].

Lemma half_floor a :
  0 <= a <= 2 ^ 53 -> Num.floor (Num.div (Fin (a * Num.U)) (Num.of_Z 2)) = Fin (a / 2 * Num.U).
Proof.
  intros Ha. rewrite Num.of_Z_safe by lia. pose proof Num.U_pos as HU.
  assert (Num.U = 2 * 2 ^ 1073) as EU by (unfold Num.U; by rewrite <- Z.pow_succ_r).
  unfold Num.div. rewrite (proj2 (Z.eqb_neq _ _)) by lia.
  rewrite Z.sgn_pos, Z.mul_1_r, Z.abs_eq by lia.
  replace (a * Num.U * Num.U) with (a * 2 ^ 1073 * (2 * Num.U)) by (rewrite EU; ring).
  assert (0 < 2 ^ 1073) by (apply pow2_pos; lia).
  unfold Num.round. rewrite (proj2 (Z.ltb_ge _ _)) by nia.
  rewrite Num.round_pos_repr; [|lia|lia|lia|].
  - cbn [Num.floor]. do 2 f_equal. rewrite EU. apply Z.div_mul_cancel_r; lia.
  - unfold Num.overflow. apply (Z.le_lt_trans _ (2 ^ 53 * 2 ^ 1073)); [nia|].
    rewrite <- Z.pow_add_r by lia. apply Z.pow_lt_mono_r; lia.
Qed.

Lemma vest_row_due c tx h t delay label cls amount :
  0 <= c <= 2 ^ 52 -> 0 <= h <= 2 ^ 52 -> 0 <= delay <= 2 ^ 51 ->
  vest_row_of (Fin (c * Num.U)) (Fin (h * Num.U)) (get_opt tx "txid") (get_opt tx "timestamp")
    (t, delay, label, cls) (Fin (amount * Num.U))
  = due_row c tx h t delay label cls amount.
Proof.
  intros Hc Hh Hd. pose proof Num.U_pos. unfold vest_row_of, due_row.
  rewrite (Num.of_Z_safe delay), Num.add_safe by lia.
  assert (Num.leb (Fin ((h + delay) * Num.U)) (Fin (c * Num.U)) = (h + delay <=? c)) as ->.
  { unfold Num.leb. cbn. destruct (Z.leb_spec (h + delay) c); [apply orb_true_iff|apply orb_false_iff].
    - rewrite Z.ltb_lt, Z.eqb_eq. nia.
    - rewrite Z.ltb_ge, Z.eqb_neq. nia. }
  f_equal. destruct (Z.leb_spec (h + delay) c).
  - by rewrite Z.max_l by lia.
  - rewrite Num.sub_safe by lia. by rewrite Z.max_r by lia.
Qed.

Lemma vest_rows_due c tx a h :
  0 <= c <= 2 ^ 52 -> wf_mined tx a h -> vest_rows (Fin (c * Num.U)) tx = Ok (due_rows c tx a h).
Proof.
  intros Hc ([fs ->] & Ha & Hh & Ea & Eh & _). unfold vest_rows. unfold get_opt in Ea.
  cbn [get] in Ea. cbn [get rbind]. rewrite Ea. cbn [to_numeric to_number rbind].
  assert (0 <= a / 2 <= a) by (split; [apply Z.div_pos|apply Z.div_le_upper_bound]; lia).
  rewrite Eh, half_floor, Num.sub_safe by lia.
  unfold due_rows. do 2 f_equal; [|f_equal]; apply (vest_row_due c (JObj fs)); lia.
Qed.

(** The height of a row as an integer, and the order of the table. *)
Definition row_block (r : vest_row) : Z := match vr_blockH r with Fin z => z / Num.U | _ => 0 end.
Definition row_le (r s : vest_row) : bool :=
  (row_block s <? row_block r) || ((row_block s =? row_block r) && (vr_tier r <=? vr_tier s)).
Definition at_block (r : vest_row) : Prop :=
  exists h, 0 <= h <= 2 ^ 52 /\ vr_blockH r = Fin (h * Num.U).

Lemma row_before_le r s : at_block r -> at_block s -> row_before r s = row_le r s.
Proof.
  intros (h & Hh & Er) (k & Hk & Es). pose proof Num.U_pos.
  unfold row_before, row_le, row_block. rewrite Er, Es, Num.sub_safe, !Z.div_mul by lia.
  rewrite Fin_eqb_U. cbn [Num.is_nan Num.ltb]. rewrite orb_false_r.
  destruct (Z.eqb_spec (k - h) 0), (Z.eqb_spec k h), (Z.ltb_spec k h); try lia; try done; cbn.
  - apply Z.ltb_lt. nia.
  - apply Z.ltb_ge. nia.
Qed.

Lemma row_le_total r s : row_le r s = true \/ row_le s r = true.
Proof.
  unfold row_le. rewrite !orb_true_iff, !andb_true_iff, !Z.ltb_lt, !Z.eqb_eq, !Z.leb_le. lia.
Qed.
Lemma row_le_trans r s t : row_le r s = true -> row_le s t = true -> row_le r t = true.
Proof.
  unfold row_le. rewrite !orb_true_iff, !andb_true_iff, !Z.ltb_lt, !Z.eqb_eq, !Z.leb_le. lia.
Qed.

Lemma sorted_rows rows :
  Forall at_block rows -> isort row_before rows = isort row_le rows.
Proof.
  rewrite Forall_forall. intros Hb. apply isort_ext. intros r s Hr Hs. apply row_before_le; auto.
Qed.

(** The mined transfers with their amounts and heights; their rows. *)
Definition mined_list (mined : list (jsval * Z * Z)) : list jsval := map (fun m => fst (fst m)) mined.
Definition table_rows (c : Z) (mined : list (jsval * Z * Z)) : list vest_row :=
  List.concat (map (fun '(tx, a, h) => due_rows c tx a h) mined).
Definition wf_mined_list (mined : list (jsval * Z * Z)) : Prop :=
  Forall (fun '(tx, a, h) => wf_mined tx a h) mined.

Lemma all_vest_rows c mined :
  0 <= c <= 2 ^ 52 -> wf_mined_list mined ->
  map_result (vest_rows (Fin (c * Num.U))) (mined_list mined)
  = Ok (map (fun '(tx, a, h) => due_rows c tx a h) mined).
Proof.
  intros Hc. induction 1 as [|[[tx a] h] mined Hm _ IH]; [done|].
  cbn [mined_list map fst map_result]. rewrite (vest_rows_due c tx a h Hc Hm). cbn [rbind].
  fold (mined_list mined). by rewrite IH.
Qed.

Lemma table_rows_in c mined r :
  wf_mined_list mined -> r ∈ table_rows c mined ->
  at_block r /\ exists n v, vr_timestamp r = JNum n /\ vr_amount r = Fin v.
Proof.
  intros Hwf Hin. unfold table_rows in Hin.
  apply list_elem_of_In, in_concat in Hin as (rows & Hrows%in_map_iff & Hr).
  destruct Hrows as ([[tx a] h] & <- & Hm). unfold wf_mined_list in Hwf.
  rewrite Forall_forall in Hwf. apply list_elem_of_In, Hwf in Hm as (_ & _ & Hh & _ & _ & n & Hn).
  destruct Hr as [<-|[<-|[]]]; (split; [by exists h|]); cbn; eauto.
Qed.

Lemma row_html_ok r :
  (exists n v, vr_timestamp r = JNum n /\ vr_amount r = Fin v) -> exists html, row_html r = Ok html.
Proof.
  intros (n & v & Hn & Hv). unfold row_html. destruct (fmtDate_ok (vr_timestamp r)) as [d ->]; [eauto|].
  rewrite Hv, Amounts.fmt_fin. cbn [rbind]. eauto.
Qed.

Lemma fmt_num_ok x : exists s, Amounts.fmt (JNum x) = Ok s.
Proof. unfold Amounts.fmt. cbn. eauto. Qed.

Lemma vest_summary_shows ext rows : complete_page ext -> shows ext (vest_summary rows).
Proof.
  intros Hc. apply shows_try.
  { unfold walletRpc_call, fmt_num, set_text. only_with ltac:(exact I). }
  intros e. cbn [mapM VESTING_TIERS].
  unfold fmt_num. destruct (fmt_num_ok (tier_total 1 rows)) as [s1 ->].
  destruct (fmt_num_ok (tier_total 2 rows)) as [s2 ->]. cbn [lift bind].
  repeat lazymatch goal with
  | |- shows _ (bind _ _) => apply shows_bind; [|intros ?]
  | |- shows _ (Ret _) => apply shows_ret
  | |- _ => by apply shows_call
  end.
Qed.

Definition coinbase_only : jsval :=
  JObj [("in", JBool true); ("out", JBool false); ("pending", JBool false);
        ("failed", JBool false); ("pool", JBool false); ("coinbase", JBool true)].

Definition vest_table (trs : list jsval) : pop :=
  Append "vesting-table-container"
    (JObj [("className", JStr "vesting-table-wrap");
           ("table", JObj [("className", JStr "vesting-table");
                           ("innerHTML", vest_header); ("tbody", JArr trs)])]).

Lemma loadVesting_run ext st res tx mined rowss trs :
  complete_page ext ->
  ext (Crylo "walletRpc" [JStr "get_transfers"; coinbase_only]) = Ok res ->
  truthy (get_opt res "ok") = true ->
  mined_transfers (get_opt res "result") = Ok (tx :: mined) ->
  map_result (vest_rows (to_number (field st "currentHeight"))) (tx :: mined) = Ok rowss ->
  map_result row_html (isort row_before (List.concat rowss)) = Ok trs ->
  exists a pre,
    run (exec_page ext) loadVesting st = (st, (pre ++ [(vest_table trs, Ok a)])%list, Ok a).
Proof.
  intros Hc Hres Hok Hmined Hrows Htrs.
  pose proof (get_defined res "ok" "ok" Hok) as Eok.
  pose proof (get_defined res "ok" "result" Hok) as Er.
  destruct (vest_summary_shows ext (List.concat rowss) Hc st) as (tsum & vsum & Hsum).
  destruct (Hc (SetProp "vesting-table-container" "innerHTML"
                  (loading_row "Loading vesting data..."))) as [v1 E1].
  destruct (Hc (SetProp "vesting-table-container" "innerHTML" (JStr ""))) as [v2 E2].
  destruct (Hc (vest_table trs)) as [a Ha]. unfold vest_table in Ha |- *. exists a.
  unfold loadVesting, set_prop, walletRpc_call, get_state. unfold coinbase_only in Hres.
  rewrite run_bind, run_call. cbn [exec_page fst snd]. rewrite E1.
  rewrite run_bind, run_call. cbn [exec_page fst snd]. rewrite Hres.
  rewrite Eok. cbn [lift bind]. rewrite Hok. cbn [negb]. rewrite Er. cbn [lift bind].
  rewrite Hmined. cbn [lift]. rewrite run_bind. cbn [run].
  rewrite run_bind, run_call. cbn [exec_page fst snd].
  change (match st !! "currentHeight" with Some v => v | None => JUndef end)
    with (field st "currentHeight"). rewrite Hrows. cbn [lift bind].
  rewrite run_bind, Hsum. rewrite Htrs. cbn [lift bind].
  rewrite run_bind, run_call. cbn [exec_page fst snd]. rewrite E2.
  rewrite run_call. cbn [exec_page fst snd]. rewrite Ha.
  eexists ((_ :: _ :: _ :: tsum) ++ [_])%list. cbn. rewrite <- app_assoc. reflexivity.
Qed.

End properties.

(** A wallet that reports a mined reward of five atomic units at height 10, an older payment and an
    unconfirmed one, at height 12. *)
#[local] Instance sample_locale : Locale :=
  {| localeString := to_str; localeDate := fun n => num_to_string n |}.

Definition sample_tx (type : string) (amount height : Z) : jsval :=
  JObj [("type", JStr type); ("txid", JStr type); ("amount", JNum (Fin (amount * Num.U)));
        ("height", JNum (Fin (height * Num.U))); ("timestamp", JNum (Fin Num.U))].
Definition sample_reply : jsval :=
  JObj [("ok", JBool true);
        ("result", JObj [("in", JArr [sample_tx "in" 7 9; sample_tx "block" 5 10]);
                         ("pool", JArr [sample_tx "pool" 3 0])])].
Definition sample_wallet (o : pop) : result jsval :=
  match o with Crylo _ _ => Ok sample_reply | _ => Ok JUndef end.

Lemma sample_wallet_complete : complete_page sample_wallet.
Proof. intros o. destruct o; cbn; eauto. Qed.

Lemma sample_tx_wf type amount height : 0 <= height <= 2 ^ 53 -> wf_transfer (sample_tx type amount height).
Proof.
  intros Hh. split; [by eexists|]. split; [|split; eexists; reflexivity].
  exists height. split; [done|]. unfold height_of, or_zero, js_or, get_opt. cbn [get sample_tx].
  destruct (decide (height = 0)) as [->|Hne]; [reflexivity|].
  change (obj_get _ "height") with (JNum (Fin (height * Num.U))).
  rewrite Amounts.Fin_truthy; [done|]. pose proof Num.U_pos. nia.
Qed.

Lemma transactions_listed_witness :
  exists shown, shown ≡ₚ [sample_tx "in" 7 9; sample_tx "block" 5 10; sample_tx "pool" 3 0] /\
    StronglySorted (fun a b => newest_first a b = true) shown.
Proof.
  destruct (transactions_listed sample_wallet initial_State sample_reply
    (get_opt sample_reply "result")
    [sample_tx "in" 7 9; sample_tx "block" 5 10; sample_tx "pool" 3 0])
    as (shown & ids & items & a & Hp & Hs & _).
  - exact sample_wallet_complete.
  - reflexivity.
  - reflexivity.
  - reflexivity.
  - reflexivity.
  - discriminate.
  - repeat constructor; apply sample_tx_wf; lia.
  - exists shown. exact (conj Hp Hs).
Defined.

