(* ===== verification/PageMining.v ===== *)
(** * The page: the mining panel (electron/src/app.js)

    Starting and stopping the miner and the poll that shows its progress.  [State.miningActive],
    [State.miningStatusTimer] and [State.miningStartHeight] are the panel's state. *)

From Stdlib Require Import Ascii String.
From S2P Require Import Prelude JsNumber JsString JsConv JsVal Json Prog MainEnv Amounts Page PageWallet.

Section mining.
Context `{Locale}.
Local Open Scope prog_scope.

(** [Math.max(1, Math.floor(totalMB / 300))], the threads the memory allows. *)
Definition maxByMem (totalMB : num) : num :=
  Num.max (Num.of_Z 1) (Num.floor (Num.div totalMB (Num.of_Z 300))).
Definition maxThreads (cpus totalMB : num) : num := Num.min cpus (maxByMem totalMB).
Definition recommendedThreads (maxT : num) : num :=
  Num.max (Num.of_Z 1) (Num.floor (Num.div maxT (Num.of_Z 2))).

Definition initMiningTab : page :=
  address0 <- get_state "address";
  (if negb (truthy address0) then loadAddress else Ret JUndef) ;;
  hasField <- call (HasElement "mining-address");
  address <- get_state "address";
  (if truthy hasField && truthy address then set_prop "mining-address" "value" address
   else Ret JUndef) ;;
  try_catch
    (s <- crylo_call "minerGetInfo" [];
     mem <- lift (get s "totalMemMB");
     cpuCount <- lift (get s "cpuCount");
     let totalMB := or_zero mem in
     let cpus := js_or cpuCount (JNum (Num.of_Z 4)) in
     let maxT := maxThreads (to_number cpus) (to_number totalMB) in
     let recommended := recommendedThreads maxT in
     hasSlider <- call (HasElement "mining-threads");
     (if truthy hasSlider then
        set_prop "mining-threads" "max" (JNum maxT) ;;
        set_prop "mining-threads" "value" (JNum recommended) ;;
        set_prop "mining-threads-val" "textContent" (JNum recommended)
      else Ret JUndef) ;;
     set_text_opt "mining-mem-info"
       (to_str totalMB +:+ " MB RAM — max " +:+ num_to_string maxT +:+ " threads"))
    (fun _ => set_text_opt "mining-mem-info" "click to detect").

(** The block target in seconds. *)
Definition targetSeconds : num := Num.of_Z 210.

(** The estimates shown for a difficulty, a hash rate of the miner and a block reward (in atomic
    units): time per block, blocks per day and coins per day. *)
Definition expectedSecondsPerBlock (difficulty minerHashrate : num) : num :=
  Num.mul (Num.div (Num.div difficulty targetSeconds) minerHashrate) targetSeconds.
Definition blocksPerDay (difficulty minerHashrate : num) : num :=
  Num.div (Num.of_Z 86400) (expectedSecondsPerBlock difficulty minerHashrate).
Definition dailyRewards (difficulty minerHashrate rewardAtomic : num) : num :=
  Num.mul (blocksPerDay difficulty minerHashrate) (Num.div rewardAtomic Amounts.COIN).

(** [s.blockReward || info.result.block_reward || 0], as a number. *)
Definition reward_atomic (s info : jsval) : prog pop num :=
  own <- lift (get s "blockReward");
  if truthy own then Ret (to_number own)
  else
    result <- lift (get info "result");
    reward <- lift (get result "block_reward");
    Ret (to_number (or_zero reward)).

(** [Math.max(0, height - State.miningStartHeight)]; the start height is [height] the first time. *)
Definition show_blocks_found (height : jsval) : page :=
  start0 <- get_state "miningStartHeight";
  (if strict_eq start0 JNull then set_state "miningStartHeight" height else Ret JUndef) ;;
  start <- get_state "miningStartHeight";
  h <- lift (to_numeric height);
  h0 <- lift (to_numeric start);
  set_text_opt "mining-stat-blocks-found"
    (localeString (JNum (Num.max (Fin 0) (Num.sub h h0)))).

Definition show_estimates (s info difficulty : jsval) (minerHashrate : num) : page :=
  d <- lift (to_numeric difficulty);
  if Num.ltb (Fin 0) minerHashrate then
    set_text "mining-stat-est-block-time"
      (Amounts.fmtDuration (expectedSecondsPerBlock d minerHashrate)) ;;
    set_text "mining-stat-blocks-day" (to_fixed (blocksPerDay d minerHashrate) 4) ;;
    rewardAtomic <- reward_atomic s info;
    set_text "mining-stat-daily-rewards"
      (to_fixed (dailyRewards d minerHashrate rewardAtomic) 4 +:+ " CryLo")
  else
    set_text "mining-stat-est-block-time" "—" ;;
    set_text "mining-stat-blocks-day" "—" ;;
    set_text "mining-stat-daily-rewards" "—".

(** What the poll shows when the daemon answers. *)
Definition show_network (s info : jsval) : page :=
  result <- lift (get info "result");
  h <- lift (get result "height");
  let height := or_zero h in
  set_text "mining-stat-height" (localeString height) ;;
  d <- lift (get result "difficulty");
  let difficulty := or_zero d in
  set_text "mining-stat-difficulty" (localeString difficulty) ;;
  dn <- lift (to_numeric difficulty);
  set_text "mining-stat-network-hashrate" (Amounts.fmtHashrate (Num.div dn targetSeconds)) ;;
  hashrate <- lift (get s "hashrate");
  show_estimates s info difficulty
    (to_number (js_or (JNum (to_number hashrate)) (JNum (Fin 0)))) ;;
  show_blocks_found height.

Definition stopMining : page :=
  close_timer "miningStatusTimer" ;;
  try_catch (crylo_call "minerStop" []) (fun _ => Ret JUndef) ;;
  set_state "miningActive" (JBool false) ;;
  set_state "miningStartHeight" JNull ;;
  set_text_opt "mining-stat-blocks-found" "0" ;;
  set_text "mining-btn" "⛏ Start Mining" ;;
  set_prop "mining-btn" "className" (JStr "btn btn-primary") ;;
  set_text "mining-status" "Miner stopped" ;;
  set_prop "mining-status" "style.color" (JStr "var(--text-dim)") ;;
  set_prop "mining-hashrate" "style.display" (JStr "none") ;;
  set_prop_opt "mining-stats" "style.display" (JStr "none") ;;
  set_prop_opt "mining-mode" "style.display" (JStr "none").

(** One tick of the poll; it stops the panel when the miner is not running. *)
Definition miningTick : page :=
  try_catch
    (s <- crylo_call "minerGetStatus" [];
     running <- lift (get s "running");
     if truthy running then
       set_text "mining-status" "Mining active" ;;
       set_prop "mining-status" "style.color" (JStr "var(--success)") ;;
       hashrate <- lift (get s "hashrate");
       set_text "mining-hashrate" (to_str hashrate +:+ " H/s") ;;
       info <- crylo_call "daemonRpc" [JStr "get_info"];
       infoOk <- lift (get info "ok");
       (if truthy infoOk then show_network s info else Ret JUndef) ;;
       rewardAtomic <- reward_atomic s info;
       shown <- fmt_num rewardAtomic;
       set_text "mining-stat-reward" (shown +:+ " CryLo") ;;
       set_prop "mining-mode" "style.display" (JStr "block")
     else call (Start "stopMining"))
    (fun _ => Ret JUndef).

(** [parseInt(text)], where a prefix [0x] means hexadecimal. *)
Fixpoint hex_prefix (s : string) : string :=
  match s with
  | String c r => match radix_digit 16 c with Some _ => String c (hex_prefix r) | None => "" end
  | "" => ""
  end.
Definition parse_int (text : string) : num :=
  let '(sg, r) := strip_sign (trim text) in
  match radix_prefix r with
  | Some (16, h) =>
      let x := parse_radix 16 (hex_prefix h) in if sg =? -1 then Num.num_neg x else x
  | _ => parse_int10 text
  end.

(** [new Error(v)] *)
Definition new_Error (v : jsval) : jserr :=
  Error (match v with JUndef => "" | _ => to_str v end).

Definition startMining : page :=
  a <- call (Value "mining-address");
  w <- call (Value "mining-worker");
  p <- call (Value "mining-pool");
  t <- call (Value "mining-threads");
  let address := trim (to_str a) in
  let worker := js_or (JStr (trim (to_str w))) (JStr "desktop") in
  let pool := trim (to_str p) in
  let threads := js_or (JNum (parse_int (to_str t))) (JNum (Num.of_Z 2)) in
  if String.eqb address "" || (js_length address <? 20) then
    toast "Enter a valid CryLo wallet address" "error"
  else
    try_catch
      (r <- crylo_call "minerStart"
              [JObj [("walletAddress", JStr address); ("workerName", worker);
                     ("poolUrl", JStr pool); ("threads", threads)]];
       resOk <- lift (get r "ok");
       if negb (truthy resOk) then
         error <- lift (get r "error");
         Raise (new_Error error)
       else
         set_state "miningActive" (JBool true) ;;
         set_text "mining-btn" "⏹ Stop Mining" ;;
         set_prop "mining-btn" "className" (JStr "btn btn-secondary") ;;
         set_text "mining-status" "Miner starting..." ;;
         set_prop "mining-status" "style.color" (JStr "var(--warning)") ;;
         set_prop "mining-hashrate" "style.display" (JStr "block") ;;
         set_prop "mining-stats" "style.display" (JStr "block") ;;
         set_prop "mining-stat-threads" "textContent" threads ;;
         timer <- call (Every "miningTick" [] 5000);
         set_state "miningStatusTimer" timer)
      (fun e => toast ("Failed to start miner: " +:+ message e) "error").

Definition toggleMining : page :=
  active <- get_state "miningActive";
  if truthy active then stopMining else startMining.
End mining.
