(* ===== verification/PageNexus.v ===== *)
(** * The page: forms of the Nexus chain (electron/src/app.js)

    Topping up gas before an action, staking, node registration, gas, NFT buyback and burning, and
    the list of Nexus transactions.  The forms call the handlers of the main process modelled in
    [NexusChain] and [NexusHistory]; here they are operations of the environment. *)

From Stdlib Require Import Ascii String.
From S2P Require Import Prelude JsNumber JsString JsConv JsVal Json Prog MainEnv Amounts CoinNumbers Page PageWallet.

Section nexus_forms.
Context `{Locale}.
Local Open Scope prog_scope.

(** ** Gas for an action *)

(** [Math.ceil((shortfall + 0.005) * 100000) / 100000] *)
Definition topUpAmount (shortfall : num) : num :=
  Num.div (Num.ceil (Num.mul (Num.add shortfall (number_of_string "0.005")) (Num.of_Z 100000)))
    (Num.of_Z 100000).

Definition gas_question (actionLabel : string) (currentGas neededGas wcryloNeeded : num) : string :=
  "Not enough Nexus gas for " +:+ actionLabel +:+ "." +:+ Json.newline +:+ Json.newline
  +:+ "Current gas: " +:+ to_fixed currentGas 6 +:+ " CRYLO (GAS)" +:+ Json.newline
  +:+ "Estimated needed: " +:+ to_fixed neededGas 6 +:+ " CRYLO (GAS)" +:+ Json.newline +:+ Json.newline
  +:+ "Add about " +:+ num_to_string wcryloNeeded +:+ " wCRYLO for gas and continue?"
  +:+ Json.newline +:+ Json.newline
  +:+ "For reliability, make sure you have at least double this suggested amount available in wCRYLO.".

Definition fail_with (error : jsval) : jsval := JObj [("ok", JBool false); ("error", error)].

(** The end of the check, after gas was bought with the reply [buy]. *)
Definition after_top_up (buy : jsval) (wcryloNeeded : num) : page :=
  buyOk <- lift (get buy "ok");
  if negb (truthy buyOk) then
    error <- lift (get buy "error");
    Ret (fail_with (js_or error (JStr "Gas top-up failed.")))
  else
    refreshNexusGasStatus ;;
    refreshNexusWcryloBalance ;;
    txHash <- lift (get buy "txHash");
    Ret (JObj [("ok", JBool true); ("toppedUp", JBool true); ("txHash", txHash);
               ("wcryloUsed", JNum wcryloNeeded)]).

(** The comparison of the gas there is with the gas needed, and the purchase. *)
Definition compare_gas (actionLabel : string) (currentGas neededGas : num) : page :=
  if Num.leb neededGas currentGas then
    Ret (JObj [("ok", JBool true); ("toppedUp", JBool false)])
  else
    let shortfall := Num.max (Fin 0) (Num.sub neededGas currentGas) in
    let wcryloNeeded := topUpAmount shortfall in
    yes <- call (Confirm (gas_question actionLabel currentGas neededGas wcryloNeeded));
    if negb (truthy yes) then
      Ret (JObj [("ok", JBool false); ("cancelled", JBool true);
                 ("error", JStr "User cancelled gas top-up.")])
    else
      walletName <- get_state "walletName";
      address <- get_state "address";
      buy <- crylo_call "nexusBuyGasWithWcrylo"
               [JStr (num_to_string wcryloNeeded); walletName; address];
      after_top_up buy wcryloNeeded.

Definition ensureNexusGasForAction (actionLabel : string) (estimatedGasCryLo : num) : page :=
  linkedAddress <- getLinkedNexusAddress;
  if negb (truthy linkedAddress) then Ret (fail_with (JStr "No bound Nexus wallet."))
  else
    status <- crylo_call "nexusGasStatus" [linkedAddress];
    statusOk <- lift (get status "ok");
    if negb (truthy statusOk) then
      error <- lift (get status "error");
      Ret (fail_with (js_or error (JStr "Unable to check Nexus gas.")))
    else
      nativeGas <- lift (get status "nativeGas");
      compare_gas actionLabel (to_number (or_zero nativeGas))
        (to_number (js_or (JNum estimatedGasCryLo) (JNum (number_of_string "0.03")))).

(** The check every action starts with: [k] goes on when there is gas; otherwise the status line
    says that the action was cancelled or failed. *)
Definition with_gas (actionLabel : string) (gas : num) (statusId what : string) (k : page) : page :=
  gasCheck <- ensureNexusGasForAction actionLabel gas;
  gasOk <- lift (get gasCheck "ok");
  if negb (truthy gasOk) then
    cancelled <- lift (get gasCheck "cancelled");
    error <- lift (get gasCheck "error");
    set_text statusId
      (if truthy cancelled then what +:+ " cancelled."
       else what +:+ " failed: " +:+ to_str error)
  else k.

(** A call of the main process with the open wallet's name and address as last arguments. *)
Definition wallet_call (name : string) (args : list jsval) : page :=
  walletName <- get_state "walletName";
  address <- get_state "address";
  crylo_call name (args ++ [walletName; address])%list.

(** [result.error || 'Unknown error'], as text. *)
Definition error_or_unknown (result : jsval) : prog pop string :=
  error <- lift (get result "error"); Ret (to_str (js_or error (JStr "Unknown error"))).

(** [(v || '').includes(sub)] *)
Definition includes_method (v : jsval) (sub : string) : result bool :=
  match js_or v (JStr "") with
  | JStr s => Ok (includes s sub)
  | JArr l => Ok (existsb (fun x => strict_eq x (JStr sub)) l)
  | _ => Throw (Error "includes is not a function")
  end.

(** ** Staking *)

Definition staking_refreshes : list string :=
  ["refreshNexusWcryloBalance"; "refreshNexusStakedBalance"; "refreshNexusPendingRewards"].

(** The three refreshes, now and again after five and fifteen seconds (scheduled twice). *)
Definition refresh_staking : page :=
  refreshNexusWcryloBalance ;;
  refreshNexusStakedBalance ;;
  refreshNexusPendingRewards ;;
  mapM (fun '(f, ms) => call (Later f ms))
    (let round ms := map (fun f => (f, ms)) staking_refreshes in
     round 5000 ++ round 15000 ++ round 5000 ++ round 15000)%list ;;
  Ret JUndef.

(** [Number(text.replace(/[^0-9.]/g, '') || 0)] *)
Fixpoint keep_chars (P : ascii -> bool) (s : string) : string :=
  match s with
  | "" => ""
  | String c r => if P c then String c (keep_chars P r) else keep_chars P r
  end.
Definition shown_number (text : string) : num :=
  to_number (js_or (JStr (keep_chars dec_char text)) (JNum (Fin 0))).

(** [!amount || Number(amount) <= 0] *)
Definition bad_amount (amount : string) : bool :=
  String.eqb amount "" || Num.leb (number_of_string amount) (Fin 0).

Definition insufficient (what gerund : string) (result : jsval) : page :=
  error <- lift (get result "error");
  short <- lift (includes_method error "insufficient funds");
  set_text "nexus-staking-status"
    (what +:+ " failed: " +:+
     (if short : bool then "Bound Nexus wallet needs gas for " +:+ gerund +:+ " transactions."
      else to_str (js_or error (JStr "Unknown error")))).

Definition stakeNexusWcrylo : page :=
  value <- call (Value "nexus-stake-amount");
  let amount := trim (to_str value) in
  if bad_amount amount then set_text "nexus-staking-status" "Enter a valid staking amount."
  else
    text <- call (TextContent "bal-wcrylo");
    let available := shown_number (to_str (js_or text (JStr "0"))) in
    if Num.ltb available (number_of_string amount) then
      set_text "nexus-staking-status"
        ("Stake failed: only " +:+ to_fixed available 4 +:+ " wCRYLO available.")
    else
      set_text "nexus-staking-status" "Checking Nexus gas for staking..." ;;
      with_gas "staking" (number_of_string "0.04") "nexus-staking-status" "Stake"
        (set_text "nexus-staking-status" ("Staking " +:+ amount +:+ " wCRYLO...") ;;
         try_catch
           (result <- wallet_call "nexusStakeWcrylo" [JStr amount];
            resOk <- lift (get result "ok");
            if negb (truthy resOk) then insufficient "Stake" "staking" result
            else
              set_text "nexus-staking-status" ("Staked " +:+ amount +:+ " wCRYLO successfully.") ;;
              set_prop "nexus-stake-amount" "value" (JStr "") ;;
              refresh_staking)
           (fun _ => set_text "nexus-staking-status" "Stake failed.")).

Definition unstakeNexusWcrylo : page :=
  value <- call (Value "nexus-stake-amount");
  let amount := trim (to_str value) in
  if bad_amount amount then set_text "nexus-staking-status" "Enter a valid unstaking amount."
  else
    set_text "nexus-staking-status" "Checking Nexus gas for unstaking..." ;;
    with_gas "unstaking" (number_of_string "0.04") "nexus-staking-status" "Unstake"
      (set_text "nexus-staking-status" ("Unstaking " +:+ amount +:+ " wCRYLO...") ;;
       try_catch
         (result <- wallet_call "nexusUnstakeWcrylo" [JStr amount];
          resOk <- lift (get result "ok");
          if negb (truthy resOk) then insufficient "Unstake" "unstaking" result
          else
            set_text "nexus-staking-status" ("Unstaked " +:+ amount +:+ " wCRYLO successfully.") ;;
            set_prop "nexus-stake-amount" "value" (JStr "") ;;
            refresh_staking)
         (fun _ => set_text "nexus-staking-status" "Unstake failed.")).

(** [String(result.error || '').toLowerCase()] *)
Definition error_text (result : jsval) : prog pop string :=
  error <- lift (get result "error"); Ret (to_lower (to_str (js_or error (JStr "")))).

Definition claimNexusRewards : page :=
  set_text "nexus-staking-status" "Checking Nexus gas for staking reward claim..." ;;
  with_gas "claiming staking rewards" (number_of_string "0.03") "nexus-staking-status" "Claim"
    (set_text "nexus-staking-status" "Claiming staking rewards..." ;;
     try_catch
       (result <- wallet_call "nexusClaimRewards" [];
        resOk <- lift (get result "ok");
        if negb (truthy resOk) then
          errorText <- error_text result;
          if includes errorText "no rewards" then
            set_text "nexus-staking-status" "No rewards available to claim."
          else
            err <- error_or_unknown result;
            set_text "nexus-staking-status" ("Claim failed: " +:+ err)
        else
          set_text "nexus-staking-status" "Staking rewards claimed successfully." ;;
          refresh_staking)
       (fun _ => set_text "nexus-staking-status" "Claim failed.")).

(** ** Node registration *)

(** The common end of the node forms: the call, its report, and the refreshes. *)
Definition node_action (name : string) (failed done_ : string) : page :=
  result <- wallet_call name [];
  resOk <- lift (get result "ok");
  if negb (truthy resOk) then
    err <- error_or_unknown result;
    set_text "nexus-node-action-status" (failed +:+ ": " +:+ err)
  else
    set_text "nexus-node-action-status" done_ ;;
    refreshNexusWcryloBalance ;;
    refreshNexusNodeStatus.

Definition registerNexusOperator : page :=
  set_text "nexus-node-action-status" "Registering Operator node with 300 wCRYLO..." ;;
  try_catch
    (node_action "nexusRegisterOperator" "Operator registration failed"
       "Operator node registered successfully.")
    (fun _ => set_text "nexus-node-action-status" "Operator registration failed.").

Definition registerNexusValidator : page :=
  set_text "nexus-node-action-status" "Registering Validator node with 750 wCRYLO..." ;;
  try_catch
    (node_action "nexusRegisterValidator" "Validator registration failed"
       "Validator node registered successfully.")
    (fun _ => set_text "nexus-node-action-status" "Validator registration failed.").

Definition unregisterNexusNode : page :=
  yes <- call (Confirm ("Deregister this Nexus node?" +:+ Json.newline +:+ Json.newline
           +:+ "Your staked wCRYLO and available node rewards will be returned."));
  if negb (truthy yes) then Ret JUndef
  else
    set_text "nexus-node-action-status" "Checking Nexus gas for node deregistration..." ;;
    with_gas "node deregistration" (number_of_string "0.04") "nexus-node-action-status"
      "Node deregistration"
      (set_text "nexus-node-action-status" "Deregistering node..." ;;
       try_catch
         (node_action "nexusUnregisterNode" "Node deregistration failed"
            "Node deregistered successfully.")
         (fun _ => set_text "nexus-node-action-status" "Node deregistration failed.")).

Definition claimNexusNodeRewards : page :=
  set_text "nexus-node-action-status" "Checking Nexus gas for node reward claim..." ;;
  with_gas "claiming node rewards" (number_of_string "0.03") "nexus-node-action-status"
    "Node reward claim"
    (set_text "nexus-node-action-status" "Claiming node rewards..." ;;
     try_catch
       (result <- wallet_call "nexusClaimNodeRewards" [];
        resOk <- lift (get result "ok");
        if negb (truthy resOk) then
          errorText <- error_text result;
          if includes errorText "no rewards" || includes errorText "execution reverted" then
            set_text "nexus-node-action-status" "No node rewards available to claim."
          else
            err <- error_or_unknown result;
            set_text "nexus-node-action-status" ("Node reward claim failed: " +:+ err)
        else
          set_text "nexus-node-action-status" "Node rewards claimed successfully." ;;
          refreshNexusWcryloBalance ;;
          refreshNexusNodeStatus)
       (fun _ => set_text "nexus-node-action-status" "Node reward claim failed.")).

(** ** Gas *)

Definition claimNexusDailyGas : page :=
  set_text_opt "nexus-gas-action-status" "Claiming daily gas..." ;;
  try_catch
    (result <- wallet_call "nexusClaimDailyGas" [];
     resOk <- lift (get result "ok");
     if negb (truthy resOk) then
       errorText <- error_text result;
       err <- error_or_unknown result;
       set_text_opt "nexus-gas-action-status"
         (if includes errorText "daily gas unavailable" || includes errorText "execution reverted"
          then "Daily gas is not available yet. Wait for the 24-hour cooldown or perform a Nexus activity if inactive."
          else "Claim failed: " +:+ err)
     else
       txHash <- lift (get result "txHash");
       set_text_opt "nexus-gas-action-status" ("Daily gas claimed: " +:+ to_str txHash) ;;
       refreshNexusGasStatus)
    (fun _ => set_text_opt "nexus-gas-action-status" "Claim failed.").

Definition buyNexusGasWithWcrylo : page :=
  hasInput <- call (HasElement "nexus-buy-gas-amount");
  value <- (if truthy hasInput then call (Value "nexus-buy-gas-amount") else Ret (JStr ""));
  let amount := trim (to_str value) in
  if bad_amount amount then set_text_opt "nexus-gas-action-status" "Enter a valid wCRYLO amount."
  else
    set_text_opt "nexus-gas-action-status" ("Buying gas with " +:+ amount +:+ " wCRYLO...") ;;
    try_catch
      (result <- wallet_call "nexusBuyGasWithWcrylo" [JStr amount];
       resOk <- lift (get result "ok");
       if negb (truthy resOk) then
         err <- error_or_unknown result;
         set_text_opt "nexus-gas-action-status" ("Buy gas failed: " +:+ err)
       else
         set_prop_opt "nexus-buy-gas-amount" "value" (JStr "") ;;
         txHash <- lift (get result "txHash");
         set_text_opt "nexus-gas-action-status" ("Gas purchased: " +:+ to_str txHash) ;;
         refreshNexusGasStatus ;;
         refreshNexusWcryloBalance)
      (fun _ => set_text_opt "nexus-gas-action-status" "Buy gas failed.").

(** ** NFTs *)

Definition lines (l : list string) : string := join Json.newline l.

Definition nft_button (eligible : bool) (tokenId : string) : string :=
  if eligible then
    "<button class=" +:+ quoted "btn btn-primary nexus-buyback-btn"
    +:+ " style=" +:+ quoted "margin-top:10px"
    +:+ " data-token-id=" +:+ quoted tokenId +:+ ">Buy Back NFT</button>"
  else
    "<button class=" +:+ quoted "btn btn-secondary nexus-burn-btn"
    +:+ " style=" +:+ quoted "margin-top:10px"
    +:+ " data-token-id=" +:+ quoted tokenId +:+ ">Burn NFT</button>".

(** The card of one NFT (its lines without their indentation). *)
Definition nft_card (nft : jsval) : result string :=
  tokenId <-! get nft "tokenId";
  code <-! get nft "code";
  eligible <-! get nft "eligible";
  codePool <-! get nft "codePool";
  redeemed <-! get nft "redeemed";
  Ok (lines
    ["<div class=" +:+ quoted "card" +:+ " style=" +:+ quoted "margin-bottom:12px" +:+ ">";
     "<div><strong>NFT #" +:+ to_str tokenId +:+ "</strong></div>";
     "<div>Mint Code: " +:+ to_str code +:+ "</div>";
     "<div>Eligible: " +:+ (if truthy eligible then "YES" else "NO") +:+ "</div>";
     "<div>Pool Balance: " +:+ to_str codePool +:+ " wCRYLO</div>";
     "<div>Redeemed: " +:+ to_str redeemed +:+ "</div>";
     nft_button (truthy eligible) (to_str tokenId);
     "</div>"]).

(** The handler of an exception uses the undeclared [openBtn]. *)
Definition loadNexusBuyback : page :=
  value <- call (Value "nexus-linked-address");
  let linkedAddress := trim (to_str value) in
  if String.eqb linkedAddress "" then set_text "nexus-status" "No Nexus wallet linked."
  else
    set_text "nexus-status" "Scanning CryLo Nexus NFTs..." ;;
    set_prop "nexus-nft-list" "innerHTML" (JStr "") ;;
    try_catch
      (result <- crylo_call "nexusScanNfts" [JStr linkedAddress];
       resOk <- lift (get result "ok");
       if negb (truthy resOk) then
         error <- lift (get result "error");
         set_prop "nexus-status" "textContent" (js_or error (JStr "Scan failed."))
       else
         nfts <- lift (get result "nfts");
         len <- lift (get nfts "length");
         vaultBalance <- lift (get result "vaultBalance");
         set_text "nexus-status"
           ("Found " +:+ to_str len +:+ " NFT(s) | Vault: " +:+ to_str vaultBalance +:+ " wCRYLO") ;;
         list_ <- lift (as_array nfts);
         cards <- mapM (fun nft => lift (nft_card nft)) list_;
         let html := join "" cards in
         set_prop "nexus-nft-list" "innerHTML"
           (js_or (JStr html)
              (JStr ("<div class=" +:+ quoted "card" +:+ ">No NFTs found.</div>"))) ;;
         call (OnClick ".nexus-buyback-btn" "buyBackNexusNFT") ;;
         call (OnClick ".nexus-burn-btn" "burnNexusNFT"))
      (fun _ => Raise (reference_error "openBtn")).

(** A failed buyback is reported, and then reported as completed. *)
Definition buyBackNexusNFT (tokenId : string) : page :=
  set_text "nexus-status" ("Processing buyback for NFT #" +:+ tokenId +:+ "...") ;;
  with_gas "NFT buyback" (number_of_string "0.06") "nexus-status" "Buyback"
    (try_catch
       (result <- wallet_call "nexusBuyBackNft" [JStr tokenId];
        resOk <- lift (get result "ok");
        (if negb (truthy resOk) then
           err <- error_or_unknown result;
           set_text "nexus-status" ("Buyback failed for NFT #" +:+ tokenId +:+ ": " +:+ err)
         else Ret JUndef) ;;
        set_text "nexus-status"
          ("Buyback completed for NFT #" +:+ tokenId +:+ ". Refreshing NFT list...") ;;
        loadNexusBuyback ;;
        set_text "nexus-status" ("Buyback completed for NFT #" +:+ tokenId +:+ "."))
       (fun _ => set_text "nexus-status" "Buyback failed.")).

Definition burnNexusNFT (tokenId : string) : page :=
  set_text "nexus-status" ("Burning NFT #" +:+ tokenId +:+ "...") ;;
  with_gas "NFT burn" (number_of_string "0.05") "nexus-status" "Burn"
    (try_catch
       (result <- wallet_call "nexusBurnNft" [JStr tokenId];
        resOk <- lift (get result "ok");
        if negb (truthy resOk) then
          err <- error_or_unknown result;
          set_text "nexus-status" ("Burn failed for NFT #" +:+ tokenId +:+ ": " +:+ err)
        else
          set_text "nexus-status"
            ("NFT #" +:+ tokenId +:+ " burned successfully. Refreshing NFT list...") ;;
          loadNexusBuyback ;;
          set_text "nexus-status"
            ("NFT #" +:+ tokenId
             +:+ " burned successfully. Burn refund will be processed if eligible."))
       (fun _ => set_text "nexus-status" ("Burn failed for NFT #" +:+ tokenId))).

(** ** The list of Nexus transactions *)

Definition hash_slices (hash : jsval) : result string :=
  if negb (truthy hash) then Ok "—"
  else match hash with
       | JStr s => Ok (slice_first s 10 +:+ "..." +:+ slice_last s 8)
       | _ => Throw (Error "tx.hash.slice is not a function")
       end.

(** The card of one transaction (its lines without their indentation). *)
Definition nexus_tx_card (tx : jsval) : result string :=
  timestamp <-! get tx "timestamp";
  date <-! (if truthy timestamp
            then t <-! to_numeric timestamp; Ok (localeDate (Num.mul t (Num.of_Z 1000)))
            else Ok "Unknown date");
  hash <-! get tx "hash";
  _ <-! hash_slices hash;
  type <-! get tx "type";
  blockNumber <-! get tx "blockNumber";
  address <-! get tx "address";
  amount <-! get tx "amount";
  Ok (lines
    ["<div class=" +:+ quoted "tx-item" +:+ ">";
     "<div class=" +:+ quoted "tx-main" +:+ ">";
     "<div class=" +:+ quoted "tx-title" +:+ ">" +:+ to_str type +:+ "</div>";
     "<div class=" +:+ quoted "tx-sub" +:+ ">" +:+ date +:+ " · Block "
       +:+ to_str blockNumber +:+ "</div>";
     "<div class=" +:+ quoted "tx-sub" +:+ ">TX: " +:+ to_str (js_or hash (JStr "—"))
       +:+ "</div>";
     "<div class=" +:+ quoted "tx-sub" +:+ ">Contract: "
       +:+ to_str (js_or address (JStr "—")) +:+ "</div>";
     "</div>";
     "<div class=" +:+ quoted "tx-amount" +:+ ">" +:+ to_str (js_or amount (JStr ""))
       +:+ "</div>";
     "</div>"]).

Definition loadNexusTransactions : page :=
  linkedAddress <- getLinkedNexusAddress;
  if negb (truthy linkedAddress) then
    set_text_opt "nexus-tx-status" "No bound Nexus wallet loaded."
  else
    set_text_opt "nexus-tx-status" "Loading Nexus transactions..." ;;
    try_catch
      (result <- crylo_call "nexusTransactions" [linkedAddress];
       resOk <- lift (get result "ok");
       if negb (truthy resOk) then
         err <- error_or_unknown result;
         set_text_opt "nexus-tx-status" ("Failed to load Nexus transactions: " +:+ err)
       else
         transactions <- lift (get result "transactions");
         let txs := js_or transactions (JArr []) in
         len <- lift (get txs "length");
         fromBlock <- lift (get result "fromBlock");
         latest <- lift (get result "latest");
         set_text_opt "nexus-tx-status"
           ("Showing " +:+ to_str len +:+ " Nexus transactions from blocks " +:+ to_str fromBlock
            +:+ "–" +:+ to_str latest +:+ ".") ;;
         hasList <- call (HasElement "nexus-tx-list");
         if negb (truthy hasList) then Ret JUndef
         else if strict_eq len (JNum (Fin 0)) then
           set_prop "nexus-tx-list" "innerHTML"
             (JStr (lines ["<div class=" +:+ quoted "empty-state" +:+ ">";
                           "<div class=" +:+ quoted "empty-icon" +:+ ">🔗</div>";
                           "No Nexus transactions found yet."; "</div>"]))
         else
           list_ <- lift (as_array txs);
           cards <- mapM (fun tx => lift (nexus_tx_card tx)) list_;
           set_prop "nexus-tx-list" "innerHTML" (JStr (join "" cards)))
      (fun _ => set_text_opt "nexus-tx-status" "Failed to load Nexus transactions.").
End nexus_forms.

(** ** Properties *)

(** *** Gas is checked, and bought only with consent, before an action is signed *)

(** The functions of the main process that sign a transaction. *)
Definition signing_calls : list string :=
  ["nexusStakeWcrylo"; "nexusUnstakeWcrylo"; "nexusClaimRewards"; "nexusRegisterOperator";
   "nexusRegisterValidator"; "nexusUnregisterNode"; "nexusClaimNodeRewards"; "nexusClaimDailyGas";
   "nexusBuyGasWithWcrylo"; "nexusBuyBackNft"; "nexusBurnNft"; "nexusBurnForCryLo"].

Definition signs (o : pop) : bool :=
  match o with Crylo name _ => existsb (String.eqb name) signing_calls | _ => false end.
Definition unsigned (o : pop) : Prop := signs o = false.
Definition signed (tr : list (event pop)) : list (event pop) :=
  List.filter (fun ev => signs (fst ev)) tr.

Lemma signed_app t1 t2 : signed (t1 ++ t2) = (signed t1 ++ signed t2)%list.
Proof. apply List.filter_app. Qed.

Lemma Only_unsigned {A} (p : prog pop A) tr x : Only unsigned p -> Runs p tr x -> signed tr = [].
Proof.
  intros Hp Hr. pose proof (Only_Runs _ _ _ _ Hp Hr) as H. clear Hp Hr.
  induction H as [|ev tr Hev _ IH]; [done|]. cbn [signed List.filter]. by rewrite Hev.
Qed.

(** A property of traces that does not look at operations that sign nothing. *)
Class Stutter (P : list (event pop) -> Prop) := {
  stutter_nil tr : signed tr = [] -> P tr;
  stutter_pre pre tr : signed pre = [] -> P tr -> P (pre ++ tr)%list;
  stutter_suf tr post : signed post = [] -> P tr -> P (tr ++ post)%list;
}.

Definition follows {A} (P : list (event pop) -> Prop) (p : prog pop A) : Prop :=
  forall tr x, Runs p tr x -> P tr.

Section follows.
Context (P : list (event pop) -> Prop) `{!Stutter P}.

Lemma follows_unsigned {A} (p : prog pop A) : Only unsigned p -> follows P p.
Proof. intros Hp tr x Hr. apply stutter_nil. by eapply Only_unsigned. Qed.

Lemma follows_after {A B} (p : prog pop A) (k : A -> prog pop B) :
  Only unsigned p -> (forall a, follows P (k a)) -> follows P (bind p k).
Proof.
  intros Hp Hk tr x [(t1 & t2 & a & -> & H1 & H2)|(e & H1 & ->)]%Runs_bind.
  - apply stutter_pre; [by eapply Only_unsigned|by eapply Hk].
  - apply stutter_nil. by eapply Only_unsigned.
Qed.

Lemma follows_then {A B} (p : prog pop A) (k : A -> prog pop B) :
  follows P p -> (forall a, Only unsigned (k a)) -> follows P (bind p k).
Proof.
  intros Hp Hk tr x [(t1 & t2 & a & -> & H1 & H2)|(e & H1 & ->)]%Runs_bind; [|by eapply Hp].
  apply stutter_suf; [by eapply Only_unsigned; [apply Hk|]|by eapply Hp].
Qed.

Lemma follows_try {A} (p : prog pop A) (h : jserr -> prog pop A) :
  follows P p -> (forall e, Only unsigned (h e)) -> follows P (try_catch p h).
Proof.
  intros Hp Hh tr x [(a & H1 & ->)|(t1 & t2 & e & -> & H1 & H2)]%Runs_try; [by eapply Hp|].
  apply stutter_suf; [by eapply Only_unsigned; [apply Hh|]|by eapply Hp].
Qed.

Lemma follows_if {A} (b : bool) (p q : prog pop A) : follows P p -> follows P q -> follows P (if b then p else q).
Proof. by destruct b. Qed.
End follows.

(** A signing call of [name] for the wallet that [State] held when it was made. *)
Definition acts (name : string) (tr : list (event pop)) (ev : event pop) : Prop :=
  exists args walletName address r,
    ev = (Crylo name (args ++ [walletName; address])%list, r) /\
    (GetState "walletName", Ok walletName) ∈ tr /\ (GetState "address", Ok address) ∈ tr.

(** At most one signing call, of [name]. *)
Definition acts_once (name : string) (tr : list (event pop)) : Prop :=
  signed tr = [] \/ exists ev, signed tr = [ev] /\ acts name tr ev.

Lemma acts_mono name pre tr post ev : acts name tr ev -> acts name (pre ++ tr ++ post)%list ev.
Proof.
  intros (args & w & a & r & -> & Hw & Ha). exists args, w, a, r. rewrite !elem_of_app. tauto.
Qed.

#[export] Instance acts_once_stutter name : Stutter (acts_once name).
Proof.
  split; [by left| |].
  - intros pre tr Hpre [H|(ev & H & Ha)]; [left|right; exists ev]; rewrite signed_app, Hpre; [done|].
    split; [done|]. apply (acts_mono _ pre _ []) in Ha. by rewrite app_nil_r in Ha.
  - intros tr post Hpost [H|(ev & H & Ha)]; [left|right; exists ev]; rewrite signed_app, H, Hpost;
      [done|]. split; [done|]. by apply (acts_mono _ []).
Qed.

Section protocol.
Context `{Locale} (label : string) (gas : num) (name : string).

Definition neededGas : num := to_number (js_or (JNum gas) (JNum (number_of_string "0.03"))).
Definition currentGas (status : jsval) : num := to_number (or_zero (get_opt status "nativeGas")).
Definition wcryloNeeded (status : jsval) : num :=
  topUpAmount (Num.max (Fin 0) (Num.sub neededGas (currentGas status))).

(** The chain reported enough gas for the linked address. *)
Definition enough (tr : list (event pop)) : Prop :=
  exists linked status, (Crylo "nexusGasStatus" [linked], Ok status) ∈ tr /\
    truthy (get_opt status "ok") = true /\ Num.leb neededGas (currentGas status) = true.

(** [ev] buys gas: the chain reported too little, and the user agreed to a question that names the
    amount bought. *)
Definition top_up (tr : list (event pop)) (ev : event pop) : Prop :=
  exists linked status yes walletName address r pre post,
    tr = (pre ++ ev :: post)%list /\
    ev = (Crylo "nexusBuyGasWithWcrylo"
            [JStr (num_to_string (wcryloNeeded status)); walletName; address], r) /\
    (Crylo "nexusGasStatus" [linked], Ok status) ∈ pre /\
    Num.leb neededGas (currentGas status) = false /\
    (Confirm (gas_question label (currentGas status) neededGas (wcryloNeeded status)), Ok yes) ∈ pre /\
    truthy yes = true.

Definition succeeded (ev : event pop) : Prop :=
  exists v, snd ev = Ok v /\ truthy (get_opt v "ok") = true.

(** What is signed, in order: nothing; gas; the action when there was gas; or gas, successfully,
    and then the action. *)
Definition gas_protocol (tr : list (event pop)) : Prop :=
  match signed tr with
  | [] => True
  | [ev] => top_up tr ev \/ enough tr /\ acts name tr ev
  | [b; ev] => top_up tr b /\ succeeded b /\ acts name tr ev
  | _ => False
  end.

Lemma top_up_mono pre tr post ev : top_up tr ev -> top_up (pre ++ tr ++ post)%list ev.
Proof.
  intros (linked & status & yes & w & a & r & p & q & -> & He & Hs & Hl & Hq & Hy).
  exists linked, status, yes, w, a, r, (pre ++ p)%list, (q ++ post)%list.
  rewrite !elem_of_app. split_and!; auto. by rewrite <- !app_assoc.
Qed.

Lemma enough_mono pre tr post : enough tr -> enough (pre ++ tr ++ post)%list.
Proof.
  intros (l & s & Hin & H'). exists l, s. rewrite !elem_of_app. tauto.
Qed.

Lemma gas_protocol_pad pre tr post :
  signed pre = [] -> signed post = [] -> gas_protocol tr -> gas_protocol (pre ++ tr ++ post)%list.
Proof.
  intros Hpre Hpost HP. unfold gas_protocol in *. rewrite !signed_app, Hpre, Hpost, app_nil_r.
  cbn [app]. destruct (signed tr) as [|b [|ev [|]]]; [done|..|done].
  - destruct HP as [HP|[He Ha]]; [left; by apply top_up_mono|right].
    split; [by apply enough_mono|by apply acts_mono].
  - destruct HP as (Ht & Hs & Ha). split_and!; [by apply top_up_mono|done|by apply acts_mono].
Qed.

#[export] Instance gas_protocol_stutter : Stutter gas_protocol.
Proof.
  split.
  - intros tr Hs. unfold gas_protocol. by rewrite Hs.
  - intros pre tr Hpre HP. rewrite <- (app_nil_r tr). by apply gas_protocol_pad.
  - intros tr post Hpost HP. by apply (gas_protocol_pad []).
Qed.

Lemma refresh_gas_unsigned : Only unsigned refreshNexusGasStatus.
Proof. only_deep ltac:(reflexivity). Qed.
Lemma refresh_wcrylo_unsigned : Only unsigned refreshNexusWcryloBalance.
Proof. only_deep ltac:(reflexivity). Qed.

(** What the gas check signs, and what its answer [ok] means. *)
Definition gas_checked (tr : list (event pop)) (x : result jsval) : Prop :=
  (signed tr = [] /\ forall v, x = Ok v -> truthy (get_opt v "ok") = true -> enough tr) \/
  (exists b, signed tr = [b] /\ top_up tr b /\
     forall v, x = Ok v -> truthy (get_opt v "ok") = true -> succeeded b).

Lemma unchecked tr x :
  signed tr = [] -> (forall v, x = Ok v -> truthy (get_opt v "ok") = false) -> gas_checked tr x.
Proof. intros Hs Hx. left. split; [done|]. intros v Hv Hok. rewrite (Hx v Hv) in Hok. done. Qed.

Lemma gas_checked_pre pre tr x : signed pre = [] -> gas_checked tr x -> gas_checked (pre ++ tr)%list x.
Proof.
  intros Hpre [[Hs He]|(b & Hs & Ht & Hb)]; [left|right; exists b]; rewrite signed_app, Hpre.
  - split; [done|]. intros v Hv Hok. rewrite <- (app_nil_r tr). apply enough_mono. eauto.
  - split_and!; [done| |done]. rewrite <- (app_nil_r tr). by apply top_up_mono.
Qed.

Lemma after_top_up_runs (b : jsval) used tr x :
  Runs (after_top_up b used) tr x ->
  signed tr = [] /\
  forall v, x = Ok v -> truthy (get_opt v "ok") = true -> truthy (get_opt b "ok") = true.
Proof.
  intros Hr. split.
  { eapply Only_unsigned; [|exact Hr]. only_deep ltac:(reflexivity). }
  unfold after_top_up in Hr. intros v -> Hok. unfold get_opt.
  destruct (get b "ok") as [o|e]; cbn [lift bind] in Hr; [|by apply Runs_raise_iff in Hr as [_ [=]]].
  destruct (truthy o) eqn:E; [done|]. cbn [negb] in Hr.
  destruct (get b "error") as [er|e]; cbn [lift bind] in Hr.
  - apply Runs_ret_iff in Hr as [_ [= ->]]. done.
  - by apply Runs_raise_iff in Hr as [_ [=]].
Qed.

(** The part of the check after the chain has reported the gas. *)
Lemma compare_gas_runs linked status t x :
  truthy (get_opt status "ok") = true ->
  Runs (compare_gas label (currentGas status) neededGas) t x ->
  gas_checked ((Crylo "nexusGasStatus" [linked], Ok status) :: t)%list x.
Proof.
  intros Hok Hr. unfold compare_gas in Hr. cbv zeta in Hr. fold (wcryloNeeded status) in Hr.
  destruct (Num.leb neededGas (currentGas status)) eqn:Hle.
  { apply Runs_ret_iff in Hr as [-> ->]. left. split; [done|]. intros v _ _.
    exists linked, status. rewrite elem_of_cons. auto. }
  apply Runs_bind_call in Hr as ([yes|e] & t1 & -> & Hr); [|destruct Hr as [-> ->]; by apply unchecked].
  destruct (truthy yes) eqn:Hyes; cbn [negb] in Hr.
  2: { apply Runs_ret_iff in Hr as [-> ->]. apply unchecked; [done|]. by intros v [= <-]. }
  apply Runs_bind_call in Hr as ([w|e] & t2 & -> & Hr); [|destruct Hr as [-> ->]; by apply unchecked].
  apply Runs_bind_call in Hr as ([a|e] & t3 & -> & Hr); [|destruct Hr as [-> ->]; by apply unchecked].
  apply Runs_bind_call in Hr as (r & t4 & -> & Hr).
  assert (signed t4 = [] /\ forall v, x = Ok v -> truthy (get_opt v "ok") = true ->
    exists b, r = Ok b /\ truthy (get_opt b "ok") = true) as [Ht4 Hx].
  { destruct r as [b|e]; [|by destruct Hr as [-> ->]].
    apply after_top_up_runs in Hr as [Hs Hx]. split; [done|]. intros v Hv Hvok. eauto. }
  right. eexists. split; [|split].
  - cbn [signed List.filter]. cbn. fold (signed t4). by rewrite Ht4.
  - eexists linked, status, yes, w, a, r, [_; _; _; _], t4.
    split_and!; [reflexivity|reflexivity|..|exact Hle| |exact Hyes]; rewrite !elem_of_cons; tauto.
  - exact Hx.
Qed.

Lemma ensure_gas_runs tr x :
  Runs (ensureNexusGasForAction label gas) tr x -> gas_checked tr x.
Proof.
  unfold ensureNexusGasForAction. intros Hr.
  apply Runs_bind in Hr as [(t1 & t2 & linked & -> & H1 & Hr)|(e & H1 & ->)].
  2: { apply unchecked; [|done]. eapply Only_unsigned; [|exact H1]. only_deep ltac:(reflexivity). }
  apply gas_checked_pre; [eapply Only_unsigned; [|exact H1]; only_deep ltac:(reflexivity)|].
  clear t1 H1. destruct (truthy linked); cbn [negb] in Hr.
  2: { apply Runs_ret_iff in Hr as [-> ->]. apply unchecked; [done|]. by intros v [= <-]. }
  apply Runs_bind_call in Hr as ([status|e] & t & -> & Hr).
  2: { destruct Hr as [-> ->]. by apply unchecked. }
  destruct (get status "ok") as [sok|e] eqn:Esok; cbn [lift bind] in Hr.
  2: { apply Runs_raise_iff in Hr as [-> ->]. by apply unchecked. }
  destruct (truthy sok) eqn:Hsok; cbn [negb] in Hr.
  2: { destruct (get status "error"); cbn [lift bind] in Hr.
       - apply Runs_ret_iff in Hr as [-> ->]. apply unchecked; [done|]. by intros v [= <-].
       - apply Runs_raise_iff in Hr as [-> ->]. by apply unchecked. }
  assert (truthy (get_opt status "ok") = true) as Hok by (unfold get_opt; by rewrite Esok).
  rewrite (get_defined status "ok" _ Hok) in Hr. by apply compare_gas_runs.
Qed.

(** The check, and the action only when it answered ok. *)
Lemma gas_then_follows {fail : jsval -> page} {k : page} :
  (forall g, Only unsigned (fail g)) -> follows (acts_once name) k ->
  follows gas_protocol
    (bind (ensureNexusGasForAction label gas) (fun g =>
       bind (lift (get g "ok")) (fun ok => if negb (truthy ok) then fail g else k))).
Proof.
  intros Hfail Hk tr x Hr.
  apply Runs_bind in Hr as [(t1 & t2 & g & -> & H1 & Hr)|(e & H1 & ->)]; apply ensure_gas_runs in H1.
  2: { destruct H1 as [[Hs _]|(b & Hs & Ht & _)]; unfold gas_protocol; rewrite Hs; auto. }
  assert (truthy (get_opt g "ok") = true /\ acts_once name t2 \/ signed t2 = []) as [[Hg Ha]|Hs2].
  { unfold get_opt. destruct (get g "ok") as [o|e]; cbn [lift bind] in Hr;
      [|apply Runs_raise_iff in Hr as [-> _]; by right].
    destruct (truthy o); cbn [negb] in Hr; [left; split; [done|by eapply Hk]|right].
    by eapply Only_unsigned. }
  - unfold gas_protocol. rewrite signed_app.
    destruct H1 as [[Hs He]|(b & Hs & Ht & Hb)], Ha as [Ha|(ev & Ha & Hact)]; rewrite Hs, Ha; cbn [app].
    + done.
    + right. split; [by apply (enough_mono []); eapply He|].
      apply (acts_mono _ t1 _ []) in Hact. by rewrite app_nil_r in Hact.
    + left. by apply (top_up_mono []).
    + split_and!; [by apply (top_up_mono [])|by eapply Hb|].
      apply (acts_mono _ t1 _ []) in Hact. by rewrite app_nil_r in Hact.
  - unfold gas_protocol. rewrite signed_app, Hs2, app_nil_r.
    destruct H1 as [[Hs _]|(b & Hs & Ht & _)]; rewrite Hs; [done|]. left. by apply (top_up_mono []).
Qed.

Lemma with_gas_follows statusId what k :
  follows (acts_once name) k -> follows gas_protocol (with_gas label gas statusId what k).
Proof. apply gas_then_follows. intros g. only_deep ltac:(reflexivity). Qed.
End protocol.

(** *** The forms *)

Section forms.
Context `{Locale}.

Lemma wallet_call_acts name args : follows (acts_once name) (wallet_call name args).
Proof.
  intros tr x Hr. unfold wallet_call in Hr.
  apply Runs_bind_call in Hr as ([w|e] & t1 & -> & Hr); [|destruct Hr as [-> _]; by left].
  apply Runs_bind_call in Hr as ([a|e] & t2 & -> & Hr); [|destruct Hr as [-> _]; by left].
  apply Runs_call in Hr as ->. destruct (signs (Crylo name (args ++ [w; a])%list)) eqn:E.
  - right. eexists. cbn [signed List.filter fst]. rewrite E. cbn. split; [reflexivity|].
    exists args, w, a, x. rewrite !elem_of_cons. tauto.
  - left. cbn [signed List.filter fst]. by rewrite E.
Qed.

End forms.

(** *** The amount of gas bought *)

(** Rounding is exact to one part in [2^53], or to half a unit. *)
Lemma round_near p q :
  0 < q -> 0 <= p <= 2 ^ 40 * Num.U * q ->
  exists z, Num.round p q = Fin z /\ 0 <= z /\ 2 ^ 53 * Z.abs (z * q - p) <= 2 ^ 52 * q + p.
Proof.
  intros Hq Hp. unfold Num.round. rewrite (proj2 (Z.ltb_ge _ _)) by lia.
  assert (2 ^ 40 * Num.U <= Num.huge) as Hh by (apply Z.leb_le; vm_compute; reflexivity).
  destruct (Num.round_pos_finite p q Hq) as (z & Hz & Hz0 & _); [nia|].
  exists z. split; [exact Hz|]. split; [exact Hz0|].
  pose proof (Num.round_pos_rel p q z Hq (proj1 Hp) Hz). lia.
Qed.

(** The number written [0.005], in units, and its error. *)
Definition buffer : Z := match number_of_string "0.005" with Fin z => z | _ => 0 end.
Lemma buffer_value : number_of_string "0.005" = Fin buffer.
Proof. vm_compute. reflexivity. Qed.
Lemma buffer_near : 2 ^ 50 * Z.abs (200 * buffer - Num.U) <= Num.U.
Proof. apply Z.leb_le. vm_compute. reflexivity. Qed.

Lemma hundred_thousandths k : 0 <= k -> Num.div (Fin (k * Num.U)) (Fin (100000 * Num.U)) = coin (k * 10 ^ 6).
Proof.
  intros Hk. pose proof Num.U_pos as HU. unfold coin, Amounts.COIN_Z.
  change 100000000000 with (100000 * 10 ^ 6). rewrite of_frac_scale, of_frac_nonneg by lia.
  unfold Num.div. rewrite (proj2 (Z.eqb_neq _ _)) by lia.
  rewrite Z.sgn_pos, Z.mul_1_r, Z.abs_eq by lia. unfold Num.round.
  rewrite (proj2 (Z.ltb_ge _ _)) by nia. apply round_pos_scale; lia.
Qed.

Lemma ceil_units m : exists k, Num.ceil (Fin m) = Fin (k * Num.U) /\ m <= k * Num.U < m + Num.U.
Proof.
  pose proof Num.U_pos as HU. exists (- ((- m) / Num.U)). split.
  - unfold Num.ceil. cbn [Num.floor Num.num_neg]. f_equal. ring.
  - pose proof (Z.mul_div_le (- m) Num.U HU). pose proof (Z.mul_succ_div_gt (- m) Num.U HU). lia.
Qed.

(** The amount is a multiple [k] of 0.00001, the shortfall and a buffer of 0.005, rounded up. *)
Lemma topUpAmount_units s :
  0 <= s <= 101 * Num.U ->
  exists k, topUpAmount (Fin s) = coin (k * 10 ^ 6) /\ 0 <= k /\
    s * 10 ^ 7 + 49999 * Num.U <= 100 * (k * Num.U) <= s * 10 ^ 7 + 50101 * Num.U.
Proof.
  intros Hs. pose proof Num.U_pos as HU. pose proof buffer_near as Hb. pose proof U_big as HB.
  unfold topUpAmount. rewrite buffer_value, (Num.of_Z_safe 100000) by lia.
  set (b := buffer) in *. set (u := Num.U) in *.
  cbn [Num.add]. destruct (round_near (s + b) 1) as (m1 & -> & Hm1 & H1); [lia|lia|].
  cbn [Num.mul]. destruct (round_near (m1 * (100000 * u)) Num.U) as (m2 & -> & Hm2 & H2).
  { exact HU. } { fold u. nia. }
  fold u in H2. destruct (ceil_units m2) as (k & -> & Hk). fold u in Hk |- *.
  assert (0 <= k) by nia. exists k. split; [by apply hundred_thousandths|]. split; [done|].
  assert (2 ^ 53 * Z.abs (m2 - m1 * 100000) <= 2 ^ 52 + m1 * 100000) as H2'.
  { replace (m2 * u - m1 * (100000 * u)) with ((m2 - m1 * 100000) * u) in H2 by ring.
    rewrite Z.abs_mul, (Z.abs_eq u) in H2 by lia. nia. }
  unfold Amounts.COIN_Z in HB. lia.
Qed.

Lemma shortfall_near n c :
  0 <= c < n -> n <= 90 * Num.U ->
  exists s, Num.max (Fin 0) (Num.sub (Fin n) (Fin c)) = Fin s /\ 0 <= s <= 91 * Num.U /\
    10 ^ 9 * Z.abs (s - (n - c)) <= Num.U.
Proof.
  intros Hc Hn. pose proof Num.U_pos as HU. pose proof U_big as HB. unfold Amounts.COIN_Z in HB.
  unfold Num.sub. cbn [Num.num_neg Num.add]. rewrite Z.add_opp_r.
  destruct (round_near (n - c) 1) as (s & -> & Hs & H1); [lia|lia|].
  exists s. split; [|lia]. unfold Num.max. cbn. destruct (Z.ltb_spec 0 s); [done|].
  f_equal. lia.
Qed.

(** C10 (bounds). The gas top-up buys enough: when the chain reports less gas than needed (up to 90
    coins), the text the page sends is a plain decimal that denotes [k] hundred-thousandths of a
    wCRYLO, and the gas there is with the gas bought at one to one exceeds the gas needed by 0.00499
    to 0.00502 coins: rounding errors of the binary64 arithmetic are within the buffer. *)
Theorem top_up_covers (gas : num) (status : jsval) (n c : Z) :
  neededGas gas = Fin n -> currentGas status = Fin c -> 0 <= c < n -> n <= 90 * Num.U ->
  exists k,
    Amounts.decimalToAtomic (JStr (num_to_string (wcryloNeeded gas status))) 11 "wCRYLO"
    = Ok (string_of_Z (k * 10 ^ 6)) /\
    n * 10 ^ 5 + 499 * Num.U <= c * 10 ^ 5 + k * Num.U <= n * 10 ^ 5 + 502 * Num.U.
Proof.
  intros En Ec Hc Hn. pose proof Num.U_pos as HU. unfold wcryloNeeded. rewrite En, Ec.
  destruct (shortfall_near n c Hc Hn) as (s & -> & Hs & Hnear).
  destruct (topUpAmount_units s) as (k & -> & Hk0 & Hk); [lia|].
  assert (499 <= k <= 9100600) as Hkb by nia.
  exists k. split; [|nia].
  destruct (print_coin (k * 10 ^ 6) ltac:(lia)) as (d & e & Ht & He & Hval).
  destruct (decimal_text_nonneg _ _ _ Ht) as [Hd He0].
  assert (d <> 0) by (intros ->; lia).
  rewrite (Amounts.decimalToAtomic_value _ d e 11); [by rewrite Hval| |lia|lia].
  by rewrite (Amounts.decimal_text_field _ _ _ Ht).
Qed.

(** A wallet with 0.01 coins of gas that stakes (0.04 coins needed) is asked for 0.035. *)
Definition sample_status : jsval := JObj [("ok", JBool true); ("nativeGas", JStr "0.01")].
Definition units (x : num) : Z := match x with Fin z => z | _ => 0 end.
Definition sample_needed : Z := units (number_of_string "0.04").
Definition sample_current : Z := units (number_of_string "0.01").

Lemma top_up_covers_witness :
  num_to_string (wcryloNeeded (number_of_string "0.04") sample_status) = "0.035" /\
  exists k, sample_needed * 10 ^ 5 + 499 * Num.U <= sample_current * 10 ^ 5 + k * Num.U.
Proof.
  split; [vm_compute; reflexivity|].
  destruct (top_up_covers (number_of_string "0.04") sample_status sample_needed sample_current)
    as (k & _ & Hk & _).
  - vm_compute. reflexivity.
  - vm_compute. reflexivity.
  - split; [apply Z.leb_le|apply Z.ltb_lt]; vm_compute; reflexivity.
  - apply Z.leb_le. vm_compute. reflexivity.
  - exists k. exact Hk.
Defined.
