(* ===== verification/PageBridge.v ===== *)
(** * The page: bridging between CryLo and Nexus (electron/src/app.js)

    Bridging in splits the amount into deposits of at most 50 CRYLO, asks the bridge service for
    an address per deposit and sends each with the wallet; bridging out burns wCRYLO.  Both are
    followed by polling loops. *)

From Stdlib Require Import Ascii String.
From S2P Require Import Prelude JsNumber JsString JsConv JsVal Json Prog MainEnv Amounts CoinNumbers Page PageWallet PageNexus.

(** ** Splitting the amount *)

Definition CHUNK_SIZE : num := Num.of_Z 50.

(** One round of the loop: the deposit pushed on [chunks], and what remains. *)
Definition next_chunk (remaining : num) : num * num :=
  let chunk := Num.min CHUNK_SIZE remaining in
  (number_of_string (to_fixed chunk 11),
   number_of_string (to_fixed (Num.sub remaining chunk) 11)).

(** [while (remaining > 0) { ... }]; [None] when the rounds allowed do not suffice. *)
Fixpoint split_chunks (fuel : nat) (remaining : num) : option (list num) :=
  if negb (Num.ltb (Fin 0) remaining) then Some []
  else
    match fuel with
    | O => None
    | S fuel' =>
        let '(chunk, rest) := next_chunk remaining in
        match split_chunks fuel' rest with
        | Some l => Some (chunk :: l)
        | None => None
        end
    end.

(** Three rounds split every amount up to the limit of 150. *)
Definition MAX_CHUNKS : nat := 3.

Section bridge_forms.
Context `{Locale}.
Local Open Scope prog_scope.

Definition setBridgeStatus (msg : string) : page :=
  set_text_opt "bridge-status" ("Bridge status: " +:+ msg).
Definition setBridgeOutStatus (msg : string) : page :=
  set_text_opt "bridge-out-status" ("Release status: " +:+ msg).
Definition setBridgeField (id : string) (value : jsval) : page :=
  set_prop_opt id "textContent" (js_or value (JStr "—")).

Definition refreshBridgeAddressFields : page :=
  address <- get_state "address";
  setBridgeField "bridge-crylo-address" (js_or address (JStr "—")) ;;
  linked <- getLinkedNexusAddress;
  setBridgeField "bridge-nexus-address" (js_or linked (JStr "—")).

(** The Nexus tab: [loadSavedNexusLinkedAddress().then(...)]. *)
Definition loadNexusTab : page :=
  loadSavedNexusLinkedAddress ;;
  refreshBridgeAddressFields ;;
  refreshNexusNodeStatus.

Definition ignoring (p : page) : page := try_catch p (fun _ => Ret JUndef).

Definition refreshBridgeRelatedViews : page :=
  ignoring refreshNexusWcryloBalance ;;
  ignoring refreshNexusStakedBalance ;;
  ignoring refreshNexusGasStatus ;;
  ignoring loadNexusTransactions ;;
  ignoring updateBalance.

Definition resetBridgeFormAfterMint : page :=
  set_prop_opt "bridge-amount" "value" (JStr "") ;;
  present <- call (HasElement "bridge-submit-btn");
  if truthy present then
    set_prop "bridge-submit-btn" "disabled" (JBool false) ;;
    set_text "bridge-submit-btn" "Generate & Send Bridge Deposit"
  else Ret JUndef.

(** [document.getElementById(id)?.value || ''] *)
Definition value_or_empty (id : string) : page :=
  present <- call (HasElement id);
  if truthy present then v <- call (Value id); Ret (js_or v (JStr "")) else Ret (JStr "").

(** ** Bridging in *)

Definition plural (n : nat) : string := if (n =? 1)%nat then "" else "s".
Definition nat_text (n : nat) : string := string_of_Z (Z.of_nat n).

Record deposit := Deposit {
  dep_paymentId : jsval;
  dep_cryloTx : jsval;
  dep_amount : string;
}.

Definition deposit_obj (d : deposit) : jsval :=
  JObj [("paymentId", dep_paymentId d); ("cryloTx", dep_cryloTx d);
        ("amount", JStr (dep_amount d))].

(** The parameters of the transfer that funds a deposit. *)
Definition transferParams (address : jsval) (amountAtomic : string) : jsval :=
  JObj [("destinations", JArr [JObj [("address", address);
                                     ("amount", JNum (number_of_string amountAtomic))]]);
        ("account_index", JNum (Fin 0)); ("subaddr_indices", JArr [JNum (Fin 0)]);
        ("priority", JNum (Fin 0)); ("unlock_time", JNum (Fin 0)); ("get_tx_key", JBool true)].

(** The hash of a transfer, wherever the reply has it. *)
Definition transfer_hash (result : jsval) : jsval :=
  js_or (get_opt result "tx_hash")
  (js_or (index_opt (get_opt result "tx_hash_list") 0)
  (js_or (get_opt (get_opt result "result") "tx_hash")
  (js_or (index_opt (get_opt (get_opt result "result") "tx_hash_list") 0)
  (js_or (get_opt result "txid") (JStr ""))))).

Definition throw_error {A} (v : jsval) : prog pop A := Raise (Error (to_str v)).

(** Deposit [i] of [n]: the request, the transfer, and the record of both. *)
Definition send_deposit (nexusAddress : jsval) (n : nat) (i : nat) (chunkAmount : num)
    (sent : list deposit) : prog pop (list deposit) :=
  let chunkText := num_to_string chunkAmount in
  let nth_of := nat_text (S i) +:+ "/" +:+ nat_text n +:+ " for " +:+ chunkText +:+ " CRYLO" in
  amountAtomic <- lift (Amounts.cryloToAtomic (JStr chunkText));
  setBridgeStatus ("creating deposit " +:+ nth_of) ;;
  cryloAddress <- get_state "address";
  req <- crylo_call "bridgeRequest"
    [JObj [("nexusAddress", nexusAddress); ("cryloAddress", cryloAddress);
           ("amountAtomic", JStr amountAtomic)]];
  reqOk <- lift (get req "ok");
  if negb (truthy reqOk) then
    error <- lift (get req "error");
    throw_error (js_or error (JStr ("Bridge request " +:+ nat_text (S i) +:+ " failed.")))
  else
    let bridgePaymentId := js_or (get_opt req "paymentId") (get_opt req "payment_id") in
    let bridgeSendAddress :=
      js_or (get_opt req "integratedAddress") (get_opt req "integrated_address") in
    if negb (truthy bridgePaymentId) || negb (truthy bridgeSendAddress) then
      Raise (Error "Bridge API did not return payment ID and integrated address.")
    else
      (if (i =? 0)%nat then
         setBridgeField "bridge-payment-id" bridgePaymentId ;;
         setBridgeField "bridge-integrated-address" bridgeSendAddress ;;
         setBridgeField "bridge-nexus-tx" (JStr "—")
       else Ret JUndef) ;;
      setBridgeStatus ("sending deposit " +:+ nth_of) ;;
      tx <- walletRpc_call "transfer_split" (transferParams bridgeSendAddress amountAtomic)
              (Some 120000);
      txOk <- lift (get tx "ok");
      if negb (truthy txOk) then
        error <- lift (get tx "error");
        poor <- lift (includes_method error "not enough money");
        if poor : bool then Raise (Error "Not enough unlocked CRYLO. Try a smaller amount.")
        else throw_error (js_or error (JStr ("CryLo transfer " +:+ nat_text (S i) +:+ " failed.")))
      else
        result <- lift (get tx "result");
        let sent' := (sent ++ [Deposit bridgePaymentId (transfer_hash result) chunkText])%list in
        setBridgeField "bridge-crylo-tx"
          (JStr (join ", " (map (fun d => to_str (js_or (dep_cryloTx d) (JStr "sent"))) sent'))) ;;
        Ret sent'.

(** [for (let i = 0; i < chunks.length; i++)] *)
Fixpoint send_deposits (nexusAddress : jsval) (n i : nat) (chunks : list num)
    (sent : list deposit) : prog pop (list deposit) :=
  match chunks with
  | [] => Ret sent
  | c :: chunks' =>
      sent' <- send_deposit nexusAddress n i c sent;
      send_deposits nexusAddress n (S i) chunks' sent'
  end.

(** [sent[0]?.paymentId] *)
Definition first_payment (sent : list deposit) : jsval :=
  match sent with [] => JUndef | d :: _ => dep_paymentId d end.

(** [cryloBridgePollTimer] and [bridgeReleasePollTimer] are variables of the script. *)
Definition restart_timer (var f : string) (arg : jsval) (ms : Z) : page :=
  old <- get_state var;
  (if truthy old then call (ClearTimer old) else Ret JUndef) ;;
  t <- call (Every f [arg] ms);
  set_state var t.

Definition pollCryLoBridgeStatus (paymentId : jsval) : page :=
  restart_timer "cryloBridgePollTimer" "bridgeTick" paymentId 10000.

(** [e.message || default] *)
Definition message_or (e : jserr) (default : string) : string :=
  if String.eqb (message e) "" then default else message e.

Definition bridge_in_body : page :=
  setBridgeStatus "checking wallet" ;;
  loaded <- ensureCryLoAddressLoaded;
  if negb loaded then Raise (Error "Open a CryLo wallet first.")
  else
    nexusAddress <- getLinkedNexusAddress;
    if negb (truthy nexusAddress) then Raise (Error "Create/load the bound Nexus wallet first.")
    else
      refreshBridgeAddressFields ;;
      amountText <- value_or_empty "bridge-amount";
      let totalAmount := to_number amountText in
      if negb (Num.is_finite totalAmount) || Num.leb totalAmount (Fin 0) then
        Raise (Error "Enter a valid bridge amount.")
      else if Num.ltb (Num.of_Z 150) totalAmount then
        Raise (Error "Bridge limit is currently 150 CRYLO per session.")
      else
        let chunks := default [] (split_chunks MAX_CHUNKS totalAmount) in
        let n := length chunks in
        setBridgeStatus ("preparing " +:+ nat_text n +:+ " bridge deposit" +:+ plural n) ;;
        sent <- send_deposits nexusAddress n 0 chunks [];
        createdAt <- call NowMs;
        pending <- lift (Json.stringify ""
          (JObj [("paymentId", first_payment sent);
                 ("paymentIds", JArr (map dep_paymentId sent));
                 ("deposits", JArr (map deposit_obj sent));
                 ("createdAt", createdAt)]));
        call (StorageSet "cryloBridgePending" pending) ;;
        setBridgeStatus ("waiting for CryLo confirmations on " +:+ nat_text (length sent)
                         +:+ " deposit" +:+ plural (length sent)) ;;
        pollCryLoBridgeStatus (first_payment sent).

Definition startCryLoBridgeIn : page :=
  try_catch bridge_in_body (fun e => setBridgeStatus (message_or e "bridge failed")).

(** One tick of the polling of a deposit. *)
Definition bridgeTick (paymentId : jsval) : page :=
  try_catch
    (res <- crylo_call "bridgeStatus" [paymentId];
     resOk <- lift (get res "ok");
     if negb (truthy resOk) then
       error <- lift (get res "error");
       setBridgeStatus (to_str (js_or error (JStr "status check failed")))
     else
       processed <- lift (get res "processed");
       if truthy processed then
         timer <- get_state "cryloBridgePollTimer";
         call (ClearTimer timer) ;;
         set_state "cryloBridgePollTimer" JNull ;;
         let mintTx := first_truthy processed
               ["nexus_tx_hash"; "nexusTxHash"; "txHash"; "mintTxHash"] (JStr "processed") in
         setBridgeField "bridge-nexus-tx" mintTx ;;
         setBridgeStatus "✅ Mint completed — wCRYLO received." ;;
         refreshBridgeRelatedViews ;;
         call (Later "refreshBridgeRelatedViews" 3000) ;;
         call (Later "refreshBridgeRelatedViews" 10000) ;;
         resetBridgeFormAfterMint ;;
         refreshNexusWcryloBalance ;;
         refreshNexusGasStatus ;;
         call (StorageRemove "cryloBridgePending") ;;
         updateBalance ;;
         refreshNexusWcryloBalance ;;
         call (Later "updateBalances" 5000) ;;
         call (Later "updateBalances" 15000)
       else setBridgeStatus "waiting for CryLo confirmations")
    (fun e => setBridgeStatus (message_or e "status error")).

(** The callback scheduled twice after a mint. *)
Definition updateBalances : page := updateBalance ;; refreshNexusWcryloBalance.

(** ** Bridging out *)

Definition pollBridgeReleaseStatus (nexusTxHash : jsval) : page :=
  if negb (truthy nexusTxHash) || strict_eq nexusTxHash (JStr "sent") then Ret JUndef
  else restart_timer "bridgeReleasePollTimer" "releaseTick" nexusTxHash 5000.

Definition releaseTick (nexusTxHash : jsval) : page :=
  try_catch
    (res <- crylo_call "bridgeReleaseStatus" [nexusTxHash];
     resOk <- lift (get res "ok");
     if negb (truthy resOk) then
       error <- lift (get res "error");
       setBridgeOutStatus (to_str (js_or error (JStr "Release status check failed.")))
     else
       released <- lift (get res "released");
       release <- lift (get res "release");
       if truthy released && truthy release then
         timer <- get_state "bridgeReleasePollTimer";
         call (ClearTimer timer) ;;
         set_state "bridgeReleasePollTimer" JNull ;;
         let l1Tx := first_truthy release ["l1_tx_hash"; "crylo_tx_hash"] (JStr "released") in
         setBridgeOutStatus ("✅ Release completed. CryLo TX: " +:+ to_str l1Tx) ;;
         refreshBridgeRelatedViews ;;
         call (Later "refreshBridgeRelatedViews" 3000) ;;
         call (Later "refreshBridgeRelatedViews" 10000)
       else Ret JUndef)
    (fun _ => Ret JUndef).

Definition burn_question (amountText address : string) : string :=
  "Burn " +:+ amountText +:+ " wCRYLO and release CRYLO back to your CryLo wallet?"
  +:+ Json.newline +:+ Json.newline +:+ "Destination CryLo wallet:" +:+ Json.newline +:+ address.

Definition bridge_out_body : page :=
  loaded <- ensureCryLoAddressLoaded;
  if negb loaded then Raise (Error "Open a CryLo wallet first.")
  else
    nexusAddress <- getLinkedNexusAddress;
    if negb (truthy nexusAddress) then Raise (Error "Create/load the bound Nexus wallet first.")
    else
      amountText <- value_or_empty "bridge-out-amount";
      let amount := to_number amountText in
      if negb (Num.is_finite amount) || Num.leb amount (Fin 0) then
        Raise (Error "Invalid wCRYLO amount.")
      else
        setBridgeOutStatus "Checking Nexus gas..." ;;
        gasCheck <- ensureNexusGasForAction "wCRYLO to CRYLO bridge release"
                      (number_of_string "0.04");
        gasOk <- lift (get gasCheck "ok");
        if negb (truthy gasOk) then
          cancelled <- lift (get gasCheck "cancelled");
          error <- lift (get gasCheck "error");
          setBridgeOutStatus (if truthy cancelled then "Release cancelled."
                              else "Release failed: " +:+ to_str error)
        else
          address <- get_state "address";
          yes <- call (Confirm (burn_question (to_str amountText) (to_str address)));
          if negb (truthy yes) then setBridgeOutStatus "Release cancelled."
          else
            setBridgeOutStatus "Burning wCRYLO on Nexus..." ;;
            result <- wallet_call "nexusBurnForCryLo" [amountText];
            resOk <- lift (get result "ok");
            if negb (truthy resOk) then
              error <- lift (get result "error");
              throw_error (js_or error (JStr "Burn failed."))
            else
              txHash <- lift (get result "txHash");
              setBridgeOutStatus
                ("Burn confirmed. Reserve release is processing. Nexus TX: " +:+ to_str txHash) ;;
              set_prop_opt "bridge-out-amount" "value" (JStr "") ;;
              refreshNexusWcryloBalance ;;
              refreshAll ;;
              loadNexusTransactions ;;
              call (Later "refreshAll" 5000) ;;
              call (Later "refreshAll" 15000) ;;
              call (Later "refreshNexusWcryloBalance" 5000) ;;
              call (Later "refreshNexusWcryloBalance" 15000).

Definition startCryLoBridgeOut : page :=
  try_catch bridge_out_body (fun e => setBridgeOutStatus (message_or e "release failed")).
End bridge_forms.

(** ** Properties of the splitting *)

Definition CHUNK_ATOMS : Z := 50 * ATOMS.

(** The same loop on atomic units. *)
Fixpoint atomic_parts (fuel : nat) (m : Z) : list Z :=
  match fuel with
  | O => []
  | S fuel' =>
      if m <=? 0 then []
      else Z.min m CHUNK_ATOMS :: atomic_parts fuel' (m - Z.min m CHUNK_ATOMS)
  end.

Lemma CHUNK_SIZE_fin : CHUNK_SIZE = Fin (50 * Num.U).
Proof. apply Num.of_Z_safe. lia. Qed.

Lemma coin_50 : coin CHUNK_ATOMS = Fin (50 * Num.U).
Proof. vm_compute. reflexivity. Qed.

Lemma fifty_fixed : number_of_string (to_fixed (Fin (50 * Num.U)) 11) = coin CHUNK_ATOMS.
Proof. vm_compute. reflexivity. Qed.

Lemma zero_fixed z : number_of_string (to_fixed (Num.sub (Fin z) (Fin z)) 11) = coin 0.
Proof.
  unfold Num.sub, Num.num_neg, Num.add. replace (z + - z) with 0 by lia.
  vm_compute. reflexivity.
Qed.

(** One round on an amount: what is taken off, and what remains. *)
Lemma next_chunk_coin m :
  0 <= m <= 150 * ATOMS ->
  next_chunk (coin m) = (coin (Z.min m CHUNK_ATOMS), coin (m - Z.min m CHUNK_ATOMS)).
Proof.
  intros Hm. unfold next_chunk. rewrite CHUNK_SIZE_fin.
  destruct (coin_tight m) as (z & Hz & Hz0 & Ht); [unfold MAX_ATOMS, Amounts.COIN_Z in *; lia|].
  pose proof Num.U_pos as HU. assert (close z m) as Hc by (unfold close; lia). rewrite Hz. unfold Num.min. cbn [Num.is_nan orb Num.ltb].
  destruct (Z.le_gt_cases m CHUNK_ATOMS) as [Hle|Hgt].
  - rewrite Z.min_l, Z.sub_diag by done.
    assert (z <= 50 * Num.U).
    { destruct (decide (m = CHUNK_ATOMS)) as [->|].
      - rewrite coin_50 in Hz. injection Hz as <-. done.
      - unfold close, CHUNK_ATOMS, Amounts.COIN_Z in *. nia. }
    rewrite (proj2 (Z.ltb_ge _ _)) by done. rewrite zero_fixed. f_equal.
    rewrite (to_fixed_close z m) by (try done; unfold MAX_ATOMS, Amounts.COIN_Z in *; lia).
    apply read_fixed. lia.
  - rewrite Z.min_r by lia.
    assert (50 * Num.U < z) by (unfold close, CHUNK_ATOMS, Amounts.COIN_Z in *; nia).
    rewrite (proj2 (Z.ltb_lt _ _)) by done. rewrite fifty_fixed. f_equal.
    rewrite <- read_fixed by lia. f_equal.
    unfold Num.sub, Num.num_neg, Num.add, Num.round.
    rewrite (proj2 (Z.ltb_ge _ _)) by lia.
    pose proof U_huge as Hh. pose proof U_big as Hb.
    assert (z <= 151 * Num.U) by (unfold close, Amounts.COIN_Z in *; nia).
    destruct (Num.round_pos_finite (z + - (50 * Num.U)) 1) as (z' & Hz' & Hz0' & _); [lia|lia|].
    pose proof (Num.round_pos_rel (z + - (50 * Num.U)) 1 z' ltac:(lia) ltac:(lia) Hz') as Hrel.
    rewrite Hz'. apply to_fixed_close; [done|unfold MAX_ATOMS, CHUNK_ATOMS, Amounts.COIN_Z in *; lia|].
    unfold close, CHUNK_ATOMS, Amounts.COIN_Z in *. lia.
Qed.

Lemma split_coin fuel m :
  0 <= m <= 150 * ATOMS -> m <= Z.of_nat fuel * CHUNK_ATOMS ->
  split_chunks fuel (coin m) = Some (map coin (atomic_parts fuel m)).
Proof.
  revert m. induction fuel as [|fuel IH]; intros m Hm Hf; cbn [split_chunks atomic_parts];
    rewrite coin_pos by (unfold MAX_ATOMS, Amounts.COIN_Z in *; lia).
  - rewrite (proj2 (Z.ltb_ge _ _)) by lia. done.
  - destruct (Z.leb_spec m 0); [by rewrite (proj2 (Z.ltb_ge _ _))|].
    rewrite (proj2 (Z.ltb_lt _ _)) by done. cbn [negb].
    rewrite next_chunk_coin, IH; [done| | |done]; unfold CHUNK_ATOMS, Amounts.COIN_Z in *; lia.
Qed.

Lemma split_step fuel x :
  Num.ltb (Fin 0) x = true ->
  split_chunks (S fuel) x
  = option_map (cons (fst (next_chunk x))) (split_chunks fuel (snd (next_chunk x))).
Proof.
  intros Hx. unfold split_chunks at 1. fold split_chunks. rewrite Hx. cbn [negb].
  by destruct (next_chunk x) as [c rest].
Qed.

(** What remains after a round is a whole number of atomic units below the amount. *)
Lemma remaining_coin z :
  0 < z <= 150 * Num.U ->
  exists m, 0 <= m <= 2 * CHUNK_ATOMS /\ snd (next_chunk (Fin z)) = coin m.
Proof.
  intros Hz. pose proof Num.U_pos as HU. unfold next_chunk, snd. rewrite CHUNK_SIZE_fin.
  unfold Num.min. cbn [Num.is_nan orb Num.ltb]. destruct (Z.ltb_spec (50 * Num.U) z) as [Hlt|Hge].
  - unfold Num.sub, Num.num_neg, Num.add, Num.round. rewrite (proj2 (Z.ltb_ge _ _)) by lia.
    pose proof U_huge as Hh.
    destruct (Num.round_pos_finite (z + - (50 * Num.U)) 1) as (z' & Hz' & Hz0' & _); [lia|lia|].
    assert (z' <= 100 * Num.U) as Hz1.
    { pose proof (Num.round_pos_mono (z + - (50 * Num.U)) 1 (100 * Num.U) 1
        ltac:(lia) ltac:(lia) ltac:(lia) ltac:(lia)) as Hmono.
      assert (Num.round_pos (100 * Num.U) 1 = Fin (100 * Num.U)) as E100
        by (vm_compute; reflexivity).
      rewrite Hz', E100 in Hmono. unfold Num.leb in Hmono. cbn [Num.ltb Num.eqb] in Hmono. lia. }
    rewrite Hz', to_fixed_nonneg by lia.
    pose proof (rhu_near (z' * 10 ^ 11) Num.U HU). set (m := rhu _ _) in *.
    assert (0 <= m) by (apply rhu_nonneg; lia).
    exists m. split; [|by apply read_fixed].
    unfold CHUNK_ATOMS, Amounts.COIN_Z. change (10 ^ 11) with 100000000000 in *. nia.
  - exists 0. rewrite zero_fixed. split; [unfold CHUNK_ATOMS, Amounts.COIN_Z; lia|done].
Qed.

Lemma split_ends (x : num) :
  Num.is_finite x = true -> Num.ltb (Fin 0) x = true -> Num.ltb (Num.of_Z 150) x = false ->
  exists chunks, split_chunks MAX_CHUNKS x = Some chunks /\ (1 <= length chunks <= 3)%nat.
Proof.
  intros Hfin H0 H150. destruct x as [|?|z]; [discriminate Hfin|discriminate Hfin|].
  cbn [Num.ltb] in H0. apply Z.ltb_lt in H0.
  rewrite Num.of_Z_safe in H150 by lia. cbn [Num.ltb] in H150. apply Z.ltb_ge in H150.
  destruct (remaining_coin z ltac:(lia)) as (m & Hm & Hrest).
  unfold MAX_CHUNKS. rewrite split_step, Hrest by (by apply Z.ltb_lt).
  rewrite split_coin by (unfold CHUNK_ATOMS, Amounts.COIN_Z in *; lia).
  eexists. split; [reflexivity|]. cbn [length]. rewrite length_map.
  assert (length (atomic_parts 2 m) <= 2)%nat; [|lia].
  cbn [atomic_parts]. repeat case_bool; cbn [length]; lia.
Qed.

(** C29 (termination). The loop that splits a bridge amount ends: every amount the form lets
    through, a finite number above 0 and at most 150, is split in at most three rounds, so that
    the page prepares one, two or three deposits. *)
Theorem split_terminates (x : num) :
  Num.is_finite x = true -> Num.ltb (Fin 0) x = true -> Num.ltb (Num.of_Z 150) x = false ->
  exists chunks, split_chunks MAX_CHUNKS x = Some chunks /\ (1 <= length chunks <= 3)%nat.
Proof. apply split_ends. Qed.

Lemma split_terminates_witness :
  exists chunks, split_chunks MAX_CHUNKS (number_of_string "149.9999999999999") = Some chunks
                 /\ (1 <= length chunks <= 3)%nat.
Proof.
  apply (split_terminates (number_of_string "149.9999999999999"));
    vm_compute; reflexivity.
Defined.

(** ** What bridging in sends *)

(** The parameters of a request for a transfer. *)
Definition transfer_params (o : pop) : option jsval :=
  match o with
  | Crylo name (JStr m :: params :: _) =>
      if String.eqb name "walletRpc" && String.eqb m "transfer_split" then Some params else None
  | _ => None
  end.
Definition paid (tr : list (event pop)) : list jsval := omap (fun ev => transfer_params (fst ev)) tr.

(** The record of the deposits, written when all of them are sent. *)
Definition is_record (o : pop) : bool :=
  match o with StorageSet k _ => String.eqb k "cryloBridgePending" | _ => false end.
Definition recorded (tr : list (event pop)) : bool := existsb (fun ev => is_record (fst ev)) tr.

(** The bridge service was asked for an address for the amount, and answered with [address]. *)
Definition requested (tr : list (event pop)) (amountAtomic : string) (address : jsval) : Prop :=
  exists nexusAddress cryloAddress req,
    (Crylo "bridgeRequest" [JObj [("nexusAddress", nexusAddress); ("cryloAddress", cryloAddress);
                                  ("amountAtomic", JStr amountAtomic)]], Ok req) ∈ tr /\
    truthy (get_opt req "ok") = true /\
    address = js_or (get_opt req "integratedAddress") (get_opt req "integrated_address").

(** Operations that neither pay nor record. *)
Definition idle (o : pop) : Prop := transfer_params o = None /\ is_record o = false.

Lemma paid_app t1 t2 : paid (t1 ++ t2) = (paid t1 ++ paid t2)%list.
Proof. apply omap_app. Qed.

Lemma recorded_app t1 t2 : recorded (t1 ++ t2) = recorded t1 || recorded t2.
Proof. apply existsb_app. Qed.

Lemma paid_idle o r tr : transfer_params o = None -> paid ((o, r) :: tr) = paid tr.
Proof. intros Ho. unfold paid. cbn. by rewrite Ho. Qed.

Lemma recorded_idle o r tr : is_record o = false -> recorded ((o, r) :: tr) = recorded tr.
Proof. intros Ho. unfold recorded. cbn. by rewrite Ho. Qed.

Lemma requested_mono t1 t2 t a addr :
  requested t a addr -> requested (t1 ++ t ++ t2) a addr.
Proof.
  intros (na & ca & req & Hin & H). exists na, ca, req. split; [|done].
  rewrite !elem_of_app. auto.
Qed.

Lemma idle_trace {A} (p : prog pop A) tr x :
  Only idle p -> Runs p tr x -> paid tr = [] /\ recorded tr = false.
Proof.
  intros Hp Hr. pose proof (Only_Runs _ _ _ _ Hp Hr) as H. clear Hp Hr.
  induction H as [|[o r] tr [Ho Ho'] _ [IH IH']]; [done|]. unfold paid, recorded in *. cbn.
  cbn in Ho, Ho'. by rewrite Ho, Ho'.
Qed.

Lemma Runs_bind_idle {A B} (p : prog pop A) (f : A -> prog pop B) tr x :
  Only idle p -> Runs (bind p f) tr x ->
  (exists tr1 tr2 a, tr = (tr1 ++ tr2)%list /\ Runs p tr1 (Ok a) /\ paid tr1 = [] /\
     recorded tr1 = false /\ Runs (f a) tr2 x) \/
  (paid tr = [] /\ recorded tr = false /\ exists e, x = Throw e).
Proof.
  intros Hp [(tr1 & tr2 & a & -> & H1 & H2)|(e & H1 & ->)]%Runs_bind.
  - left. destruct (idle_trace _ _ _ Hp H1). by exists tr1, tr2, a.
  - right. destruct (idle_trace _ _ _ Hp H1). eauto.
Qed.

Ltac idle_ops :=
  unfold setBridgeField, setBridgeStatus, setBridgeOutStatus, set_text_opt, set_prop_opt, toast,
    set_text, set_prop, set_state, get_state, crylo_call, walletRpc_call, throw_error;
  only_with ltac:(done).

(** One deposit: at most one transfer, of the amount the service was asked for, to the address it
    gave; a deposit that is sent pays exactly once. *)
Lemma send_deposit_runs na n i c sent tr x :
  Runs (send_deposit na n i c sent) tr x ->
  recorded tr = false /\
  (paid tr = [] /\ (exists e, x = Throw e) \/
   exists atomic addr, Amounts.cryloToAtomic (JStr (num_to_string c)) = Ok atomic /\
     paid tr = [transferParams addr atomic] /\ requested tr atomic addr).
Proof.
  unfold send_deposit. intros Hr.
  destruct (Amounts.cryloToAtomic _) as [atomic|e] eqn:Hatomic.
  2: { cbn [lift bind] in Hr. apply Runs_raise_iff in Hr as [-> ->]. split; [done|]. left. eauto. }
  cbn [lift bind] in Hr.
  apply Runs_bind_idle in Hr as [(t1 & t2 & a & -> & _ & Hp1 & Hq1 & Hr)|(? & ? & ?)];
    [|by auto|by idle_ops].
  rewrite recorded_app, paid_app, Hp1, Hq1. cbn [app orb].
  enough (recorded t2 = false /\ (paid t2 = [] /\ (exists e, x = Throw e) \/
            exists addr, paid t2 = [transferParams addr atomic] /\ requested t2 atomic addr)) as H'.
  { destruct H' as [Hrec [H'|(addr & Hpaid & Hreq)]]; [by auto|]. split; [done|]. right.
    exists atomic, addr. split_and!; [done|done|].
    rewrite <- (app_nil_r (t1 ++ t2)), <- app_assoc. by apply requested_mono. }
  clear t1 Hp1 Hq1. unfold get_state, crylo_call in Hr.
  apply Runs_bind_call in Hr as ([ca|e] & t3 & -> & Hr); [|destruct Hr as [-> ->]; eauto 6].
  apply Runs_bind_call in Hr as ([req|e] & t4 & -> & Hr); [|destruct Hr as [-> ->]; eauto 6].
  rewrite !recorded_idle, !paid_idle by done.
  destruct (get req "ok") as [reqOk|e] eqn:Hok; cbn [lift bind] in Hr;
    [|apply Runs_raise_iff in Hr as [-> ->]; eauto 6].
  destruct (truthy reqOk) eqn:Ht; cbn [negb] in Hr;
    [|unfold throw_error in Hr; repeat runs_step; eauto 6].
  set (addr := js_or (get_opt req "integratedAddress") _) in Hr.
  destruct (_ || _) in Hr; [apply Runs_raise_iff in Hr as [-> ->]; eauto 6|].
  apply Runs_bind_idle in Hr as [(t5 & t6 & ? & -> & _ & Hp5 & Hq5 & Hr)|(? & ? & ?)];
    [|by eauto|by idle_ops].
  apply Runs_bind_idle in Hr as [(t7 & t8 & ? & -> & _ & Hp7 & Hq7 & Hr)|(Hp7 & Hq7 & ?)];
    [|rewrite recorded_app, paid_app, Hp5, Hq5, Hp7, Hq7; by eauto|by idle_ops].
  rewrite !recorded_app, !paid_app, Hp5, Hq5, Hp7, Hq7. cbn [app orb].
  unfold walletRpc_call in Hr. apply Runs_bind_call in Hr as (r & t9 & -> & Hr).
  assert (paid t9 = [] /\ recorded t9 = false) as [Hp9 Hq9].
  { destruct r as [tx|e]; [|by destruct Hr as [-> _]].
    eapply idle_trace; [|exact Hr]. idle_ops. }
  rewrite recorded_idle by done. split; [done|]. right. exists addr. split.
  - change (transferParams addr atomic :: paid t9 = [transferParams addr atomic]). by rewrite Hp9.
  - exists na, ca, req. split_and!; [|unfold get_opt; by rewrite Hok|done].
    apply elem_of_cons. right. apply elem_of_cons. by left.
Qed.

(** A transfer for a chunk. *)
Definition pays_chunk (tr : list (event pop)) (c : num) (params : jsval) : Prop :=
  exists atomic addr, Amounts.cryloToAtomic (JStr (num_to_string c)) = Ok atomic /\
    params = transferParams addr atomic /\ requested tr atomic addr.

Lemma pays_chunk_mono t1 t2 t c params :
  pays_chunk t c params -> pays_chunk (t1 ++ t ++ t2) c params.
Proof.
  intros (atomic & addr & Ha & Hp & Hr). exists atomic, addr. auto using requested_mono.
Qed.

Lemma send_deposits_runs na n chunks i sent tr x :
  Runs (send_deposits na n i chunks sent) tr x ->
  recorded tr = false /\
  Forall2 (pays_chunk tr) (take (length (paid tr)) chunks) (paid tr) /\
  ((exists s, x = Ok s) -> length (paid tr) = length chunks).
Proof.
  revert i sent tr x. induction chunks as [|c chunks IH]; intros i sent tr x; cbn [send_deposits].
  { intros [-> ->]%Runs_ret_iff. done. }
  intros [(t1 & t2 & sent' & -> & H1 & H2)|(e & H1 & ->)]%Runs_bind.
  - apply send_deposit_runs in H1 as [Hq1 [[_ [e [=]]]|(atomic & addr & Ha & Hp1 & Hr1)]].
    destruct (IH _ _ _ _ H2) as (Hq2 & Hf & Hlen).
    rewrite recorded_app, Hq1, Hq2, paid_app, Hp1. cbn [app length take].
    split_and!; [done| |intros Hx; f_equal; auto]. constructor.
    + exists atomic, addr. split_and!; [done|done|]. by apply (requested_mono [] t2 t1).
    + eapply Forall2_impl; [exact Hf|]. intros c' p' Hp'.
      rewrite <- (app_nil_r t2). by apply pays_chunk_mono.
  - apply send_deposit_runs in H1 as [Hq1 [[-> _]|(atomic & addr & Ha & -> & Hr1)]];
      cbn [length take]; (split_and!; [done| |by intros [? [=]]]); [constructor|].
    constructor; [|by rewrite take_0; constructor]. by exists atomic, addr.
Qed.

(** Bridging in: nothing is sent, or the deposits sent are the first chunks of the amount, and all
    of them when the record is written. *)
Definition deposits_follow (tr : list (event pop)) : Prop :=
  (paid tr = [] /\ recorded tr = false) \/
  exists v chunks, (Value "bridge-amount", Ok v) ∈ tr /\
    let total := to_number (js_or v (JStr "")) in
    Num.is_finite total = true /\ Num.leb total (Fin 0) = false /\
    Num.ltb (Num.of_Z 150) total = false /\
    split_chunks MAX_CHUNKS total = Some chunks /\
    Forall2 (pays_chunk tr) (take (length (paid tr)) chunks) (paid tr) /\
    (recorded tr = true -> length (paid tr) = length chunks).

Lemma deposits_follow_app t1 t t2 :
  paid t1 = [] -> recorded t1 = false -> paid t2 = [] -> recorded t2 = false ->
  deposits_follow t -> deposits_follow (t1 ++ t ++ t2).
Proof.
  intros Hp1 Hq1 Hp2 Hq2. unfold deposits_follow.
  rewrite !paid_app, !recorded_app, Hp1, Hp2, Hq1, Hq2, app_nil_r, orb_false_r. cbn [app orb].
  intros [H|(v & chunks & Hin & Hfin & H0 & H150 & Hsp & Hf & Hrec)]; [by left|]. right.
  exists v, chunks. split_and!; try assumption.
  - rewrite !elem_of_app. auto.
  - eapply Forall2_impl; [exact Hf|]. intros. by apply pays_chunk_mono.
Qed.

Lemma value_or_empty_runs id tr a :
  Runs (value_or_empty id) tr (Ok a) ->
  a = JStr "" \/ exists v, (Value id, Ok v) ∈ tr /\ a = js_or v (JStr "").
Proof.
  unfold value_or_empty. intros ([present|e] & t & -> & H)%Runs_bind_call; [|by destruct H].
  destruct (truthy present); [|apply Runs_ret_iff in H as [_ [= ->]]; by left].
  apply Runs_bind_call in H as ([v|e] & t' & -> & H); [|by destruct H].
  apply Runs_ret_iff in H as [_ [= ->]]. right. exists v. split; [|done].
  rewrite !elem_of_cons. auto.
Qed.

Lemma positive_of_not_leb x : Num.is_finite x = true -> Num.leb x (Fin 0) = false -> Num.ltb (Fin 0) x = true.
Proof.
  destruct x as [|?|z]; try done. intros _. unfold Num.leb. cbn [Num.ltb Num.eqb].
  rewrite orb_false_iff, Z.ltb_ge, Z.eqb_neq, Z.ltb_lt. lia.
Qed.

Lemma deposits_follow_l t1 t :
  paid t1 = [] -> recorded t1 = false -> deposits_follow t -> deposits_follow (t1 ++ t).
Proof.
  intros Hp Hq Ht. rewrite <- (app_nil_r t). by apply deposits_follow_app.
Qed.

(** A step of the form that does not pay: it may end the form, otherwise look at what follows. *)
Ltac bridge_idle Hr :=
  let t1 := fresh "t" in let t2 := fresh "t" in let a := fresh "a" in
  apply Runs_bind_idle in Hr as [(t1 & t2 & a & -> & ? & ? & ? & Hr)|(? & ? & ?)];
  [apply deposits_follow_l; [assumption|assumption|]|by left|].

Lemma ensureCryLoAddressLoaded_idle : Only idle ensureCryLoAddressLoaded.
Proof. unfold ensureCryLoAddressLoaded. idle_ops. Qed.

(** What follows the deposits writes the record and starts polling. *)
Lemma deposits_then na n msg chunks (k : list deposit -> page) tr x :
  (forall sent t y, Runs (k sent) t y -> paid t = []) ->
  Runs (bind (setBridgeStatus msg) (fun _ => bind (send_deposits na n 0 chunks []) k)) tr x ->
  Forall2 (pays_chunk tr) (take (length (paid tr)) chunks) (paid tr) /\
  (recorded tr = true -> length (paid tr) = length chunks).
Proof.
  intros Hk [(t1 & t2 & a & -> & _ & Hp1 & Hq1 & Hr)|(-> & -> & _)]%Runs_bind_idle;
    [|by split; [constructor|]|by idle_ops].
  rewrite paid_app, recorded_app, Hp1, Hq1. cbn [app orb].
  apply Runs_bind in Hr as [(t3 & t4 & sent & -> & Hs & Hr)|(e & Hs & ->)];
    apply send_deposits_runs in Hs as (Hq & Hf & Hlen).
  - rewrite paid_app, (Hk _ _ _ Hr), app_nil_r. split; [|intros _; eauto].
    eapply Forall2_impl; [exact Hf|]. intros. by apply pays_chunk_mono.
  - rewrite Hq. split; [|done]. eapply Forall2_impl; [exact Hf|]. intros.
    rewrite <- (app_nil_r t2). by apply pays_chunk_mono.
Qed.

Definition no_payment (o : pop) : Prop := transfer_params o = None.

Lemma no_payment_trace {A} (p : prog pop A) tr x : Only no_payment p -> Runs p tr x -> paid tr = [].
Proof.
  intros Hp Hr. pose proof (Only_Runs _ _ _ _ Hp Hr) as H. clear Hp Hr.
  induction H as [|[o r] tr Ho _ IH]; [done|]. by rewrite paid_idle.
Qed.

Lemma bridge_in_body_runs tr x : Runs bridge_in_body tr x -> deposits_follow tr.
Proof.
  unfold bridge_in_body. intros Hr.
  bridge_idle Hr; [|by idle_ops]. bridge_idle Hr; [|apply ensureCryLoAddressLoaded_idle].
  destruct (negb a0); [by apply Runs_raise_iff in Hr as [-> _]; left|].
  bridge_idle Hr; [|by unfold getLinkedNexusAddress; idle_ops].
  destruct (negb (truthy a1)); [by apply Runs_raise_iff in Hr as [-> _]; left|].
  bridge_idle Hr; [|by unfold refreshBridgeAddressFields, getLinkedNexusAddress; idle_ops].
  apply Runs_bind_idle in Hr as [(tv & t5 & v & -> & Hv & Hpv & Hqv & Hr)|(? & ? & ?)];
    [|by left|by unfold value_or_empty; idle_ops].
  destruct (Num.is_finite (to_number v)) eqn:Hfin; cbn [negb orb] in Hr;
    [|apply Runs_raise_iff in Hr as [-> _]; left; by rewrite app_nil_r].
  destruct (Num.leb (to_number v) (Fin 0)) eqn:Hpos;
    [apply Runs_raise_iff in Hr as [-> _]; left; by rewrite app_nil_r|].
  destruct (Num.ltb (Num.of_Z 150) (to_number v)) eqn:H150;
    [apply Runs_raise_iff in Hr as [-> _]; left; rewrite app_nil_r; exact (conj Hpv Hqv)|].
  apply value_or_empty_runs in Hv as [->|(v0 & Hin & ->)]; [vm_compute in Hpos; discriminate|].
  destruct (split_ends _ Hfin (positive_of_not_leb _ Hfin Hpos) H150) as (chunks & Hsp & _).
  rewrite Hsp in Hr. cbv zeta in Hr. change (default [] (Some chunks)) with chunks in Hr.
  apply deposits_then in Hr as [Hf Hlen].
  2: { intros sent t' y. apply no_payment_trace.
       unfold pollCryLoBridgeStatus, restart_timer. idle_ops. }
  right. exists v0, chunks. rewrite paid_app, recorded_app, Hpv, Hqv. cbn [app orb].
  split_and!; try assumption.
  - rewrite elem_of_app. by left.
  - eapply Forall2_impl; [exact Hf|]. intros. rewrite <- (app_nil_r t5).
    by apply pays_chunk_mono.
Qed.

Lemma bridge_in_runs tr x : Runs startCryLoBridgeIn tr x -> deposits_follow tr.
Proof.
  unfold startCryLoBridgeIn.
  intros [(a & H & ->)|(t1 & t2 & e & -> & H1 & H2)]%Runs_try; [by eapply bridge_in_body_runs|].
  apply idle_trace in H2 as [Hp Hq]; [|by idle_ops].
  apply (deposits_follow_app [] t1 t2); auto. by eapply bridge_in_body_runs.
Qed.

(** ** The deposits add up to the amount *)

Definition total_atoms (ps : list Z) : Z := foldr Z.add 0 ps.

(** No deposit of the amount is below a millionth of a coin. *)
Definition no_dust (m : Z) : Prop := m mod CHUNK_ATOMS = 0 \/ 10 ^ 5 <= m mod CHUNK_ATOMS.

Lemma atomic_parts_spec fuel m :
  0 <= m <= Z.of_nat fuel * CHUNK_ATOMS -> no_dust m ->
  total_atoms (atomic_parts fuel m) = m /\
  Forall (fun p => 10 ^ 5 <= p <= CHUNK_ATOMS) (atomic_parts fuel m).
Proof.
  assert (0 < CHUNK_ATOMS) as HC by (unfold CHUNK_ATOMS, Amounts.COIN_Z; lia).
  assert (10 ^ 5 <= CHUNK_ATOMS) as HC' by (unfold CHUNK_ATOMS, Amounts.COIN_Z; lia).
  revert m. induction fuel as [|fuel IH]; intros m Hm Hd; cbn [atomic_parts];
    [split; [cbn; lia|constructor]|].
  destruct (Z.leb_spec m 0); [split; [cbn; lia|constructor]|].
  destruct (IH (m - Z.min m CHUNK_ATOMS)) as [Hsum Hall]; [lia| |].
  { unfold no_dust in *. destruct (Z.le_gt_cases m CHUNK_ATOMS).
    - left. rewrite Z.min_l by done. by rewrite Z.sub_diag, Z.mod_0_l by lia.
    - rewrite Z.min_r by lia. replace (m - CHUNK_ATOMS) with (m + (-1) * CHUNK_ATOMS) by lia.
      by rewrite Z_mod_plus_full. }
  split; [cbn [total_atoms foldr] in *; unfold total_atoms in Hsum; lia|].
  constructor; [|done]. destruct (Z.le_gt_cases CHUNK_ATOMS m); [lia|].
  unfold no_dust in Hd. rewrite Z.mod_small in Hd by lia. lia.
Qed.

Lemma total_take n ps :
  Forall (fun p => 10 ^ 5 <= p <= CHUNK_ATOMS) ps -> total_atoms (take n ps) <= total_atoms ps.
Proof.
  intros H. revert n. induction H as [|p ps Hp _ IH]; intros [|n]; [done|done| |].
  - cbn. pose proof (IH O) as IH'. rewrite take_0 in IH'. unfold total_atoms in IH'. cbn in IH'. lia.
  - cbn. specialize (IH n). unfold total_atoms in IH. lia.
Qed.

Lemma Forall2_and_l {A B} (P : A -> Prop) (R : A -> B -> Prop) l k :
  Forall P l -> Forall2 R l k -> Forall2 (fun a b => P a /\ R a b) l k.
Proof. intros Hl. induction 1; inversion Hl; constructor; auto. Qed.

Lemma print_part p :
  10 ^ 5 <= p <= CHUNK_ATOMS ->
  Amounts.cryloToAtomic (JStr (num_to_string (coin p))) = Ok (string_of_Z p) /\
  number_of_string (string_of_Z p) = Fin (p * Num.U).
Proof.
  intros Hp. unfold CHUNK_ATOMS, Amounts.COIN_Z in Hp. split.
  - destruct (print_coin p ltac:(lia)) as (s & k & Ht & Hk & Hval).
    destruct (decimal_text_nonneg _ _ _ Ht) as [Hs Hk0].
    assert (s <> 0) by (intros ->; lia). unfold Amounts.cryloToAtomic.
    rewrite (Amounts.decimalToAtomic_value _ s k 11); [by rewrite Hval| |lia|lia].
    by rewrite (Amounts.decimal_text_field _ _ _ Ht).
  - rewrite Amounts.number_of_string_of_Z by lia. apply Num.of_Z_safe. lia.
Qed.

(** A coin number that is finite, positive and at most 150 comes from such an amount. *)
Lemma coin_bounds m :
  0 <= m -> Num.is_finite (coin m) = true -> Num.leb (coin m) (Fin 0) = false ->
  Num.ltb (Num.of_Z 150) (coin m) = false -> 0 < m <= 150 * ATOMS.
Proof.
  intros Hm Hfin Hpos H150. split.
  { destruct (decide (m = 0)) as [->|]; [|lia]. rewrite coin_0 in Hpos. discriminate. }
  destruct (Z.le_gt_cases m (150 * ATOMS)) as [|Hgt]; [done|exfalso].
  rewrite Num.of_Z_safe in H150 by lia. unfold coin in *. pose proof Num.U_pos.
  assert (0 < ATOMS) by (unfold Amounts.COIN_Z; lia).
  rewrite of_frac_nonneg in * by lia.
  pose proof (Num.round_pos_mono ((150 * ATOMS + 1) * Num.U) ATOMS (m * Num.U) ATOMS
    ltac:(lia) ltac:(lia) ltac:(unfold Amounts.COIN_Z; lia) ltac:(nia)) as Hmono.
  destruct (Num.round_pos (m * Num.U) ATOMS) as [|?|z]; [discriminate Hfin|discriminate Hfin|].
  cbn [Num.ltb] in H150. apply Z.ltb_ge in H150.
  assert (Num.leb (Num.round_pos ((150 * ATOMS + 1) * Num.U) ATOMS) (Fin (150 * Num.U)) = false)
    as Hlt by (vm_compute; reflexivity).
  destruct (Num.round_pos ((150 * ATOMS + 1) * Num.U) ATOMS) as [|[]|z0];
    [discriminate Hmono|discriminate Hlt|discriminate Hmono|].
  unfold Num.leb in *. cbn [Num.ltb Num.eqb] in *. lia.
Qed.

Lemma typed_number raw m k :
  decimal_text raw m k -> k <= 11 ->
  to_number (js_or (JStr raw) (JStr "")) = coin (m * 10 ^ (11 - k)).
Proof.
  intros Ht Hk. destruct (decimal_text_chars _ _ _ Ht) as [_ Hne].
  rewrite js_or_truthy by (by apply truthy_str). by apply number_of_decimal.
Qed.

(** C5 (functional). Bridging in sends exactly what was typed, when that is a plain decimal with at
    most eleven fractional digits (whole atomic units) whose last deposit is not below a millionth
    of a coin.  Whatever the service and the wallet answer, for such an amount of [M] atomic units
    deposits are sent only if [M] is positive and at most 150 coins; each is of at most 50 coins,
    is requested as an exact number of atomic units, and goes to an address the bridge service
    gave for that very number; together they never exceed [M], and they are exactly [M] once the
    page records the deposits as sent. *)
Theorem bridge_deposits_exact (tr : list (event pop)) (x : result jsval) :
  Runs startCryLoBridgeIn tr x ->
  (paid tr = [] /\ recorded tr = false) \/
  exists v, (Value "bridge-amount", Ok v) ∈ tr /\
    forall raw m k, v = JStr raw -> decimal_text raw m k -> k <= 11 ->
    let M := m * 10 ^ (11 - k) in
    no_dust M ->
    0 < M <= 150 * ATOMS /\
    exists ps,
      Forall2 (fun p params => 0 < p <= CHUNK_ATOMS /\
                 number_of_string (string_of_Z p) = Fin (p * Num.U) /\
                 exists addr, params = transferParams addr (string_of_Z p) /\
                              requested tr (string_of_Z p) addr) ps (paid tr) /\
      total_atoms ps <= M /\
      (recorded tr = true -> total_atoms ps = M).
Proof.
  intros [Hnone|(v & chunks & Hin & Hfin & Hpos & H150 & Hsp & Hf & Hlen)]%bridge_in_runs;
    [by left|right].
  exists v. split; [exact Hin|]. intros raw m k -> Ht Hk M Hdust.
  destruct (decimal_text_nonneg _ _ _ Ht) as [Hm Hk0].
  assert (0 <= M) as HM by (pose proof (pow10_pos (11 - k) ltac:(lia)); unfold M; nia).
  rewrite (typed_number raw m k Ht Hk) in Hfin, Hpos, H150, Hsp. fold M in Hfin, Hpos, H150, Hsp.
  pose proof (coin_bounds M HM Hfin Hpos H150) as Hb. split; [exact Hb|].
  rewrite split_coin in Hsp by (unfold MAX_CHUNKS, CHUNK_ATOMS, Amounts.COIN_Z in *; lia).
  assert (chunks = map coin (atomic_parts MAX_CHUNKS M)) as -> by congruence. clear Hsp.
  destruct (atomic_parts_spec MAX_CHUNKS M) as [Hsum Hall];
    [unfold MAX_CHUNKS, CHUNK_ATOMS, Amounts.COIN_Z in *; lia|exact Hdust|].
  set (ps := atomic_parts MAX_CHUNKS M) in *. set (n := length (paid tr)) in *.
  exists (take n ps). split_and!.
  - change (map coin ps) with (coin <$> ps) in Hf. rewrite <- fmap_take in Hf.
    rewrite Forall2_fmap_l in Hf.
    assert (Forall (fun p => 10 ^ 5 <= p <= CHUNK_ATOMS) (take n ps)) as Hall' by by apply Forall_take.
    eapply Forall2_impl; [exact (Forall2_and_l _ _ _ _ Hall' Hf)|]. cbn.
    intros p params [Hp (atomic & addr & Hat & -> & Hreq)].
    destruct (print_part p Hp) as [Hpr Hnum]. rewrite Hpr in Hat. injection Hat as <-.
    split; [lia|]. split; [exact Hnum|]. exists addr. exact (conj eq_refl Hreq).
  - rewrite <- Hsum. exact (total_take _ _ Hall).
  - intros Hrec. rewrite take_ge; [exact Hsum|]. rewrite (Hlen Hrec), length_map. lia.
Qed.

(** A page on which an amount is bridged; 120.5 CryLo are three deposits. *)
Definition bridging (typed : string) (o : pop) : result jsval :=
  match o with
  | HasElement _ => Ok (JBool true)
  | Value _ => Ok (JStr typed)
  | Crylo name _ =>
      if String.eqb name "bridgeRequest" then
        Ok (JObj [("ok", JBool true); ("paymentId", JStr "p"); ("integratedAddress", JStr "addr")])
      else Ok (JObj [("ok", JBool true); ("result", JObj [("tx_hash", JStr "h")])])
  | _ => Ok JUndef
  end.
Definition sample_bridge : pop -> result jsval := bridging "120.5".
Definition sample_bridge_state : page_state :=
  <["address" := JStr "crylo"]> (<["nexusAddress" := JStr "0x1"]> ∅).
Definition sample_bridge_trace : list (event pop) :=
  snd (fst (run (exec_page sample_bridge) startCryLoBridgeIn sample_bridge_state)).

Lemma bridge_deposits_exact_witness :
  recorded sample_bridge_trace = true /\ length (paid sample_bridge_trace) = 3%nat /\
  exists ps, total_atoms ps <= 12050000000000 /\
             (recorded sample_bridge_trace = true -> total_atoms ps = 12050000000000).
Proof.
  split; [vm_compute; reflexivity|]. split; [vm_compute; reflexivity|].
  destruct (bridge_deposits_exact _ _
    (run_is_Runs (exec_page sample_bridge) startCryLoBridgeIn sample_bridge_state))
    as [[_ Hno]|(v & Hin & H)].
  { exfalso. vm_compute in Hno. discriminate Hno. }
  apply run_answers in Hin as [st [= ->]].
  destruct (H "120.5" 1205 1) as (_ & ps & _ & Hle & Heq).
  - reflexivity.
  - exact (dt_frac "120" "5" eq_refl ltac:(done) eq_refl ltac:(done)).
  - lia.
  - right. apply Z.leb_le. vm_compute. reflexivity.
  - exists ps. exact (conj Hle Heq).
Defined.

(** Below a millionth of a coin the text of a deposit has an exponent and is refused. *)
Lemma dust_deposit_fails :
  num_to_string (coin 50000) = "5e-7" /\
  Amounts.cryloToAtomic (JStr (num_to_string (coin 50000)))
  = Throw (Error "Invalid CRYLO amount.").
Proof. vm_compute. done. Qed.

(** The two side conditions are needed.  The form's field has steps of [10^-12], but an amount is
    rounded to eleven digits: one step below a coin is sent as a whole coin, more than was typed.
    And of fifty coins and a tenth of a millionth the fifty coins are sent before the rest, whose
    text has an exponent, is refused. *)
Definition bridged (typed : string) : list jsval * bool :=
  let tr := snd (fst (run (exec_page (bridging typed)) startCryLoBridgeIn sample_bridge_state)) in
  (paid tr, recorded tr).

Lemma twelfth_digit_rounds_up :
  bridged "0.999999999999" = ([transferParams (JStr "addr") "100000000000"], true).
Proof. vm_compute. reflexivity. Qed.

Lemma dust_stops_halfway :
  bridged "50.0000001" = ([transferParams (JStr "addr") "5000000000000"], false).
Proof. vm_compute. reflexivity. Qed.

(** ** Forms that check their gas *)

Section gas_forms.
Context `{Locale}.

(** The forms that check the gas first, with the call they make, the action's label and its gas. *)
Definition gas_forms (tokenId : string) : list (page * string * string * num) :=
  [(stakeNexusWcrylo, "nexusStakeWcrylo", "staking", number_of_string "0.04");
   (unstakeNexusWcrylo, "nexusUnstakeWcrylo", "unstaking", number_of_string "0.04");
   (claimNexusRewards, "nexusClaimRewards", "claiming staking rewards", number_of_string "0.03");
   (unregisterNexusNode, "nexusUnregisterNode", "node deregistration", number_of_string "0.04");
   (claimNexusNodeRewards, "nexusClaimNodeRewards", "claiming node rewards", number_of_string "0.03");
   (buyBackNexusNFT tokenId, "nexusBuyBackNft", "NFT buyback", number_of_string "0.06");
   (burnNexusNFT tokenId, "nexusBurnNft", "NFT burn", number_of_string "0.05");
   (startCryLoBridgeOut, "nexusBurnForCryLo", "wCRYLO to CRYLO bridge release",
    number_of_string "0.04")].

Ltac form_step :=
  lazymatch goal with
  | |- follows (gas_protocol _ _ _) (with_gas _ _ _ _ _) => apply with_gas_follows
  | |- follows (gas_protocol _ _ _) (bind (ensureNexusGasForAction _ _) _) =>
      apply gas_then_follows; [intros ?|]
  | |- follows _ (wallet_call _ _) => apply wallet_call_acts
  | |- follows _ (try_catch _ _) => apply follows_try; [apply _| |intros ?]
  | |- follows _ (bind (wallet_call _ _) _) => apply follows_then; [apply _| |intros ?]
  | |- follows _ (bind _ _) => apply follows_after; [apply _| |intros ?]
  | |- follows _ (if _ then _ else _) => apply follows_if
  | |- follows _ (set_text _ _) => apply follows_unsigned; [apply _|]
  | |- follows _ (Ret _) => apply follows_unsigned; [apply _|]
  | |- follows _ (Raise _) => apply follows_unsigned; [apply _|]
  | |- follows _ (setBridgeOutStatus _) => apply follows_unsigned; [apply _|]
  | |- follows _ bridge_out_body => unfold bridge_out_body
  | |- follows _ (node_action _ _ _) => unfold node_action
  | |- follows _ _ => progress cbv zeta
  | |- Only unsigned _ => solve [only_deep ltac:(reflexivity)]
  end.

(** C9 (safety). Every form that checks its gas, the seven of the Nexus tab and the bridge's way
    out, signs at most two transactions,
    in this order: a purchase of gas, made only after the chain reported less gas than the action
    needs and the user agreed to a question that names the amount bought; and the action itself,
    for the wallet that is open, made only when the chain reported enough gas or the purchase
    succeeded. *)
Theorem gas_before_action (tokenId : string) :
  Forall (fun '(form, name, label, gas) =>
            forall tr x, Runs form tr x -> gas_protocol label gas name tr) (gas_forms tokenId).
Proof.
  unfold gas_forms. repeat (apply Forall_cons; split); [..|apply Forall_nil; exact I];
    match goal with |- forall tr x, Runs ?f tr x -> gas_protocol ?l ?g ?n tr =>
      change (follows (gas_protocol l g n) f); let h := head_of f in unfold h end;
    repeat form_step.
Qed.
End gas_forms.

(** The same wallet stakes one wCRYLO: the user agrees, gas is bought, then the stake is signed. *)
#[local] Instance gas_locale : Locale :=
  {| localeString := to_str; localeDate := fun n => num_to_string n |}.

Definition sample_chain (o : pop) : result jsval :=
  match o with
  | Value _ | TextContent _ => Ok (JStr "1")
  | Confirm _ => Ok (JBool true)
  | Crylo _ _ => Ok sample_status
  | _ => Ok JUndef
  end.
Definition sample_stake : list (event pop) :=
  snd (fst (run (exec_page sample_chain) stakeNexusWcrylo (<["nexusAddress" := JStr "0x1"]> ∅))).

Lemma gas_before_action_witness :
  map (fun ev => match fst ev with Crylo name _ => name | _ => "" end) (signed sample_stake)
  = ["nexusBuyGasWithWcrylo"; "nexusStakeWcrylo"] /\
  gas_protocol "staking" (number_of_string "0.04") "nexusStakeWcrylo" sample_stake.
Proof.
  split; [vm_compute; reflexivity|].
  pose proof (gas_before_action "1") as Hf. unfold gas_forms in Hf.
  apply Forall_cons in Hf as [Hstake _].
  apply (Hstake _ (snd (run (exec_page sample_chain) stakeNexusWcrylo
                          (<["nexusAddress" := JStr "0x1"]> ∅)))).
  apply run_is_Runs.
Defined.
