(* ===== verification/PageState.v ===== *)
(** * The state of the page: actions, environments and a logic of their runs

    Every function of the page as an action on the shared [State], the environments that answer it,
    and Hoare triples for a function that runs while other functions change the state between its
    operations.  Then the polling intervals: which of them run after a log of operations, and
    what it means that [State] keeps their handles. *)

From Stdlib Require Import Ascii String.
From S2P Require Import Prelude JsNumber JsString JsConv JsVal Json Prog MainEnv Amounts Page PageWallet PageTx PageMining PageNexus PageBridge.

(** ** The actions *)

Inductive action :=
| CreateWallet | OpenWallet | RestoreWallet | OpenMainScreen | SwitchWallet
| ShowSetupOrMain | ShowSetup | BackToSetupCards | ShowSetupForm (type : string) | LoadWalletList
| PasswordInput (id : string) | PasswordKey (id key : string)
| ClearPasswordInvalid (id : string) | StartupStatus (state message : jsval)
| DaemonExit (code : jsval) | WalletRpcExit (code : jsval)
| RefreshAll | RefreshActiveTab | BlockPoll | UpdateSyncStatus | UpdateBalance | LoadAddress
| CopyAddress | CopyPaymentRequest | SendTx | ConsolidateUtxos | ConsolidateTick (timer txid : jsval)
| SwitchTab (tab : string) | ToggleAdvanced
| LoadTransactions | LoadVesting
| InitMiningTab | ToggleMining | StopMining | MiningTick
| CreateBoundNexusWallet | LoadSavedNexusAddress | LoadNexusTab
| RefreshWcrylo | RefreshStaked | RefreshRewards | RefreshNodeStatus | RefreshGasStatus
| Stake | Unstake | ClaimRewards | RegisterOperator | RegisterValidator | UnregisterNode
| ClaimNodeRewards | ClaimDailyGas | BuyGas
| LoadNexusBuyback | BuyBackNft (tokenId : string) | BurnNft (tokenId : string)
| LoadNexusTransactions
| BridgeIn | BridgeTick (paymentId : jsval) | BridgeOut | PollRelease (nexusTxHash : jsval)
| ReleaseTick (nexusTxHash : jsval) | RefreshBridgeViews | UpdateBalances.

Definition program `{Locale} (a : action) : page :=
  match a with
  | CreateWallet => createWallet | OpenWallet => openWallet | RestoreWallet => restoreWallet
  | OpenMainScreen => openMainScreen | SwitchWallet => switchWallet
  | ShowSetupOrMain => showSetupOrMain | ShowSetup => showSetup
  | BackToSetupCards => backToSetupCards | ShowSetupForm t => showSetupForm t
  | LoadWalletList => loadWalletList | ClearPasswordInvalid id => clearPasswordInvalid id
  | PasswordInput id => on_password_input id | PasswordKey id key => on_password_key id key
  | StartupStatus s m => onStartupStatus s m
  | DaemonExit c => onDaemonExit c | WalletRpcExit c => onWalletRpcExit c
  | RefreshAll => refreshAll | RefreshActiveTab => refreshActiveTab | BlockPoll => blockPoll
  | UpdateSyncStatus => updateSyncStatus | UpdateBalance => updateBalance
  | LoadAddress => loadAddress | CopyAddress => copyAddress
  | CopyPaymentRequest => copyPaymentRequest | SendTx => sendTx
  | ConsolidateUtxos => consolidateUtxos | ConsolidateTick t x => consolidateTick t x
  | SwitchTab t => switchTab t | ToggleAdvanced => toggleAdvanced
  | LoadTransactions => loadTransactions | LoadVesting => loadVesting
  | InitMiningTab => initMiningTab | ToggleMining => toggleMining | StopMining => stopMining
  | MiningTick => miningTick
  | CreateBoundNexusWallet => createBoundNexusWallet
  | LoadSavedNexusAddress => loadSavedNexusLinkedAddress | LoadNexusTab => loadNexusTab
  | RefreshWcrylo => refreshNexusWcryloBalance | RefreshStaked => refreshNexusStakedBalance
  | RefreshRewards => refreshNexusPendingRewards | RefreshNodeStatus => refreshNexusNodeStatus
  | RefreshGasStatus => refreshNexusGasStatus
  | Stake => stakeNexusWcrylo | Unstake => unstakeNexusWcrylo | ClaimRewards => claimNexusRewards
  | RegisterOperator => registerNexusOperator | RegisterValidator => registerNexusValidator
  | UnregisterNode => unregisterNexusNode | ClaimNodeRewards => claimNexusNodeRewards
  | ClaimDailyGas => claimNexusDailyGas | BuyGas => buyNexusGasWithWcrylo
  | LoadNexusBuyback => loadNexusBuyback | BuyBackNft t => buyBackNexusNFT t
  | BurnNft t => burnNexusNFT t | LoadNexusTransactions => loadNexusTransactions
  | BridgeIn => startCryLoBridgeIn | BridgeTick p => bridgeTick p
  | BridgeOut => startCryLoBridgeOut | PollRelease h => pollBridgeReleaseStatus h
  | ReleaseTick h => releaseTick h | RefreshBridgeViews => refreshBridgeRelatedViews
  | UpdateBalances => updateBalances
  end.

(** ** Environments

    The elements of the page exist, [setInterval] returns a positive integer, and the value of an
    input is a string.  The main process may answer anything. *)

Definition log : Type := list (event pop).
Definition assertion : Type := page_state -> log -> Prop.
Definition environment : Type := (pop -> result jsval) -> Prop.

Definition is_handle (t : jsval) : Prop := exists z, t = JNum (Fin z) /\ z <> 0.
Definition timer_handles (ext : pop -> result jsval) : Prop :=
  forall f args ms, exists t, ext (Every f args ms) = Ok t /\ is_handle t.
Definition input_strings (ext : pop -> result jsval) : Prop :=
  forall id, exists s, ext (Value id) = Ok (JStr s).
Definition page_env : environment := fun ext =>
  complete_page ext /\ timer_handles ext /\ input_strings ext.

(** The state after an operation, and an operation that keeps an assertion whatever its answer. *)
Definition set_by (o : pop) (st : page_state) : page_state :=
  match o with SetState f v => <[f := v]> st | _ => st end.
Definition neutral (I : assertion) (o : pop) : Prop :=
  forall st lg r, I st lg -> I (set_by o st) (lg ++ [(o, r)])%list.

Lemma exec_state ext st o : fst (exec_page ext st o) = set_by o st.
Proof. by destruct o. Qed.

Lemma neutral_exec (I : assertion) o ext st lg :
  neutral I o -> I st lg ->
  I (fst (exec_page ext st o)) (lg ++ [(o, snd (exec_page ext st o))])%list.
Proof. rewrite exec_state. intros Ho. apply Ho. Qed.

(** ** Triples

    A function runs in environments of [E] while others perform operations of their own between
    its operations, any but those that [mine] reserves to it. *)

Inductive other (mine : pop -> bool) : page_state * log -> page_state * log -> Prop :=
| other_op o r st lg : mine o = false -> other mine (st, lg) (set_by o st, lg ++ [(o, r)])%list.
Definition meanwhile (mine : pop -> bool) : page_state * log -> page_state * log -> Prop :=
  rtc (other mine).

(** What the others keep. *)
Class Stable (mine : pop -> bool) (P : assertion) : Prop :=
  stable o : mine o = false -> neutral P o.

Lemma stable_meanwhile mine P {HP : Stable mine P} w w' :
  meanwhile mine w w' -> P (fst w) (snd w) -> P (fst w') (snd w').
Proof.
  induction 1 as [|w1 w2 w3 Hs _ IH]; [done|]. intros H1. apply IH. clear IH.
  destruct Hs as [o r st lg Ho]. by apply (HP o Ho).
Qed.

Section triples.
Context (E : environment) (mine : pop -> bool).

Fixpoint wp {A} (p : prog pop A) (Q : result A -> assertion) (st : page_state) (lg : log) : Prop :=
  match p with
  | Ret a => Q (Ok a) st lg
  | Raise e => Q (Throw e) st lg
  | Do o k =>
      forall st' lg' ext, meanwhile mine (st, lg) (st', lg') -> E ext ->
        wp (k (snd (exec_page ext st' o))) Q (fst (exec_page ext st' o))
          (lg' ++ [(o, snd (exec_page ext st' o))])%list
  end.

Definition triple {A} (P : assertion) (p : prog pop A) (Q : result A -> assertion) : Prop :=
  forall st lg, P st lg -> wp p Q st lg.
Definition keeps {A} (I : assertion) (p : prog pop A) : Prop := triple I p (fun _ => I).

Lemma wp_mono {A} (p : prog pop A) (Q Q' : result A -> assertion) st lg :
  (forall x st lg, Q x st lg -> Q' x st lg) -> wp p Q st lg -> wp p Q' st lg.
Proof.
  intros HQ. revert st lg. induction p as [a|e|o k IH]; intros st lg; cbn [wp]; [apply HQ|apply HQ|].
  eauto.
Qed.

Lemma wp_bind {A B} (p : prog pop A) (k : A -> prog pop B) Q st lg :
  wp p (fun x => match x with Ok a => wp (k a) Q | Throw e => Q (Throw e) end) st lg ->
  wp (bind p k) Q st lg.
Proof.
  revert st lg. induction p as [a|e|o h IH]; intros st lg; cbn [wp bind]; [done|done|]. eauto.
Qed.

Lemma wp_try {A} (p : prog pop A) (h : jserr -> prog pop A) Q st lg :
  wp p (fun x => match x with Ok a => Q (Ok a) | Throw e => wp (h e) Q end) st lg ->
  wp (try_catch p h) Q st lg.
Proof.
  revert st lg. induction p as [a|e|o g IH]; intros st lg; cbn [wp try_catch]; [done|done|]. eauto.
Qed.

Lemma triple_ret {A} P (a : A) Q : (forall st lg, P st lg -> Q (Ok a) st lg) -> triple P (Ret a) Q.
Proof. intros H st lg HP. by apply H. Qed.

Lemma triple_raise {A} P e (Q : result A -> assertion) :
  (forall st lg, P st lg -> Q (Throw e) st lg) -> triple P (Raise e) Q.
Proof. intros H st lg HP. by apply H. Qed.

Lemma triple_bind {A B} P (p : prog pop A) (k : A -> prog pop B) (R : A -> assertion) Q :
  triple P p (fun x => match x with Ok a => R a | Throw e => Q (Throw e) end) ->
  (forall a, triple (R a) (k a) Q) -> triple P (bind p k) Q.
Proof.
  intros Hp Hk st lg HP. apply wp_bind. eapply wp_mono; [|by apply Hp].
  intros [a|e] st' lg' HR; [by apply Hk|done].
Qed.

Lemma triple_try {A} P (p : prog pop A) (h : jserr -> prog pop A) (R : jserr -> assertion) Q :
  triple P p (fun x => match x with Ok a => Q (Ok a) | Throw e => R e end) ->
  (forall e, triple (R e) (h e) Q) -> triple P (try_catch p h) Q.
Proof.
  intros Hp Hh st lg HP. apply wp_try. eapply wp_mono; [|by apply Hp].
  intros [a|e] st' lg' HR; [done|by apply Hh].
Qed.

(** The others run before the operation, so what is known before it must be stable. *)
Lemma triple_call P {HP : Stable mine P} o Q :
  (forall ext st lg, E ext -> P st lg ->
     Q (snd (exec_page ext st o)) (fst (exec_page ext st o))
       (lg ++ [(o, snd (exec_page ext st o))])%list) ->
  triple P (call o) Q.
Proof.
  intros H st lg HPre. unfold call. cbn [wp]. intros st' lg' ext Hm HE.
  specialize (H ext st' lg' HE (stable_meanwhile mine P _ _ Hm HPre)).
  by destruct (snd (exec_page ext st' o)).
Qed.

Lemma triple_lift {A} P (r : result A) Q : (forall st lg, P st lg -> Q r st lg) -> triple P (lift r) Q.
Proof. intros H st lg HP. specialize (H st lg HP). by destruct r. Qed.

Lemma triple_conseq {A} (P P' : assertion) (p : prog pop A) (Q Q' : result A -> assertion) :
  triple P' p Q' -> (forall st lg, P st lg -> P' st lg) ->
  (forall x st lg, Q' x st lg -> Q x st lg) -> triple P p Q.
Proof. intros Hp HP HQ st lg H. eapply wp_mono; [exact HQ|]. by apply Hp, HP. Qed.

(** A read of a value, and an operation, followed by the rest. *)
Lemma triple_bind_lift {A B} P (r : result A) (k : A -> prog pop B) Q :
  (forall a, r = Ok a -> triple P (k a) Q) ->
  (forall e st lg, r = Throw e -> P st lg -> Q (Throw e) st lg) ->
  triple P (bind (lift r) k) Q.
Proof. intros Hk He. destruct r as [a|e]; cbn [lift bind]; [auto|]. apply triple_raise. eauto. Qed.

Lemma triple_bind_call {B} P {HP : Stable mine P} o (k : jsval -> prog pop B) R Q :
  (forall ext st lg, E ext -> P st lg ->
     match snd (exec_page ext st o) with
     | Ok a => R a (fst (exec_page ext st o)) (lg ++ [(o, snd (exec_page ext st o))])%list
     | Throw e => Q (Throw e) (fst (exec_page ext st o)) (lg ++ [(o, snd (exec_page ext st o))])%list
     end) ->
  (forall a, triple (R a) (k a) Q) -> triple P (bind (call o) k) Q.
Proof.
  intros Ho Hk. apply (triple_bind _ _ _ R); [|exact Hk]. apply triple_call; [done|].
  intros ext st lg HE HPre. specialize (Ho ext st lg HE HPre).
  by destruct (snd (exec_page ext st o)).
Qed.

(** Reading a field. *)
Lemma triple_read {B} P {HP : Stable mine P} f (k : jsval -> prog pop B) Q :
  neutral P (GetState f) ->
  (forall v, triple (fun st lg => P st lg /\ v = field st f) (k v) Q) ->
  triple P (bind (get_state f) k) Q.
Proof.
  intros Hn Hk. apply (triple_bind_call _ _ _ (fun v st lg => P st lg /\ v = field st f)); [|exact Hk].
  intros ext st lg _ HPre. cbn [exec_page fst snd]. split; [|by unfold field; destruct (_ !! _)].
  by apply Hn.
Qed.

(** *** Invariants *)

Lemma keeps_bind {A B} I (p : prog pop A) (k : A -> prog pop B) :
  keeps I p -> (forall a, keeps I (k a)) -> keeps I (bind p k).
Proof.
  intros Hp Hk. apply (triple_bind _ _ _ (fun _ => I)); [|exact Hk].
  eapply triple_conseq; [exact Hp|done|]. by intros [a|e].
Qed.

Lemma keeps_try {A} I (p : prog pop A) (h : jserr -> prog pop A) :
  keeps I p -> (forall e, keeps I (h e)) -> keeps I (try_catch p h).
Proof.
  intros Hp Hk. apply (triple_try _ _ _ (fun _ => I)); [|exact Hk].
  eapply triple_conseq; [exact Hp|done|]. by intros [a|e].
Qed.

(** A step that keeps an assertion, followed by the rest; and a whole program that keeps it. *)
Lemma triple_step {A B} (I : assertion) (p : prog pop A) (k : A -> prog pop B) Q :
  keeps I p -> (forall e st lg, I st lg -> Q (Throw e) st lg) -> (forall a, triple I (k a) Q) ->
  triple I (bind p k) Q.
Proof.
  intros Hp He Hk. apply (triple_bind _ _ _ (fun _ => I)); [|exact Hk].
  eapply triple_conseq; [exact Hp|done|]. by intros [a|e] st lg HI; [|apply He].
Qed.

Lemma triple_weaken {A} (I : assertion) (p : prog pop A) Q :
  keeps I p -> (forall x st lg, I st lg -> Q x st lg) -> triple I p Q.
Proof. intros Hp HQ. by eapply triple_conseq; [exact Hp| |]. Qed.

Lemma keeps_ret {A} I (a : A) : keeps I (Ret a).
Proof. by apply triple_ret. Qed.
Lemma keeps_raise {A} I e : keeps (A := A) I (Raise e).
Proof. by apply triple_raise. Qed.
Lemma keeps_lift {A} I (r : result A) : keeps I (lift r).
Proof. by apply triple_lift. Qed.

Lemma keeps_call I {HI : Stable mine I} o : neutral I o -> keeps I (call o).
Proof. intros Ho. apply triple_call; [done|]. intros ext st lg _. by apply neutral_exec. Qed.

Lemma keeps_if {A} I (b : bool) (p q : prog pop A) :
  keeps I p -> keeps I q -> keeps I (if b then p else q).
Proof. by destruct b. Qed.

Lemma keeps_mapM {A B} I (f : A -> prog pop B) l :
  (forall a, keeps I (f a)) -> keeps I (mapM f l).
Proof.
  intros Hf. induction l as [|a l IH]; cbn [mapM]; [apply keeps_ret|].
  apply keeps_bind; [done|]. intros b. apply keeps_bind; [done|]. intros bs. apply keeps_ret.
Qed.
End triples.

(** What holds of a function that runs alone in a known environment holds of its run. *)
Lemma triple_run {A} ext (P : assertion) (p : prog pop A) Q st lg :
  triple (eq ext) (fun _ => true) P p Q -> P st lg ->
  let '(st', tr, x) := run (exec_page ext) p st in Q x st' (lg ++ tr)%list.
Proof.
  intros Hp HP. specialize (Hp st lg HP). clear HP. revert st lg Hp.
  induction p as [a|e|o k IH]; intros st lg; cbn [wp run]; [by rewrite app_nil_r..|].
  intros Hk. specialize (Hk st lg ext (rtc_refl _ _) eq_refl).
  destruct (exec_page ext st o) as [st1 r]. cbn [fst snd] in Hk.
  specialize (IH r st1 _ Hk). destruct (run (exec_page ext) (k r) st1) as [[st2 t2] y].
  by rewrite <- app_assoc in IH.
Qed.

#[export] Instance Stable_alone P : Stable (fun _ => true) P.
Proof. by intros o. Qed.
#[export] Instance Stable_and mine P Q :
  Stable mine P -> Stable mine Q -> Stable mine (fun st lg => P st lg /\ Q st lg).
Proof. intros HP HQ o Ho st lg r [H1 H2]. split; [by apply HP|by apply HQ]. Qed.
#[export] Instance Stable_pure mine (P : Prop) : Stable mine (fun _ _ => P).
Proof. by intros o Ho st lg r. Qed.
#[export] Instance Stable_impl mine (P : Prop) Q :
  Stable mine Q -> Stable mine (fun st lg => P -> Q st lg).
Proof. intros HQ o Ho st lg r H1 HP. apply HQ; auto. Qed.

Create HintDb page_inv discriminated.
#[export] Hint Constants Opaque : page_inv.

(** Walk through a program with an invariant: lemmas of [page_inv] first, then its structure;
    [tac] shows that an operation is neutral. *)
Ltac keeps_step tac :=
  lazymatch goal with
  | |- keeps _ _ _ (bind _ _) => apply keeps_bind; [|intros ?]
  | |- keeps _ _ _ (try_catch _ _) => apply keeps_try; [|intros ?]
  | |- keeps _ _ _ (lift _) => apply keeps_lift
  | |- keeps _ _ _ (Ret _) => apply keeps_ret
  | |- keeps _ _ _ (Raise _) => apply keeps_raise
  | |- keeps _ _ _ (call _) => apply keeps_call; [typeclasses eauto|tac]
  | |- keeps _ _ _ (mapM _ _) => apply keeps_mapM; intros ?
  | |- keeps _ _ _ (if ?b then _ else _) => first [apply keeps_if | destruct b]
  | |- keeps _ _ _ (match ?x with _ => _ end) => destruct x
  | |- keeps _ _ _ ?p => first [progress cbv beta zeta | let h := head_of p in progress unfold h]
  end.
Ltac keeps_auto tac := repeat first [solve [auto 2 with page_inv nocore] | keeps_step tac].

Ltac as_keeps :=
  match goal with |- triple ?E ?mine ?I ?p (fun _ => ?I) => change (keeps E mine I p) end.

(** Fields of the state. *)
Lemma field_insert_eq st f v : field (<[f := v]> st) f = v.
Proof. exact (f_equal (default JUndef) (lookup_insert_eq (M := gmap string) st f v)). Qed.
Lemma field_insert_ne st f g v : f <> g -> field (<[f := v]> st) g = field st g.
Proof.
  intros Hne. exact (f_equal (default JUndef) (lookup_insert_ne (M := gmap string) st f g v Hne)).
Qed.

(** A field that only the function itself assigns. *)
Class Reserved (mine : pop -> bool) (f : string) : Prop :=
  reserved v : mine (SetState f v) = true.

Lemma Stable_field mine f (P : jsval -> Prop) :
  Reserved mine f -> Stable mine (fun st _ => P (field st f)).
Proof.
  intros Hr o Ho st lg r HP. destruct o; try exact HP. cbn [set_by].
  rewrite field_insert_ne; [done|]. intros ->. by rewrite Hr in Ho.
Qed.
#[export] Instance Stable_is mine f v : Reserved mine f -> Stable mine (fun st _ => v = field st f).
Proof. intros Hr. exact (Stable_field mine f (eq v) Hr). Qed.
#[export] Instance Stable_truthy mine f b :
  Reserved mine f -> Stable mine (fun st _ => truthy (field st f) = b).
Proof. intros Hr. exact (Stable_field mine f (fun v => truthy v = b) Hr). Qed.

(** ** Polling intervals *)

(** The intervals running after a log: their callback and handle. *)
Definition timers_step (act : list (string * jsval)) (ev : event pop) : list (string * jsval) :=
  match ev with
  | (Every f _ _, Ok t) => (f, t) :: act
  | (ClearTimer t, _) => List.filter (fun p => negb (strict_eq t (snd p))) act
  | _ => act
  end.
Definition running (lg : log) : list (string * jsval) := foldl timers_step [] lg.

(** The callbacks whose handle is kept, and where. *)
Definition owned : list (string * string) :=
  [("refreshAll", "refreshTimer"); ("blockPoll", "blockPoller");
   ("miningTick", "miningStatusTimer"); ("bridgeTick", "cryloBridgePollTimer");
   ("releaseTick", "bridgeReleasePollTimer")].

(** Every interval of an owned callback is the one in its field. *)
Definition owns (st : page_state) (lg : log) (skip : string) : Prop :=
  forall f fld t, (f, fld) ∈ owned -> f <> skip -> (f, t) ∈ running lg ->
    field st fld = t /\ is_handle t.
Definition none_running (f : string) (lg : log) : Prop := forall t, (f, t) ∉ running lg.

Lemma running_snoc lg ev : running (lg ++ [ev])%list = timers_step (running lg) ev.
Proof. unfold running. by rewrite foldl_app. Qed.

Lemma handle_truthy t : is_handle t -> truthy t = true /\ strict_eq t t = true.
Proof.
  intros (z & -> & Hz). split; [by apply Amounts.Fin_truthy|]. cbn. apply Z.eqb_refl.
Qed.

(** An operation other than starting an owned interval does not add one. *)
Definition starts (f : string) (o : pop) : bool :=
  match o with Every g _ _ => String.eqb f g | _ => false end.

Lemma running_only lg o r f t :
  starts f o = false -> (f, t) ∈ running (lg ++ [(o, r)])%list -> (f, t) ∈ running lg.
Proof.
  rewrite running_snoc. intros Ho. destruct o; try done; cbn [timers_step starts] in *.
  - destruct r as [t'|e]; [|done]. intros [[= -> ->]|Hin]%elem_of_cons; [|done].
    by rewrite String.eqb_refl in Ho.
  - rewrite !list_elem_of_In, filter_In. by intros [].
Qed.

Lemma running_cleared lg t r f t' :
  (f, t') ∈ running (lg ++ [(ClearTimer t, r)])%list -> (f, t') ∈ running lg /\ strict_eq t t' = false.
Proof.
  rewrite running_snoc. cbn [timers_step]. rewrite !list_elem_of_In, filter_In.
  intros [? Hne]. split; [done|]. by apply negb_true_iff.
Qed.

Definition owned_callback (f : string) : bool := existsb (fun p => String.eqb f (fst p)) owned.
Definition owned_field (f : string) : bool := existsb (fun p => String.eqb f (snd p)) owned.

Lemma owned_fields f g fld fld' :
  (f, fld) ∈ owned -> (g, fld') ∈ owned -> (f = g <-> fld = fld').
Proof.
  unfold owned. rewrite !elem_of_cons. intros Hf Hg.
  repeat match goal with H : _ \/ _ |- _ => destruct H as [[= -> ->]|H] end;
    try (by apply elem_of_nil in Hf); try (by apply elem_of_nil in Hg); split; done.
Qed.

Lemma owned_callback_in f fld : (f, fld) ∈ owned -> owned_callback f = true.
Proof.
  intros Hin%list_elem_of_In. apply existsb_exists. exists (f, fld). split; [done|].
  apply String.eqb_refl.
Qed.
Lemma owned_field_in f fld : (f, fld) ∈ owned -> owned_field fld = true.
Proof.
  intros Hin%list_elem_of_In. apply existsb_exists. exists (f, fld). split; [done|].
  apply String.eqb_refl.
Qed.

Lemma none_running_mono f lg o r :
  starts f o = false -> none_running f lg -> none_running f (lg ++ [(o, r)])%list.
Proof. intros Ho Hn t Hin. by apply (Hn t), (running_only _ o r). Qed.
