(* ===== verification/PageConcurrency.v ===== *)
(** * The page: functions that run concurrently (electron/src/app.js)

    The functions of the page are asynchronous: while one waits for the main process another may
    run and change [State].  Here any number of them run together, interleaved before every
    operation except those of a timer's own statements ([clearInterval], [setInterval] and the
    assignment of the handle), which follow each other without an [await] in the source.  This allows
    every interleaving of the real page, and more. *)

From Stdlib Require Import Ascii String.
From S2P Require Import Prelude JsNumber JsString JsConv JsVal Json Prog MainEnv Amounts Page PageWallet PageTx PageMining PageNexus PageBridge PageState.

(** Operations that follow the previous one without an interruption. *)
Definition glued (o : pop) : bool :=
  match o with
  | ClearTimer _ | Every _ _ _ => true
  | SetState f _ => owned_field f
  | _ => false
  end.
Definition goes_on {A} (p : prog pop A) : bool := match p with Do o _ => glued o | _ => false end.

(** One turn of a function: its next operation, and the glued ones after it. *)
Fixpoint turn {A} (ext : pop -> result jsval) (p : prog pop A) (st : page_state) (lg : log) :
  page_state * log * prog pop A :=
  match p with
  | Do o k =>
      let '(st', r) := exec_page ext st o in
      let lg' := (lg ++ [(o, r)])%list in
      if goes_on (k r) then turn ext (k r) st' lg' else (st', lg', k r)
  | _ => (st, lg, p)
  end.

(** The running functions, each with the action that started it.  A new one may start at any time,
    and any of them may take a turn in an environment of [E].  The actions of [own] run one after
    the other: the next one starts only when those before it have ended. *)
Record world := World { w_state : page_state; w_log : log; w_tasks : list (action * page) }.

Definition ended {A} (p : prog pop A) : bool := match p with Do _ _ => false | _ => true end.
Definition all_ended (own : action -> bool) (ts : list (action * page)) : bool :=
  forallb (fun '(a, p) => negb (own a) || ended p) ts.

Inductive world_step `{Locale} (E : environment) (own : action -> bool) : world -> world -> Prop :=
| step_start a st lg ts :
    (own a = true -> all_ended own ts = true) ->
    world_step E own (World st lg ts) (World st lg (ts ++ [(a, program a)]))
| step_turn ext i a p st lg ts st' lg' p' :
    E ext -> ts !! i = Some (a, p) -> turn ext p st lg = (st', lg', p') ->
    world_step E own (World st lg ts) (World st' lg' (<[i := (a, p')]> ts)).

Definition runs `{Locale} (E : environment) (own : action -> bool) (w : world) : Prop :=
  rtc (world_step E own) (World initial_State [] []) w.

(** All interleavings of the page. *)
Definition page_runs `{Locale} (w : world) : Prop := runs page_env (fun _ => false) w.

Lemma runs_weaken `{Locale} (E E' : environment) own w :
  (forall ext, E ext -> E' ext) -> runs E own w -> runs E' (fun _ => false) w.
Proof.
  intros HE. apply rtc_subrel. intros w1 w2 [a st lg ts _|ext i a p st lg ts st' lg' p' He Hi Ht].
  - by constructor.
  - econstructor; eauto.
Qed.

(** ** Rely and guarantee

    [rg I p Q]: at every point where [p] may be interrupted [I] holds, if the others keep [I]
    there; and [Q] holds in the end. *)
Section rely_guarantee.
Context (E : environment) (I : assertion).

Fixpoint rg {A} (p : prog pop A) (Q : result A -> assertion) (st : page_state) (lg : log) : Prop :=
  match p with
  | Ret a => Q (Ok a) st lg
  | Raise e => Q (Throw e) st lg
  | Do o k =>
      if glued o then
        forall ext, E ext ->
          rg (k (snd (exec_page ext st o))) Q (fst (exec_page ext st o))
            (lg ++ [(o, snd (exec_page ext st o))])%list
      else
        I st lg /\
        forall st' lg' ext, I st' lg' -> E ext ->
          rg (k (snd (exec_page ext st' o))) Q (fst (exec_page ext st' o))
            (lg' ++ [(o, snd (exec_page ext st' o))])%list
  end.

Definition safe {A} (p : prog pop A) : Prop := forall st lg, I st lg -> rg p (fun _ => I) st lg.

Lemma rg_mono {A} (p : prog pop A) (Q Q' : result A -> assertion) st lg :
  (forall x st lg, Q x st lg -> Q' x st lg) -> rg p Q st lg -> rg p Q' st lg.
Proof.
  intros HQ. revert st lg. induction p as [a|e|o k IH]; intros st lg; cbn [rg]; [apply HQ|apply HQ|].
  destruct (glued o); [eauto|]. intros [HI Hk]. eauto.
Qed.

Lemma rg_bind {A B} (p : prog pop A) (k : A -> prog pop B) Q st lg :
  rg p (fun x => match x with Ok a => rg (k a) Q | Throw e => Q (Throw e) end) st lg ->
  rg (bind p k) Q st lg.
Proof.
  revert st lg. induction p as [a|e|o h IH]; intros st lg; cbn [rg bind]; [done|done|].
  destruct (glued o); [eauto|]. intros [HI Hk]. eauto.
Qed.

Lemma rg_try {A} (p : prog pop A) (h : jserr -> prog pop A) Q st lg :
  rg p (fun x => match x with Ok a => Q (Ok a) | Throw e => rg (h e) Q end) st lg ->
  rg (try_catch p h) Q st lg.
Proof.
  revert st lg. induction p as [a|e|o g IH]; intros st lg; cbn [rg try_catch]; [done|done|].
  destruct (glued o); [eauto|]. intros [HI Hk]. eauto.
Qed.

Lemma safe_ret {A} (a : A) : safe (Ret a).
Proof. by intros st lg HI. Qed.
Lemma safe_raise {A} e : safe (A := A) (Raise e).
Proof. by intros st lg HI. Qed.
Lemma safe_lift {A} (r : result A) : safe (lift r).
Proof. destruct r; [apply safe_ret|apply safe_raise]. Qed.

Lemma safe_bind {A B} (p : prog pop A) (k : A -> prog pop B) :
  safe p -> (forall a, safe (k a)) -> safe (bind p k).
Proof.
  intros Hp Hk st lg HI. apply rg_bind. eapply rg_mono; [|by apply Hp].
  intros [a|e] st' lg' HI'; [by apply Hk|done].
Qed.

Lemma safe_try {A} (p : prog pop A) (h : jserr -> prog pop A) :
  safe p -> (forall e, safe (h e)) -> safe (try_catch p h).
Proof.
  intros Hp Hh st lg HI. apply rg_try. eapply rg_mono; [|by apply Hp].
  intros [a|e] st' lg' HI'; [done|by apply Hh].
Qed.

Lemma rg_lift {A} (r : result A) (Q : result A -> assertion) st lg : Q r st lg -> rg (lift r) Q st lg.
Proof. by destruct r. Qed.

Lemma safe_call o : neutral I o -> safe (call o).
Proof.
  intros Ho st lg HI. unfold call. cbn [rg].
  assert (forall st lg ext, I st lg -> I (fst (exec_page ext st o)) (lg ++ [(o, snd (exec_page ext st o))])%list)
    as Hn.
  { intros st1 lg1 ext H1. specialize (Ho st1 lg1 (snd (exec_page ext st1 o)) H1). by destruct o. }
  destruct (glued o); [|split; [done|]]; intros; apply rg_lift; by apply Hn.
Qed.

Lemma safe_mapM {A B} (f : A -> prog pop B) l : (forall a, safe (f a)) -> safe (mapM f l).
Proof.
  intros Hf. induction l as [|a l IH]; cbn [mapM]; [apply safe_ret|].
  apply safe_bind; [done|]. intros b. apply safe_bind; [done|]. intros bs. apply safe_ret.
Qed.

(** Where a function may be interrupted, [I] holds, and it goes on from any state with [I]. *)
Lemma rg_interruptible {A} (p : prog pop A) st lg :
  goes_on p = false -> rg p (fun _ => I) st lg -> I st lg /\ safe p.
Proof.
  destruct p as [a|e|o k]; cbn [goes_on rg].
  1,2: intros _ HI; split; [done|]; by intros st' lg' HI'.
  intros Hg. rewrite Hg.
  intros [HI Hk]. split; [done|]. intros st' lg' HI'. cbn [rg]. by rewrite Hg.
Qed.

(** A turn of a safe function keeps [I], and leaves a safe function. *)
Lemma turn_safe {A} ext (p : prog pop A) st lg st' lg' p' :
  E ext -> turn ext p st lg = (st', lg', p') -> rg p (fun _ => I) st lg ->
  I st' lg' /\ safe p'.
Proof.
  intros Henv. revert st lg. induction p as [a|e|o k IH]; intros st lg; cbn [turn rg].
  1,2: intros [= <- <- <-] HI; split; [done|]; by intros ???.
  intros Hturn Hrg.
  assert (rg (k (snd (exec_page ext st o))) (fun _ => I) (fst (exec_page ext st o))
            (lg ++ [(o, snd (exec_page ext st o))])%list) as Hk.
  { destruct (glued o); [by apply Hrg|]. destruct Hrg as [HI Hrg]. by apply Hrg. }
  destruct (exec_page ext st o) as [st1 r]. cbn [fst snd] in Hk.
  destruct (goes_on (k r)) eqn:Hg; [by apply (IH r st1 _ Hturn)|].
  injection Hturn as <- <- <-. by apply rg_interruptible.
Qed.
End rely_guarantee.

(** What every function keeps is kept by all of them together. *)
Lemma runs_invariant `{Locale} (E : environment) own (I : assertion) w :
  I initial_State [] -> (forall a, safe E I (program a)) ->
  runs E own w -> I (w_state w) (w_log w).
Proof.
  intros H0 Hsafe Hr.
  enough (I (w_state w) (w_log w) /\ Forall (fun t => safe E I (snd t)) (w_tasks w)) by tauto.
  unfold runs in Hr. remember (World initial_State [] []) as w0 eqn:E0.
  assert (I (w_state w0) (w_log w0) /\ Forall (fun t => safe E I (snd t)) (w_tasks w0)) as H0'.
  { rewrite E0. split; [exact H0|constructor]. }
  clear E0 H0. induction Hr as [|w1 w2 w3 Hstep _ IH]; [done|]. apply IH. clear IH.
  destruct H0' as [HI Hts]. destruct Hstep as [a st lg ts _|ext i a p st lg ts st' lg' p' Henv Hi Ht];
    cbn [w_state w_log w_tasks] in *.
  - split; [done|]. apply Forall_app. split; [done|]. constructor; [apply Hsafe|constructor].
  - pose proof (Forall_lookup_1 _ _ _ _ Hts Hi) as Hp. cbn [snd] in Hp.
    destruct (turn_safe E I ext p st lg st' lg' p' Henv Ht (Hp st lg HI)) as [HI' Hp'].
    split; [done|]. by apply Forall_insert.
Qed.

(** ** Intervals under interleaving

    All intervals but the one of the mining panel. *)

Definition kept : assertion := fun st lg => owns st lg "miningTick".

Section owned_steps.
Context (f fld : string) (Hin : (f, fld) ∈ owned) (Hne : f <> "miningTick").

Lemma kept_cleared st lg r :
  kept st lg -> none_running f (lg ++ [(ClearTimer (field st fld), r)])%list.
Proof.
  intros HI t [Hrun Hd]%running_cleared. destruct (HI f fld t Hin Hne Hrun) as [<- Hh].
  apply handle_truthy in Hh as [_ Hh]. congruence.
Qed.

Lemma kept_falsy st lg : kept st lg -> truthy (field st fld) = false -> none_running f lg.
Proof.
  intros HI Hf t Hrun. destruct (HI f fld t Hin Hne Hrun) as [<- Hh].
  apply handle_truthy in Hh as [Hh _]. congruence.
Qed.

(** With none of its intervals running, the field may be assigned anything. *)
Lemma kept_set st lg v r :
  kept st lg -> none_running f lg -> kept (<[fld := v]> st) (lg ++ [(SetState fld v, r)])%list.
Proof.
  intros HI Hn g fld' t Hg Hg' Hrun%running_only; [|done].
  destruct (HI g fld' t Hg Hg' Hrun) as [<- Hh]. split; [|done]. apply field_insert_ne.
  intros E. apply (owned_fields f g fld fld' Hin Hg) in E as ->. by apply (Hn (field st fld')).
Qed.

(** A new interval, and its handle. *)
Lemma kept_start st lg args ms t r :
  kept st lg -> none_running f lg -> is_handle t ->
  kept (<[fld := t]> st) ((lg ++ [(Every f args ms, Ok t)]) ++ [(SetState fld t, r)])%list.
Proof.
  intros HI Hn Hh g fld' t' Hg Hg' Hrun%running_only; [|done].
  rewrite running_snoc in Hrun. apply elem_of_cons in Hrun as [[= -> ->]|Hrun].
  - assert (fld = fld') as <- by by apply (owned_fields f f). by rewrite field_insert_eq.
  - destruct (HI g fld' t' Hg Hg' Hrun) as [<- Hh']. split; [|done]. apply field_insert_ne.
    intros E. apply (owned_fields f g fld fld' Hin Hg) in E as ->. by apply (Hn (field st fld')).
Qed.
End owned_steps.

(** Operations that do not concern these intervals. *)
Definition leaves_kept (o : pop) : bool :=
  match o with
  | SetState f _ => negb (owned_field f) || String.eqb f "miningStatusTimer"
  | Every f _ _ => negb (owned_callback f) || String.eqb f "miningTick"
  | _ => true
  end.

Lemma neutral_kept o : leaves_kept o = true -> neutral kept o.
Proof.
  intros Ho st lg r HI f fld t Hin Hne Hrun.
  assert (starts f o = false) as Hs.
  { destruct o; try done. cbn [leaves_kept starts] in *. destruct (String.eqb_spec f f0) as [<-|]; [|done].
    rewrite (owned_callback_in _ _ Hin) in Ho. by apply String.eqb_eq in Ho. }
  destruct (HI f fld t Hin Hne (running_only _ _ _ _ _ Hs Hrun)) as [<- Hh]. split; [|done].
  destruct o; try done. cbn [leaves_kept] in Ho. apply field_insert_ne. intros <-.
  rewrite (owned_field_in _ _ Hin) in Ho. apply String.eqb_eq in Ho as ->.
  apply Hne. eapply (owned_fields f "miningTick"); [exact Hin| |reflexivity].
  unfold owned. rewrite !elem_of_cons. tauto.
Qed.

Section kept.
Context `{Locale}.

(** [if (State.fld) clearInterval(State.fld); State.fld = setInterval(...)], and the rest. *)
Lemma rg_clear_old f fld {A} (k : prog pop A) (Q : result A -> assertion) st lg :
  (f, fld) ∈ owned -> f <> "miningTick" -> kept st lg ->
  (forall st lg, kept st lg -> none_running f lg -> rg page_env kept k Q st lg) ->
  rg page_env kept (bind (get_state fld) (fun old =>
             bind (if truthy old then call (ClearTimer old) else Ret JUndef) (fun _ => k))) Q st lg.
Proof.
  intros Hin Hne HI Hk. unfold get_state, call. cbn [bind rg glued]. split; [done|].
  clear st lg HI. intros st lg ext HI Henv. cbn [exec_page fst snd lift bind].
  change (match st !! fld with Some v => v | None => JUndef end) with (field st fld).
  assert (kept st (lg ++ [(GetState fld, Ok (field st fld))])%list) as HI1
    by by apply (neutral_kept (GetState fld)).
  destruct (truthy (field st fld)) eqn:E; cbn [bind rg glued].
  - intros ext2 Henv2. cbn [exec_page fst snd].
    destruct (proj1 Henv2 (ClearTimer (field st fld))) as [w ->]. cbn [lift bind].
    apply Hk; [by apply (neutral_kept (ClearTimer (field st fld)))|by apply (kept_cleared f)].
  - apply Hk; [done|by eapply kept_falsy].
Qed.

Lemma rg_start f fld args ms {A} (k : jsval -> prog pop A) (Q : result A -> assertion) st lg :
  (f, fld) ∈ owned -> f <> "miningTick" -> kept st lg -> none_running f lg ->
  (forall v st lg, kept st lg -> rg page_env kept (k v) Q st lg) ->
  rg page_env kept (bind (call (Every f args ms)) (fun t => bind (set_state fld t) k)) Q st lg.
Proof.
  intros Hin Hne HI Hn Hk. unfold set_state, call. cbn [bind rg glued].
  intros ext Henv. cbn [exec_page fst snd].
  destruct (proj1 (proj2 Henv) f args ms) as (t & -> & Hh). cbn [lift bind rg glued].
  rewrite (owned_field_in _ _ Hin). intros ext2 _. cbn [exec_page fst snd lift bind].
  apply Hk. by apply (kept_start f).
Qed.

Lemma rg_start_last f fld args ms (Q : result jsval -> assertion) st lg :
  (f, fld) ∈ owned -> f <> "miningTick" -> kept st lg -> none_running f lg ->
  (forall v st lg, kept st lg -> Q (Ok v) st lg) ->
  rg page_env kept (bind (call (Every f args ms)) (fun t => set_state fld t)) Q st lg.
Proof.
  intros Hin Hne HI Hn HQ. unfold set_state, call. cbn [bind rg glued].
  intros ext Henv. cbn [exec_page fst snd].
  destruct (proj1 (proj2 Henv) f args ms) as (t & -> & Hh). cbn [lift bind rg glued].
  rewrite (owned_field_in _ _ Hin). intros ext2 _. cbn [exec_page fst snd lift rg].
  apply HQ. by apply (kept_start f).
Qed.

(** [clearInterval(State.fld); State.fld = v;] *)
Lemma safe_drop f fld v (k : page) :
  (f, fld) ∈ owned -> f <> "miningTick" -> safe page_env kept k ->
  safe page_env kept (bind (get_state fld) (fun t => bind (call (ClearTimer t)) (fun _ =>
               bind (set_state fld v) (fun _ => k)))).
Proof.
  intros Hin Hne Hk st0 lg0 HI0. unfold get_state, set_state, call. cbn [bind rg glued].
  split; [done|]. intros st lg ext HI _. cbn [exec_page fst snd lift bind rg glued].
  change (match st !! fld with Some v => v | None => JUndef end) with (field st fld).
  intros ext2 Henv2. cbn [exec_page fst snd]. destruct (proj1 Henv2 (ClearTimer (field st fld))) as [w ->].
  cbn [lift bind rg glued]. rewrite (owned_field_in _ _ Hin). intros ext3 _.
  cbn [exec_page fst snd lift bind]. apply Hk. apply (kept_set f); [done|done| |].
  - apply (neutral_kept (ClearTimer (field st fld))); [done|]. by apply (neutral_kept (GetState fld)).
  - apply (kept_cleared f); [done|done|]. by apply (neutral_kept (GetState fld)).
Qed.

Lemma safe_close f fld : (f, fld) ∈ owned -> f <> "miningTick" -> safe page_env kept (close_timer fld).
Proof.
  intros Hin Hne st0 lg0 HI0. unfold close_timer, get_state, set_state, call. cbn [bind rg glued].
  split; [done|]. intros st lg ext HI _. cbn [exec_page fst snd lift bind].
  change (match st !! fld with Some v => v | None => JUndef end) with (field st fld).
  assert (kept st (lg ++ [(GetState fld, Ok (field st fld))])%list) as HI1
    by by apply (neutral_kept (GetState fld)).
  destruct (truthy (field st fld)); cbn [bind rg glued]; [|done].
  intros ext2 Henv2. cbn [exec_page fst snd]. destruct (proj1 Henv2 (ClearTimer (field st fld))) as [w ->].
  cbn [lift bind rg glued]. rewrite (owned_field_in _ _ Hin). intros ext3 _.
  cbn [exec_page fst snd lift rg]. apply (kept_set f); [done|done| |].
  - by apply (neutral_kept (ClearTimer (field st fld))).
  - by apply (kept_cleared f).
Qed.

Lemma safe_restart f fld arg ms :
  (f, fld) ∈ owned -> f <> "miningTick" -> safe page_env kept (restart_timer fld f arg ms).
Proof.
  intros Hin Hne st lg HI. unfold restart_timer. apply (rg_clear_old f fld); [done..|].
  intros st' lg' HI' Hn. by apply rg_start_last.
Qed.

Ltac in_owned := unfold owned; rewrite !elem_of_cons; tauto.

Ltac safe_step :=
  lazymatch goal with
  | |- safe _ _ (bind (get_state "cryloBridgePollTimer") _) =>
      apply (safe_drop "bridgeTick"); [in_owned|done|]
  | |- safe _ _ (bind (get_state "bridgeReleasePollTimer") _) =>
      apply (safe_drop "releaseTick"); [in_owned|done|]
  | |- safe _ _ (bind _ _) => apply safe_bind; [|intros ?]
  | |- safe _ _ (try_catch _ _) => apply safe_try; [|intros ?]
  | |- safe _ _ (lift _) => apply safe_lift
  | |- safe _ _ (Ret _) => apply safe_ret
  | |- safe _ _ (Raise _) => apply safe_raise
  | |- safe _ _ (call _) => apply safe_call, neutral_kept; reflexivity
  | |- safe _ _ (mapM _ _) => apply safe_mapM; intros ?
  | |- safe _ _ (if ?b then _ else _) => destruct b
  | |- safe _ _ (match ?x with _ => _ end) => destruct x
  | |- safe _ _ ?p => first [progress cbv beta zeta | let h := head_of p in progress unfold h]
  end.
Ltac safe_auto := repeat first [solve [auto 2 with page_inv nocore] | safe_step].

Lemma safe_openMain : safe page_env kept openMainScreen.
Proof.
  unfold openMainScreen. do 5 (apply safe_bind; [safe_auto|intros ?]). intros st lg HI.
  apply (rg_clear_old "refreshAll"); [in_owned|done|done|]. clear st lg HI. intros st lg HI Hn.
  apply rg_start; [in_owned|done|done|done|]. clear st lg HI Hn. intros _ st lg HI.
  apply (rg_clear_old "blockPoll"); [in_owned|done|done|]. clear st lg HI. intros st lg HI Hn.
  by apply rg_start_last; [in_owned| | | |].
Qed.

Lemma safe_close_refresh : safe page_env kept (close_timer "refreshTimer").
Proof. apply (safe_close "refreshAll"); [in_owned|done]. Qed.
Lemma safe_close_poller : safe page_env kept (close_timer "blockPoller").
Proof. apply (safe_close "blockPoll"); [in_owned|done]. Qed.
Lemma safe_poll_bridge arg ms : safe page_env kept (restart_timer "cryloBridgePollTimer" "bridgeTick" arg ms).
Proof. apply safe_restart; [in_owned|done]. Qed.
Lemma safe_poll_release arg ms :
  safe page_env kept (restart_timer "bridgeReleasePollTimer" "releaseTick" arg ms).
Proof. apply safe_restart; [in_owned|done]. Qed.
#[local] Hint Resolve safe_openMain safe_close_refresh safe_close_poller safe_poll_bridge
  safe_poll_release : page_inv.

Lemma safe_deposits na n i chunks sent : safe page_env kept (send_deposits na n i chunks sent).
Proof.
  revert i sent. induction chunks as [|c chunks IH]; intros i sent; cbn [send_deposits]; [safe_auto|].
  apply safe_bind; [|intros sent'; apply IH]. safe_auto.
Qed.
Lemma safe_ensureGas label gas : safe page_env kept (ensureNexusGasForAction label gas).
Proof. safe_auto. Qed.
Lemma safe_refreshWcrylo : safe page_env kept refreshNexusWcryloBalance.
Proof. safe_auto. Qed.
Lemma safe_loadAddress : safe page_env kept loadAddress.
Proof. safe_auto. Qed.
Lemma safe_updateBalance : safe page_env kept updateBalance.
Proof. safe_auto. Qed.
#[local] Hint Resolve safe_deposits safe_ensureGas safe_refreshWcrylo safe_loadAddress
  safe_updateBalance : page_inv.

Lemma all_safe a : safe page_env kept (program a).
Proof. destruct a; cbn [program]; safe_auto. Qed.
End kept.

Lemma page_runs_kept `{Locale} (w : world) : page_runs w -> kept (w_state w) (w_log w).
Proof.
  apply runs_invariant; [|exact all_safe]. intros g fld' t' _ _ Hin. by apply elem_of_nil in Hin.
Qed.

(** C15 (safety). No polling interval is lost when functions of the page overlap: however they are
    interleaved and answered, each interval that runs for refreshing, for new blocks or for the
    bridge is the one whose handle [State] keeps, so there is at most one of each and it can be
    stopped. *)
Theorem interleaved_timers `{Locale} (w : world) (f fld : string) (t : jsval) :
  page_runs w -> (f, fld) ∈ owned -> f <> "miningTick" -> (f, t) ∈ running (w_log w) ->
  field (w_state w) fld = t /\ is_handle t.
Proof.
  intros Hr. exact (page_runs_kept w Hr f fld t).
Qed.

(** ** Schedules *)

(** Start a function, or give the [i]-th one [n] turns. *)
Inductive move := Begin (a : action) | Turns (ext : pop -> result jsval) (i n : nat).

Definition plain_locale : Locale :=
  {| localeString := to_str; localeDate := fun n => num_to_string n |}.

Section schedules.
#[local] Existing Instance plain_locale.
Context (own : action -> bool).

Definition one_turn (ext : pop -> result jsval) (i : nat) (w : world) : world :=
  match w_tasks w !! i with
  | Some (a, p) =>
      let '(st, lg, p') := turn ext p (w_state w) (w_log w) in
      World st lg (<[i := (a, p')]> (w_tasks w))
  | None => w
  end.

(** A function that has to wait is not started. *)
Definition play_move (w : world) (m : move) : world :=
  match m with
  | Begin a =>
      if negb (own a) || all_ended own (w_tasks w) then
        World (w_state w) (w_log w) (w_tasks w ++ [(a, program a)])
      else w
  | Turns ext i n => Nat.iter n (one_turn ext i) w
  end.
Definition play (ms : list move) : world := foldl play_move (World initial_State [] []) ms.

Context (E : environment).

Lemma one_turn_runs ext i w : E ext -> runs E own w -> runs E own (one_turn ext i w).
Proof.
  intros Henv Hw. unfold one_turn. destruct (w_tasks w !! i) as [[a p]|] eqn:Ei; [|done].
  destruct (turn ext p (w_state w) (w_log w)) as [[st lg] p'] eqn:Et.
  eapply rtc_r; [exact Hw|]. destruct w as [st0 lg0 ts]. by eapply step_turn.
Qed.

Lemma play_move_runs w m :
  match m with Turns ext _ _ => E ext | _ => True end ->
  runs E own w -> runs E own (play_move w m).
Proof.
  intros Hm Hw. destruct m as [a|ext i n]; cbn [play_move].
  - destruct (_ || _) eqn:Hs; [|done]. eapply rtc_r; [exact Hw|]. destruct w. apply step_start.
    intros Ha. by rewrite Ha in Hs.
  - induction n as [|n IHn]; [done|]. cbn [Nat.iter]. by apply one_turn_runs.
Qed.

Lemma play_runs ms :
  Forall (fun m => match m with Turns ext _ _ => E ext | _ => True end) ms -> runs E own (play ms).
Proof.
  unfold play. assert (runs E own (World initial_State [] [])) as H0 by apply rtc_refl.
  revert H0. generalize (World initial_State [] []) as w.
  induction ms as [|m ms IH]; intros w Hw Hms; [done|]. apply Forall_cons in Hms as [Hm Hms].
  cbn [foldl]. apply IH; [by apply play_move_runs|done].
Qed.
End schedules.

(** An environment in which everything succeeds: the chosen wallet, its Nexus address, and the
    handle of the next interval. *)
Definition overlap (wallet nexus : string) (h : Z) (o : pop) : result jsval :=
  match o with
  | HasElement _ => Ok (JBool true)
  | Value id => Ok (JStr (if String.eqb id "open-select" then wallet else "a text of twenty-four ch"))
  | Every _ _ _ => Ok (JNum (Fin h))
  | Crylo name _ =>
      if String.eqb name "nexusWalletLoad" then
        Ok (JObj [("ok", JBool true); ("nexusAddress", JStr nexus)])
      else Ok (JObj [("ok", JBool true); ("result", JObj [("address", JStr wallet)])])
  | _ => Ok JUndef
  end.

Lemma overlap_env wallet nexus h : h <> 0 -> page_env (overlap wallet nexus h).
Proof.
  intros Hh. split_and!.
  - intros o. destruct o; cbn; eauto.
  - intros f args ms. eexists. split; [reflexivity|]. by eexists.
  - intros id. by eexists.
Qed.

(** All functions may overlap. *)
Abbreviation free_play := (play (fun _ => false)).

(** Two wallets are opened at the same time: the second one's interval replaces the first one's. *)
Definition sample_overlap : world :=
  free_play [Begin OpenWallet; Begin OpenWallet; Turns (overlap "a" "0xa" 5) 0 12;
             Turns (overlap "b" "0xb" 6) 1 60; Turns (overlap "a" "0xa" 7) 0 60].

Lemma sample_overlap_runs : @page_runs plain_locale sample_overlap.
Proof. apply play_runs. repeat constructor; apply overlap_env; discriminate. Qed.

Lemma interleaved_timers_witness :
  ("refreshAll", JNum (Fin 7)) ∈ running (w_log sample_overlap) /\
  field (w_state sample_overlap) "refreshTimer" = JNum (Fin 7).
Proof.
  assert (("refreshAll", JNum (Fin 7)) ∈ running (w_log sample_overlap)) as Hrun.
  { apply list_elem_of_In. vm_compute. tauto. }
  split; [exact Hrun|].
  refine (proj1 (@interleaved_timers plain_locale sample_overlap "refreshAll" "refreshTimer"
                   (JNum (Fin 7)) _ _ _ Hrun)).
  - exact sample_overlap_runs.
  - unfold owned. apply elem_of_cons. by left.
  - discriminate.
Defined.
