(* ===== verification/PageSerial.v ===== *)
(** * The page: functions that must not overlap (electron/src/app.js)

    Some of the page's invariants hold only as long as the functions that assign the fields
    concerned do not overlap each other: the Nexus address belongs to the open wallet, and the
    poll of the mining panel can be stopped.  Here these functions run one after the other, while all
    the others overlap them and each other at every operation.  Two schedules at the end show that
    the restriction is needed: on the real page nothing enforces it. *)

From Stdlib Require Import Ascii String.
From S2P Require Import Prelude JsNumber JsString JsConv JsVal Json Prog MainEnv Amounts Page PageWallet PageTx PageMining PageNexus PageBridge PageState PageConcurrency.

(** ** Invariants of functions that take turns *)

Lemma ended_lookup own ts i a p :
  all_ended own ts = true -> ts !! i = Some (a, p) -> own a = true -> ended p = true.
Proof.
  intros Hall Hi Ha. unfold all_ended in Hall. rewrite forallb_forall in Hall.
  specialize (Hall (a, p)). rewrite <- list_elem_of_In in Hall.
  specialize (Hall (list_elem_of_lookup_2 _ _ _ Hi)). by rewrite Ha in Hall.
Qed.

Lemma ended_intro own ts :
  (forall i a p, ts !! i = Some (a, p) -> own a = true -> ended p = true) -> all_ended own ts = true.
Proof.
  intros H. apply forallb_forall. intros [a p] Hin%list_elem_of_In.
  apply list_elem_of_lookup_1 in Hin as [i Hi]. destruct (own a) eqn:Ha; [|done]. by apply (H i a).
Qed.

Section turns.
Context (E : environment) (mine : pop -> bool).

(** A turn of a function that performs none of the reserved operations. *)
Lemma turn_other {A} ext (p : prog pop A) st lg st' lg' p' :
  Only (fun o => mine o = false) p -> turn ext p st lg = (st', lg', p') ->
  meanwhile mine (st, lg) (st', lg') /\ Only (fun o => mine o = false) p'.
Proof.
  intros Hp. revert st lg. induction Hp as [a|e|o k Ho Hk IH]; intros st lg; cbn [turn].
  1,2: intros [= <- <- <-]; split; [apply rtc_refl|constructor].
  pose proof (exec_state ext st o) as Est. destruct (exec_page ext st o) as [st1 r]. cbn in Est. subst st1.
  assert (meanwhile mine (st, lg) (set_by o st, lg ++ [(o, r)])%list) as Hone by by apply rtc_once.
  destruct (goes_on (k r)); [|by intros [= <- <- <-]].
  intros Ht. destruct (IH r _ _ Ht) as [Hm Hp']. split; [|done]. by etrans.
Qed.

(** A turn of the function itself. *)
Lemma turn_wp {A} ext (p : prog pop A) Q st lg st' lg' p' :
  E ext -> turn ext p st lg = (st', lg', p') -> wp E mine p Q st lg -> wp E mine p' Q st' lg'.
Proof.
  intros HE. revert st lg. induction p as [a|e|o k IH]; intros st lg; cbn [turn].
  1,2: by intros [= <- <- <-].
  intros Ht Hwp. cbn [wp] in Hwp. specialize (Hwp st lg ext (rtc_refl _ _) HE).
  destruct (exec_page ext st o) as [st1 r]. cbn [fst snd] in Hwp.
  destruct (goes_on (k r)); [by apply (IH r st1 _ Ht)|]. by injection Ht as <- <- <-.
Qed.

Lemma turn_ended {A} ext (p : prog pop A) st lg :
  ended p = true -> turn ext p st lg = (st, lg, p).
Proof. by destruct p. Qed.

Lemma wp_meanwhile {A} (p : prog pop A) (I : assertion) {HI : Stable mine I} st lg st' lg' :
  meanwhile mine (st, lg) (st', lg') ->
  wp E mine p (fun _ => I) st lg -> wp E mine p (fun _ => I) st' lg'.
Proof.
  intros Hm. destruct p as [a|e|o k]; cbn [wp];
    [exact (stable_meanwhile mine I _ _ Hm)|exact (stable_meanwhile mine I _ _ Hm)|].
  intros Hk st2 lg2 ext Hm2. apply Hk. by etrans.
Qed.
End turns.

Section serial.
Context `{Locale} (E : environment) (own : action -> bool) (mine : pop -> bool).
Context (I : assertion) {HI : Stable mine I}.

(** None of the functions of [own] is under way and [I] holds; or one is, and will leave [I]. *)
Definition serial_inv (w : world) : Prop :=
  (forall i a p, w_tasks w !! i = Some (a, p) -> own a = false -> Only (fun o => mine o = false) p) /\
  ((all_ended own (w_tasks w) = true /\ I (w_state w) (w_log w)) \/
   exists i a p, w_tasks w !! i = Some (a, p) /\ own a = true /\
     (forall j b q, w_tasks w !! j = Some (b, q) -> j <> i -> own b = true -> ended q = true) /\
     wp E mine p (fun _ => I) (w_state w) (w_log w)).

Context (Hfree : forall a, own a = false -> Only (fun o => mine o = false) (program a)).
Context (Hown : forall a, own a = true -> keeps E mine I (program a)).

Lemma serial_start a st lg ts :
  (own a = true -> all_ended own ts = true) ->
  serial_inv (World st lg ts) -> serial_inv (World st lg (ts ++ [(a, program a)])).
Proof.
  intros Hs [Honly Hcase]. cbn [w_state w_log w_tasks] in *. split; cbn [w_state w_log w_tasks].
  { intros i b p [Hi|[_ Hb]]%lookup_app_Some Hf; [by eapply Honly|].
    apply list_lookup_singleton_Some in Hb as [_ [= <- <-]]. by apply Hfree. }
  destruct (own a) eqn:Ha.
  - specialize (Hs eq_refl). right. exists (length ts), a, (program a).
    split_and!; [by rewrite lookup_app_r, Nat.sub_diag by lia|done| |].
    + intros j b q [Hj|[Hle Hb]]%lookup_app_Some Hne Hq; [by eapply ended_lookup|].
      apply list_lookup_singleton_Some in Hb as [E0 _]. lia.
    + apply Hown; [done|]. destruct Hcase as [[_ HI0]|(i & b & p & Hi & Hb & _ & Hwp)]; [done|].
      pose proof (ended_lookup _ _ _ _ _ Hs Hi Hb) as Hend. by destruct p.
  - destruct Hcase as [[Hall HI0]|(i & b & p & Hi & Hb & Hoth & Hwp)]; [left|right].
    + split; [|done]. unfold all_ended. rewrite forallb_app. cbn [forallb].
      fold (all_ended own ts). by rewrite Hall, Ha.
    + exists i, b, p. split_and!; [by apply lookup_app_l_Some|done| |done].
      intros j c q [Hj|[_ Hc]]%lookup_app_Some Hne Hq; [by eapply Hoth|].
      apply list_lookup_singleton_Some in Hc as [_ [= <- <-]]. congruence.
Qed.

Lemma serial_turn ext i a p st lg ts st' lg' p' :
  E ext -> ts !! i = Some (a, p) -> turn ext p st lg = (st', lg', p') ->
  serial_inv (World st lg ts) -> serial_inv (World st' lg' (<[i := (a, p')]> ts)).
Proof.
  intros HE Hi Ht [Honly Hcase]. cbn [w_state w_log w_tasks] in *.
  assert (forall j b q, <[i := (a, p')]> ts !! j = Some (b, q) ->
            (j = i /\ b = a /\ q = p') \/ (j <> i /\ ts !! j = Some (b, q))) as Hins.
  { intros j b q Hj. destruct (decide (i = j)) as [<-|Hne]; [left|right].
    - rewrite list_lookup_insert_eq in Hj by by apply lookup_lt_Some in Hi. by injection Hj as <- <-.
    - rewrite list_lookup_insert_ne in Hj by done. auto. }
  destruct (own a) eqn:Ha.
  - split; cbn [w_state w_log w_tasks].
    { intros j b q [(-> & -> & ->)|[_ Hj]]%Hins Hf; [congruence|by eapply Honly]. }
    destruct Hcase as [[Hall HI0]|(i0 & b & q & Hi0 & Hb & Hoth & Hwp)].
    + rewrite (turn_ended ext p st lg) in Ht by by eapply ended_lookup. injection Ht as <- <- <-.
      left. by rewrite list_insert_id.
    + destruct (decide (i = i0)) as [<-|Hne].
      * rewrite Hi in Hi0. injection Hi0 as <- <-. right. exists i, a, p'.
        split_and!; [by rewrite list_lookup_insert_eq by by apply lookup_lt_Some in Hi|done| |].
        -- intros j c r [(-> & _)|[Hj Hlk]]%Hins Hne Hc; [done|by eapply Hoth].
        -- by eapply turn_wp.
      * rewrite (turn_ended ext p st lg) in Ht by by eapply Hoth. injection Ht as <- <- <-.
        right. exists i0, b, q. rewrite list_insert_id by done. auto.
  - destruct (turn_other mine ext p st lg st' lg' p' (Honly i a p Hi Ha) Ht) as [Hm Hp'].
    split; cbn [w_state w_log w_tasks].
    { intros j b q [(-> & -> & ->)|[_ Hj]]%Hins Hf; [done|by eapply Honly]. }
    destruct Hcase as [[Hall HI0]|(i0 & b & q & Hi0 & Hb & Hoth & Hwp)]; [left|right].
    + split; [|exact (stable_meanwhile mine I _ _ Hm HI0)]. apply ended_intro.
      intros j b q [(-> & -> & ->)|[_ Hj]]%Hins Hq; [congruence|by eapply ended_lookup].
    + exists i0, b, q. assert (i <> i0) as Hne by (intros <-; rewrite Hi in Hi0; injection Hi0 as <- <-; congruence).
      split_and!; [by rewrite list_lookup_insert_ne|done| |by eapply wp_meanwhile].
      intros j c r [(-> & -> & ->)|[_ Hj]]%Hins Hj0 Hc; [congruence|by eapply Hoth].
Qed.

Lemma serial_invariant w :
  I initial_State [] -> runs E own w -> all_ended own (w_tasks w) = true -> I (w_state w) (w_log w).
Proof.
  intros H0 Hr Hend.
  assert (serial_inv w) as [_ [[_ HI']|(i & a & p & Hi & Ha & _ & Hwp)]]; [|done|].
  - unfold runs in Hr. remember (World initial_State [] []) as w0 eqn:E0.
    assert (serial_inv w0) as Hw0 by (rewrite E0; split; [done|by left]). clear E0 Hend.
    induction Hr as [|w1 w2 w3 Hs _ IH]; [done|]. apply IH. clear IH.
    destruct Hs as [a st lg ts Hs|ext i a p st lg ts st' lg' p' He Hi Ht];
      [by apply serial_start|by eapply serial_turn].
  - pose proof (ended_lookup _ _ _ _ _ Hend Hi Ha). by destruct p.
Qed.
End serial.

(** ** The Nexus address belongs to the open wallet *)

(** The main process answered, for the wallet of the state, with the address [n]. *)
Definition bound_to (st : page_state) (lg : log) (n : jsval) : Prop :=
  exists name r, (name = "nexusWalletLoad" \/ name = "nexusWalletCreate") /\
    (Crylo name [field st "walletName"; field st "address"], Ok r) ∈ lg /\
    truthy (get_opt r "ok") = true /\ get_opt r "nexusAddress" = n.

Definition binding : assertion := fun st lg =>
  truthy (field st "walletName") = true -> truthy (field st "nexusAddress") = true ->
  truthy (field st "address") = true /\ bound_to st lg (field st "nexusAddress").

Lemma binding_same st lg f : binding st lg -> binding (<[f := field st f]> st) lg.
Proof.
  assert (forall g, field (<[f := field st f]> st) g = field st g) as E.
  { intros g. destruct (decide (f = g)) as [->|]; [apply field_insert_eq|by apply field_insert_ne]. }
  unfold binding, bound_to. by rewrite !E.
Qed.

(** Does the operation assign one of the three fields? *)
Definition rebinds (o : pop) : bool :=
  match o with
  | SetState f _ =>
      String.eqb f "walletName" || String.eqb f "address" || String.eqb f "nexusAddress"
  | _ => false
  end.

Lemma binding_mono st lg lg' : binding st lg -> binding st (lg ++ lg')%list.
Proof.
  intros H Hw Hn. destruct (H Hw Hn) as [Ha (name & r & Hname & Hin & Hr)]. split; [done|].
  exists name, r. rewrite elem_of_app. auto.
Qed.

Lemma neutral_binding o : rebinds o = false -> neutral binding o.
Proof.
  intros Ho st lg r HI. apply binding_mono. destruct o; try exact HI. cbn [rebinds] in Ho.
  apply orb_false_iff in Ho as [[Hw Ha]%orb_false_iff Hn].
  apply String.eqb_neq in Hw, Ha, Hn. cbn [set_by]. unfold binding, bound_to in *.
  rewrite !field_insert_ne by done. exact HI.
Qed.

(** A state in which no Nexus address is set. *)
Lemma binding_cleared st lg : truthy (field st "nexusAddress") = false -> binding st lg.
Proof. intros Hn Hw Hn'. congruence. Qed.

#[local] Instance Stable_binding : Stable rebinds binding.
Proof. exact neutral_binding. Qed.
#[local] Instance Reserved_walletName : Reserved rebinds "walletName".
Proof. by intros v. Qed.
#[local] Instance Reserved_address : Reserved rebinds "address".
Proof. by intros v. Qed.
#[local] Instance Reserved_nexusAddress : Reserved rebinds "nexusAddress".
Proof. by intros v. Qed.
#[local] Instance Stable_bound n : Stable rebinds (fun st lg => bound_to st lg n).
Proof.
  intros o Ho st lg r (name & r' & Hname & Hin & Hr). exists name, r'. rewrite elem_of_app.
  split_and!; [done| |apply Hr..]. left. destruct o; try exact Hin.
  cbn [rebinds] in Ho. apply orb_false_iff in Ho as [[Hw Ha]%orb_false_iff _].
  apply String.eqb_neq in Hw, Ha. cbn [set_by]. by rewrite !field_insert_ne.
Qed.

(** *** The functions that assign them *)

Section binding.
Context `{Locale}.

Ltac walk := keeps_auto ltac:(apply neutral_binding; reflexivity).

(** Assigning the empty address establishes the invariant from any state. *)
Lemma clear_binds : triple page_env rebinds (fun _ _ => True) clearNexusUiForWalletSwitch (fun _ => binding).
Proof.
  unfold clearNexusUiForWalletSwitch. apply (triple_bind _ _ _ _ _ (fun _ => binding)).
  - apply triple_call; [apply _|]. intros ext st lg Henv _. cbn. apply binding_cleared. by rewrite field_insert_eq.
  - intros _. as_keeps. walk.
Qed.

Lemma keeps_clear : keeps page_env rebinds binding clearNexusUiForWalletSwitch.
Proof. by eapply triple_conseq; [exact clear_binds| |]. Qed.

(** Opening another wallet: its name, and no addresses yet. *)
Definition cleared : assertion := fun st _ => truthy (field st "nexusAddress") = false.
Definition keeps_cleared (o : pop) : bool :=
  match o with
  | SetState f v => negb (String.eqb f "nexusAddress") || negb (truthy v)
  | _ => true
  end.

Lemma neutral_cleared o : keeps_cleared o = true -> neutral cleared o.
Proof.
  intros Ho st lg r HI. unfold cleared in *. destruct o as [|?|f v| | | | | | | | | | | | | | | | | | | | |];
    try exact HI. cbn [keeps_cleared set_by] in *.
  destruct (String.eqb_spec f "nexusAddress") as [->|Hne].
  - rewrite field_insert_eq. by apply negb_true_iff.
  - by rewrite field_insert_ne.
Qed.

Lemma keeps_switch v (p : page) :
  keeps page_env rebinds cleared p ->
  keeps page_env rebinds binding
    (bind (set_state "walletName" v) (fun _ => bind (set_state "address" (JStr "")) (fun _ =>
       bind (set_state "nexusAddress" (JStr "")) (fun _ => p)))).
Proof.
  intros Hp. apply (triple_bind _ _ _ _ _ (fun _ _ _ => True)); [by apply triple_call; [apply _|]|intros _].
  apply (triple_bind _ _ _ _ _ (fun _ _ _ => True)); [by apply triple_call; [apply _|]|intros _].
  apply (triple_bind_call _ _ _ _ _ (fun _ => cleared)).
  - intros ext st lg Henv _. cbn [exec_page fst snd]. unfold cleared. by rewrite field_insert_eq.
  - intros _. eapply triple_conseq; [exact Hp|done|]. intros ? st lg. apply binding_cleared.
Qed.

(** Closing the wallet: its name is empty until another one is opened. *)
Definition closed : assertion := fun st _ => truthy (field st "walletName") = false.
Definition keeps_closed (o : pop) : bool :=
  match o with SetState f _ => negb (String.eqb f "walletName") | _ => true end.

Lemma neutral_closed o : keeps_closed o = true -> neutral closed o.
Proof.
  intros Ho st lg r HI. unfold closed in *. destruct o; try exact HI. cbn [keeps_closed set_by] in *.
  rewrite field_insert_ne; [done|]. by apply String.eqb_neq, negb_true_iff.
Qed.

Lemma keeps_close (p : page) :
  keeps page_env rebinds closed p -> keeps page_env rebinds binding (bind (set_state "walletName" (JStr "")) (fun _ => p)).
Proof.
  intros Hp. apply (triple_bind_call _ _ _ _ _ (fun _ => closed)).
  - intros ext st lg Henv _. cbn [exec_page fst snd]. unfold closed. by rewrite field_insert_eq.
  - intros _. eapply triple_conseq; [exact Hp|done|]. intros ? st lg Hcl Hw. congruence.
Qed.

(** The address is filled in only when there is none, and then no Nexus address is set. *)
Definition addressed : assertion := fun st lg =>
  binding st lg /\ truthy (field st "address") = true.

Lemma neutral_addressed o : rebinds o = false -> neutral addressed o.
Proof.
  intros Ho st lg r [HI Ha]. split; [by apply neutral_binding|].
  destruct o; try exact Ha. cbn [rebinds set_by] in *.
  apply orb_false_iff in Ho as [[_ Hf%String.eqb_neq]%orb_false_iff _].
  by rewrite field_insert_ne.
Qed.

Lemma addressed_mono st lg lg' : addressed st lg -> addressed st (lg ++ lg')%list.
Proof. intros [HI Ha]. split; [by apply binding_mono|done]. Qed.

Lemma ensure_binds :
  triple page_env rebinds binding ensureCryLoAddressLoaded
    (fun x => match x with Ok true => addressed | _ => binding end).
Proof.
  unfold ensureCryLoAddressLoaded.
  apply triple_read; [apply _|by apply neutral_binding|]. intros a. destruct (truthy a) eqn:Ha.
  { apply triple_ret. intros st lg [HI ->]. by split. }
  apply (triple_bind_call _ _ _ _ _ (fun _ st lg => binding st lg /\ truthy (field st "address") = false)).
  { intros ext st lg Henv [HI ->]. cbn [exec_page fst snd]. pose proof (binding_mono st lg) as Hm.
    destruct (ext _); [split; [by apply Hm|exact Ha]|by apply Hm]. }
  intros addrRes.
  apply triple_bind_lift; [intros resOk _|by intros e st lg _ [HI _]].
  destruct (truthy resOk); cbn [negb]; [|by apply triple_ret; intros st lg [HI _]].
  apply triple_bind_lift; [intros result _|by intros e st lg _ [HI _]].
  destruct (truthy result); cbn [negb]; [|by apply triple_ret; intros st lg [HI _]].
  apply triple_bind_lift; [intros address _|by intros e st lg _ [HI _]].
  destruct (truthy address) eqn:Hnew; cbn [negb]; [|by apply triple_ret; intros st lg [HI _]].
  apply (triple_bind_call _ _ _ _ _ (fun _ => addressed)).
  { intros ext st lg Henv [HI Hold]. cbn [exec_page fst snd]. split; [|by rewrite field_insert_eq].
    intros Hw Hn. rewrite field_insert_ne in Hw, Hn by done. destruct (HI Hw Hn). congruence. }
  intros _. apply triple_conseq with (P' := addressed) (Q' := fun _ => addressed);
    [as_keeps|done|].
  - keeps_auto ltac:(apply neutral_addressed; reflexivity).
  - intros [[]|e] st lg HQ; [exact HQ|apply HQ|apply HQ].
Qed.

Lemma keeps_ensure : keeps page_env rebinds binding ensureCryLoAddressLoaded.
Proof.
  eapply triple_conseq; [exact ensure_binds|done|].
  intros [[]|e] st lg HQ; [apply HQ|exact HQ|exact HQ].
Qed.

(** Showing an address the main process gave for the open wallet. *)
Lemma setNexus_binds addr :
  triple page_env rebinds (fun st lg => truthy addr = true ->
                truthy (field st "address") = true /\ bound_to st lg addr)
    (setNexusUiAddress addr) (fun _ => binding).
Proof.
  unfold setNexusUiAddress. apply (triple_bind_call _ _ _ _ _ (fun _ => binding)).
  - intros ext st lg Henv HP. cbn [exec_page fst snd]. intros Hw Hn. rewrite field_insert_eq in *.
    unfold js_or in *. destruct (truthy addr) eqn:Ha; [|done].
    destruct (HP eq_refl) as [Hadr (name & r & Hname & Hin & Hr)].
    unfold bound_to. rewrite !field_insert_ne by done. split; [done|].
    exists name, r. rewrite elem_of_app. auto.
  - intros _. as_keeps. walk.
Qed.

(** The answer of the main process for the wallet of the state. *)
Lemma ask_binds name (k : jsval -> page) :
  name = "nexusWalletLoad" \/ name = "nexusWalletCreate" ->
  (forall r, triple page_env rebinds (fun st lg => addressed st lg /\
       (truthy (get_opt r "ok") = true -> bound_to st lg (get_opt r "nexusAddress"))) (k r)
     (fun _ => binding)) ->
  triple page_env rebinds addressed
    (bind (get_state "walletName") (fun w => bind (get_state "address") (fun a =>
       bind (crylo_call name [w; a]) k))) (fun _ => binding).
Proof.
  intros Hname Hk.
  apply triple_read; [apply _|by apply neutral_addressed|]. intros w.
  apply triple_read; [apply _|by apply (stable (mine := rebinds))|].
  intros a. apply (triple_bind_call _ _ _ _ _ (fun r st lg => addressed st lg /\
       (truthy (get_opt r "ok") = true -> bound_to st lg (get_opt r "nexusAddress")))); [|exact Hk].
  intros ext st lg Henv [[HI ->] ->]. cbn [exec_page fst snd]. destruct (ext _) as [r|e].
  - split; [by apply addressed_mono|]. intros Hok. exists name, r. split_and!; try done.
    rewrite elem_of_app. right. by apply list_elem_of_singleton.
  - apply binding_mono, HI.
Qed.

Lemma loadSaved_binds : triple page_env rebinds binding loadSavedNexusLinkedAddress (fun _ => binding).
Proof.
  unfold loadSavedNexusLinkedAddress.
  apply (triple_bind _ _ _ _ _ (fun loaded : bool => if loaded then addressed else binding)).
  { eapply triple_conseq; [exact ensure_binds|done|]. by intros [[]|e]. }
  intros [|]; cbn [negb].
  2: { eapply triple_conseq; [exact (setNexus_binds (JStr ""))|by intros|done]. }
  apply ask_binds; [by left|]. intros r.
  apply triple_bind_lift; [intros resOk Hok|by intros e st lg _ [[HI _] _]].
  assert (get_opt r "ok" = resOk) as Hopt by (unfold get_opt; by rewrite Hok).
  destruct (truthy resOk) eqn:Ht; cbn [andb].
  - apply triple_bind_lift; [intros found Hf|by intros e st lg _ [[HI _] _]].
    assert (get_opt r "nexusAddress" = found) as Hfound by (unfold get_opt; by rewrite Hf).
    destruct (truthy found).
    + eapply triple_conseq; [exact (setNexus_binds found)| |done].
      intros st lg [[_ Ha] Hb] _. rewrite Hopt, Hfound in Hb. auto.
    + eapply triple_conseq; [exact (setNexus_binds (JStr ""))|by intros|done].
  - apply triple_bind_lift; [intros found _|done].
    eapply triple_conseq; [exact (setNexus_binds (JStr ""))|by intros|done].
Qed.

Lemma keeps_loadSaved : keeps page_env rebinds binding loadSavedNexusLinkedAddress.
Proof. exact loadSaved_binds. Qed.

Lemma keeps_createBound : keeps page_env rebinds binding createBoundNexusWallet.
Proof.
  unfold keeps, createBoundNexusWallet.
  apply (triple_bind _ _ _ _ _ (fun loaded : bool => if loaded then addressed else binding)).
  { eapply triple_conseq; [exact ensure_binds|done|]. by intros [[]|e]. }
  intros [|]; cbn [negb]; [|as_keeps; walk].
  apply ask_binds; [by right|]. intros r.
  apply triple_bind_lift; [intros resOk Hok|by intros e st lg _ [[HI _] _]].
  assert (get_opt r "ok" = resOk) as Hopt by (unfold get_opt; by rewrite Hok).
  destruct (truthy resOk) eqn:Ht; cbn [negb].
  - apply triple_bind_lift; [intros addr Hf|by intros e st lg _ [[HI _] _]].
    assert (get_opt r "nexusAddress" = addr) as Hfound by (unfold get_opt; by rewrite Hf).
    apply (triple_bind _ _ _ _ _ (fun _ => binding)); [|intros _; as_keeps; walk].
    eapply triple_conseq; [exact (setNexus_binds addr)| |by intros [?|?]].
    intros st lg [[_ Ha] Hb] _. rewrite Hopt, Hfound in Hb. auto.
  - apply triple_conseq with (P' := binding) (Q' := fun _ => binding);
      [as_keeps; walk|by intros st lg [[HI _] _]|done].
Qed.

#[local] Hint Resolve keeps_clear keeps_ensure keeps_loadSaved keeps_createBound : page_inv.

(** A changed address clears the Nexus address before anything else can fail. *)
Lemma keeps_loadAddress : keeps page_env rebinds binding loadAddress.
Proof.
  unfold loadAddress.
  apply keeps_bind; [walk|intros res]. apply keeps_bind; [walk|intros resOk].
  destruct (negb _); [walk|]. apply keeps_bind; [walk|intros result].
  destruct (negb _); [walk|]. apply keeps_bind; [walk|intros newAddress].
  destruct (truthy newAddress) eqn:Hnew; cbn [negb]; [|walk].
  apply triple_read; [apply _|by apply neutral_binding|]. intros old. cbv zeta.
  set (R := fun (st : page_state) (lg : log) => strict_eq old newAddress = true -> binding st lg).
  apply (triple_bind_call _ _ _ _ _ (fun _ => R)).
  { intros ext st lg Henv [HI ->]. cbn [exec_page fst snd]. intros <-%strict_eq_eq.
    apply binding_mono. by apply binding_same. }
  intros _.
  assert (forall st lg lg', R st lg -> R st (lg ++ lg')%list) as Hmono.
  { intros st lg lg' HR E. by apply binding_mono, HR. }
  apply (triple_bind_call _ _ _ _ _ (fun _ => R)); [by intros ext st lg Henv HR; apply Hmono|intros shown].
  apply (triple_bind_call _ _ _ _ _ (fun _ => R)).
  { intros ext st lg Henv HR. cbn [exec_page fst snd].
    destruct (proj1 Henv (SetProp "receive-address" "textContent" shown)) as [v ->]. by apply Hmono. }
  intros _. apply (triple_bind _ _ _ _ _ (fun _ => binding)); [|intros _; as_keeps; walk].
  unfold R. destruct (strict_eq old newAddress); cbn [negb].
  - apply triple_ret. auto.
  - eapply triple_conseq; [exact clear_binds|done|by intros [?|?]].
Qed.

#[local] Hint Resolve keeps_loadAddress : page_inv.

Ltac walk_cleared := keeps_auto ltac:(apply neutral_cleared; reflexivity).
Ltac walk_closed := keeps_auto ltac:(apply neutral_closed; reflexivity).
Ltac walk_binding :=
  repeat first [ solve [auto 2 with page_inv nocore]
               | lazymatch goal with
                 | |- keeps _ _ _ (bind (set_state "walletName" (JStr "")) _) =>
                     apply keeps_close; walk_closed
                 | |- keeps _ _ _ (bind (set_state "walletName" _) _) =>
                     apply keeps_switch; walk_cleared
                 end
               | keeps_step ltac:(apply neutral_binding; reflexivity) ].

Lemma keeps_send_deposits na n i chunks sent :
  keeps page_env rebinds binding (send_deposits na n i chunks sent).
Proof.
  revert i sent. induction chunks as [|c chunks IH]; intros i sent; cbn [send_deposits]; [walk|].
  apply keeps_bind; [|intros sent'; apply IH]. walk.
Qed.

#[local] Hint Resolve keeps_send_deposits : page_inv.

Lemma keeps_binding a : keeps page_env rebinds binding (program a).
Proof. destruct a; cbn [program]; walk_binding. Qed.
End binding.


(** The actions that assign the wallet name or one of the two addresses, directly or through the
    functions they await. *)
Definition rebinding (a : action) : bool :=
  match a with
  | CreateWallet | OpenWallet | RestoreWallet | SwitchWallet
  | LoadAddress | RefreshActiveTab | SwitchTab _ | InitMiningTab
  | CreateBoundNexusWallet | LoadSavedNexusAddress | LoadNexusTab
  | BridgeIn | BridgeOut => true
  | _ => false
  end.

Lemma others_leave_binding `{Locale} a :
  rebinding a = false -> Only (fun o => rebinds o = false) (program a).
Proof. destruct a; intros Ha; try discriminate Ha; cbn [program]; only_deep ltac:(reflexivity). Qed.

(** C7 (invariant). The Nexus address the page shows and spends from belongs to the open wallet, as
    long as the functions that assign the wallet name or one of the addresses (opening, closing
    and switching wallets, loading addresses, switching tabs and the bridge forms) do not overlap each
    other.  All other functions may overlap them and each other at every operation, and everything
    is answered in any way.  Then, whenever none of these functions is under way, a wallet is open
    and a Nexus address is set, the wallet's CryLo address is known and the main process gave that
    Nexus address for exactly this wallet name and this CryLo address. *)
Theorem nexus_binding `{Locale} (w : world) :
  runs page_env rebinding w -> all_ended rebinding (w_tasks w) = true ->
  truthy (field (w_state w) "walletName") = true ->
  truthy (field (w_state w) "nexusAddress") = true ->
  truthy (field (w_state w) "address") = true /\
  bound_to (w_state w) (w_log w) (field (w_state w) "nexusAddress").
Proof.
  intros Hr Hend.
  refine (serial_invariant page_env rebinding rebinds binding others_leave_binding
            (fun a _ => keeps_binding a) w _ Hr Hend).
  by apply binding_cleared.
Qed.

(** ** The poll of the mining panel *)

(** The interval that runs is the one whose handle is kept, and it runs only while mining. *)
Definition mining : assertion := fun st lg =>
  (forall t, ("miningTick", t) ∈ running lg -> field st "miningStatusTimer" = t /\ is_handle t) /\
  (truthy (field st "miningActive") = true \/ none_running "miningTick" lg).

Definition mining_op (o : pop) : bool :=
  match o with
  | SetState f _ => String.eqb f "miningStatusTimer" || String.eqb f "miningActive"
  | Every f _ _ => String.eqb f "miningTick"
  | _ => false
  end.

(** The actions of the mining panel: the button, and the stop that a tick starts. *)
Definition mining_control (a : action) : bool :=
  match a with ToggleMining | StopMining => true | _ => false end.

Lemma mining_op_starts o : mining_op o = false -> starts "miningTick" o = false.
Proof.
  destruct o; try done. cbn [mining_op starts]. intros Hf%String.eqb_neq. apply String.eqb_neq. congruence.
Qed.

#[local] Instance Reserved_mining : Reserved mining_op "miningActive".
Proof. by intros v. Qed.
#[local] Instance Reserved_miningTimer : Reserved mining_op "miningStatusTimer".
Proof. by intros v. Qed.

#[local] Instance Stable_mining : Stable mining_op mining.
Proof.
  intros o Ho st lg r [Hk Ha]. pose proof (mining_op_starts o Ho) as Hs. split.
  - intros t Hrun%running_only; [|done]. destruct (Hk t Hrun) as [E Hh]. split; [|done].
    exact (Stable_field mining_op "miningStatusTimer" (fun v => v = t) _ o Ho st lg r E).
  - destruct Ha as [Ha|Hn]; [left|right; by apply none_running_mono].
    exact (Stable_field mining_op "miningActive" (fun v => truthy v = true) _ o Ho st lg r Ha).
Qed.

(** No interval of the panel runs. *)
Definition no_poll : assertion := fun _ lg => none_running "miningTick" lg.

Lemma neutral_no_poll o : starts "miningTick" o = false -> neutral no_poll o.
Proof. intros Ho st lg r. by apply none_running_mono. Qed.
#[local] Instance Stable_no_poll : Stable mining_op no_poll.
Proof. intros o Ho. by apply neutral_no_poll, mining_op_starts. Qed.

Lemma no_poll_mining st lg : no_poll st lg -> mining st lg.
Proof. intros Hn. split; [|by right]. intros t Hrun. by destruct (Hn t). Qed.

(** After the miner is started: mining, and still no interval. *)
Definition about_to_poll : assertion := fun st lg =>
  no_poll st lg /\ truthy (field st "miningActive") = true.

Lemma neutral_about o : mining_op o = false -> neutral about_to_poll o.
Proof. intros Ho. by apply (stable (mine := mining_op)). Qed.

(** The new interval, before its handle is kept. *)
Definition just_started (t : jsval) : assertion := fun st lg =>
  is_handle t /\ truthy (field st "miningActive") = true /\
  forall t', ("miningTick", t') ∈ running lg -> t' = t.
#[local] Instance Stable_started t : Stable mining_op (just_started t).
Proof.
  intros o Ho st lg r (Hh & Ha & Hu). split_and!; [done| |].
  - exact (Stable_field mining_op "miningActive" (fun v => truthy v = true) _ o Ho st lg r Ha).
  - intros t' Hrun%running_only; [by apply Hu|by apply mining_op_starts].
Qed.

Section mining.
Context `{Locale}.

Ltac walk_idle := keeps_auto ltac:(apply neutral_no_poll; reflexivity).
Ltac walk_about := keeps_auto ltac:(apply neutral_about; reflexivity).

Lemma closing_stops_poll :
  triple page_env mining_op mining (close_timer "miningStatusTimer") (fun _ => no_poll).
Proof.
  unfold close_timer. apply triple_read; [apply _|by apply (stable (mine := mining_op))|].
  intros t. destruct (truthy t) eqn:E.
  - apply (triple_bind_call _ _ _ _ _ (fun _ => no_poll)).
    + intros ext st lg Henv [[Hk _] ->]. cbn [exec_page fst snd].
      destruct (proj1 Henv (ClearTimer (field st "miningStatusTimer"))) as [v ->].
      intros t' [Hrun Hne]%running_cleared. destruct (Hk t' Hrun) as [<- Hh].
      apply handle_truthy in Hh as [_ Hh]. congruence.
    + intros _. apply keeps_call; [apply _|]. by apply neutral_no_poll.
  - apply triple_ret. intros st lg [[Hk _] ->] t' Hrun. destruct (Hk t' Hrun) as [<- Hh].
    apply handle_truthy in Hh as [Hh _]. congruence.
Qed.

Lemma stopMining_mining : keeps page_env mining_op mining stopMining.
Proof.
  unfold stopMining. apply (triple_bind _ _ _ _ _ (fun _ => no_poll)).
  - eapply triple_conseq; [exact closing_stops_poll|done|].
    intros [a|e] st lg Hn; [done|by apply no_poll_mining].
  - intros _. apply triple_weaken; [walk_idle|]. intros x. apply no_poll_mining.
Qed.

Lemma startMining_mining : triple page_env mining_op no_poll startMining (fun _ => mining).
Proof.
  unfold startMining.
  do 4 (apply triple_step; [walk_idle|intros e; apply no_poll_mining|intros ?]).
  cbv zeta. destruct (_ || _); [apply triple_weaken; [walk_idle|intros x; apply no_poll_mining]|].
  apply (triple_try _ _ _ _ _ (fun _ => no_poll));
    [|intros e; apply triple_weaken; [walk_idle|intros x; apply no_poll_mining]].
  do 2 (apply triple_step; [walk_idle|done|intros ?]).
  destruct (negb _).
  { apply triple_weaken; [walk_idle|]. intros [?|?] st lg HJ; [by apply no_poll_mining|exact HJ]. }
  apply (triple_bind_call _ _ _ _ _ (fun _ => about_to_poll)).
  { intros ext st lg Henv HJ. cbn [exec_page fst snd]. split; [|by rewrite field_insert_eq].
    by apply (neutral_no_poll (SetState "miningActive" (JBool true)) eq_refl). }
  intros _. do 7 (apply triple_step; [walk_about|by intros e st lg []|intros ?]).
  apply (triple_bind_call _ _ _ _ _ just_started).
  { intros ext st lg (_ & Hh & _) [Hn Ha]. cbn [exec_page fst snd].
    destruct (Hh "miningTick" [] 5000) as (t & -> & Ht). split_and!; [done|done|].
    intros t' Hrun. rewrite running_snoc in Hrun.
    apply elem_of_cons in Hrun as [[= ->]|Hrun]; [done|]. by destruct (Hn t'). }
  intros t. apply triple_call; [apply _|]. intros ext st lg _ (Hh & Ha & Hu). cbn [exec_page fst snd].
  split; [|left; by rewrite field_insert_ne].
  intros t' Hrun%running_only; [|done]. rewrite field_insert_eq, (Hu t' Hrun). auto.
Qed.

Lemma mining_kept a : mining_control a = true -> keeps page_env mining_op mining (program a).
Proof.
  destruct a; intros Ha; try discriminate Ha; cbn [program]; [|exact stopMining_mining].
  unfold toggleMining. apply triple_read; [apply _|by apply (stable (mine := mining_op))|].
  intros v. destruct (truthy v) eqn:Hv.
  - eapply triple_conseq; [exact stopMining_mining|by intros st lg []|done].
  - eapply triple_conseq; [exact startMining_mining| |done].
    intros st lg [[_ [Hm|Hn]] ->]; [congruence|done].
Qed.
End mining.

Lemma deposits_leave_mining `{Locale} na n i chunks sent :
  Only (fun o => mining_op o = false) (send_deposits na n i chunks sent).
Proof.
  revert i sent. induction chunks as [|c chunks IH]; intros i sent; cbn [send_deposits]; [constructor|].
  apply Only_bind; [|intros sent'; apply IH]. only_deep ltac:(reflexivity).
Qed.

Lemma others_leave_mining `{Locale} a :
  mining_control a = false -> Only (fun o => mining_op o = false) (program a).
Proof.
  pose proof deposits_leave_mining.
  destruct a; intros Ha; try discriminate Ha; cbn [program];
    repeat first [ progress only_deep ltac:(reflexivity) | eauto ].
Qed.


(** ** Schedules *)

(** The wallet "a" is opened while the balance is being read; then, while the NFTs are listed, its
    bound Nexus wallet is loaded. *)
Definition sample_opened : world :=
  play rebinding
    [Begin OpenWallet; Begin UpdateBalance; Turns (overlap "a" "0xa" 5) 0 10;
     Turns (overlap "a" "0xa" 6) 1 20; Turns (overlap "a" "0xa" 5) 0 60;
     Begin LoadSavedNexusAddress; Begin LoadNexusBuyback; Turns (overlap "a" "0xa" 6) 2 5;
     Turns (overlap "a" "0xa" 6) 3 9; Turns (overlap "a" "0xa" 6) 2 40].

Lemma nexus_binding_witness :
  field (w_state sample_opened) "walletName" = JStr "a" /\
  field (w_state sample_opened) "nexusAddress" = JStr "0xa" /\
  bound_to (w_state sample_opened) (w_log sample_opened) (JStr "0xa").
Proof.
  split; [vm_compute; reflexivity|]. split; [vm_compute; reflexivity|].
  assert (field (w_state sample_opened) "nexusAddress" = JStr "0xa") as En by (vm_compute; reflexivity).
  rewrite <- En. apply (@nexus_binding plain_locale sample_opened).
  - apply play_runs. repeat constructor; apply overlap_env; discriminate.
  - vm_compute. reflexivity.
  - vm_compute. reflexivity.
  - vm_compute. reflexivity.
Defined.

(** Mining is started while a wallet is being opened. *)
Definition sample_mining : world :=
  play mining_control
    [Begin OpenWallet; Begin ToggleMining; Turns (overlap "a" "0xa" 5) 0 12;
     Turns (overlap "a" "0xa" 6) 1 5; Turns (overlap "a" "0xa" 7) 0 60;
     Turns (overlap "a" "0xa" 8) 1 40].


(** *** Why these functions must not overlap *)

(** A second click on "Start Mining" while the first one waits for the daemon starts a second
    interval, and the first one's handle is lost: it runs on after "Stop Mining". *)
Lemma mining_interval_lost :
  exists w, @page_runs plain_locale w /\ field (w_state w) "miningActive" = JBool false /\
    running (w_log w) = [("miningTick", JNum (Fin 5))] /\ field (w_state w) "miningStatusTimer" = JNull.
Proof.
  exists (free_play [Begin ToggleMining; Begin ToggleMining; Turns (overlap "a" "0xa" 5) 0 1;
                     Turns (overlap "a" "0xa" 6) 1 1; Turns (overlap "a" "0xa" 5) 0 40;
                     Turns (overlap "a" "0xa" 6) 1 40; Begin ToggleMining;
                     Turns (overlap "a" "0xa" 8) 2 40]).
  split; [apply play_runs; repeat constructor; apply overlap_env; discriminate|].
  vm_compute. auto.
Qed.

(** While the Nexus wallet of the wallet "a" is being loaded, the wallet "b" is opened: the answer
    arrives afterwards, and the page shows and uses the Nexus address of "a" for "b". *)
Lemma nexus_binding_race :
  exists w, @page_runs plain_locale w /\ field (w_state w) "walletName" = JStr "b" /\
    field (w_state w) "nexusAddress" = JStr "0xa" /\ ~ binding (w_state w) (w_log w).
Proof.
  exists (free_play [Begin OpenWallet; Turns (overlap "a" "0xa" 5) 0 60;
                     Begin LoadSavedNexusAddress; Turns (overlap "a" "0xa" 6) 1 9;
                     Begin OpenWallet; Turns (overlap "b" "0xb" 7) 2 60;
                     Turns (overlap "b" "0xb" 6) 1 40]).
  split; [apply play_runs; repeat constructor; apply overlap_env; discriminate|].
  split; [vm_compute; reflexivity|]. split; [vm_compute; reflexivity|].
  intros Hb. destruct Hb as [Ha _]; vm_compute; [reflexivity|reflexivity|].
  vm_compute in Ha. discriminate Ha.
Qed.
