(* ===== verification/PagePolling.v ===== *)
(** * The page: polling until the bridge is done (electron/src/app.js)

    After a deposit the page polls the bridge service for the mint, and after a burn for the
    release, each with an interval.  Both polls go on through errors and unfinished answers, and
    both end: with the first answer that reports completion the interval is gone. *)

From Stdlib Require Import Ascii String.
From S2P Require Import Prelude JsNumber JsString JsConv JsVal Json Prog MainEnv Amounts Page PageWallet PageTx PageMining PageNexus PageBridge PageState PageConcurrency.

Inductive poller := Mint | Release.

Definition callback (p : poller) : string :=
  match p with Mint => "bridgeTick" | Release => "releaseTick" end.
Definition handle (p : poller) : string :=
  match p with Mint => "cryloBridgePollTimer" | Release => "bridgeReleasePollTimer" end.
Definition tick `{Locale} (p : poller) (arg : jsval) : page :=
  match p with Mint => bridgeTick arg | Release => releaseTick arg end.

(** The service's answer that ends a poll. *)
Definition status_request (p : poller) (arg : jsval) : pop :=
  match p with Mint => Crylo "bridgeStatus" [arg] | Release => Crylo "bridgeReleaseStatus" [arg] end.
Definition completed (p : poller) (res : jsval) : bool :=
  truthy (get_opt res "ok") &&
  match p with
  | Mint => truthy (get_opt res "processed")
  | Release => truthy (get_opt res "released") && truthy (get_opt res "release")
  end.
Definition reports (p : poller) (arg : jsval) (ext : pop -> result jsval) : bool :=
  match ext (status_request p arg) with Ok res => completed p res | Throw _ => false end.

(** The intervals fire one after the other, each with an environment of its own, as long as the
    poll's interval runs. *)
Definition polling (p : poller) (lg : log) : bool :=
  existsb (fun e => String.eqb (callback p) (fst e)) (running lg).

Fixpoint poll `{Locale} (p : poller) (arg : jsval) (exts : list (pop -> result jsval))
    (w : page_state * log) : page_state * log :=
  match exts with
  | [] => w
  | ext :: exts' =>
      if polling p (snd w) then
        let '(st, tr, _) := run (exec_page ext) (tick p arg) (fst w) in
        poll p arg exts' (st, snd w ++ tr)%list
      else w
  end.

Lemma polling_true p lg : polling p lg = true <-> exists t, (callback p, t) ∈ running lg.
Proof.
  unfold polling. rewrite existsb_exists. setoid_rewrite <- list_elem_of_In. split.
  - intros ([f t] & Hin & ->%String.eqb_eq). by exists t.
  - intros [t Hin]. exists (callback p, t). split; [done|apply String.eqb_refl].
Qed.

Lemma polling_false p lg : polling p lg = false <-> none_running (callback p) lg.
Proof.
  rewrite <- not_true_iff_false, polling_true. unfold none_running. naive_solver.
Qed.

(** ** Steps of a tick whose answer is known *)

(** No other function runs during a tick. *)
Abbreviation alone := (fun _ : pop => true).

(** ** Going on *)

(** The interval [t] of a poll runs. *)
Definition still (p : poller) (t : jsval) : assertion := fun st lg =>
  kept st lg /\ (callback p, t) ∈ running lg.
Definition leaves_running (o : pop) : bool :=
  leaves_kept o && match o with ClearTimer _ => false | _ => true end.

Lemma neutral_still p t o : leaves_running o = true -> neutral (still p t) o.
Proof.
  intros [Ho Hcl]%andb_true_iff st lg r [HT Hin]. split; [by apply neutral_kept|].
  rewrite running_snoc. destruct o; try done. cbn [timers_step]. destruct r; [|done].
  apply elem_of_cons. by right.
Qed.

(** ** Being done *)

Definition over (p : poller) : assertion := fun st lg =>
  kept st lg /\ none_running (callback p) lg.

Lemma handle_owned p : (callback p, handle p) ∈ owned.
Proof. destruct p; unfold owned; rewrite !elem_of_cons; tauto. Qed.

Lemma callback_poll p : callback p <> "miningTick".
Proof. by destruct p. Qed.

Lemma neutral_over p o : leaves_kept o = true -> neutral (over p) o.
Proof.
  intros Ho st lg r [HT Hn]. split; [by apply neutral_kept|].
  apply none_running_mono; [|done]. destruct o; try done. cbn [leaves_kept starts] in *.
  destruct (String.eqb_spec (callback p) f) as [<-|]; [|done].
  by destruct p.
Qed.

Section ticks.
Context `{Locale} (ext : pop -> result jsval).

Ltac walk_still := keeps_auto ltac:(apply neutral_still; reflexivity).
Ltac walk_over := keeps_auto ltac:(apply neutral_over; reflexivity).

(** The answer to the status request, in a tick that keeps [P] when it is not there. *)
Lemma ask {P : assertion} name args (k : jsval -> page) (Q : result jsval -> assertion) :
  neutral P (Crylo name args) ->
  (forall e st lg, ext (Crylo name args) = Throw e -> P st lg -> Q (Throw e) st lg) ->
  (forall res, ext (Crylo name args) = Ok res -> triple (eq ext) alone P (k res) Q) ->
  triple (eq ext) alone P (bind (crylo_call name args) k) Q.
Proof.
  intros Hn HQ Hk.
  apply (triple_bind_call _ _ _ _ _ (fun res st lg => ext (Crylo name args) = Ok res /\ P st lg)).
  - intros ext' st lg <- HP. cbn [exec_page fst snd].
    specialize (Hn st lg (ext (Crylo name args)) HP). cbn [set_by] in Hn.
    destruct (ext (Crylo name args)) eqn:E; [done|by apply HQ].
  - intros res st lg [E HP]. by apply Hk.
Qed.

(** An unfinished answer, or none, leaves the interval running. *)
Lemma mint_goes_on arg t : reports Mint arg ext = false -> keeps (eq ext) alone (still Mint t) (bridgeTick arg).
Proof.
  unfold reports, status_request, completed. intros Hrep.
  apply (triple_try _ _ _ _ _ (fun _ => still Mint t)); [|intros e; as_keeps; walk_still].
  apply ask; [by apply neutral_still|done|]. intros res E. rewrite E in Hrep.
  apply triple_bind_lift; [intros ok Hok|done].
  assert (get_opt res "ok" = ok) as Eok by (unfold get_opt; by rewrite Hok). rewrite Eok in Hrep.
  destruct (truthy ok); cbn [negb andb] in *; [|apply triple_weaken; [walk_still|by intros [?|?]]].
  apply triple_bind_lift; [intros processed Hp|done].
  unfold get_opt in Hrep. rewrite Hp in Hrep. rewrite Hrep.
  apply triple_weaken; [walk_still|by intros [?|?]].
Qed.

Lemma release_goes_on arg t :
  reports Release arg ext = false -> keeps (eq ext) alone (still Release t) (releaseTick arg).
Proof.
  unfold reports, status_request, completed. intros Hrep.
  apply (triple_try _ _ _ _ _ (fun _ => still Release t)); [|intros e; as_keeps; walk_still].
  apply ask; [by apply neutral_still|done|]. intros res E. rewrite E in Hrep.
  apply triple_bind_lift; [intros ok Hok|done].
  assert (get_opt res "ok" = ok) as Eok by (unfold get_opt; by rewrite Hok). rewrite Eok in Hrep.
  destruct (truthy ok); cbn [negb andb] in *; [|apply triple_weaken; [walk_still|by intros [?|?]]].
  apply triple_bind_lift; [intros released Hp|done].
  apply triple_bind_lift; [intros release Hq|done].
  unfold get_opt in Hrep. rewrite Hp, Hq in Hrep. rewrite Hrep.
  apply triple_weaken; [walk_still|by intros [?|?]].
Qed.

Lemma tick_goes_on p arg t : reports p arg ext = false -> keeps (eq ext) alone (still p t) (tick p arg).
Proof. destruct p; [apply mint_goes_on|apply release_goes_on]. Qed.

(** A completed one removes it. *)
Context (Hc : complete_page ext).

(** [clearInterval(handle); handle = null;] and what follows. *)
Lemma stop_interval p (k : page) (Q : result jsval -> assertion) :
  keeps (eq ext) alone (over p) k -> (forall x st lg, over p st lg -> Q x st lg) ->
  triple (eq ext) alone kept
    (bind (get_state (handle p)) (fun t => bind (call (ClearTimer t)) (fun _ =>
       bind (set_state (handle p) JNull) (fun _ => k)))) Q.
Proof.
  intros Hk HQ. pose proof (handle_owned p) as Hin. pose proof (callback_poll p) as Hne.
  apply triple_read; [apply _|by apply neutral_kept|].
  intros t. apply (triple_bind_call _ _ _ _ _ (fun _ => over p)).
  { intros ext' st lg <- [HI ->]. cbn [exec_page fst snd].
    destruct (Hc (ClearTimer (field st (handle p)))) as [w ->].
    split; [by apply (neutral_kept (ClearTimer (field st (handle p))))|by apply (kept_cleared _ (handle p))]. }
  intros _. apply (triple_bind_call _ _ _ _ _ (fun _ => over p)).
  - intros ext' st lg _ [HI Hn]. split; [by apply (kept_set (callback p))|by apply none_running_mono].
  - intros _. by eapply triple_conseq; [exact Hk| |].
Qed.

Lemma mint_ends arg : reports Mint arg ext = true -> triple (eq ext) alone kept (bridgeTick arg) (fun _ => over Mint).
Proof.
  unfold reports, status_request, completed. intros Hrep.
  apply (triple_try _ _ _ _ _ (fun _ => over Mint)); [|intros e; as_keeps; walk_over].
  destruct (ext (Crylo "bridgeStatus" [arg])) as [res|e] eqn:E; [|done].
  apply ask; [by apply neutral_kept|congruence|]. intros res' E'. rewrite E in E'. injection E' as <-.
  apply andb_true_iff in Hrep as [Hok Hp].
  rewrite (get_defined res "ok" "ok" Hok). cbn [lift bind]. rewrite Hok. cbn [negb].
  rewrite (get_defined res "ok" "processed" Hok). cbn [lift bind]. rewrite Hp.
  apply (stop_interval Mint); [walk_over|by intros [?|?]].
Qed.

Lemma release_ends arg :
  reports Release arg ext = true -> triple (eq ext) alone kept (releaseTick arg) (fun _ => over Release).
Proof.
  unfold reports, status_request, completed. intros Hrep.
  apply (triple_try _ _ _ _ _ (fun _ => over Release)); [|intros e; as_keeps; walk_over].
  destruct (ext (Crylo "bridgeReleaseStatus" [arg])) as [res|e] eqn:E; [|done].
  apply ask; [by apply neutral_kept|congruence|]. intros res' E'. rewrite E in E'. injection E' as <-.
  apply andb_true_iff in Hrep as [Hok Hp].
  rewrite (get_defined res "ok" "ok" Hok). cbn [lift bind]. rewrite Hok. cbn [negb].
  rewrite (get_defined res "ok" "released" Hok), (get_defined res "ok" "release" Hok).
  cbn [lift bind]. rewrite Hp. apply (stop_interval Release); [walk_over|by intros [?|?]].
Qed.

Lemma tick_ends p arg : reports p arg ext = true -> triple (eq ext) alone kept (tick p arg) (fun _ => over p).
Proof. destruct p; [apply mint_ends|apply release_ends]. Qed.
End ticks.

(** ** The whole poll *)

Section whole_poll.
Context `{Locale} (p : poller) (arg : jsval).

Lemma poll_app exts exts' w : poll p arg (exts ++ exts') w = poll p arg exts' (poll p arg exts w).
Proof.
  revert w. induction exts as [|ext exts IH]; intros w; [done|]. cbn [app poll].
  destruct (polling p (snd w)) eqn:E.
  - destruct (run _ _ _) as [[st tr] x]. apply IH.
  - destruct exts'; cbn [poll]; [done|]. by rewrite E.
Qed.

Lemma poll_over exts w : polling p (snd w) = false -> poll p arg exts w = w.
Proof. intros E. destruct exts; cbn [poll]; [done|]. by rewrite E. Qed.

Lemma poll_goes_on exts st lg :
  Forall (fun ext => reports p arg ext = false) exts -> kept st lg -> polling p lg = true ->
  let w := poll p arg exts (st, lg) in kept (fst w) (snd w) /\ polling p (snd w) = true.
Proof.
  intros Hexts. revert st lg. induction Hexts as [|ext exts He _ IH]; intros st lg HT Hp; [done|].
  cbn [poll fst snd]. rewrite Hp. apply polling_true in Hp as [t Ht].
  pose proof (triple_run ext _ _ _ st lg (tick_goes_on ext p arg t He) (conj HT Ht)) as Hk.
  destruct (run (exec_page ext) (tick p arg) st) as [[st' tr] x]. destruct Hk as [HT' Hin].
  apply IH; [done|]. apply polling_true. by exists t.
Qed.

(** C11 (liveness). A poll of the bridge goes on until the bridge is done, and then ends: from any
    state the page reaches with its interval running, whatever functions overlapped before, it keeps
    running through any number of ticks answered by errors, exceptions or unfinished states; with
    the first tick whose answer reports the mint (or the release) it is removed, and no later tick
    happens.  (The ticks follow one another, each to its end.) *)
Theorem bridge_polling_ends (before after : list (pop -> result jsval)) (ext : pop -> result jsval)
    (w : world) :
  let st := w_state w in let lg := w_log w in
  page_runs w -> polling p lg = true ->
  Forall (fun e => reports p arg e = false) before ->
  complete_page ext -> reports p arg ext = true ->
  polling p (snd (poll p arg before (st, lg))) = true /\
  polling p (snd (poll p arg (before ++ [ext]) (st, lg))) = false /\
  poll p arg (before ++ ext :: after) (st, lg) = poll p arg (before ++ [ext]) (st, lg).
Proof.
  intros st lg Hr Hp Hb Hc Hdone. apply page_runs_kept in Hr.
  destruct (poll_goes_on before st lg Hb Hr Hp) as [HT Hp']. split; [done|].
  assert (polling p (snd (poll p arg (before ++ [ext]) (st, lg))) = false) as Hend.
  { rewrite poll_app. set (w' := poll p arg before (st, lg)) in *. cbn [poll]. rewrite Hp'.
    pose proof (triple_run ext _ _ _ (fst w') (snd w') (tick_ends ext Hc p arg Hdone) HT) as He.
    destruct (run (exec_page ext) (tick p arg) (fst w')) as [[st' tr] x].
    apply polling_false, He. }
  split; [done|].
  change (before ++ ext :: after)%list with (before ++ [ext] ++ after)%list.
  rewrite app_assoc, poll_app. by apply poll_over.
Qed.
End whole_poll.

(** A burn of the sample wallet is polled: the service fails once and then reports the release. *)
Definition release_reply (res : jsval) (o : pop) : result jsval :=
  match o with
  | Crylo name _ => if String.eqb name "bridgeReleaseStatus" then Ok res else Ok JUndef
  | _ => overlap "a" "0xa" 5 o
  end.
Definition service_down : pop -> result jsval :=
  release_reply (JObj [("ok", JBool false); ("error", JStr "down")]).
Definition release_done : pop -> result jsval :=
  release_reply (JObj [("ok", JBool true); ("released", JBool true);
                       ("release", JObj [("l1_tx_hash", JStr "h")])]).

Lemma release_reply_complete res : complete_page (release_reply res).
Proof. intros o. destruct o; cbn; eauto. Qed.

Definition sample_polled : world :=
  free_play [Begin OpenWallet; Begin (PollRelease (JStr "0x1")); Turns (overlap "a" "0xa" 5) 0 12;
             Turns (overlap "a" "0xa" 6) 1 10; Turns (overlap "a" "0xa" 7) 0 60].

Lemma bridge_polling_ends_witness :
  polling Release (snd (@poll plain_locale Release (JStr "0x1") [service_down]
                          (w_state sample_polled, w_log sample_polled))) = true /\
  polling Release (snd (@poll plain_locale Release (JStr "0x1") [service_down; release_done]
                          (w_state sample_polled, w_log sample_polled))) = false.
Proof.
  destruct (@bridge_polling_ends plain_locale Release (JStr "0x1") [service_down] [] release_done
              sample_polled) as (H1 & H2 & _).
  - apply play_runs. repeat constructor; apply overlap_env; discriminate.
  - vm_compute. reflexivity.
  - constructor; [vm_compute; reflexivity|constructor].
  - apply release_reply_complete.
  - vm_compute. reflexivity.
  - exact (conj H1 H2).
Defined.
