(* ===== verification/PageTypes.v ===== *)
(** * The page: types of the fields of [State] (electron/src/app.js)

    JavaScript does not check what is assigned to the fields of [State].  When the daemon and the
    wallet answer with the types their interfaces declare, every function of the page assigns
    values of the field's own type only, whatever the other functions do meanwhile and whatever
    is missing from an answer: the tests [!v] and [v || default] on the way are enough. *)

From Stdlib Require Import Ascii String.
From S2P Require Import Prelude JsNumber JsString JsConv JsVal Json Prog MainEnv Amounts Page PageWallet PageTx PageMining PageNexus PageBridge PageState PageConcurrency.

(** ** The types *)

Definition is_str (v : jsval) : bool := match v with JStr _ => true | _ => false end.
Definition is_bool (v : jsval) : bool := match v with JBool _ => true | _ => false end.
Definition is_num (v : jsval) : bool := match v with JNum _ => true | _ => false end.
Definition is_null (v : jsval) : bool := match v with JNull => true | _ => false end.
Definition is_undef (v : jsval) : bool := match v with JUndef => true | _ => false end.
(** The handle of an interval. *)
Definition is_timer (v : jsval) : bool := match v with JNum (Fin z) => negb (z =? 0) | _ => false end.

(** The fields of [State], and the three that the first assignment adds. *)
Definition State_types : list (string * (jsval -> bool)) :=
  [("ready", is_bool); ("walletOpen", is_bool); ("walletName", is_str); ("currentHeight", is_num);
   ("activeTab", is_str);
   ("refreshTimer", fun v => is_null v || is_timer v);
   ("blockPoller", fun v => is_null v || is_timer v);
   ("address", is_str); ("unlockedBalance", is_num); ("miningActive", is_bool);
   ("miningStatusTimer", fun v => is_null v || is_timer v);
   ("miningStartHeight", fun v => is_null v || is_num v);
   ("nexusAddress", fun v => is_undef v || is_str v);
   ("cryloBridgePollTimer", fun v => is_undef v || is_null v || is_timer v);
   ("bridgeReleasePollTimer", fun v => is_undef v || is_null v || is_timer v)].

(** Does the value have the field's type?  There are no other fields. *)
Definition type_ok (f : string) (v : jsval) : bool :=
  match List.find (fun '(g, _) => String.eqb f g) State_types with
  | Some (_, ok) => ok v
  | None => is_undef v
  end.

Definition well_typed : assertion := fun st _ => forall f, type_ok f (field st f) = true.

(** ** Typed answers

    The daemon's [height] is a number and the wallet's [address] a string (core_rpc_server and
    wallet_rpc_server declare them so), and a bound Nexus address is a string; each may be missing
    or empty.  Everything else in an answer may be anything, and a call may fail. *)
Definition str_or_falsy (v : jsval) : bool := is_str v || negb (truthy v).
Definition num_or_falsy (v : jsval) : bool := is_num v || negb (truthy v).

Record typed_replies (ext : pop -> result jsval) : Prop := {
  height_reply r : ext (Crylo "daemonRpc" [JStr "get_info"]) = Ok r ->
    num_or_falsy (get_opt (get_opt r "result") "height") = true;
  address_reply r : ext (Crylo "walletRpc" [JStr "get_address"; account0]) = Ok r ->
    str_or_falsy (get_opt (get_opt r "result") "address") = true;
  nexus_reply name args r : name = "nexusWalletLoad" \/ name = "nexusWalletCreate" ->
    ext (Crylo name args) = Ok r -> str_or_falsy (get_opt r "nexusAddress") = true
}.
Definition typed_env : environment := fun ext => page_env ext /\ typed_replies ext.

Lemma neutral_typed o :
  match o with SetState f v => type_ok f v = true | _ => True end -> neutral well_typed o.
Proof.
  intros Ho st lg r HI f. destruct o as [| |g v| | | | | | | | | | | | | | | | | | | | |]; try apply HI.
  cbn [set_by]. destruct (decide (g = f)) as [->|Hne]; [by rewrite field_insert_eq|].
  rewrite field_insert_ne by done. apply HI.
Qed.

Lemma timer_ok f z : (z =? 0) = false -> owned_field f = true -> type_ok f (JNum (Fin z)) = true.
Proof.
  intros Hz Hf. apply existsb_exists in Hf as ([g h] & Hin & E). apply String.eqb_eq in E as ->.
  cbn in Hin. repeat destruct Hin as [[= <- <-]|Hin]; try done;
    change (negb (z =? 0) = true); by rewrite Hz.
Qed.

Lemma js_or_str v : str_or_falsy v = true -> is_str (js_or v (JStr "")) = true.
Proof. unfold str_or_falsy, js_or. destruct (truthy v); [by rewrite orb_false_r|done]. Qed.
Lemma js_or_num v : num_or_falsy v = true -> is_num (js_or v (JNum (Fin 0))) = true.
Proof. unfold num_or_falsy, js_or. destruct (truthy v); [by rewrite orb_false_r|done]. Qed.
Lemma nexusAddress_type v : is_str v = true -> type_ok "nexusAddress" v = true.
Proof. by destruct v. Qed.
Lemma startHeight_type v : is_num v = true -> type_ok "miningStartHeight" v = true.
Proof. by destruct v. Qed.

(** What an answer says of a value read from it. *)
Lemma read_field r k v (P : jsval -> bool) : get r k = Ok v -> P (get_opt r k) = true -> P v = true.
Proof. unfold get_opt. by intros ->. Qed.
Lemma read_result r result k v (P : jsval -> bool) :
  get r "result" = Ok result -> get result k = Ok v ->
  P (get_opt (get_opt r "result") k) = true -> P v = true.
Proof. unfold get_opt. by intros -> ->. Qed.

Section types.
Context `{Locale}.

(** Steps whose answer is known to be a string, a handle or a typed reply. *)
Lemma safe_bind_value {B} id (k : jsval -> prog pop B) :
  (forall s, safe typed_env well_typed (k (JStr s))) ->
  safe typed_env well_typed (bind (call (Value id)) k).
Proof.
  intros Hk st lg HI. unfold call. cbn [bind rg glued]. split; [done|].
  intros st' lg' ext HI' [(_ & _ & Hv) _]. destruct (Hv id) as [s Hs].
  cbn [exec_page fst snd]. rewrite Hs. by apply Hk.
Qed.

Lemma safe_bind_every {B} f args ms (k : jsval -> prog pop B) :
  (forall z, (z =? 0) = false -> safe typed_env well_typed (k (JNum (Fin z)))) ->
  safe typed_env well_typed (bind (call (Every f args ms)) k).
Proof.
  intros Hk st lg HI. unfold call. cbn [bind rg glued]. intros ext [(_ & Ht & _) _].
  destruct (Ht f args ms) as (t & Et & z & -> & Hz%Z.eqb_neq).
  cbn [exec_page fst snd]. rewrite Et. by apply Hk.
Qed.

Lemma safe_bind_reply {B} name args (P : jsval -> bool) (k : jsval -> prog pop B) :
  (forall ext r, typed_env ext -> ext (Crylo name args) = Ok r -> P r = true) ->
  (forall r, P r = true -> safe typed_env well_typed (k r)) ->
  safe typed_env well_typed (bind (call (Crylo name args)) k).
Proof.
  intros HP Hk st lg HI. unfold call. cbn [bind rg glued]. split; [done|].
  intros st' lg' ext HI' Henv. cbn [exec_page fst snd].
  destruct (ext (Crylo name args)) as [r|e] eqn:E; cbn [lift bind]; [apply Hk; [by eapply HP|]|cbn [rg]];
    by apply (neutral_typed (Crylo name args) I).
Qed.

Definition info_ok (r : jsval) : bool := num_or_falsy (get_opt (get_opt r "result") "height").
Definition address_ok (r : jsval) : bool := str_or_falsy (get_opt (get_opt r "result") "address").
Definition nexus_ok (r : jsval) : bool := str_or_falsy (get_opt r "nexusAddress").

Lemma safe_bind_lift {A B} (r : result A) (k : A -> prog pop B) :
  (forall a, r = Ok a -> safe typed_env well_typed (k a)) ->
  safe typed_env well_typed (bind (lift r) k).
Proof. intros Hk. destruct r; cbn [lift bind]; [by apply Hk|apply safe_raise]. Qed.

(** A field's value, from the tests and the answers before it. *)
Ltac reply_type :=
  lazymatch goal with
  | Hr : info_ok ?r = true, E1 : get ?r "result" = Ok ?x, E2 : get ?x "height" = Ok ?v
    |- num_or_falsy ?v = true => exact (read_result r x "height" v _ E1 E2 Hr)
  | Hr : address_ok ?r = true, E1 : get ?r "result" = Ok ?x, E2 : get ?x "address" = Ok ?v
    |- str_or_falsy ?v = true => exact (read_result r x "address" v _ E1 E2 Hr)
  | Hr : nexus_ok ?r = true, E : get ?r "nexusAddress" = Ok ?v |- str_or_falsy ?v = true =>
      exact (read_field r "nexusAddress" v _ E Hr)
  | |- str_or_falsy (JStr _) = true => reflexivity
  | |- str_or_falsy JUndef = true => reflexivity
  end.

Lemma address_type v : truthy v = true -> str_or_falsy v = true -> type_ok "address" v = true.
Proof. unfold str_or_falsy. intros ->. by rewrite orb_false_r. Qed.

Lemma types_setNexusUi addr :
  str_or_falsy addr = true -> safe typed_env well_typed (setNexusUiAddress addr).
Proof.
  intros Ha. unfold setNexusUiAddress. apply safe_bind.
  - apply safe_call, neutral_typed. exact (nexusAddress_type _ (js_or_str addr Ha)).
  - intros _. assert (forall o, match o with SetState _ _ => False | _ => True end ->
                        safe typed_env well_typed (call o)) as Hshow.
    { intros o Ho. apply safe_call, neutral_typed. by destruct o. }
    unfold set_text_opt, set_prop_opt, set_prop, get_state.
    repeat first [ by apply Hshow | apply safe_bind; [|intros ?] | apply safe_ret
                 | match goal with |- safe _ _ (if truthy ?b then _ else _) => destruct (truthy b) end ].
Qed.

Ltac typed :=
  apply neutral_typed; try unfold consolidate_question; cbv beta iota;
  lazymatch goal with
  | |- type_ok "currentHeight" (or_zero ?v) = true => apply (js_or_num v); reply_type
  | |- type_ok "currentHeight" (js_or ?v _) = true => apply (js_or_num v); reply_type
  | |- type_ok "miningStartHeight" (or_zero ?v) = true =>
      apply startHeight_type, (js_or_num v); reply_type
  | E : truthy ?v = true |- type_ok "address" ?v = true => apply (address_type v E); reply_type
  | |- type_ok _ (JNum (Fin _)) = true => apply timer_ok; [assumption|reflexivity]
  | |- type_ok _ _ = true => reflexivity
  | |- True => exact I
  end.

Ltac types_step :=
  lazymatch goal with
  | |- safe _ _ (bind (call (Value _)) _) => apply safe_bind_value; intros ?
  | |- safe _ _ (bind (call (Every _ _ _)) _) => apply safe_bind_every; intros ? ?
  | |- safe _ _ (bind (crylo_call "daemonRpc" [JStr "get_info"]) _) =>
      apply (safe_bind_reply _ _ info_ok); [intros ext r Henv; apply (proj2 Henv)|intros ? ?]
  | |- safe _ _ (bind (walletRpc_call "get_address" account0 None) _) =>
      apply (safe_bind_reply _ _ address_ok); [intros ext r Henv; apply (proj2 Henv)|intros ? ?]
  | |- safe _ _ (bind (crylo_call "nexusWalletLoad" _) _) =>
      apply (safe_bind_reply _ _ nexus_ok); [intros ext r Henv; apply (proj2 Henv); by left|intros ? ?]
  | |- safe _ _ (bind (crylo_call "nexusWalletCreate" _) _) =>
      apply (safe_bind_reply _ _ nexus_ok); [intros ext r Henv; apply (proj2 Henv); by right|intros ? ?]
  | |- safe _ _ (bind (lift (if truthy ?v then _ else _)) _) =>
      let E := fresh "E" in destruct (truthy v) eqn:E; cbn [andb]
  | |- safe _ _ (bind (lift _) _) => apply safe_bind_lift; intros ? ?
  | |- safe _ _ (bind _ _) => apply safe_bind; [|intros ?]
  | |- safe _ _ (try_catch _ _) => apply safe_try; [|intros ?]
  | |- safe _ _ (lift _) => apply safe_lift
  | |- safe _ _ (Ret _) => apply safe_ret
  | |- safe _ _ (Raise _) => apply safe_raise
  | |- safe _ _ (call _) => apply safe_call; typed
  | |- safe _ _ (mapM _ _) => apply safe_mapM; intros ?
  | |- safe _ _ (setNexusUiAddress _) => apply types_setNexusUi; reply_type
  | |- safe _ _ (if negb (truthy ?v) then _ else _) =>
      let E := fresh "E" in destruct (truthy v) eqn:E; cbn [negb]
  | |- safe _ _ (if ?b then _ else _) => destruct b
  | |- safe _ _ (match ?x with _ => _ end) => destruct x
  | |- safe _ _ ?p => first [progress cbv beta zeta | let h := head_of p in progress unfold h]
  end.
Ltac walk_types := repeat first [solve [auto 2 with page_inv nocore] | types_step].

Lemma types_ensureAddress : safe typed_env well_typed ensureCryLoAddressLoaded.
Proof. walk_types. Qed.
#[local] Hint Resolve types_ensureAddress : page_inv.
Lemma types_refreshGas : safe typed_env well_typed refreshNexusGasStatus.
Proof. walk_types. Qed.
Lemma types_refreshWcrylo : safe typed_env well_typed refreshNexusWcryloBalance.
Proof. walk_types. Qed.
Lemma types_openMain : safe typed_env well_typed openMainScreen.
Proof. walk_types. Qed.
Lemma types_refreshAll : safe typed_env well_typed refreshAll.
Proof. walk_types. Qed.
#[local] Hint Resolve types_refreshGas types_refreshWcrylo types_openMain types_refreshAll : page_inv.
Lemma types_loadSaved : safe typed_env well_typed loadSavedNexusLinkedAddress.
Proof. walk_types. Qed.
#[local] Hint Resolve types_loadSaved : page_inv.
Lemma types_deposits na n i chunks sent : safe typed_env well_typed (send_deposits na n i chunks sent).
Proof.
  revert i sent. induction chunks as [|c chunks IH]; intros i sent; cbn [send_deposits]; [walk_types|].
  apply safe_bind; [|intros sent'; apply IH]. walk_types.
Qed.
Lemma types_ensureGas label gas : safe typed_env well_typed (ensureNexusGasForAction label gas).
Proof. walk_types. Qed.
Lemma types_loadAddress : safe typed_env well_typed loadAddress.
Proof. walk_types. Qed.
Lemma types_updateBalance : safe typed_env well_typed updateBalance.
Proof. walk_types. Qed.
#[local] Hint Resolve types_deposits types_ensureGas types_loadAddress types_updateBalance : page_inv.

Lemma safe_types a : safe typed_env well_typed (program a).
Proof. destruct a; cbn [program]; walk_types. Qed.
End types.

Lemma initial_typed : well_typed initial_State [].
Proof.
  intros f. unfold type_ok. destruct (List.find _ State_types) as [[g ok]|] eqn:E.
  - apply find_some in E as [Hin Hf%String.eqb_eq]. subst g. cbn in Hin.
    repeat destruct Hin as [[= <- <-]|Hin]; try (vm_compute; reflexivity). destruct Hin.
  - assert (field initial_State f = JUndef) as ->; [|done].
    refine (f_equal (default JUndef) (not_elem_of_list_to_map_1 (M := gmap string) _ f _)).
    intros Hin%list_elem_of_In. cbn in Hin.
    repeat destruct Hin as [<-|Hin]; try (vm_compute in E; discriminate E). destruct Hin.
Qed.

(** C12 (type). The fields of [State] keep their types: in every state reached by functions of the
    page that overlap in any way, when the daemon's height is a number and the wallet's address and
    the bound Nexus address are strings wherever an answer has them, and everything else is
    answered in any way, the flags are booleans; the wallet name, the active tab and the wallet's
    address are strings; the height and the balance are numbers; the mining start height is null or
    a number; the handles of the refresh, block and mining intervals are null or positive; the
    Nexus address is unset or a string, the bridge's two handles are unset, null or positive; and
    [State] has no other fields. *)
Theorem State_well_typed `{Locale} (w : world) (f : string) :
  runs typed_env (fun _ => false) w -> type_ok f (field (w_state w) f) = true.
Proof. intros Hr. exact (runs_invariant _ _ well_typed w initial_typed safe_types Hr f). Qed.

(** The schedule of two wallets that are opened at the same time; the sync status is read too. *)
Definition sample_reads (wallet : string) (h : Z) (o : pop) : result jsval :=
  match o with
  | Crylo name _ =>
      if String.eqb name "daemonRpc" then
        Ok (JObj [("ok", JBool true); ("result", JObj [("height", JNum (Num.of_Z 12))])])
      else overlap wallet "0xa" h o
  | _ => overlap wallet "0xa" h o
  end.

Lemma sample_reads_typed wallet h : h <> 0 -> typed_env (sample_reads wallet h).
Proof.
  intros Hh. split.
  - destruct (overlap_env wallet "0xa" h Hh) as (Hc & Ht & Hv). split_and!; [|exact Ht|exact Hv].
    intros o. specialize (Hc o). by destruct o.
  - constructor; [intros r [= <-]; reflexivity|intros r [= <-]; reflexivity|].
    intros name args r [->| ->] [= <-]; reflexivity.
Qed.

Definition sample_typed : world :=
  free_play [Begin OpenWallet; Begin UpdateSyncStatus; Turns (sample_reads "a" 5) 0 12;
             Turns (sample_reads "a" 6) 1 10; Turns (sample_reads "a" 7) 0 60].

Lemma State_well_typed_witness :
  field (w_state sample_typed) "currentHeight" = JNum (Num.of_Z 12) /\
  type_ok "currentHeight" (field (w_state sample_typed) "currentHeight") = true /\
  type_ok "refreshTimer" (field (w_state sample_typed) "refreshTimer") = true.
Proof.
  assert (@runs plain_locale typed_env (fun _ => false) sample_typed) as Hr.
  { apply play_runs. repeat constructor; apply sample_reads_typed; discriminate. }
  split; [vm_compute; reflexivity|].
  exact (conj (@State_well_typed plain_locale sample_typed "currentHeight" Hr)
              (@State_well_typed plain_locale sample_typed "refreshTimer" Hr)).
Defined.
